(** * The AG-UI event-stream hook [useAGUIStream]

    A shallow embedding of
    [components/frontend/src/hooks/use-agui-stream.ts] and of the types it
    uses from [components/frontend/src/types/agui.ts]: the conversation
    reducer [processEvent], the snapshot normaliser
    [normalizeSnapshotMessages], the channel manager ([connect], its
    [onopen] and [onerror] handlers, [disconnect]) and the run controller
    ([sendMessage]).

    Conventions of the embedding.
    - A JavaScript [Map] is an association list in insertion order
      ([JSMap]); its iteration order is observable in the source.
    - A JavaScript [Set] of strings is a [gset string]; only membership,
      insertion and emptiness are used by the source.
    - An optional field ([f?: string], [string | null]) is an [option];
      a field the TypeScript types declare as a plain [string] is a [string],
      an absent one reading as the empty string (both are falsy).
    - React state and refs live in one record [Hook]; [setState] updaters are
      applied at once.  Callbacks and I/O requests are appended to a log.
    - [crypto.randomUUID()] draws the next element of an arbitrary sequence
      [uuid : nat -> string].
    - Objects are values.  The one place where the source mutates objects
      that are reachable from two results of the same transition (the tool
      calls of a snapshot message matched by several known messages) is
      modelled with an explicit store, see [mergeExisting]. *)

From Stdlib Require Import ZArith Lia Ascii.
From stdpp Require Import base gmap strings list pretty.

Open Scope string_scope.
Open Scope list_scope.

(** ** JavaScript values *)

Module JS.

(** Truthiness of a string: every string but the empty one. *)
Definition truthy (s : string) : bool := bool_decide (s ≠ EmptyString).

(** Truthiness of [string | undefined | null]. *)
Definition truthyO (o : option string) : bool :=
  match o with
  | Some s => truthy s
  | None => false
  end.

(** [a || b] where both sides are optional strings. *)
Definition orO (a b : option string) : option string :=
  if truthyO a then a else b.

(** [a || s] where the right-hand side is a string literal or a string. *)
Definition orS (a : option string) (s : string) : string :=
  match a with
  | Some x => if truthy x then x else s
  | None => s
  end.

(** [Array.prototype.findIndex]. *)
Fixpoint findIndex {A} (f : A → bool) (l : list A) : option nat :=
  match l with
  | [] => None
  | x :: l' => if f x then Some 0 else S <$> findIndex f l'
  end.

(** The index reached first by a loop [for (i = length - 1; i >= 0; i--)]
    that stops at the first element satisfying [f]. *)
Fixpoint findLastIndex {A} (f : A → bool) (l : list A) : option nat :=
  match l with
  | [] => None
  | x :: l' =>
      match findLastIndex f l' with
      | Some i => Some (S i)
      | None => if f x then Some 0 else None
      end
  end.

(** [Array.prototype.find]. *)
Definition find {A} (f : A → bool) (l : list A) : option A :=
  List.find f l.

(** [Array.prototype.some]. *)
Definition some {A} (f : A → bool) (l : list A) : bool := existsb f l.

(** [arr.splice(idx, 0, x)] for [idx <= arr.length]. *)
Definition spliceIn {A} (idx : nat) (x : A) (l : list A) : list A :=
  take idx l ++ x :: drop idx l.

(** [String(n)] for an integer [n]. *)
Definition stringOfZ (z : Z) : string := pretty z.

End JS.

(** ** [Map<string, V>] in insertion order *)

Module JSMap.

Definition t (V : Type) : Type := list (string * V).

Definition empty {V} : t V := [].

Definition get {V} (k : string) (m : t V) : option V :=
  snd <$> List.find (λ p, bool_decide (p.1 = k)) m.

Definition has {V} (k : string) (m : t V) : bool :=
  existsb (λ p, bool_decide (p.1 = k)) m.

(** [set] keeps the position of a key that is present and appends a new key. *)
Fixpoint set {V} (k : string) (v : V) (m : t V) : t V :=
  match m with
  | [] => [(k, v)]
  | (k', v') :: m' =>
      if bool_decide (k' = k) then (k, v) :: m' else (k', v') :: set k v m'
  end.

Definition delete {V} (k : string) (m : t V) : t V :=
  List.filter (λ p, negb (bool_decide (p.1 = k))) m.

Definition size {V} (m : t V) : nat := length m.

End JSMap.

(** ** Data model ([types/agui.ts]) *)

Inductive ToolStatus := StPending | StRunning | StCompleted | StError.

Record FunctionCall := {
  fn_name : string;
  fn_arguments : string;
}.

(** [PlatformToolCall]; [type] is always ['function'], and [error] and
    [duration] are never read or written by the hook. *)
Record PlatformToolCall := {
  tc_id : string;
  tc_function : FunctionCall;
  tc_result : option string;
  tc_status : option ToolStatus;
  tc_parentToolUseId : option string;
}.

Record Metadata := {
  md_type : string;
  md_thinking : option string;
  md_signature : option string;
}.

(** [PlatformMessage]; [children] is never read or written by the hook. *)
Record PlatformMessage := {
  msg_id : string;
  msg_role : string;
  msg_content : option string;
  msg_timestamp : option string;
  msg_metadata : option Metadata;
  msg_name : option string;
  msg_toolCalls : option (list PlatformToolCall);
  msg_toolCallId : option string;
  msg_parentToolUseId : option string;
}.

Record PlatformActivity := {
  act_id : string;
  act_type : string;
  act_title : option string;
  act_status : option ToolStatus;
  act_progress : option Z;
}.

Inductive PatchOp := OpAdd | OpUpdate | OpRemove.

Record PlatformActivityPatch := {
  ap_op : PatchOp;
  ap_activity : PlatformActivity;
}.

Record PendingToolCall := {
  pt_id : string;
  pt_name : string;
  pt_args : string;
  pt_parentToolUseId : option string;
  pt_parentMessageId : option string;
  pt_timestamp : option string;
}.

Inductive MessageFeedback := thumbs_up | thumbs_down.

Inductive ClientStatus := idle | connecting | connected | error_status | completed.

Record CurrentMessage := {
  cm_id : option string;
  cm_role : option string;
  cm_content : string;
  cm_timestamp : option string;
}.

Record CurrentToolCall := {
  ct_id : option string;
  ct_name : option string;
  ct_args : string;
  ct_parentToolUseId : option string;
}.

(** Values of the free-form [state] record. *)
Inductive JValue :=
  | JNull
  | JBool (b : bool)
  | JNum (z : Z)
  | JStr (s : string)
  | JStep (id name status : string).

(** [AGUIClientState]. *)
Record AGUIClientState := {
  threadId : option string;
  runId : option string;
  status : ClientStatus;
  messages : list PlatformMessage;
  state : JSMap.t JValue;
  activities : list PlatformActivity;
  currentMessage : option CurrentMessage;
  currentToolCall : option CurrentToolCall;
  pendingToolCalls : JSMap.t PendingToolCall;
  pendingChildren : JSMap.t (list PlatformMessage);
  error : option string;
  messageFeedback : JSMap.t MessageFeedback;
}.

Definition initialState : AGUIClientState := {|
  threadId := None;
  runId := None;
  status := idle;
  messages := [];
  state := JSMap.empty;
  activities := [];
  currentMessage := None;
  currentToolCall := None;
  pendingToolCalls := JSMap.empty;
  pendingChildren := JSMap.empty;
  error := None;
  messageFeedback := JSMap.empty;
|}.

(** ** Events *)

Record StatePatch := {
  sp_op : string;
  sp_path : string;
  sp_value : JValue;
}.

(** The payload of a [RAW] event ([event.event || event.data]). *)
Record RawData := {
  rd_type : option string;
  rd_hidden : bool;
  rd_messageId : option string;
  rd_traceId : option string;
  rd_thinking : option string;
  rd_signature : option string;
  rd_role : option string;
  rd_content : option string;
  rd_id : option string;
}.

(** The properties an event carries besides [type] and [timestamp]. *)
Inductive EventBody :=
  | BNone
  | BRun (threadId runId : string)
  | BRunError (message : string)
  | BText (messageId : string) (role : option string) (delta : string)
  | BTool (toolCallId toolCallName : string)
      (parentMessageId parent_tool_call_id : option string)
      (delta content : string)
  | BStateSnapshot (snapshot : JSMap.t JValue)
  | BStateDelta (delta : list StatePatch)
  | BMessages (messages : list PlatformMessage)
  | BActivities (activities : option (list PlatformActivity))
  | BActivityDelta (delta : option (list PlatformActivityPatch))
  | BStep (stepName : string)
  | BRaw (event data : option RawData)
  | BMeta (metaType : string) (messageId : option string).

(** An event envelope: the [type] discriminator is an arbitrary string. *)
Record PlatformEvent := {
  ev_type : string;
  ev_timestamp : option Z;
  ev_body : EventBody;
}.

(** The members of [EventType] of [@ag-ui/core] that the hook tests for;
    the value of each member is its own name. *)
Module EventType.
Definition RUN_STARTED := "RUN_STARTED".
Definition RUN_FINISHED := "RUN_FINISHED".
Definition RUN_ERROR := "RUN_ERROR".
Definition TEXT_MESSAGE_START := "TEXT_MESSAGE_START".
Definition TEXT_MESSAGE_CONTENT := "TEXT_MESSAGE_CONTENT".
Definition TEXT_MESSAGE_END := "TEXT_MESSAGE_END".
Definition TOOL_CALL_START := "TOOL_CALL_START".
Definition TOOL_CALL_ARGS := "TOOL_CALL_ARGS".
Definition TOOL_CALL_END := "TOOL_CALL_END".
Definition TOOL_CALL_RESULT := "TOOL_CALL_RESULT".
Definition STATE_SNAPSHOT := "STATE_SNAPSHOT".
Definition STATE_DELTA := "STATE_DELTA".
Definition MESSAGES_SNAPSHOT := "MESSAGES_SNAPSHOT".
Definition ACTIVITY_SNAPSHOT := "ACTIVITY_SNAPSHOT".
Definition ACTIVITY_DELTA := "ACTIVITY_DELTA".
Definition STEP_STARTED := "STEP_STARTED".
Definition STEP_FINISHED := "STEP_FINISHED".
Definition RAW := "RAW".
Definition META := "META".
End EventType.

(** Property reads on an event; a property the body lacks reads as the empty
    string, [None] or the empty list. *)
Definition ev_threadId (e : PlatformEvent) : string :=
  match ev_body e with BRun t _ => t | _ => EmptyString end.
Definition ev_runId (e : PlatformEvent) : string :=
  match ev_body e with BRun _ r => r | _ => EmptyString end.
Definition ev_message (e : PlatformEvent) : string :=
  match ev_body e with BRunError m => m | _ => EmptyString end.
Definition ev_messageId (e : PlatformEvent) : string :=
  match ev_body e with BText m _ _ => m | _ => EmptyString end.
Definition ev_role (e : PlatformEvent) : option string :=
  match ev_body e with BText _ r _ => r | _ => None end.
Definition ev_textDelta (e : PlatformEvent) : string :=
  match ev_body e with BText _ _ d => d | _ => EmptyString end.
Definition ev_toolCallId (e : PlatformEvent) : string :=
  match ev_body e with BTool i _ _ _ _ _ => i | _ => EmptyString end.
Definition ev_toolCallName (e : PlatformEvent) : string :=
  match ev_body e with BTool _ n _ _ _ _ => n | _ => EmptyString end.
Definition ev_parentMessageId (e : PlatformEvent) : option string :=
  match ev_body e with BTool _ _ p _ _ _ => p | _ => None end.
Definition ev_parent_tool_call_id (e : PlatformEvent) : option string :=
  match ev_body e with BTool _ _ _ p _ _ => p | _ => None end.
Definition ev_argsDelta (e : PlatformEvent) : string :=
  match ev_body e with BTool _ _ _ _ d _ => d | _ => EmptyString end.
Definition ev_content (e : PlatformEvent) : string :=
  match ev_body e with BTool _ _ _ _ _ c => c | _ => EmptyString end.
Definition ev_snapshot (e : PlatformEvent) : JSMap.t JValue :=
  match ev_body e with BStateSnapshot s => s | _ => JSMap.empty end.
Definition ev_stateDelta (e : PlatformEvent) : list StatePatch :=
  match ev_body e with BStateDelta d => d | _ => [] end.
Definition ev_messages (e : PlatformEvent) : list PlatformMessage :=
  match ev_body e with BMessages ms => ms | _ => [] end.
Definition ev_activities (e : PlatformEvent) : option (list PlatformActivity) :=
  match ev_body e with BActivities a => a | _ => None end.
Definition ev_activityDelta (e : PlatformEvent) : option (list PlatformActivityPatch) :=
  match ev_body e with BActivityDelta d => d | _ => None end.
Definition ev_stepName (e : PlatformEvent) : string :=
  match ev_body e with BStep n => n | _ => EmptyString end.
Definition ev_rawData (e : PlatformEvent) : option RawData :=
  match ev_body e with
  | BRaw (Some d) _ => Some d
  | BRaw None d => d
  | _ => None
  end.
Definition ev_metaType (e : PlatformEvent) : string :=
  match ev_body e with BMeta t _ => t | _ => EmptyString end.
Definition ev_payloadMessageId (e : PlatformEvent) : option string :=
  match ev_body e with BMeta _ m => m | _ => None end.

(** [String(event.timestamp ?? '')]. *)
Definition timestampString (e : PlatformEvent) : string :=
  match ev_timestamp e with
  | Some z => JS.stringOfZ z
  | None => EmptyString
  end.

(** ** Object construction and spread updates *)

(** A message object that only has [id], [role] and [content]. *)
Definition mkMessage (id role : string) (content : option string) : PlatformMessage := {|
  msg_id := id; msg_role := role; msg_content := content;
  msg_timestamp := None; msg_metadata := None; msg_name := None;
  msg_toolCalls := None; msg_toolCallId := None; msg_parentToolUseId := None |}.

Definition msg_set_content v (m : PlatformMessage) : PlatformMessage := {|
  msg_id := msg_id m; msg_role := msg_role m; msg_content := v;
  msg_timestamp := msg_timestamp m; msg_metadata := msg_metadata m;
  msg_name := msg_name m; msg_toolCalls := msg_toolCalls m;
  msg_toolCallId := msg_toolCallId m;
  msg_parentToolUseId := msg_parentToolUseId m |}.

Definition msg_set_timestamp v (m : PlatformMessage) : PlatformMessage := {|
  msg_id := msg_id m; msg_role := msg_role m; msg_content := msg_content m;
  msg_timestamp := v; msg_metadata := msg_metadata m;
  msg_name := msg_name m; msg_toolCalls := msg_toolCalls m;
  msg_toolCallId := msg_toolCallId m;
  msg_parentToolUseId := msg_parentToolUseId m |}.

Definition msg_set_metadata v (m : PlatformMessage) : PlatformMessage := {|
  msg_id := msg_id m; msg_role := msg_role m; msg_content := msg_content m;
  msg_timestamp := msg_timestamp m; msg_metadata := v;
  msg_name := msg_name m; msg_toolCalls := msg_toolCalls m;
  msg_toolCallId := msg_toolCallId m;
  msg_parentToolUseId := msg_parentToolUseId m |}.

Definition msg_set_toolCalls v (m : PlatformMessage) : PlatformMessage := {|
  msg_id := msg_id m; msg_role := msg_role m; msg_content := msg_content m;
  msg_timestamp := msg_timestamp m; msg_metadata := msg_metadata m;
  msg_name := msg_name m; msg_toolCalls := v;
  msg_toolCallId := msg_toolCallId m;
  msg_parentToolUseId := msg_parentToolUseId m |}.

Definition msg_set_toolCallId v (m : PlatformMessage) : PlatformMessage := {|
  msg_id := msg_id m; msg_role := msg_role m; msg_content := msg_content m;
  msg_timestamp := msg_timestamp m; msg_metadata := msg_metadata m;
  msg_name := msg_name m; msg_toolCalls := msg_toolCalls m;
  msg_toolCallId := v;
  msg_parentToolUseId := msg_parentToolUseId m |}.

Definition tc_set_function v (tc : PlatformToolCall) : PlatformToolCall := {|
  tc_id := tc_id tc; tc_function := v; tc_result := tc_result tc;
  tc_status := tc_status tc; tc_parentToolUseId := tc_parentToolUseId tc |}.

Definition tc_set_result v (tc : PlatformToolCall) : PlatformToolCall := {|
  tc_id := tc_id tc; tc_function := tc_function tc; tc_result := v;
  tc_status := tc_status tc; tc_parentToolUseId := tc_parentToolUseId tc |}.

Definition tc_set_status v (tc : PlatformToolCall) : PlatformToolCall := {|
  tc_id := tc_id tc; tc_function := tc_function tc; tc_result := tc_result tc;
  tc_status := v; tc_parentToolUseId := tc_parentToolUseId tc |}.

Definition tc_set_parentToolUseId v (tc : PlatformToolCall) : PlatformToolCall := {|
  tc_id := tc_id tc; tc_function := tc_function tc; tc_result := tc_result tc;
  tc_status := tc_status tc; tc_parentToolUseId := v |}.

Definition fn_set_name v (f : FunctionCall) : FunctionCall :=
  {| fn_name := v; fn_arguments := fn_arguments f |}.

Definition fn_set_arguments v (f : FunctionCall) : FunctionCall :=
  {| fn_name := fn_name f; fn_arguments := v |}.

(** [tcs.some(tc => tc.id === id)]. *)
Definition hasToolCall (id : string) (tcs : list PlatformToolCall) : bool :=
  JS.some (λ tc, bool_decide (tc_id tc = id)) tcs.

(** [msg.toolCalls?.some(tc => tc.id === id)]. *)
Definition msgHasToolCall (id : string) (m : PlatformMessage) : bool :=
  match msg_toolCalls m with
  | Some tcs => hasToolCall id tcs
  | None => false
  end.

(** [msg.toolCalls || []]. *)
Definition toolCallsOf (m : PlatformMessage) : list PlatformToolCall :=
  default [] (msg_toolCalls m).

(** ** The hook: React state, refs and the log of callbacks and requests *)

(** An [EventSource] object together with the [runId] its handlers close
    over. *)
Record EventSource := {
  es_handle : nat;
  es_runId : option string;
}.

(** A timer created by [setTimeout] in [onerror]. *)
Record Timer := {
  tm_handle : nat;
  tm_delay : Z;
  tm_runId : option string;
}.

Inductive Effect :=
  | OnEvent (type : string)
  | OnMessage (msg : PlatformMessage)
  | OnError (message : string)
  | OnTraceId (traceId : string)
  | OnConnected
  | OnDisconnected
  | NewEventSource (es : EventSource)
  | CloseEventSource (handle : nat)
  | SetTimeout (tm : Timer)
  | ClearTimeout (handle : nat)
  | FetchRun (threadId : string) (parentRunId : option string)
      (id content : string)
  | FetchInterrupt (runId : string)
  | ConsoleWarn (text : string).

Record Hook := {
  hk_state : AGUIClientState;
  isRunActive : bool;
  hiddenMessageIdsRef : gset string;
  currentRunIdRef : option string;
  eventSourceRef : option EventSource;
  reconnectTimeoutRef : option Timer;
  reconnectAttemptsRef : nat;
  mountedRef : bool;
  (** number of [crypto.randomUUID()] draws so far *)
  uuidCount : nat;
  (** number of [EventSource] and timer objects created so far *)
  handleCount : nat;
  effects : list Effect;
}.

Definition initialHook : Hook := {|
  hk_state := initialState;
  isRunActive := false;
  hiddenMessageIdsRef := ∅;
  currentRunIdRef := None;
  eventSourceRef := None;
  reconnectTimeoutRef := None;
  reconnectAttemptsRef := 0;
  mountedRef := false;
  uuidCount := 0;
  handleCount := 0;
  effects := [];
|}.

(** *** Field updates *)

Definition set_threadId v (s : AGUIClientState) : AGUIClientState := {|
  threadId := v; runId := runId s; status := status s;
  messages := messages s; state := state s; activities := activities s;
  currentMessage := currentMessage s; currentToolCall := currentToolCall s;
  pendingToolCalls := pendingToolCalls s;
  pendingChildren := pendingChildren s; error := error s;
  messageFeedback := messageFeedback s |}.
Definition set_runId v (s : AGUIClientState) : AGUIClientState := {|
  threadId := threadId s; runId := v; status := status s;
  messages := messages s; state := state s; activities := activities s;
  currentMessage := currentMessage s; currentToolCall := currentToolCall s;
  pendingToolCalls := pendingToolCalls s;
  pendingChildren := pendingChildren s; error := error s;
  messageFeedback := messageFeedback s |}.
Definition set_status v (s : AGUIClientState) : AGUIClientState := {|
  threadId := threadId s; runId := runId s; status := v;
  messages := messages s; state := state s; activities := activities s;
  currentMessage := currentMessage s; currentToolCall := currentToolCall s;
  pendingToolCalls := pendingToolCalls s;
  pendingChildren := pendingChildren s; error := error s;
  messageFeedback := messageFeedback s |}.
Definition set_messages v (s : AGUIClientState) : AGUIClientState := {|
  threadId := threadId s; runId := runId s; status := status s;
  messages := v; state := state s; activities := activities s;
  currentMessage := currentMessage s; currentToolCall := currentToolCall s;
  pendingToolCalls := pendingToolCalls s;
  pendingChildren := pendingChildren s; error := error s;
  messageFeedback := messageFeedback s |}.
Definition set_state v (s : AGUIClientState) : AGUIClientState := {|
  threadId := threadId s; runId := runId s; status := status s;
  messages := messages s; state := v; activities := activities s;
  currentMessage := currentMessage s; currentToolCall := currentToolCall s;
  pendingToolCalls := pendingToolCalls s;
  pendingChildren := pendingChildren s; error := error s;
  messageFeedback := messageFeedback s |}.
Definition set_activities v (s : AGUIClientState) : AGUIClientState := {|
  threadId := threadId s; runId := runId s; status := status s;
  messages := messages s; state := state s; activities := v;
  currentMessage := currentMessage s; currentToolCall := currentToolCall s;
  pendingToolCalls := pendingToolCalls s;
  pendingChildren := pendingChildren s; error := error s;
  messageFeedback := messageFeedback s |}.
Definition set_currentMessage v (s : AGUIClientState) : AGUIClientState := {|
  threadId := threadId s; runId := runId s; status := status s;
  messages := messages s; state := state s; activities := activities s;
  currentMessage := v; currentToolCall := currentToolCall s;
  pendingToolCalls := pendingToolCalls s;
  pendingChildren := pendingChildren s; error := error s;
  messageFeedback := messageFeedback s |}.
Definition set_currentToolCall v (s : AGUIClientState) : AGUIClientState := {|
  threadId := threadId s; runId := runId s; status := status s;
  messages := messages s; state := state s; activities := activities s;
  currentMessage := currentMessage s; currentToolCall := v;
  pendingToolCalls := pendingToolCalls s;
  pendingChildren := pendingChildren s; error := error s;
  messageFeedback := messageFeedback s |}.
Definition set_pendingToolCalls v (s : AGUIClientState) : AGUIClientState := {|
  threadId := threadId s; runId := runId s; status := status s;
  messages := messages s; state := state s; activities := activities s;
  currentMessage := currentMessage s; currentToolCall := currentToolCall s;
  pendingToolCalls := v; pendingChildren := pendingChildren s;
  error := error s; messageFeedback := messageFeedback s |}.
Definition set_pendingChildren v (s : AGUIClientState) : AGUIClientState := {|
  threadId := threadId s; runId := runId s; status := status s;
  messages := messages s; state := state s; activities := activities s;
  currentMessage := currentMessage s; currentToolCall := currentToolCall s;
  pendingToolCalls := pendingToolCalls s; pendingChildren := v;
  error := error s; messageFeedback := messageFeedback s |}.
Definition set_error v (s : AGUIClientState) : AGUIClientState := {|
  threadId := threadId s; runId := runId s; status := status s;
  messages := messages s; state := state s; activities := activities s;
  currentMessage := currentMessage s; currentToolCall := currentToolCall s;
  pendingToolCalls := pendingToolCalls s;
  pendingChildren := pendingChildren s; error := v;
  messageFeedback := messageFeedback s |}.
Definition set_messageFeedback v (s : AGUIClientState) : AGUIClientState := {|
  threadId := threadId s; runId := runId s; status := status s;
  messages := messages s; state := state s; activities := activities s;
  currentMessage := currentMessage s; currentToolCall := currentToolCall s;
  pendingToolCalls := pendingToolCalls s;
  pendingChildren := pendingChildren s; error := error s;
  messageFeedback := v |}.

Definition set_hk_state v (s : Hook) : Hook := {|
  hk_state := v; isRunActive := isRunActive s;
  hiddenMessageIdsRef := hiddenMessageIdsRef s;
  currentRunIdRef := currentRunIdRef s; eventSourceRef := eventSourceRef s;
  reconnectTimeoutRef := reconnectTimeoutRef s;
  reconnectAttemptsRef := reconnectAttemptsRef s; mountedRef := mountedRef s;
  uuidCount := uuidCount s; handleCount := handleCount s;
  effects := effects s |}.
Definition set_isRunActive v (s : Hook) : Hook := {|
  hk_state := hk_state s; isRunActive := v;
  hiddenMessageIdsRef := hiddenMessageIdsRef s;
  currentRunIdRef := currentRunIdRef s; eventSourceRef := eventSourceRef s;
  reconnectTimeoutRef := reconnectTimeoutRef s;
  reconnectAttemptsRef := reconnectAttemptsRef s; mountedRef := mountedRef s;
  uuidCount := uuidCount s; handleCount := handleCount s;
  effects := effects s |}.
Definition set_hiddenMessageIdsRef v (s : Hook) : Hook := {|
  hk_state := hk_state s; isRunActive := isRunActive s;
  hiddenMessageIdsRef := v; currentRunIdRef := currentRunIdRef s;
  eventSourceRef := eventSourceRef s;
  reconnectTimeoutRef := reconnectTimeoutRef s;
  reconnectAttemptsRef := reconnectAttemptsRef s; mountedRef := mountedRef s;
  uuidCount := uuidCount s; handleCount := handleCount s;
  effects := effects s |}.
Definition set_currentRunIdRef v (s : Hook) : Hook := {|
  hk_state := hk_state s; isRunActive := isRunActive s;
  hiddenMessageIdsRef := hiddenMessageIdsRef s; currentRunIdRef := v;
  eventSourceRef := eventSourceRef s;
  reconnectTimeoutRef := reconnectTimeoutRef s;
  reconnectAttemptsRef := reconnectAttemptsRef s; mountedRef := mountedRef s;
  uuidCount := uuidCount s; handleCount := handleCount s;
  effects := effects s |}.
Definition set_eventSourceRef v (s : Hook) : Hook := {|
  hk_state := hk_state s; isRunActive := isRunActive s;
  hiddenMessageIdsRef := hiddenMessageIdsRef s;
  currentRunIdRef := currentRunIdRef s; eventSourceRef := v;
  reconnectTimeoutRef := reconnectTimeoutRef s;
  reconnectAttemptsRef := reconnectAttemptsRef s; mountedRef := mountedRef s;
  uuidCount := uuidCount s; handleCount := handleCount s;
  effects := effects s |}.
Definition set_reconnectTimeoutRef v (s : Hook) : Hook := {|
  hk_state := hk_state s; isRunActive := isRunActive s;
  hiddenMessageIdsRef := hiddenMessageIdsRef s;
  currentRunIdRef := currentRunIdRef s; eventSourceRef := eventSourceRef s;
  reconnectTimeoutRef := v; reconnectAttemptsRef := reconnectAttemptsRef s;
  mountedRef := mountedRef s; uuidCount := uuidCount s;
  handleCount := handleCount s; effects := effects s |}.
Definition set_reconnectAttemptsRef v (s : Hook) : Hook := {|
  hk_state := hk_state s; isRunActive := isRunActive s;
  hiddenMessageIdsRef := hiddenMessageIdsRef s;
  currentRunIdRef := currentRunIdRef s; eventSourceRef := eventSourceRef s;
  reconnectTimeoutRef := reconnectTimeoutRef s; reconnectAttemptsRef := v;
  mountedRef := mountedRef s; uuidCount := uuidCount s;
  handleCount := handleCount s; effects := effects s |}.
Definition set_mountedRef v (s : Hook) : Hook := {|
  hk_state := hk_state s; isRunActive := isRunActive s;
  hiddenMessageIdsRef := hiddenMessageIdsRef s;
  currentRunIdRef := currentRunIdRef s; eventSourceRef := eventSourceRef s;
  reconnectTimeoutRef := reconnectTimeoutRef s;
  reconnectAttemptsRef := reconnectAttemptsRef s; mountedRef := v;
  uuidCount := uuidCount s; handleCount := handleCount s;
  effects := effects s |}.
Definition set_uuidCount v (s : Hook) : Hook := {|
  hk_state := hk_state s; isRunActive := isRunActive s;
  hiddenMessageIdsRef := hiddenMessageIdsRef s;
  currentRunIdRef := currentRunIdRef s; eventSourceRef := eventSourceRef s;
  reconnectTimeoutRef := reconnectTimeoutRef s;
  reconnectAttemptsRef := reconnectAttemptsRef s; mountedRef := mountedRef s;
  uuidCount := v; handleCount := handleCount s; effects := effects s |}.
Definition set_handleCount v (s : Hook) : Hook := {|
  hk_state := hk_state s; isRunActive := isRunActive s;
  hiddenMessageIdsRef := hiddenMessageIdsRef s;
  currentRunIdRef := currentRunIdRef s; eventSourceRef := eventSourceRef s;
  reconnectTimeoutRef := reconnectTimeoutRef s;
  reconnectAttemptsRef := reconnectAttemptsRef s; mountedRef := mountedRef s;
  uuidCount := uuidCount s; handleCount := v; effects := effects s |}.
Definition set_effects v (s : Hook) : Hook := {|
  hk_state := hk_state s; isRunActive := isRunActive s;
  hiddenMessageIdsRef := hiddenMessageIdsRef s;
  currentRunIdRef := currentRunIdRef s; eventSourceRef := eventSourceRef s;
  reconnectTimeoutRef := reconnectTimeoutRef s;
  reconnectAttemptsRef := reconnectAttemptsRef s; mountedRef := mountedRef s;
  uuidCount := uuidCount s; handleCount := handleCount s; effects := v |}.

(** [setState(prev => f prev)]. *)
Definition setState (f : AGUIClientState → AGUIClientState) (h : Hook) : Hook :=
  set_hk_state (f (hk_state h)) h.

(** Appends one entry to the log of callbacks and requests. *)
Definition emit (e : Effect) (h : Hook) : Hook :=
  set_effects (effects h ++ [e]) h.


(** ** [normalizeSnapshotMessages] (source lines 53-152) *)

(** Step 1: the ids of the tool calls listed by assistant messages. *)
Definition parentToolCallIdsOf (messages : list PlatformMessage) : gset string :=
  list_to_set (messages ≫= λ msg,
    if bool_decide (msg_role msg = "assistant") then
      List.filter JS.truthy (tc_id <$> toolCallsOf msg)
    else []).

(** [msg.role === 'tool' && 'toolCallId' in msg && msg.toolCallId]. *)
Definition isToolResult (msg : PlatformMessage) : bool :=
  bool_decide (msg_role msg = "tool") && JS.truthyO (msg_toolCallId msg).

(** Step 2: for each parent id, the index of its last result message. *)
Definition parentResultIndexOf (parentToolCallIds : gset string)
    (messages : list PlatformMessage) : JSMap.t nat :=
  fold_left (λ acc (p : nat * PlatformMessage),
    let '(i, msg) := p in
    if isToolResult msg
       && bool_decide (default EmptyString (msg_toolCallId msg) ∈ parentToolCallIds)
    then JSMap.set (default EmptyString (msg_toolCallId msg)) i acc
    else acc) (imap pair messages) JSMap.empty.

(** The parent whose result message is the nearest one after index [i]. *)
Definition nearestParentAfter (i : nat) (parentResultIndex : JSMap.t nat)
    : option (string * nat) :=
  fold_left (λ best (p : string * nat),
    let '(parentId, resultIdx) := p in
    if bool_decide (i < resultIdx)
       && match best with
          | Some (_, bestIdx) => bool_decide (resultIdx < bestIdx)
          | None => true
          end
    then Some (parentId, resultIdx) else best) parentResultIndex None.

(** [assistantMsg.role === 'assistant' && assistantMsg.toolCalls] and the
    tool call [id] is among them. *)
Definition ownsToolCall (id : string) (msg : PlatformMessage) : bool :=
  bool_decide (msg_role msg = "assistant") && msgHasToolCall id msg.

(** Moves a parent's result into its tool call (lines 93-97). *)
Definition setParentResult (parentId result : string) (msg : PlatformMessage) : PlatformMessage :=
  match msg_toolCalls msg with
  | Some tcs =>
      match JS.findIndex (λ tc, bool_decide (tc_id tc = parentId)) tcs with
      | Some p =>
          msg_set_toolCalls (Some (alter (λ tc,
            let tc := tc_set_result (Some result) tc in
            match tc_status tc with
            | Some _ => tc
            | None => tc_set_status (Some StCompleted) tc
            end) p tcs)) msg
      | None => msg
      end
  | None => msg
  end.

(** The tool call entry that stands for a nested child (lines 133-143). *)
Definition childToolCall (msg : PlatformMessage) (bestParentId : string) : PlatformToolCall := {|
  tc_id := default EmptyString (msg_toolCallId msg);
  tc_function := {| fn_name := JS.orS (msg_name msg) "tool";
                    fn_arguments := EmptyString |};
  tc_result := Some (JS.orS (msg_content msg) EmptyString);
  tc_status := Some StCompleted;
  tc_parentToolUseId := Some bestParentId |}.

Definition pushChild (child : PlatformToolCall) (msg : PlatformMessage) : PlatformMessage :=
  if hasToolCall (tc_id child) (toolCallsOf msg) then msg
  else msg_set_toolCalls (Some (toolCallsOf msg ++ [child])) msg.

(** Step 3, one iteration of the loop over [i]. *)
Definition normalizeStep (parentToolCallIds : gset string)
    (parentResultIndex : JSMap.t nat)
    (acc : list PlatformMessage * gset nat) (i : nat)
    : list PlatformMessage * gset nat :=
  let '(messages, indicesToRemove) := acc in
  match messages !! i with
  | None => acc
  | Some msg =>
      if negb (isToolResult msg) then acc
      else
        let toolCallId := default EmptyString (msg_toolCallId msg) in
        if bool_decide (toolCallId ∈ parentToolCallIds) then
          match JS.findIndex (ownsToolCall toolCallId) messages with
          | Some a =>
              (alter (setParentResult toolCallId (JS.orS (msg_content msg) EmptyString)) a messages,
               {[i]} ∪ indicesToRemove)
          | None => acc
          end
        else
          match nearestParentAfter i parentResultIndex with
          | Some (bestParentId, _) =>
              if negb (JS.truthy bestParentId) then acc
              else if negb (JS.some (ownsToolCall bestParentId) (take i messages)) then acc
              else
                match JS.findIndex (ownsToolCall bestParentId) messages with
                | Some a =>
                    (alter (pushChild (childToolCall msg bestParentId)) a messages,
                     {[i]} ∪ indicesToRemove)
                | None => acc
                end
          | None => acc
          end
  end.

(** Step 4: [messages.filter((_, idx) => !indicesToRemove.has(idx))]; the
    first argument is the index of the head of the list. *)
Fixpoint removeIndicesFrom {A} (idx : nat) (indicesToRemove : gset nat) (l : list A) : list A :=
  match l with
  | [] => []
  | x :: l' =>
      if bool_decide (idx ∈ indicesToRemove)
      then removeIndicesFrom (S idx) indicesToRemove l'
      else x :: removeIndicesFrom (S idx) indicesToRemove l'
  end.

Definition removeIndices {A} (indicesToRemove : gset nat) (l : list A) : list A :=
  removeIndicesFrom 0 indicesToRemove l.

Definition normalizeSnapshotMessages (snapshotMessages : list PlatformMessage)
    : list PlatformMessage :=
  let messages := snapshotMessages in
  let parentToolCallIds := parentToolCallIdsOf messages in
  if bool_decide (parentToolCallIds = ∅) then messages
  else
    let parentResultIndex := parentResultIndexOf parentToolCallIds messages in
    let '(messages, indicesToRemove) :=
      fold_left (normalizeStep parentToolCallIds parentResultIndex)
        (seq 0 (length messages)) (messages, ∅) in
    removeIndices indicesToRemove messages.
(** ** The conversation reducer [processEvent] *)

Section Reducer.

(** The sequence of values returned by [crypto.randomUUID()]. *)
Variable uuid : nat → string.

Definition randomUUID (h : Hook) : string * Hook :=
  (uuid (uuidCount h), set_uuidCount (S (uuidCount h)) h).

(** *** Run lifecycle (source lines 237-286) *)

Definition onRunStarted (e : PlatformEvent) (h : Hook) : Hook :=
  let h := setState (λ s,
    set_error None (set_status connected
      (set_runId (Some (ev_runId e)) (set_threadId (Some (ev_threadId e)) s)))) h in
  let h := set_currentRunIdRef (Some (ev_runId e)) h in
  set_isRunActive true h.

Definition onRunFinished (e : PlatformEvent) (h : Hook) : Hook :=
  let h := setState (set_status completed) h in
  let h :=
    if bool_decide (currentRunIdRef h = Some (ev_runId e))
    then set_currentRunIdRef None (set_isRunActive false h)
    else h in
  let h :=
    match currentMessage (hk_state h) with
    | Some cm =>
        if JS.truthy (cm_content cm) then
          let '(id, h) :=
            if JS.truthyO (cm_id cm) then (default EmptyString (cm_id cm), h)
            else randomUUID h in
          let msg := msg_set_timestamp (Some (timestampString e))
                       (mkMessage id "assistant" (Some (cm_content cm))) in
          let h := setState (λ s, set_messages (messages s ++ [msg]) s) h in
          emit (OnMessage msg) h
        else h
    | None => h
    end in
  setState (set_currentMessage None) h.

Definition onRunError (e : PlatformEvent) (h : Hook) : Hook :=
  let h := setState (λ s, set_error (Some (ev_message e)) (set_status error_status s)) h in
  let h := emit (OnError (ev_message e)) h in
  set_currentRunIdRef None (set_isRunActive false h).

(** *** Streaming text (source lines 288-348) *)

Definition onTextMessageStart (e : PlatformEvent) (h : Hook) : Hook :=
  setState (set_currentMessage (Some {|
    cm_id := if JS.truthy (ev_messageId e) then Some (ev_messageId e) else None;
    cm_role := ev_role e;
    cm_content := EmptyString;
    cm_timestamp := Some (timestampString e) |})) h.

Definition onTextMessageContent (e : PlatformEvent) (h : Hook) : Hook :=
  match currentMessage (hk_state h) with
  | Some cm =>
      setState (set_currentMessage (Some {|
        cm_id := cm_id cm; cm_role := cm_role cm;
        cm_content := cm_content cm +:+ ev_textDelta e;
        cm_timestamp := cm_timestamp cm |})) h
  | None => h
  end.

Definition onTextMessageEnd (e : PlatformEvent) (h : Hook) : Hook :=
  let h :=
    match currentMessage (hk_state h) with
    | Some cm =>
        if JS.truthy (cm_content cm) then
          let '(messageId, h) :=
            if JS.truthyO (cm_id cm) then (default EmptyString (cm_id cm), h)
            else randomUUID h in
          if bool_decide (messageId ∈ hiddenMessageIdsRef h) then
            (* hidden: the caller's final assignment clears currentMessage *)
            h
          else
            let msgs := messages (hk_state h) in
            match JS.findIndex (λ m, bool_decide (msg_id m = messageId)) msgs with
            | Some existingIndex =>
                match msgs !! existingIndex with
                | Some existingMsg =>
                    if bool_decide (msg_content existingMsg ≠ Some (cm_content cm))
                    then setState (set_messages
                           (<[existingIndex := msg_set_content (Some (cm_content cm)) existingMsg]> msgs)) h
                    else h
                | None => h
                end
            | None =>
                let msg := msg_set_timestamp (Some (timestampString e))
                  (mkMessage messageId (JS.orS (cm_role cm) "assistant")
                     (Some (cm_content cm))) in
                let h := setState (λ s, set_messages (messages s ++ [msg]) s) h in
                emit (OnMessage msg) h
            end
        else h
    | None => h
    end in
  setState (set_currentMessage None) h.

(** *** Tool calls (source lines 350-626) *)

Definition onToolCallStart (e : PlatformEvent) (h : Hook) : Hook :=
  let s := hk_state h in
  let parentToolId := ev_parent_tool_call_id e in
  let parentMessageId := ev_parentMessageId e in
  let effectiveParentToolId :=
    if negb (JS.truthyO parentToolId) && JS.truthyO parentMessageId then
      let pm := default EmptyString parentMessageId in
      if JSMap.has pm (pendingToolCalls s) then parentMessageId
      else if JS.some (msgHasToolCall pm) (messages s) then parentMessageId
      else parentToolId
    else parentToolId in
  let updatedPending :=
    JSMap.set (ev_toolCallId e) {|
      pt_id := ev_toolCallId e;
      pt_name := JS.orS (Some (ev_toolCallName e)) "unknown_tool";
      pt_args := EmptyString;
      pt_parentToolUseId := effectiveParentToolId;
      pt_parentMessageId := parentMessageId;
      pt_timestamp := Some (timestampString e) |} (pendingToolCalls s) in
  setState (λ s,
    set_currentToolCall (Some {|
      ct_id := Some (ev_toolCallId e);
      ct_name := Some (ev_toolCallName e);
      ct_args := EmptyString;
      ct_parentToolUseId := effectiveParentToolId |})
    (set_pendingToolCalls updatedPending s)) h.

Definition onToolCallArgs (e : PlatformEvent) (h : Hook) : Hook :=
  let toolCallId := ev_toolCallId e in
  let h :=
    match JSMap.get toolCallId (pendingToolCalls (hk_state h)) with
    | Some existing =>
        setState (λ s, set_pendingToolCalls
          (JSMap.set toolCallId {|
             pt_id := pt_id existing; pt_name := pt_name existing;
             pt_args := pt_args existing +:+ ev_argsDelta e;
             pt_parentToolUseId := pt_parentToolUseId existing;
             pt_parentMessageId := pt_parentMessageId existing;
             pt_timestamp := pt_timestamp existing |} (pendingToolCalls s)) s) h
    | None => h
    end in
  match currentToolCall (hk_state h) with
  | Some ct =>
      if bool_decide (ct_id ct = Some toolCallId) then
        setState (set_currentToolCall (Some {|
          ct_id := ct_id ct; ct_name := ct_name ct;
          ct_args := ct_args ct +:+ ev_argsDelta e;
          ct_parentToolUseId := ct_parentToolUseId ct |})) h
      else h
  | None => h
  end.

(** [if (newState.currentToolCall?.id === toolCallId) newState.currentToolCall = null]. *)
Definition clearCurrentToolCallIf (toolCallId : string) (s : AGUIClientState) : AGUIClientState :=
  match currentToolCall s with
  | Some ct =>
      if bool_decide (ct_id ct = Some toolCallId) then set_currentToolCall None s else s
  | None => s
  end.

(** The tool call object that [TOOL_CALL_END] commits. *)
Definition completedToolCall (toolCallId toolCallName toolCallArgs : string)
    (parentToolUseId : option string) : PlatformToolCall := {|
  tc_id := toolCallId;
  tc_function := {| fn_name := toolCallName; fn_arguments := toolCallArgs |};
  tc_result := None;
  tc_status := Some StCompleted;
  tc_parentToolUseId := parentToolUseId |}.

(** A [role: 'tool'] message that wraps a completed tool call. *)
Definition toolMessage (id toolCallId : string) (timestamp : option string)
    (tc : PlatformToolCall) : PlatformMessage := {|
  msg_id := id; msg_role := "tool"; msg_content := Some EmptyString;
  msg_timestamp := timestamp; msg_metadata := None; msg_name := None;
  msg_toolCalls := Some [tc]; msg_toolCallId := Some toolCallId;
  msg_parentToolUseId := None |}.

Definition onToolCallEnd (e : PlatformEvent) (h : Hook) : Hook :=
  let ct := currentToolCall (hk_state h) in
  let '(toolCallId, h) :=
    if JS.truthy (ev_toolCallId e) then (ev_toolCallId e, h)
    else if JS.truthyO (ct ≫= ct_id) then (default EmptyString (ct ≫= ct_id), h)
    else randomUUID h in
  let s := hk_state h in
  let pendingTool := JSMap.get toolCallId (pendingToolCalls s) in
  let toolCallName :=
    JS.orS (JS.orO (pt_name <$> pendingTool) (ct ≫= ct_name)) "unknown_tool" in
  let toolCallArgs :=
    JS.orS (JS.orO (pt_args <$> pendingTool) (ct_args <$> ct)) EmptyString in
  let parentToolUseId :=
    JS.orO (pendingTool ≫= pt_parentToolUseId) (ct ≫= ct_parentToolUseId) in
  let parentMessageId : option string := pendingTool ≫= pt_parentMessageId in
  let toolAlreadyExists := JS.some (msgHasToolCall toolCallId) (messages s) in
  let updatedPendingTools := JSMap.delete toolCallId (pendingToolCalls s) in
  if toolAlreadyExists then
    setState (λ s, clearCurrentToolCallIf toolCallId
                     (set_pendingToolCalls updatedPendingTools s)) h
  else
    let completed :=
      completedToolCall toolCallId toolCallName toolCallArgs parentToolUseId in
    let msgs := messages s in
    let h := setState (set_pendingToolCalls updatedPendingTools) h in
    (* attachment to the message that owns the call itself (lines 515-566) *)
    let attachToAssistant (h : Hook) : Hook :=
      let isTargetMessage (m : PlatformMessage) : bool :=
        if JS.truthyO parentMessageId
        then bool_decide (Some (msg_id m) = parentMessageId)
        else bool_decide (msg_role m = "assistant") in
      match JS.findLastIndex isTargetMessage msgs with
      | Some i =>
          let existingToolCalls := default [] (toolCallsOf <$> msgs !! i) in
          if hasToolCall toolCallId existingToolCalls then
            setState (λ s, set_currentToolCall None (set_messages msgs s)) h
          else
            let pendingForThisTool :=
              default [] (JSMap.get toolCallId (pendingChildren (hk_state h))) in
            let childToolCalls : list PlatformToolCall :=
              pendingForThisTool ≫= toolCallsOf in
            let msgs' :=
              alter (msg_set_toolCalls
                (Some (existingToolCalls ++ completed :: childToolCalls))) i msgs in
            let h :=
              if bool_decide (0 < length pendingForThisTool) then
                setState (λ s, set_pendingChildren
                  (JSMap.delete toolCallId (pendingChildren s)) s) h
              else h in
            setState (λ s, set_currentToolCall None (set_messages msgs' s)) h
      | None =>
          let '(id, h) := randomUUID h in
          let msg := toolMessage id toolCallId (Some (timestampString e)) completed in
          setState (λ s, set_currentToolCall None (set_messages (msgs ++ [msg]) s)) h
      end in
    if JS.truthyO parentToolUseId then
      let parent := default EmptyString parentToolUseId in
      if JSMap.has parent (pendingToolCalls (hk_state h)) then
        (* the parent has not ended yet: buffer the child (lines 471-486) *)
        let '(id, h) := randomUUID h in
        let pending :=
          default [] (JSMap.get parent (pendingChildren (hk_state h))) in
        let child := toolMessage id toolCallId None completed in
        setState (λ s, clearCurrentToolCallIf toolCallId
          (set_pendingChildren
             (JSMap.set parent (pending ++ [child]) (pendingChildren s)) s)) h
      else
        match JS.findLastIndex (msgHasToolCall parent) msgs with
        | Some i =>
            let tcs := default [] (toolCallsOf <$> msgs !! i) in
            let msgs' :=
              if hasToolCall toolCallId tcs then msgs
              else alter (msg_set_toolCalls (Some (tcs ++ [completed]))) i msgs in
            setState (λ s, clearCurrentToolCallIf toolCallId (set_messages msgs' s)) h
        | None => attachToAssistant h
        end
    else attachToAssistant h.

(** [{ ...tc, result: resultContent, status: 'completed' }] at the first tool
    call with the given id of a message. *)
Definition attachResult (toolCallId resultContent : string) (m : PlatformMessage) : PlatformMessage :=
  match msg_toolCalls m with
  | Some tcs =>
      match JS.findIndex (λ tc, bool_decide (tc_id tc = toolCallId)) tcs with
      | Some tcIdx =>
          msg_set_toolCalls
            (Some (alter (λ tc, tc_set_status (Some StCompleted)
                                  (tc_set_result (Some resultContent) tc)) tcIdx tcs)) m
      | None => m
      end
  | None => m
  end.

(** The search of [pendingChildren] in [Map] iteration order: the first
    parent with a child that holds the tool call, and its updated children. *)
Fixpoint findBufferedToolCall (toolCallId resultContent : string)
    (entries : JSMap.t (list PlatformMessage))
    : option (string * list PlatformMessage) :=
  match entries with
  | [] => None
  | (parentId, children) :: entries' =>
      match JS.findIndex (msgHasToolCall toolCallId) children with
      | Some j => Some (parentId, alter (attachResult toolCallId resultContent) j children)
      | None => findBufferedToolCall toolCallId resultContent entries'
      end
  end.

Definition onToolCallResult (e : PlatformEvent) (h : Hook) : Hook :=
  let toolCallId := ev_toolCallId e in
  let resultContent := JS.orS (Some (ev_content e)) EmptyString in
  if JS.truthy toolCallId then
    let s := hk_state h in
    match JS.findLastIndex (msgHasToolCall toolCallId) (messages s) with
    | Some i =>
        setState (set_messages
          (alter (attachResult toolCallId resultContent) i (messages s))) h
    | None =>
        if bool_decide (0 < JSMap.size (pendingChildren s)) then
          match findBufferedToolCall toolCallId resultContent (pendingChildren s) with
          | Some (parentId, updatedChildren) =>
              setState (set_pendingChildren
                (JSMap.set parentId updatedChildren (pendingChildren s))) h
          | None => h
          end
        else h
    end
  else h.

(** *** State (source lines 628-647) *)

Definition onStateSnapshot (e : PlatformEvent) (h : Hook) : Hook :=
  setState (set_state (ev_snapshot e)) h.

(** [path.startsWith('/') ? path.slice(1) : path]. *)
Definition patchKey (path : string) : string :=
  match path with
  | String "/"%char rest => rest
  | _ => path
  end.

Definition applyStatePatch (stateClone : JSMap.t JValue) (patch : StatePatch) : JSMap.t JValue :=
  let key := patchKey (sp_path patch) in
  if bool_decide (sp_op patch = "add") || bool_decide (sp_op patch = "replace")
  then JSMap.set key (sp_value patch) stateClone
  else if bool_decide (sp_op patch = "remove") then JSMap.delete key stateClone
  else stateClone.

Definition onStateDelta (e : PlatformEvent) (h : Hook) : Hook :=
  setState (λ s, set_state (fold_left applyStatePatch (ev_stateDelta e) (state s)) s) h.

(** *** Messages snapshot (source lines 649-803) *)

(** [snapshotMap.get(id)]: the map is built from the array of entries, so
    the last message with a given id wins.  The result is the position of
    that message in the store of normalised messages. *)
Definition snapshotIndex (id : string) (store : list PlatformMessage) : option nat :=
  JS.findLastIndex (λ m, bool_decide (msg_id m = id)) store.

(** The three in-place updates of a tool call found in [mergedToolCalls]
    (lines 681-699). *)
Definition mergeToolCall (existingTC snapshotTC : PlatformToolCall) : PlatformToolCall :=
  let generic (n : string) := negb (JS.truthy n) || bool_decide (n = "tool") in
  let tc := snapshotTC in
  let tc :=
    if JS.truthy (fn_name (tc_function existingTC))
       && negb (bool_decide (fn_name (tc_function existingTC) = "tool"))
       && generic (fn_name (tc_function tc))
    then tc_set_function (fn_set_name (fn_name (tc_function existingTC)) (tc_function tc)) tc
    else tc in
  let tc :=
    if JS.truthy (fn_arguments (tc_function existingTC))
       && negb (JS.truthy (fn_arguments (tc_function tc)))
    then tc_set_function
           (fn_set_arguments (fn_arguments (tc_function existingTC)) (tc_function tc)) tc
    else tc in
  if JS.truthyO (tc_parentToolUseId existingTC)
     && negb (JS.truthyO (tc_parentToolUseId tc))
  then tc_set_parentToolUseId (tc_parentToolUseId existingTC) tc
  else tc.

(** One iteration of [for (const existingTC of msg.toolCalls)]. *)
Definition mergeToolCallsStep (mergedToolCalls : list PlatformToolCall)
    (existingTC : PlatformToolCall) : list PlatformToolCall :=
  match JS.findIndex (λ tc, bool_decide (tc_id tc = tc_id existingTC)) mergedToolCalls with
  | Some p => alter (mergeToolCall existingTC) p mergedToolCalls
  | None => mergedToolCalls ++ [existingTC]
  end.

(** What [newState.messages.map] returns for one known message: the message
    itself, the snapshot version (an object of the store), or a copy of the
    snapshot version whose tool calls are the store's tool call objects
    followed by tool calls of its own. *)
Inductive MergeSlot :=
  | SlotKeep (msg : PlatformMessage)
  | SlotSnapshot (k : nat)
  | SlotMerged (k : nat) (own : list PlatformToolCall).

(** The callback of [newState.messages.map] (lines 671-709).  The tool call
    objects of a snapshot version are updated in place, so the store is
    threaded through the calls. *)
Definition mergeExistingStep (acc : list PlatformMessage * list MergeSlot)
    (msg : PlatformMessage) : list PlatformMessage * list MergeSlot :=
  let '(store, slots) := acc in
  match snapshotIndex (msg_id msg) store with
  | None => (store, slots ++ [SlotKeep msg])
  | Some k =>
      let snapshotToolCalls := default [] (toolCallsOf <$> store !! k) in
      if bool_decide (msg_role msg = "assistant")
         && bool_decide (0 < length (toolCallsOf msg))
         && bool_decide (0 < length snapshotToolCalls)
      then
        let mergedToolCalls :=
          fold_left mergeToolCallsStep (toolCallsOf msg) snapshotToolCalls in
        let n := length snapshotToolCalls in
        (alter (msg_set_toolCalls (Some (take n mergedToolCalls))) k store,
         slots ++ [SlotMerged k (drop n mergedToolCalls)])
      else (store, slots ++ [SlotSnapshot k])
  end.

(** Reads a slot once all in-place updates are done. *)
Definition readSlot (store : list PlatformMessage) (slot : MergeSlot) : list PlatformMessage :=
  match slot with
  | SlotKeep msg => [msg]
  | SlotSnapshot k => option_list (store !! k)
  | SlotMerged k own =>
      option_list ((λ sv, msg_set_toolCalls (Some (toolCallsOf sv ++ own)) sv) <$> store !! k)
  end.

(** The known messages updated with the snapshot, and the store of normalised
    messages after the in-place updates. *)
Definition mergeExisting (existing normalizedMessages : list PlatformMessage)
    : list PlatformMessage * list PlatformMessage :=
  let '(store, slots) := fold_left mergeExistingStep existing (normalizedMessages, []) in
  (store, slots ≫= readSlot store).

(** Where a message that only the snapshot has goes (lines 729-738):
    right before the first message with the id [insertBeforeId], or to the
    end. *)
Definition placeNew (insertBeforeId : option string) (msg : PlatformMessage)
    (merged : list PlatformMessage) : list PlatformMessage :=
  if JS.truthyO insertBeforeId then
    match JS.findIndex (λ m, bool_decide (Some (msg_id m) = insertBeforeId)) merged with
    | Some idx => JS.spliceIn idx msg merged
    | None => merged ++ [msg]
    end
  else merged ++ [msg].

(** The loop that inserts the messages only the snapshot has
    (lines 716-740); the first argument is [normalizedMessages] from index
    [i] on. *)
Fixpoint insertNew (normalizedMessages : list PlatformMessage)
    (existingIds : gset string) (merged : list PlatformMessage)
    : list PlatformMessage :=
  match normalizedMessages with
  | [] => merged
  | msg :: rest =>
      if bool_decide (msg_id msg ∈ existingIds) then insertNew rest existingIds merged
      else
        let insertBeforeId :=
          msg_id <$> JS.find (λ m, bool_decide (msg_id m ∈ existingIds)) rest in
        insertNew rest ({[msg_id msg]} ∪ existingIds)
          (placeNew insertBeforeId msg merged)
  end.

(** A name that carries no information (lines 751, 758, 766). *)
Definition placeholderName (n : string) : bool :=
  negb (JS.truthy n) || bool_decide (n = "tool") || bool_decide (n = "unknown_tool").

(** [toolNameMap] (lines 747-761). *)
Definition toolNameMapOf (merged : list PlatformMessage)
    (pending : JSMap.t PendingToolCall) : gmap string string :=
  let fromMessages :=
    fold_left (λ (acc : gmap string string) msg,
      if bool_decide (msg_role msg = "tool") then
        fold_left (λ (acc : gmap string string) tc,
          if JS.truthy (tc_id tc) && negb (placeholderName (fn_name (tc_function tc)))
          then <[tc_id tc := fn_name (tc_function tc)]> acc else acc)
          (toolCallsOf msg) acc
      else acc) merged ∅ in
  fold_left (λ (acc : gmap string string) (p : string * PendingToolCall),
    if negb (placeholderName (pt_name p.2)) then <[p.1 := pt_name p.2]> acc else acc)
    pending fromMessages.

(** Applies the recovered names (lines 763-775). *)
Definition recoverName (toolNameMap : gmap string string) (tc : PlatformToolCall) : PlatformToolCall :=
  match toolNameMap !! tc_id tc with
  | Some name =>
      if placeholderName (fn_name (tc_function tc))
      then tc_set_function (fn_set_name name (tc_function tc)) tc
      else tc
  | None => tc
  end.

Definition recoverNames (toolNameMap : gmap string string) (msg : PlatformMessage) : PlatformMessage :=
  if bool_decide (msg_role msg = "assistant") then
    match msg_toolCalls msg with
    | Some tcs => msg_set_toolCalls (Some (recoverName toolNameMap <$> tcs)) msg
    | None => msg
    end
  else msg.

(** [nestedToolCallIds] (lines 782-789). *)
Definition nestedToolCallIdsOf (merged : list PlatformMessage) : gset string :=
  list_to_set (merged ≫= λ msg,
    if bool_decide (msg_role msg = "assistant") then tc_id <$> toolCallsOf msg else []).

(** The predicate of the final [merged.filter] (lines 790-797). *)
Definition keepAfterNesting (nestedToolCallIds : gset string) (msg : PlatformMessage) : bool :=
  if negb (bool_decide (msg_role msg = "tool")) then true
  else if JS.truthyO (msg_toolCallId msg)
          && bool_decide (default EmptyString (msg_toolCallId msg) ∈ nestedToolCallIds)
  then false
  else if JS.some (λ tc, bool_decide (tc_id tc ∈ nestedToolCallIds)) (toolCallsOf msg)
  then false
  else true.

(** The messages after a snapshot merge, from the hidden set, the known
    messages, the pending tool calls and the snapshot. *)
Definition mergeSnapshot (hidden : gset string) (existing : list PlatformMessage)
    (pending : JSMap.t PendingToolCall) (snapshot : list PlatformMessage)
    : list PlatformMessage :=
  let visibleMessages :=
    List.filter (λ msg, negb (bool_decide (msg_id msg ∈ hidden))) snapshot in
  let normalizedMessages := normalizeSnapshotMessages visibleMessages in
  let existingIds : gset string := list_to_set (msg_id <$> existing) in
  let '(normalizedMessages, merged) := mergeExisting existing normalizedMessages in
  let merged := insertNew normalizedMessages existingIds merged in
  let toolNameMap := toolNameMapOf merged pending in
  let merged := recoverNames toolNameMap <$> merged in
  let nestedToolCallIds := nestedToolCallIdsOf merged in
  List.filter (keepAfterNesting nestedToolCallIds) merged.

Definition onMessagesSnapshot (e : PlatformEvent) (h : Hook) : Hook :=
  setState (λ s,
    set_pendingChildren JSMap.empty
      (set_messages
         (mergeSnapshot (hiddenMessageIdsRef h) (messages s)
            (pendingToolCalls s) (ev_messages e)) s)) h.

(** *** Activities and steps (source lines 805-860) *)

Definition onActivitySnapshot (e : PlatformEvent) (h : Hook) : Hook :=
  match ev_activities e with
  | Some acts => setState (set_activities acts) h
  | None => h
  end.

Definition applyActivityPatch (activitiesClone : list PlatformActivity)
    (patch : PlatformActivityPatch) : list PlatformActivity :=
  let sameId (a : PlatformActivity) := bool_decide (act_id a = act_id (ap_activity patch)) in
  match ap_op patch with
  | OpAdd => activitiesClone ++ [ap_activity patch]
  | OpUpdate =>
      match JS.findIndex sameId activitiesClone with
      | Some idx => <[idx := ap_activity patch]> activitiesClone
      | None => activitiesClone
      end
  | OpRemove =>
      match JS.findIndex sameId activitiesClone with
      | Some idx => delete idx activitiesClone
      | None => activitiesClone
      end
  end.

Definition onActivityDelta (e : PlatformEvent) (h : Hook) : Hook :=
  match ev_activityDelta e with
  | Some patches =>
      setState (λ s, set_activities (fold_left applyActivityPatch patches (activities s)) s) h
  | None => h
  end.

Definition onStepStarted (e : PlatformEvent) (h : Hook) : Hook :=
  setState (λ s, set_state
    (JSMap.set "currentStep" (JStep (ev_stepName e) (ev_stepName e) "running") (state s)) s) h.

Definition onStepFinished (e : PlatformEvent) (h : Hook) : Hook :=
  setState (λ s, set_state (JSMap.delete "currentStep" (state s)) s) h.

(** *** Raw and meta events (source lines 862-952) *)

Definition onRaw (e : PlatformEvent) (h : Hook) : Hook :=
  match ev_rawData e with
  | None => h
  | Some rawData =>
      if bool_decide (rd_type rawData = Some "message_metadata") && rd_hidden rawData then
        if JS.truthyO (rd_messageId rawData) then
          let messageId := default EmptyString (rd_messageId rawData) in
          let h := set_hiddenMessageIdsRef ({[messageId]} ∪ hiddenMessageIdsRef h) h in
          setState (λ s, set_messages
            (List.filter (λ m, negb (bool_decide (msg_id m = messageId))) (messages s)) s) h
        else h
      else if bool_decide (rd_type rawData = Some "langfuse_trace")
              && JS.truthyO (rd_traceId rawData) then
        emit (OnTraceId (default EmptyString (rd_traceId rawData))) h
      else if bool_decide (rd_type rawData = Some "thinking_block") then
        let '(id, h) := randomUUID h in
        let msg :=
          msg_set_metadata (Some {| md_type := "thinking_block";
                                    md_thinking := rd_thinking rawData;
                                    md_signature := rd_signature rawData |})
            (msg_set_timestamp (Some (timestampString e))
               (mkMessage id "assistant" (Some (JS.orS (rd_thinking rawData) EmptyString)))) in
        emit (OnMessage msg) (setState (λ s, set_messages (messages s ++ [msg]) s) h)
      else if bool_decide (rd_role rawData = Some "user") && JS.truthyO (rd_content rawData) then
        let '(messageId, h) :=
          if JS.truthyO (rd_id rawData) then (default EmptyString (rd_id rawData), h)
          else randomUUID h in
        let exists_ := JS.some (λ m, bool_decide (msg_id m = messageId)) (messages (hk_state h)) in
        let isHidden := bool_decide (messageId ∈ hiddenMessageIdsRef h) in
        if negb exists_ && negb isHidden then
          let msg := msg_set_timestamp (Some (timestampString e))
                       (mkMessage messageId "user" (rd_content rawData)) in
          emit (OnMessage msg) (setState (λ s, set_messages (messages s ++ [msg]) s) h)
        else h
      else if JS.truthyO (rd_role rawData) && JS.truthyO (rd_content rawData) then
        let '(id, h) :=
          if JS.truthyO (rd_id rawData) then (default EmptyString (rd_id rawData), h)
          else randomUUID h in
        let msg := msg_set_timestamp (Some (timestampString e))
                     (mkMessage id (default EmptyString (rd_role rawData)) (rd_content rawData)) in
        emit (OnMessage msg) (setState (λ s, set_messages (messages s ++ [msg]) s) h)
      else h
  end.

Definition onMeta (e : PlatformEvent) (h : Hook) : Hook :=
  if JS.truthyO (ev_payloadMessageId e) then
    let messageId := default EmptyString (ev_payloadMessageId e) in
    if bool_decide (ev_metaType e = "thumbs_up") then
      setState (λ s, set_messageFeedback (JSMap.set messageId thumbs_up (messageFeedback s)) s) h
    else if bool_decide (ev_metaType e = "thumbs_down") then
      setState (λ s, set_messageFeedback (JSMap.set messageId thumbs_down (messageFeedback s)) s) h
    else h
  else h.

(** *** The updater passed to [setState] (source lines 234-955) *)

Definition reduce (e : PlatformEvent) (h : Hook) : Hook :=
  let isType (t : string) := bool_decide (ev_type e = t) in
  if isType EventType.RUN_STARTED then onRunStarted e h
  else if isType EventType.RUN_FINISHED then onRunFinished e h
  else if isType EventType.RUN_ERROR then onRunError e h
  else if isType EventType.TEXT_MESSAGE_START then onTextMessageStart e h
  else if isType EventType.TEXT_MESSAGE_CONTENT then onTextMessageContent e h
  else if isType EventType.TEXT_MESSAGE_END then onTextMessageEnd e h
  else if isType EventType.TOOL_CALL_START then onToolCallStart e h
  else if isType EventType.TOOL_CALL_ARGS then onToolCallArgs e h
  else if isType EventType.TOOL_CALL_END then onToolCallEnd e h
  else if isType EventType.TOOL_CALL_RESULT then onToolCallResult e h
  else if isType EventType.STATE_SNAPSHOT then onStateSnapshot e h
  else if isType EventType.STATE_DELTA then onStateDelta e h
  else if isType EventType.MESSAGES_SNAPSHOT then onMessagesSnapshot e h
  else if isType EventType.ACTIVITY_SNAPSHOT then onActivitySnapshot e h
  else if isType EventType.ACTIVITY_DELTA then onActivityDelta e h
  else if isType EventType.STEP_STARTED then onStepStarted e h
  else if isType EventType.STEP_FINISHED then onStepFinished e h
  else if isType EventType.RAW then onRaw e h
  else if isType EventType.META then onMeta e h
  else h.

(** [processEvent]: the [onEvent] callback, then the state update. *)
Definition processEvent (e : PlatformEvent) (h : Hook) : Hook :=
  reduce e (emit (OnEvent (ev_type e)) h).

(** The hook after a sequence of events, oldest first. *)
Definition processEvents (es : list PlatformEvent) (h : Hook) : Hook :=
  fold_left (λ h e, processEvent e h) es h.

(** ** Channel manager (source lines 961-1068) *)

Definition MAX_RECONNECT_DELAY : Z := 30000.
Definition BASE_RECONNECT_DELAY : Z := 1000.

(** [Math.min(BASE_RECONNECT_DELAY * Math.pow(2, attempts - 1), MAX_RECONNECT_DELAY)]
    for [attempts >= 1]. *)
Definition reconnectDelay (attempts : nat) : Z :=
  Z.min (BASE_RECONNECT_DELAY * 2 ^ (Z.of_nat attempts - 1)) MAX_RECONNECT_DELAY.

Definition connect (runId : option string) (h : Hook) : Hook :=
  let h :=
    match eventSourceRef h with
    | Some es => set_eventSourceRef None (emit (CloseEventSource (es_handle es)) h)
    | None => h
    end in
  let h := setState (λ s, set_error None (set_status connecting s)) h in
  let eventSource := {| es_handle := handleCount h; es_runId := runId |} in
  let h := set_handleCount (S (handleCount h)) h in
  set_eventSourceRef (Some eventSource) (emit (NewEventSource eventSource) h).

Definition onopen (eventSource : EventSource) (h : Hook) : Hook :=
  let h := set_reconnectAttemptsRef 0 h in
  let h := setState (set_status connected) h in
  emit OnConnected h.

(** [onmessage]; [None] stands for a payload that [JSON.parse] rejects. *)
Definition onmessage (eventSource : EventSource) (data : option PlatformEvent) (h : Hook) : Hook :=
  match data with
  | Some e => processEvent e h
  | None => h
  end.

Definition onerror (eventSource : EventSource) (h : Hook) : Hook :=
  let h := emit (CloseEventSource (es_handle eventSource)) h in
  if negb (bool_decide (es_handle <$> eventSourceRef h = Some (es_handle eventSource))) then h
  else
    let h := set_eventSourceRef None h in
    if negb (mountedRef h) then h
    else
      let h := setState (λ s, set_error (Some "Connection error") (set_status error_status s)) h in
      let h := emit OnDisconnected (emit (OnError "Connection error") h) in
      let h :=
        match reconnectTimeoutRef h with
        | Some tm => emit (ClearTimeout (tm_handle tm)) h
        | None => h
        end in
      let h := set_reconnectAttemptsRef (S (reconnectAttemptsRef h)) h in
      let delay := reconnectDelay (reconnectAttemptsRef h) in
      let tm := {| tm_handle := handleCount h; tm_delay := delay;
                   tm_runId := es_runId eventSource |} in
      let h := set_handleCount (S (handleCount h)) h in
      set_reconnectTimeoutRef (Some tm) (emit (SetTimeout tm) h).

(** The callback of the reconnect timer. *)
Definition onTimeout (tm : Timer) (h : Hook) : Hook :=
  if mountedRef h then connect (tm_runId tm) h else h.

Definition disconnect (h : Hook) : Hook :=
  let h :=
    match reconnectTimeoutRef h with
    | Some tm => set_reconnectTimeoutRef None (emit (ClearTimeout (tm_handle tm)) h)
    | None => h
    end in
  let h :=
    match eventSourceRef h with
    | Some es => set_eventSourceRef None (emit (CloseEventSource (es_handle es)) h)
    | None => h
    end in
  let h := setState (set_status idle) h in
  let h := set_currentRunIdRef None (set_isRunActive false h) in
  emit OnDisconnected h.

(** ** Run controller (source lines 1071-1185) *)

(** The session the hook was created for ([options.sessionName]). *)
Variable sessionName : string.

(** The optimistic insert of [sendMessage] (lines 1111-1129): a message
    object with a fresh id, appended to the messages at once.  [now] is
    [new Date().toISOString()]. *)
Definition optimisticInsert (content now : string) (h : Hook) : string * Hook :=
  let '(id, h) := randomUUID h in
  let userMessage := mkMessage id "user" (Some content) in
  (id, setState (λ s,
         set_messages (messages s ++ [msg_set_timestamp (Some now) userMessage])
           (set_error None (set_status connected s))) h).

(** The synchronous part of [sendMessage]: the optimistic insert, then the
    request; the request body is built from the state the hook was rendered
    with. *)
Definition sendMessage (content now : string) (h : Hook) : Hook :=
  let threadId_ := JS.orS (threadId (hk_state h)) sessionName in
  let parentRunId := runId (hk_state h) in
  let '(id, h) := optimisticInsert content now h in
  emit (FetchRun threadId_ parentRunId id content) h.

Inductive RunResponse :=
  | RunOk (runId : option string)
  | RunNotOk (errorText : string)
  | RunFailed (message : string).

(** The continuation of [sendMessage] once [fetch] settles. *)
Definition sendMessageSettled (r : RunResponse) (h : Hook) : Hook :=
  match r with
  | RunNotOk errorText =>
      let h := setState (λ s, set_error (Some errorText) (set_status error_status s)) h in
      let h := set_isRunActive false h in
      setState (λ s, set_error (Some ("Failed to send message: " +:+ errorText))
                       (set_status error_status s)) h
  | RunOk result =>
      let h :=
        if JS.truthyO result
        then set_isRunActive true (set_currentRunIdRef result h)
        else h in
      match eventSourceRef h with
      | Some _ => h
      | None => connect None h
      end
  | RunFailed message =>
      setState (λ s, set_error (Some message) (set_status error_status s)) h
  end.

(** The synchronous part of [interrupt]. *)
Definition interrupt (h : Hook) : Hook :=
  if JS.truthyO (currentRunIdRef h)
  then emit (FetchInterrupt (default EmptyString (currentRunIdRef h))) h
  else emit (ConsoleWarn "[useAGUIStream] No active run to interrupt") h.

(** The continuation of [interrupt] once [fetch] settles. *)
Definition interruptSettled (ok : bool) (h : Hook) : Hook :=
  if ok then set_currentRunIdRef None (set_isRunActive false h) else h.

(** ** Everything that can happen to a mounted hook *)

Inductive Action :=
  | Mount
  | Unmount
  | Connect (runId : option string)
  | Disconnect
  | Opened (eventSource : EventSource)
  | Message (eventSource : EventSource) (data : option PlatformEvent)
  | TransportError (eventSource : EventSource)
  | TimerFired (tm : Timer)
  | SendMessage (content now : string)
  | SendMessageSettled (r : RunResponse)
  | Interrupt
  | InterruptSettled (ok : bool).

Definition step (h : Hook) (a : Action) : Hook :=
  match a with
  | Mount => set_mountedRef true h
  | Unmount => set_mountedRef false h
  | Connect runId => connect runId h
  | Disconnect => disconnect h
  | Opened es => onopen es h
  | Message es data => onmessage es data h
  | TransportError es => onerror es h
  | TimerFired tm => onTimeout tm h
  | SendMessage content now => sendMessage content now h
  | SendMessageSettled r => sendMessageSettled r h
  | Interrupt => interrupt h
  | InterruptSettled ok => interruptSettled ok h
  end.

Definition run (actions : list Action) (h : Hook) : Hook :=
  fold_left step actions h.

(** ** What the hook returns (source lines 1200-1209) *)

(** [isConnected: state.status === 'connected']. *)
Definition isConnected (h : Hook) : bool :=
  match status (hk_state h) with
  | connected => true
  | _ => false
  end.

(** [isStreaming: state.currentMessage !== null || state.currentToolCall !== null
    || state.pendingToolCalls.size > 0]. *)
Definition isStreaming (h : Hook) : bool :=
  let s := hk_state h in
  match currentMessage s with Some _ => true | None => false end
  || match currentToolCall s with Some _ => true | None => false end
  || bool_decide (0 < JSMap.size (pendingToolCalls s)).
End Reducer.

(** ** Sample data for the worked examples *)

Module Sample.

(** A concrete sequence of fresh identifiers. *)
Definition uuid (n : nat) : string := "uuid-" +:+ pretty n.

Definition sessionName : string := "session-1".

Definition event (type : string) (body : EventBody) : PlatformEvent :=
  {| ev_type := type; ev_timestamp := None; ev_body := body |}.

Definition toolStart (id name : string) (parentToolCallId : option string) : PlatformEvent :=
  event EventType.TOOL_CALL_START
    (BTool id name None parentToolCallId EmptyString EmptyString).

Definition toolEnd (id : string) : PlatformEvent :=
  event EventType.TOOL_CALL_END
    (BTool id EmptyString None None EmptyString EmptyString).

Definition toolResult (id content : string) : PlatformEvent :=
  event EventType.TOOL_CALL_RESULT
    (BTool id EmptyString None None EmptyString content).

Definition textStart (id : string) : PlatformEvent :=
  event EventType.TEXT_MESSAGE_START (BText id (Some "assistant") EmptyString).

Definition textContent (id delta : string) : PlatformEvent :=
  event EventType.TEXT_MESSAGE_CONTENT (BText id None delta).

Definition textEnd (id : string) : PlatformEvent :=
  event EventType.TEXT_MESSAGE_END (BText id None EmptyString).

Definition messagesSnapshot (ms : list PlatformMessage) : PlatformEvent :=
  event EventType.MESSAGES_SNAPSHOT (BMessages ms).

Definition toolCall (id name : string) (status : option ToolStatus) : PlatformToolCall := {|
  tc_id := id;
  tc_function := {| fn_name := name; fn_arguments := EmptyString |};
  tc_result := None;
  tc_status := status;
  tc_parentToolUseId := None |}.

(** The hook after a parent tool call and its child have started. *)
Definition parentAndChildStarted : Hook :=
  processEvents uuid
    [toolStart "P" "Task" None; toolStart "C" "Read" (Some "P")] initialHook.

Definition assistantMessage (id content : string) : PlatformMessage :=
  mkMessage id "assistant" (Some content).

Definition userMessage (id content : string) : PlatformMessage :=
  mkMessage id "user" (Some content).

(** The hook after a snapshot with one assistant message. *)
Definition withAssistant : Hook :=
  processEvent uuid (messagesSnapshot [assistantMessage "m1" "hi"]) initialHook.

(** Then a tool call runs to its end and is committed on that message. *)
Definition toolCompleted : Hook :=
  processEvents uuid [toolStart "t1" "Read" None; toolEnd "t1"] withAssistant.

(** The snapshot [toolCompleted] could receive next: the same message,
    its tool call with the given status. *)
Definition snapshotWithStatus (status : option ToolStatus) : PlatformEvent :=
  messagesSnapshot
    [msg_set_toolCalls (Some [toolCall "t1" "Read" status]) (assistantMessage "m1" "hi")].

(** The same snapshot with the tool call's result next to it: the tool
    call has no status, and a tool-result message carries its output. *)
Definition snapshotWithResult : PlatformEvent :=
  messagesSnapshot
    [msg_set_toolCalls (Some [toolCall "t1" "Read" None]) (assistantMessage "m1" "hi");
     msg_set_toolCallId (Some "t1") (mkMessage "r1" "tool" (Some "42 lines"))].

(** The [RAW] event that hides a message. *)
Definition hideMessage (id : string) : PlatformEvent :=
  event EventType.RAW
    (BRaw (Some {| rd_type := Some "message_metadata"; rd_hidden := true;
                   rd_messageId := Some id; rd_traceId := None;
                   rd_thinking := None; rd_signature := None;
                   rd_role := None; rd_content := None; rd_id := None |}) None).

Definition withHidden : Hook := processEvent uuid (hideMessage "secret") withAssistant.

(** A mounted hook with an open channel, and three transport errors in a
    row, each followed by the reconnect that its timer starts. *)
Definition channelOpen : Hook :=
  run uuid sessionName [Mount; Connect None] initialHook.

Definition eventSource (handle : nat) : EventSource :=
  {| es_handle := handle; es_runId := None |}.

Definition timer (handle : nat) (delay : Z) : Timer :=
  {| tm_handle := handle; tm_delay := delay; tm_runId := None |}.

Definition threeErrors : list Action :=
  [TransportError (eventSource 0); TimerFired (timer 1 1000);
   TransportError (eventSource 2); TimerFired (timer 3 2000);
   TransportError (eventSource 4)].

(** Two known messages, and a snapshot that lists a new one before both. *)
Definition twoKnown : Hook :=
  processEvent uuid
    (messagesSnapshot [userMessage "K" "first"; assistantMessage "J" "second"]) initialHook.

Definition newBeforeKnown : PlatformEvent :=
  messagesSnapshot
    [userMessage "N" "new"; assistantMessage "J" "second"; userMessage "K" "first"].

(** Events and states for the examples of the remaining branches. *)
Definition toolArgs (id delta : string) : PlatformEvent :=
  event EventType.TOOL_CALL_ARGS (BTool id EmptyString None None delta EmptyString).

Definition runStarted (threadId runId : string) : PlatformEvent :=
  event EventType.RUN_STARTED (BRun threadId runId).

Definition runFinished (threadId runId : string) : PlatformEvent :=
  event EventType.RUN_FINISHED (BRun threadId runId).


Definition stepStarted (name : string) : PlatformEvent :=
  event EventType.STEP_STARTED (BStep name).

Definition stepFinished (name : string) : PlatformEvent :=
  event EventType.STEP_FINISHED (BStep name).

Definition activity (id title : string) : PlatformActivity := {|
  act_id := id; act_type := "task"; act_title := Some title;
  act_status := None; act_progress := None |}.

Definition activityDelta (patches : list PlatformActivityPatch) : PlatformEvent :=
  event EventType.ACTIVITY_DELTA (BActivityDelta (Some patches)).

(** The hook after a snapshot of two activities. *)
Definition withActivities : Hook :=
  processEvent uuid
    (event EventType.ACTIVITY_SNAPSHOT
       (BActivities (Some [activity "a1" "build"; activity "a2" "test"])))
    initialHook.

(** The text [hi there] in two chunks. *)
Definition twoChunks (id : string) : list PlatformEvent :=
  [textContent id "hi "; textContent id "there"].

(** The arguments of a tool call in two deltas. *)
Definition twoDeltas (id : string) : list PlatformEvent :=
  [toolArgs id "{path: "; toolArgs id "1}"].

(** The hook with an open channel after the component is unmounted. *)
Definition unmounted : Hook :=
  run uuid sessionName [Mount; Connect None; Unmount] initialHook.

(** The [RAW] event with which the backend echoes a user message. *)
Definition echo (id content : string) : PlatformEvent :=
  event EventType.RAW
    (BRaw (Some {| rd_type := None; rd_hidden := false;
                   rd_messageId := None; rd_traceId := None;
                   rd_thinking := None; rd_signature := None;
                   rd_role := Some "user"; rd_content := Some content;
                   rd_id := Some id |}) None).

(** The hook after a snapshot with two assistant messages. *)
Definition twoAssistants : Hook :=
  processEvent uuid
    (messagesSnapshot [assistantMessage "a1" "one"; assistantMessage "a2" "two"])
    initialHook.

End Sample.

(** ** Vocabulary of the properties *)

(** The event types that [reduce] has a branch for. *)
Definition handledTypes : list string := [
  EventType.RUN_STARTED; EventType.RUN_FINISHED; EventType.RUN_ERROR;
  EventType.TEXT_MESSAGE_START; EventType.TEXT_MESSAGE_CONTENT;
  EventType.TEXT_MESSAGE_END; EventType.TOOL_CALL_START;
  EventType.TOOL_CALL_ARGS; EventType.TOOL_CALL_END;
  EventType.TOOL_CALL_RESULT; EventType.STATE_SNAPSHOT;
  EventType.STATE_DELTA; EventType.MESSAGES_SNAPSHOT;
  EventType.ACTIVITY_SNAPSHOT; EventType.ACTIVITY_DELTA;
  EventType.STEP_STARTED; EventType.STEP_FINISHED; EventType.RAW;
  EventType.META ].

(** The delays of the timers scheduled in a log, oldest first. *)
Definition scheduledDelays (log : list Effect) : list Z :=
  omap (λ eff, match eff with SetTimeout tm => Some (tm_delay tm) | _ => None end) log.

(** An action other than a successful open. *)
Definition notOpened (a : Action) : Prop :=
  match a with Opened _ => False | _ => True end.

(** The delays of the timers scheduled between two hooks of one run. *)
Definition delaysSince (h h' : Hook) : list Z :=
  drop (length (scheduledDelays (effects h))) (scheduledDelays (effects h')).

(** Two hooks with the same reconnect counter and the same timers. *)
Definition sameChannel (h h' : Hook) : Prop :=
  reconnectAttemptsRef h' = reconnectAttemptsRef h
  ∧ scheduledDelays (effects h') = scheduledDelays (effects h).

(** The tool calls attached to committed messages, in order. *)
Definition committedToolCalls (s : AGUIClientState) : list PlatformToolCall :=
  messages s ≫= toolCallsOf.

(** The tool calls of the children buffered in [pendingChildren]. *)
Definition bufferedToolCalls (s : AGUIClientState) : list PlatformToolCall :=
  pendingChildren s ≫= λ entry, entry.2 ≫= toolCallsOf.

(** The tool call id an event carries, if it carries one: an empty
    [toolCallId] is falsy, like an absent one. *)
Definition eventToolCallId (e : PlatformEvent) : option string :=
  if JS.truthy (ev_toolCallId e) then Some (ev_toolCallId e) else None.

(** [{ ...tc, result: content, status: 'completed' }]. *)
Definition withResult (content : string) (tc : PlatformToolCall) : PlatformToolCall :=
  tc_set_status (Some StCompleted) (tc_set_result (Some content) tc).

(** A tool-start event. *)
Definition toolStartEvent (timestamp : option Z) (id name : string)
    (parentMessageId parentToolCallId : option string) : PlatformEvent := {|
  ev_type := EventType.TOOL_CALL_START;
  ev_timestamp := timestamp;
  ev_body := BTool id name parentMessageId parentToolCallId EmptyString EmptyString |}.

(** A tool-end event. *)
Definition toolEndEvent (timestamp : option Z) (id : string) : PlatformEvent := {|
  ev_type := EventType.TOOL_CALL_END;
  ev_timestamp := timestamp;
  ev_body := BTool id EmptyString None None EmptyString EmptyString |}.

(** The number of committed tool calls with a given id. *)
Definition committedCount (id : string) (s : AGUIClientState) : nat :=
  length (List.filter (λ tc, bool_decide (tc_id tc = id)) (committedToolCalls s)).

(** [m'] is [m] with other tool calls. *)
Definition sameHeader (m m' : PlatformMessage) : Prop :=
  ∃ tcs, m' = msg_set_toolCalls tcs m.

(** [l'] is [l] with some droppable messages left out and the tool calls of
    the others changed. *)
Inductive Pruned (droppable : PlatformMessage → Prop)
    : list PlatformMessage → list PlatformMessage → Prop :=
  | Pruned_nil : Pruned droppable [] []
  | Pruned_drop m l l' :
      droppable m → Pruned droppable l l' → Pruned droppable (m :: l) l'
  | Pruned_keep m m' l l' :
      sameHeader m m' → Pruned droppable l l' →
      Pruned droppable (m :: l) (m' :: l').

(** A tool call with a final status. *)
Definition settled (tc : PlatformToolCall) : Prop :=
  tc_status tc = Some StCompleted ∨ tc_status tc = Some StError.

(** Every tool call with the given id in a list has a final status. *)
Definition settledIn (id : string) (tcs : list PlatformToolCall) : Prop :=
  ∀ tc, tc ∈ tcs → tc_id tc = id → settled tc.

(** Every committed or buffered tool call with the given id has a final
    status. *)
Definition settledState (id : string) (s : AGUIClientState) : Prop :=
  settledIn id (committedToolCalls s) ∧ settledIn id (bufferedToolCalls s).

(** [tc'] has the id and the status of [tc]. *)
Definition sameIdStatus (tc tc' : PlatformToolCall) : Prop :=
  tc_id tc' = tc_id tc ∧ tc_status tc' = tc_status tc.

(** [tc] is marked completed, or has the id and status of a tool call of
    [sources]. *)
Definition derivedFrom (sources : list PlatformToolCall) (tc : PlatformToolCall) : Prop :=
  tc_status tc = Some StCompleted
  ∨ ∃ src, src ∈ sources ∧ sameIdStatus src tc.

(** In the list of ids [l], some [x] comes after some [y]. *)
Definition positionedAfter (x y : string) (l : list string) : Prop :=
  [y; x] `sublist_of` l.

(** The ids of a list of messages, in order. *)
Definition idsOf (ms : list PlatformMessage) : list string := msg_id <$> ms.

(** The loop of step 3 keeps every message but for its tool calls, and
    only marks tool results for removal. *)
Definition normalizeInv (l : list PlatformMessage)
    (acc : list PlatformMessage * gset nat) : Prop :=
  Forall2 sameHeader l acc.1
  ∧ ∀ i, i ∈ acc.2 → ∃ m, l !! i = Some m ∧ isToolResult m = true.


(** The messages that may vanish between the snapshot and its normal form. *)
Definition droppable (hidden : gset string) (m : PlatformMessage) : Prop :=
  msg_id m ∈ hidden ∨ isToolResult m = true.


(** [tc] has the id and status of a tool call of [sources]. *)
Definition fromSources (sources : list PlatformToolCall) (tc : PlatformToolCall) : Prop :=
  ∃ src, src ∈ sources ∧ sameIdStatus src tc.

(** What a slot of the merge stands for, for the known message [m]. *)
Definition slotFor (normalized : list PlatformMessage) (m : PlatformMessage)
    (slot : MergeSlot) : Prop :=
  match slot with
  | SlotKeep m0 => m0 = m
  | SlotSnapshot k | SlotMerged k _ =>
      ∃ sv, normalized !! k = Some sv ∧ msg_id sv = msg_id m
  end.

(** The tool calls a slot brings along come from the sources. *)
Definition slotSources (sources : list PlatformToolCall) (slot : MergeSlot) : Prop :=
  match slot with
  | SlotKeep m0 => ∀ tc, tc ∈ toolCallsOf m0 → fromSources sources tc
  | SlotSnapshot _ => True
  | SlotMerged _ own => ∀ tc, tc ∈ own → fromSources sources tc
  end.

(** A known message after the merge: itself, or a snapshot message with the
    same id, up to tool calls. *)
Definition mergedFrom (normalized : list PlatformMessage) (m m' : PlatformMessage) : Prop :=
  m' = m ∨ ∃ sv, sv ∈ normalized ∧ msg_id sv = msg_id m ∧ sameHeader sv m'.

(** The invariant of the merge loop, after the known messages [done]. *)
Definition mergeInv (sources : list PlatformToolCall)
    (normalized done : list PlatformMessage)
    (acc : list PlatformMessage * list MergeSlot) : Prop :=
  Forall2 sameHeader normalized acc.1
  ∧ Forall2 (slotFor normalized) done acc.2
  ∧ (∀ tc, tc ∈ acc.1 ≫= toolCallsOf → fromSources sources tc)
  ∧ Forall (slotSources sources) acc.2.


(** A known message after a snapshot merge: itself, or a visible snapshot
    message with the same id, up to tool calls. *)
Definition mergedFromSnapshot (hidden : gset string) (snapshot : list PlatformMessage)
    (m m' : PlatformMessage) : Prop :=
  m' = m
  ∨ ∃ sv, sv ∈ snapshot ∧ (msg_id sv ∉ hidden) ∧ msg_id sv = msg_id m ∧ sameHeader sv m'.

(** All tool calls of a state: committed and buffered. *)
Definition allToolCalls (s : AGUIClientState) : list PlatformToolCall :=
  committedToolCalls s ++ bufferedToolCalls s.

(** Every tool call of [s'] is marked completed or has the id and status of
    a tool call of [s]. *)
Definition statusKept (s s' : AGUIClientState) : Prop :=
  ∀ tc, tc ∈ allToolCalls s' → derivedFrom (allToolCalls s) tc.

(** The message that a tool call without a parent tool call is attached
    to is the last of those its start event aims at: the messages with the
    id [parentMessageId] when the event names one, the assistant messages
    when it names none. *)
Definition aimedAt (start : PlatformEvent) (m : PlatformMessage) : Prop :=
  if JS.truthyO (ev_parentMessageId start)
  then Some (msg_id m) = ev_parentMessageId start
  else msg_role m = "assistant".

(** The start event names no parent tool call: it has no
    [parent_tool_call_id], and its [parentMessageId], if any, is not the id
    of a pending or committed tool call. *)
Definition namesNoParentTool (start : PlatformEvent) (s : AGUIClientState) : Prop :=
  ev_parent_tool_call_id start = None
  ∧ ∀ pm, ev_parentMessageId start = Some pm → pm ≠ EmptyString →
      JSMap.get pm (pendingToolCalls s) = None
      ∧ ∀ tc, tc ∈ committedToolCalls s → tc_id tc ≠ pm.

(** The snapshot as the merge reads it: without the messages with a hidden
    id, and normalised (tool-result messages folded into their tool
    calls). *)
Definition snapshotAsRead (hidden : gset string) (e : PlatformEvent)
    : list PlatformMessage :=
  normalizeSnapshotMessages
    (List.filter (λ msg, negb (bool_decide (msg_id msg ∈ hidden))) (ev_messages e)).

(** Along a run of events, every messages snapshot gives, as the merge
    reads it at that point of the run, a final status to each of its tool
    calls with the given id. *)
Fixpoint snapshotsSettled (uuid : nat → string) (id : string)
    (es : list PlatformEvent) (h : Hook) : Prop :=
  match es with
  | [] => True
  | e :: es' =>
      (ev_type e = EventType.MESSAGES_SNAPSHOT →
       settledIn id (snapshotAsRead (hiddenMessageIdsRef h) e ≫= toolCallsOf))
      ∧ snapshotsSettled uuid id es' (processEvent uuid e h)
  end.

(** The ids of the tool calls of a message. *)
Definition toolIdsOf (m : PlatformMessage) : list string := tc_id <$> toolCallsOf m.

(** The condition of line 675 under which the merge combines the tool
    calls of a known message with those of its snapshot version. *)
Definition mergesToolCalls (m sv : PlatformMessage) : Prop :=
  msg_role m = "assistant" ∧ toolCallsOf m ≠ [] ∧ toolCallsOf sv ≠ [].

(** What a slot of the merge keeps of the tool calls of the known message
    [m]. *)
Definition coveredBy (normalized : list PlatformMessage) (m : PlatformMessage)
    (slot : MergeSlot) : Prop :=
  match slot with
  | SlotKeep m0 => m0 = m
  | SlotSnapshot k =>
      ∃ sv, normalized !! k = Some sv ∧ msg_id sv = msg_id m ∧ ¬ mergesToolCalls m sv
  | SlotMerged k own =>
      ∃ sv, normalized !! k = Some sv ∧ msg_id sv = msg_id m
            ∧ ∀ tc, tc ∈ toolCallsOf m →
                tc_id tc ∈ toolIdsOf sv ∨ tc_id tc ∈ (tc_id <$> own)
  end.

(** The second invariant of the merge loop: the store keeps the ids of the
    snapshot's tool calls, and every slot covers its known message. *)
Definition coverInv (normalized done : list PlatformMessage)
    (acc : list PlatformMessage * list MergeSlot) : Prop :=
  Forall2 (λ n s, sameHeader n s ∧ toolIdsOf s = toolIdsOf n) normalized acc.1
  ∧ Forall2 (coveredBy normalized) done acc.2.

(** ** Vocabulary for the properties of the remaining code *)

(** The log entries that reach outside the hook's own callbacks:
    connections, timers and HTTP requests. *)
Definition isRequest (eff : Effect) : bool :=
  match eff with
  | NewEventSource _ | CloseEventSource _ | SetTimeout _ | ClearTimeout _
  | FetchRun _ _ _ _ | FetchInterrupt _ => true
  | _ => false
  end.

Definition requests (log : list Effect) : list Effect := List.filter isRequest log.

(** The event types whose branch can take messages out of the list or put
    them elsewhere than at the end. *)
Definition rewritesMessages (e : PlatformEvent) : Prop :=
  ev_type e = EventType.MESSAGES_SNAPSHOT ∨ ev_type e = EventType.RAW.

(** The message id that a [RAW] event hides, if it hides one
    ([type: 'message_metadata'], [hidden] and a non-empty [messageId]). *)
Definition hiddenBy (e : PlatformEvent) : option string :=
  if bool_decide (ev_type e = EventType.RAW) then
    match ev_rawData e with
    | Some rawData =>
        if bool_decide (rd_type rawData = Some "message_metadata") && rd_hidden rawData
           && JS.truthyO (rd_messageId rawData)
        then rd_messageId rawData
        else None
    | None => None
    end
  else None.

(** The text of a sequence of deltas. *)
Definition joinDeltas (deltas : list string) : string :=
  foldr String.append EmptyString deltas.

(** The message under construction after a text-start event and the given
    text. *)
Definition streamingMessage (start : PlatformEvent) (text : string) : CurrentMessage := {|
  cm_id := if JS.truthy (ev_messageId start) then Some (ev_messageId start) else None;
  cm_role := ev_role start;
  cm_content := text;
  cm_timestamp := Some (timestampString start) |}.

(** The parent tool call that [TOOL_CALL_START] settles on (lines 354-369):
    [parent_tool_call_id], or else [parentMessageId] when it names a pending
    or committed tool call. *)
Definition effectiveParentToolId (e : PlatformEvent) (s : AGUIClientState) : option string :=
  if negb (JS.truthyO (ev_parent_tool_call_id e)) && JS.truthyO (ev_parentMessageId e) then
    let pm := default EmptyString (ev_parentMessageId e) in
    if JSMap.has pm (pendingToolCalls s) then ev_parentMessageId e
    else if JS.some (msgHasToolCall pm) (messages s) then ev_parentMessageId e
    else ev_parent_tool_call_id e
  else ev_parent_tool_call_id e.

(** The pending record and the [currentToolCall] of a tool call that has
    started in state [s] and has received the arguments [args]. *)
Definition pendingRecord (start : PlatformEvent) (s : AGUIClientState) (args : string)
    : PendingToolCall := {|
  pt_id := ev_toolCallId start;
  pt_name := JS.orS (Some (ev_toolCallName start)) "unknown_tool";
  pt_args := args;
  pt_parentToolUseId := effectiveParentToolId start s;
  pt_parentMessageId := ev_parentMessageId start;
  pt_timestamp := Some (timestampString start) |}.

Definition startedToolCall (start : PlatformEvent) (s : AGUIClientState) (args : string)
    : CurrentToolCall := {|
  ct_id := Some (ev_toolCallId start);
  ct_name := Some (ev_toolCallName start);
  ct_args := args;
  ct_parentToolUseId := effectiveParentToolId start s |}.

(** An arguments event of the tool call [tid]. *)
Definition argsEventOf (tid : string) (e : PlatformEvent) : Prop :=
  ev_type e = EventType.TOOL_CALL_ARGS ∧ ev_toolCallId e = tid.


(** The activity ids that a list of patches names. *)
Definition patchedIds (patches : list PlatformActivityPatch) : list string :=
  (λ p, act_id (ap_activity p)) <$> patches.

(** The activities that none of the patches names. *)
Definition untouchedBy (patches : list PlatformActivityPatch)
    (acts : list PlatformActivity) : list PlatformActivity :=
  List.filter (λ a, negb (bool_decide (act_id a ∈ patchedIds patches))) acts.

(** An action other than the mount effect. *)
Definition notMount (a : Action) : Prop :=
  match a with Mount => False | _ => True end.

(** The handles of the event sources that a log opens and does not close
    afterwards, oldest first. *)
Definition trackSource (open : list nat) (eff : Effect) : list nat :=
  match eff with
  | NewEventSource es => open ++ [es_handle es]
  | CloseEventSource handle => List.filter (λ k, negb (bool_decide (k = handle))) open
  | _ => open
  end.

Definition openSources (log : list Effect) : list nat := fold_left trackSource log [].

(** The event sources left open are the one the hook holds, if it holds
    one. *)
Definition connectionsTracked (h : Hook) : Prop :=
  openSources (effects h)
  = match eventSourceRef h with
    | Some es => [es_handle es]
    | None => []
    end.

(** The event types of the run lifecycle. *)
Definition runLifecycle (e : PlatformEvent) : Prop :=
  ev_type e = EventType.RUN_STARTED ∨ ev_type e = EventType.RUN_FINISHED
  ∨ ev_type e = EventType.RUN_ERROR.

(** Every event source the log has opened was numbered before the next
    object the hook will create. *)
Definition sourcesNumbered (h : Hook) : Prop :=
  ∀ es, NewEventSource es ∈ effects h → es_handle es < handleCount h.

(** A [RAW] event that echoes a user message: no [type], the role
    ['user'], the given content and the given id. *)
Definition userEcho (mid content : string) (e : PlatformEvent) : Prop :=
  ev_type e = EventType.RAW
  ∧ ∃ rawData, ev_rawData e = Some rawData
      ∧ rd_type rawData = None ∧ rd_role rawData = Some "user"
      ∧ rd_content rawData = Some content ∧ rd_id rawData = Some mid.

(** The event sources a log has opened, oldest first. *)
Definition openedSources (log : list Effect) : list EventSource :=
  omap (λ eff, match eff with NewEventSource es => Some es | _ => None end) log.

(** The actions in which the caller asks for a connection: a call of
    [connect], and a [sendMessage] whose request has succeeded. *)
Definition asksToConnect (a : Action) : Prop :=
  match a with
  | Connect _ | SendMessageSettled (RunOk _) => True
  | _ => False
  end.

(** ** Proof automation *)

(** Case analysis on a scrutinee that has no [match] inside. *)
Ltac case_inner :=
  match goal with
  | |- context [match ?x with _ => _ end] =>
      lazymatch x with
      | context [match _ with _ => _ end] => fail
      | _ => destruct x eqn:?
      end
  end.

Ltac unfold_handlers :=
  unfold onRunStarted, onRunFinished, onRunError, onTextMessageStart,
    onTextMessageContent, onTextMessageEnd, onToolCallStart, onToolCallArgs,
    onToolCallEnd, onToolCallResult, onStateSnapshot, onStateDelta,
    onMessagesSnapshot, onActivitySnapshot, onActivityDelta, onStepStarted,
    onStepFinished, onRaw, onMeta, randomUUID.

(** Reduction of record projections applied to field updates, and nothing
    else. *)
Ltac proj_simpl :=
  cbn [hk_state isRunActive hiddenMessageIdsRef currentRunIdRef eventSourceRef
       reconnectTimeoutRef reconnectAttemptsRef mountedRef uuidCount handleCount
       effects setState emit set_hk_state set_isRunActive set_hiddenMessageIdsRef
       set_currentRunIdRef set_eventSourceRef set_reconnectTimeoutRef
       set_reconnectAttemptsRef set_mountedRef set_uuidCount set_handleCount
       set_effects
       threadId runId status messages state activities currentMessage
       currentToolCall pendingToolCalls pendingChildren error messageFeedback
       set_threadId set_runId set_status set_messages set_state set_activities
       set_currentMessage set_currentToolCall set_pendingToolCalls
       set_pendingChildren set_error set_messageFeedback].

Tactic Notation "proj_simpl" "in" hyp(H) :=
  cbn [hk_state isRunActive hiddenMessageIdsRef currentRunIdRef eventSourceRef
       reconnectTimeoutRef reconnectAttemptsRef mountedRef uuidCount handleCount
       effects setState emit set_hk_state set_isRunActive set_hiddenMessageIdsRef
       set_currentRunIdRef set_eventSourceRef set_reconnectTimeoutRef
       set_reconnectAttemptsRef set_mountedRef set_uuidCount set_handleCount
       set_effects
       threadId runId status messages state activities currentMessage
       currentToolCall pendingToolCalls pendingChildren error messageFeedback
       set_threadId set_runId set_status set_messages set_state set_activities
       set_currentMessage set_currentToolCall set_pendingToolCalls
       set_pendingChildren set_error set_messageFeedback] in H.

(** Case analysis on membership in a list that is given element by
    element. *)
Ltac list_cases H :=
  repeat first
    [ apply elem_of_nil in H; destruct H
    | apply elem_of_cons in H; destruct H as [H|H]; [subst|] ].

(** An event source of a log that grew by a few known effects: it is one of
    the new effects, or it was in the log before. *)
Ltac numbered Hnum :=
  let Hin := fresh "Hin" in
  rewrite ?elem_of_app, ?list_elem_of_singleton; intros Hin;
  repeat (destruct Hin as [Hin|Hin];
          [|first [discriminate Hin | (injection Hin as ->; cbn; lia)]]);
  specialize (Hnum _ Hin); cbn in *; lia.

(** * Lemmas on the JavaScript helpers *)

Section JSLemmas.

Context {A : Type}.
Implicit Types (f : A → bool) (l : list A).

Lemma findIndex_Some f l i :
  JS.findIndex f l = Some i →
  ∃ x, l !! i = Some x ∧ f x = true ∧ ∀ j y, j < i → l !! j = Some y → f y = false.
Proof.
  revert i. induction l as [|a l IH]; intros i; cbn; [done|].
  destruct (f a) eqn:Hfa.
  - intros [= <-]. exists a. split; [done|]. split; [done|]. intros; lia.
  - destruct (JS.findIndex f l) as [k|]; cbn; [|done].
    intros [= <-]. destruct (IH k eq_refl) as (x & Hx & Hfx & Hlt).
    exists x. split; [done|]. split; [done|].
    intros [|j] y Hj; cbn; [by intros [= <-]|]. apply Hlt. lia.
Qed.

Lemma findIndex_None f l :
  JS.findIndex f l = None ↔ ∀ x, x ∈ l → f x = false.
Proof.
  induction l as [|a l IH]; cbn.
  - split; [|done]. intros _ x Hx. by apply elem_of_nil in Hx.
  - destruct (f a) eqn:Hfa.
    + split; [done|]. intros H. specialize (H a (list_elem_of_here _ _)). congruence.
    + destruct (JS.findIndex f l); cbn.
      * split; [done|]. intros H.
        assert (Hn : Some n = None); [|done].
        apply IH. intros x Hx. apply H. by apply list_elem_of_further.
      * split; [|done]. intros _ x Hx. apply elem_of_cons in Hx as [->|Hx]; [done|].
        by apply IH.
Qed.

Lemma findIndex_is_Some f l x :
  x ∈ l → f x = true → is_Some (JS.findIndex f l).
Proof.
  intros Hx Hf. destruct (JS.findIndex f l) eqn:E; [done|].
  rewrite findIndex_None in E. rewrite (E x Hx) in Hf. done.
Qed.

Lemma findLastIndex_Some f l i :
  JS.findLastIndex f l = Some i →
  ∃ x, l !! i = Some x ∧ f x = true ∧ ∀ j y, i < j → l !! j = Some y → f y = false.
Proof.
  revert i. induction l as [|a l IH]; intros i; cbn; [done|].
  destruct (JS.findLastIndex f l) as [k|] eqn:E.
  - intros [= <-]. destruct (IH k eq_refl) as (x & Hx & Hfx & Hgt).
    exists x. split; [done|]. split; [done|].
    intros [|j] y Hj; [lia|]. cbn. apply Hgt. lia.
  - destruct (f a) eqn:Hfa; [|done]. intros [= <-].
    exists a. split; [done|]. split; [done|].
    intros [|j] y Hj; [lia|]. cbn. intros Hy.
    clear IH. revert j y Hj Hy E. induction l as [|b l IHl]; intros j y Hj Hy E; [done|].
    cbn in E. destruct (JS.findLastIndex f l) eqn:E'; [done|].
    destruct (f b) eqn:Hfb; [done|].
    destruct j as [|j]; cbn in Hy; [congruence|].
    eapply (IHl j); [lia|done|done].
Qed.

Lemma findLastIndex_None f l :
  JS.findLastIndex f l = None ↔ ∀ x, x ∈ l → f x = false.
Proof.
  induction l as [|a l IH]; cbn.
  - split; [|done]. intros _ x Hx. by apply elem_of_nil in Hx.
  - destruct (JS.findLastIndex f l) eqn:E.
    + split; [done|]. intros H.
      assert (Hn : ∀ x, x ∈ l → f x = false).
      { intros x Hx. apply H. by apply list_elem_of_further. }
      apply IH in Hn. done.
    + destruct (f a) eqn:Hfa.
      * split; [done|]. intros H. specialize (H a (list_elem_of_here _ _)). congruence.
      * split; [|done]. intros _ x Hx. apply elem_of_cons in Hx as [->|Hx]; [done|].
        by apply IH.
Qed.

Lemma findLastIndex_is_Some f l x :
  x ∈ l → f x = true → is_Some (JS.findLastIndex f l).
Proof.
  intros Hx Hf. destruct (JS.findLastIndex f l) eqn:E; [done|].
  rewrite findLastIndex_None in E. rewrite (E x Hx) in Hf. done.
Qed.

Lemma some_true f l : JS.some f l = true ↔ ∃ x, x ∈ l ∧ f x = true.
Proof.
  unfold JS.some. rewrite existsb_exists. setoid_rewrite list_elem_of_In. done.
Qed.

Lemma some_false f l : JS.some f l = false ↔ ∀ x, x ∈ l → f x = false.
Proof.
  rewrite <- not_true_iff_false, some_true. split.
  - intros H x Hx. destruct (f x) eqn:E; [|done]. destruct H. eauto.
  - intros H (x & Hx & Hf). rewrite (H x Hx) in Hf. done.
Qed.

Lemma alter_insert (g : A → A) l i x :
  l !! i = Some x → alter g i l = <[i := g x]> l.
Proof.
  revert i. induction l as [|a l IH]; intros [|i]; cbn; try done.
  - by intros [= ->].
  - intros H. f_equal. by apply IH.
Qed.

End JSLemmas.

Lemma orS_Some_empty (c : string) : JS.orS (Some c) EmptyString = c.
Proof.
  unfold JS.orS, JS.truthy. case_bool_decide as H; [done|].
  destruct (decide (c = EmptyString)) as [->|]; [done|]. by destruct H.
Qed.

Lemma hasToolCall_true (id : string) (tcs : list PlatformToolCall) :
  hasToolCall id tcs = true ↔ ∃ tc, tc ∈ tcs ∧ tc_id tc = id.
Proof.
  unfold hasToolCall. rewrite some_true.
  split; intros (tc & ? & Hid); exists tc; split; try done.
  - by apply bool_decide_eq_true in Hid.
  - by apply bool_decide_eq_true.
Qed.

Lemma msgHasToolCall_true (id : string) (m : PlatformMessage) :
  msgHasToolCall id m = true ↔ ∃ tc, tc ∈ toolCallsOf m ∧ tc_id tc = id.
Proof.
  unfold msgHasToolCall, toolCallsOf. destruct (msg_toolCalls m); cbn.
  - apply hasToolCall_true.
  - split; [done|]. intros (tc & Htc & _). by apply elem_of_nil in Htc.
Qed.

Lemma msgHasToolCall_toolCalls (id : string) (m : PlatformMessage) :
  msgHasToolCall id m = true → ∃ tcs, msg_toolCalls m = Some tcs.
Proof. unfold msgHasToolCall. destruct (msg_toolCalls m); eauto. done. Qed.

(** ** Lemmas on [JSMap] *)

Section JSMapLemmas.

Context {V : Type}.
Implicit Types (m : JSMap.t V) (k : string) (v : V).

Lemma JSMap_get_set_eq k v m : JSMap.get k (JSMap.set k v m) = Some v.
Proof.
  unfold JSMap.get. induction m as [|[k' v'] m IH]; cbn.
  - by rewrite bool_decide_eq_true_2.
  - case_bool_decide; cbn.
    + by rewrite bool_decide_eq_true_2.
    + by rewrite bool_decide_eq_false_2.
Qed.

Lemma JSMap_get_set_ne k k' v m :
  k ≠ k' → JSMap.get k (JSMap.set k' v m) = JSMap.get k m.
Proof.
  intros Hne. unfold JSMap.get. induction m as [|[k0 v0] m IH]; cbn.
  - by rewrite bool_decide_eq_false_2.
  - case_bool_decide as H0; cbn.
    + subst k0. by rewrite !bool_decide_eq_false_2.
    + case_bool_decide; [done|]. apply IH.
Qed.

Lemma JSMap_get_delete_eq k m : JSMap.get k (JSMap.delete k m) = None.
Proof.
  unfold JSMap.get, JSMap.delete. induction m as [|[k0 v0] m IH]; cbn; [done|].
  case_bool_decide; cbn; [done|]. by rewrite bool_decide_eq_false_2.
Qed.

Lemma JSMap_get_delete_ne k k' m :
  k ≠ k' → JSMap.get k (JSMap.delete k' m) = JSMap.get k m.
Proof.
  intros Hne. unfold JSMap.get, JSMap.delete.
  induction m as [|[k0 v0] m IH]; cbn; [done|].
  case_bool_decide as H0; cbn.
  - subst k0. by rewrite bool_decide_eq_false_2.
  - case_bool_decide; [done|]. apply IH.
Qed.

Lemma JSMap_has_get k m :
  JSMap.has k m = match JSMap.get k m with Some _ => true | None => false end.
Proof.
  unfold JSMap.has, JSMap.get. induction m as [|[k0 v0] m IH]; cbn; [done|].
  destruct (bool_decide (k0 = k)); cbn; [done|]. apply IH.
Qed.

Lemma JSMap_elem_of_delete k m (entry : string * V) :
  entry ∈ JSMap.delete k m ↔ entry ∈ m ∧ entry.1 ≠ k.
Proof.
  unfold JSMap.delete. rewrite !list_elem_of_In, filter_In.
  rewrite negb_true_iff, bool_decide_eq_false. done.
Qed.

Lemma JSMap_elem_of_set k v m (entry : string * V) :
  entry ∈ JSMap.set k v m → entry = (k, v) ∨ entry ∈ m.
Proof.
  induction m as [|[k0 v0] m IH]; cbn.
  - intros Hin. apply list_elem_of_singleton in Hin. by left.
  - case_bool_decide.
    + intros Hin. apply elem_of_cons in Hin as [->|Hin]; [by left|].
      right. by apply list_elem_of_further.
    + intros Hin. apply elem_of_cons in Hin as [->|Hin].
      * right. apply list_elem_of_here.
      * destruct (IH Hin) as [->|?]; [by left|]. right. by apply list_elem_of_further.
Qed.

Lemma JSMap_get_elem_of k v m : JSMap.get k m = Some v → (k, v) ∈ m.
Proof.
  unfold JSMap.get. induction m as [|[k0 v0] m IH]; cbn; [done|].
  case_bool_decide as H; cbn in *.
  - intros [= ->]. subst k0. apply list_elem_of_here.
  - intros Hg. apply list_elem_of_further. by apply IH.
Qed.

End JSMapLemmas.

Lemma truthy_true (s : string) : s ≠ EmptyString → JS.truthy s = true.
Proof. intros H. unfold JS.truthy. by apply bool_decide_eq_true. Qed.

Lemma truthy_true_inv (s : string) : JS.truthy s = true → s ≠ EmptyString.
Proof. unfold JS.truthy. by intros H%bool_decide_eq_true. Qed.

Lemma orO_truthy (p : string) (x : option string) :
  JS.truthy p = true → JS.orO (Some p) x = Some p.
Proof. intros H. unfold JS.orO. cbn. by rewrite H. Qed.

Lemma orO_None (x : option string) : JS.orO None x = x.
Proof. reflexivity. Qed.

Lemma orS_orO_None (x d : string) :
  JS.orS (JS.orO (Some x) None) d = JS.orS (Some x) d.
Proof.
  unfold JS.orS, JS.orO, JS.truthyO.
  destruct (JS.truthy x) eqn:E; [by rewrite E|done].
Qed.

Lemma some_msgHasToolCall_false (id : string) (ms : list PlatformMessage)
    (m : PlatformMessage) :
  JS.some (msgHasToolCall id) ms = false → m ∈ ms →
  hasToolCall id (toolCallsOf m) = false.
Proof.
  intros Hsome Hm. rewrite some_false in Hsome. specialize (Hsome m Hm).
  unfold msgHasToolCall, toolCallsOf in *. by destruct (msg_toolCalls m).
Qed.

(** * Properties *)

Section Properties.

Variable uuid : nat → string.
Variable sessionName : string.

(** ** Unknown events *)

(** C8.  An event whose [type] is none of the types the reducer has a
    branch for leaves the conversation state as it was, in every field;
    the hook only records the [onEvent] callback. *)
Theorem unknown_event_is_noop (e : PlatformEvent) (h : Hook) :
  ev_type e ∉ handledTypes →
  let h' := processEvent uuid e h in
  hk_state h' = hk_state h
  ∧ messages (hk_state h') = messages (hk_state h)
  ∧ activities (hk_state h') = activities (hk_state h)
  ∧ state (hk_state h') = state (hk_state h)
  ∧ pendingToolCalls (hk_state h') = pendingToolCalls (hk_state h)
  ∧ pendingChildren (hk_state h') = pendingChildren (hk_state h)
  ∧ currentMessage (hk_state h') = currentMessage (hk_state h)
  ∧ messageFeedback (hk_state h') = messageFeedback (hk_state h)
  ∧ status (hk_state h') = status (hk_state h)
  ∧ error (hk_state h') = error (hk_state h)
  ∧ h' = emit (OnEvent (ev_type e)) h.
Proof.
  intros Hty h'.
  assert (Hred : h' = emit (OnEvent (ev_type e)) h).
  { unfold h', processEvent, reduce, handledTypes in *.
    rewrite !not_elem_of_cons in Hty. destruct_and!.
    rewrite !bool_decide_eq_false_2 by done. reflexivity. }
  rewrite Hred. simpl. repeat split.
Qed.

(** ** Text end without content *)

(** C9.  When no message is being streamed, or the streamed message has no
    content yet, a text-end event commits nothing: the messages are the same,
    [currentMessage] is null afterwards, and neither the hidden set nor the
    known ids are consulted (no id is drawn, no [onMessage] callback fires,
    and the outcome is the same for every hidden set and message list). *)
Theorem text_end_without_content (e : PlatformEvent) (h : Hook) :
  ev_type e = EventType.TEXT_MESSAGE_END →
  match currentMessage (hk_state h) with
  | Some cm => cm_content cm = EmptyString
  | None => True
  end →
  let h' := processEvent uuid e h in
  messages (hk_state h') = messages (hk_state h)
  ∧ currentMessage (hk_state h') = None
  ∧ hk_state h' = set_currentMessage None (hk_state h)
  ∧ uuidCount h' = uuidCount h
  ∧ effects h' = effects h ++ [OnEvent (ev_type e)].
Proof.
  intros Hty Hcm h'.
  assert (Hred : h' = setState (set_currentMessage None) (emit (OnEvent (ev_type e)) h)).
  { unfold h', processEvent, reduce. rewrite Hty. simpl.
    unfold onTextMessageEnd. simpl.
    destruct (currentMessage (hk_state h)) as [cm|]; [|reflexivity].
    rewrite Hcm. reflexivity. }
  rewrite Hred. simpl. repeat split.
Qed.

(** ** Dispatch on the event type *)

Lemma processEvent_tool_call_start (e : PlatformEvent) (h : Hook) :
  ev_type e = EventType.TOOL_CALL_START →
  processEvent uuid e h = onToolCallStart e (emit (OnEvent (ev_type e)) h).
Proof. intros Hty. unfold processEvent, reduce. rewrite Hty. reflexivity. Qed.

Lemma processEvent_tool_call_end (e : PlatformEvent) (h : Hook) :
  ev_type e = EventType.TOOL_CALL_END →
  processEvent uuid e h = onToolCallEnd uuid e (emit (OnEvent (ev_type e)) h).
Proof. intros Hty. unfold processEvent, reduce. rewrite Hty. reflexivity. Qed.

Lemma processEvent_messages_snapshot (e : PlatformEvent) (h : Hook) :
  ev_type e = EventType.MESSAGES_SNAPSHOT →
  processEvent uuid e h = onMessagesSnapshot e (emit (OnEvent (ev_type e)) h).
Proof. intros Hty. unfold processEvent, reduce. rewrite Hty. reflexivity. Qed.

(** ** Reconnect backoff *)

Lemma scheduledDelays_app (l1 l2 : list Effect) :
  scheduledDelays (l1 ++ l2) = scheduledDelays l1 ++ scheduledDelays l2.
Proof. apply omap_app. Qed.

Lemma sameChannel_refl (h : Hook) : sameChannel h h.
Proof. by split. Qed.

Lemma sameChannel_trans (h1 h2 h3 : Hook) :
  sameChannel h1 h2 → sameChannel h2 h3 → sameChannel h1 h3.
Proof. intros [? ?] [? ?]. split; congruence. Qed.

(** The reducer neither touches the reconnect counter nor schedules timers. *)
Lemma reduce_sameChannel (e : PlatformEvent) (h : Hook) :
  sameChannel h (reduce uuid e h).
Proof.
  unfold reduce.
  repeat case_inner; try apply sameChannel_refl.
  all: unfold sameChannel; unfold_handlers.
  all: cbn [hk_state setState set_hk_state].
  all: repeat case_inner.
  all: cbn; rewrite ?scheduledDelays_app; cbn; rewrite ?app_nil_r; by split.
Qed.

Lemma processEvent_sameChannel (e : PlatformEvent) (h : Hook) :
  sameChannel h (processEvent uuid e h).
Proof.
  unfold processEvent.
  eapply sameChannel_trans; [|apply reduce_sameChannel].
  split; cbn; [done|]. rewrite scheduledDelays_app. cbn. by rewrite app_nil_r.
Qed.

Lemma connect_sameChannel (r : option string) (h : Hook) :
  sameChannel h (connect r h).
Proof.
  unfold connect, sameChannel. destruct (eventSourceRef h); cbn;
    rewrite ?scheduledDelays_app; cbn; rewrite ?app_nil_r; by split.
Qed.

(** What one action other than an open does to the counter and the timers:
    nothing, or one more attempt and one timer with the delay of that
    attempt. *)
Lemma step_backoff (h : Hook) (a : Action) :
  notOpened a →
  let h' := step uuid sessionName h a in
  sameChannel h h'
  ∨ (reconnectAttemptsRef h' = S (reconnectAttemptsRef h)
     ∧ scheduledDelays (effects h')
       = scheduledDelays (effects h) ++ [reconnectDelay (S (reconnectAttemptsRef h))]).
Proof.
  intros Ha h'. subst h'. destruct a; try done; cbn [step].
  - left. by split.
  - left. by split.
  - left. apply connect_sameChannel.
  - left. unfold disconnect, sameChannel. repeat case_inner; cbn;
      rewrite ?scheduledDelays_app; cbn; rewrite ?app_nil_r; by split.
  - left. destruct data; cbn; [apply processEvent_sameChannel|apply sameChannel_refl].
  - unfold onerror, sameChannel. cbn.
    repeat case_inner; cbn; rewrite ?scheduledDelays_app; cbn; rewrite ?app_nil_r;
      try (left; by split); right; by split.
  - left. unfold onTimeout. destruct (mountedRef h);
      [apply connect_sameChannel|apply sameChannel_refl].
  - left. unfold sendMessage, optimisticInsert, randomUUID, sameChannel. cbn.
    rewrite ?scheduledDelays_app; cbn; rewrite ?app_nil_r; by split.
  - left. destruct r; cbn.
    + destruct (JS.truthyO _); cbn.
      * destruct (eventSourceRef h);
          [by split|].
        eapply sameChannel_trans; [|apply connect_sameChannel]. by split.
      * destruct (eventSourceRef h); [by split|apply connect_sameChannel].
    + by split.
    + by split.
  - left. unfold interrupt, sameChannel. case_inner; cbn;
      rewrite ?scheduledDelays_app; cbn; rewrite ?app_nil_r; by split.
  - left. destruct ok; by split.
Qed.

(** A run without a successful open counts its attempts upwards and
    schedules the delay of each attempt in turn. *)
Lemma run_backoff (actions : list Action) (h : Hook) :
  Forall notOpened actions →
  let h' := run uuid sessionName actions h in
  ∃ n, reconnectAttemptsRef h' = reconnectAttemptsRef h + n
       ∧ scheduledDelays (effects h')
         = scheduledDelays (effects h)
           ++ (reconnectDelay <$> seq (S (reconnectAttemptsRef h)) n).
Proof.
  intros Hall. revert h. induction Hall as [|a actions Ha _ IH]; intros h; cbn.
  - exists 0. split; [lia|]. cbn. by rewrite app_nil_r.
  - destruct (IH (step uuid sessionName h a)) as (n & Hn & Hd).
    destruct (step_backoff h a Ha) as [[Hk Hs]|[Hk Hs]].
    + exists n. unfold run in *. rewrite Hn, Hd, Hk, Hs. done.
    + exists (S n). unfold run in *. rewrite Hn, Hd, Hk, Hs. split; [lia|].
      rewrite <- app_assoc. done.
Qed.

(** An error of the current event source of a mounted hook schedules the
    reconnect of the next attempt. *)
Lemma onerror_active (es : EventSource) (h : Hook) :
  eventSourceRef h = Some es → mountedRef h = true →
  reconnectAttemptsRef (onerror es h) = S (reconnectAttemptsRef h)
  ∧ scheduledDelays (effects (onerror es h))
    = scheduledDelays (effects h) ++ [reconnectDelay (S (reconnectAttemptsRef h))].
Proof.
  intros Hes Hm. destruct h; cbn in *; subst. unfold onerror. cbn.
  rewrite bool_decide_eq_true_2 by done. cbn.
  unfold scheduledDelays.
  destruct reconnectTimeoutRef0; cbn; rewrite ?omap_app; cbn; rewrite ?app_nil_r; done.
Qed.

Lemma reconnectDelay_formula (n : nat) :
  reconnectDelay n = Z.min (1000 * 2 ^ (Z.of_nat n - 1)) 30000.
Proof. reflexivity. Qed.

(** C5.  After a point where the attempt counter is zero (the start, or a
    successful open), in a run of any actions but a successful open, the
    n-th reconnect that gets scheduled has the delay
    [min(1000 * 2^(n-1), 30000)]: three of them are 1000, 2000 and 4000.  An
    error of the current event source of a mounted hook always schedules
    one, and a successful open puts the counter back to zero, so that the
    error after it schedules 1000 again. *)
Theorem reconnect_backoff_sequence (h : Hook) (actions : list Action) :
  reconnectAttemptsRef h = 0 →
  Forall notOpened actions →
  let h' := run uuid sessionName actions h in
  let delays := delaysSince h h' in
  (∀ n : nat, (1 ≤ n ≤ length delays)%nat →
     delays !! (n - 1) = Some (Z.min (1000 * 2 ^ (Z.of_nat n - 1)) 30000))
  ∧ length delays = reconnectAttemptsRef h'
  ∧ (length delays = 3 → delays = [1000; 2000; 4000]%Z)
  ∧ (∀ es, eventSourceRef h' = Some es → mountedRef h' = true →
       delaysSince h (step uuid sessionName h' (TransportError es))
       = delays ++ [reconnectDelay (S (length delays))])
  ∧ (∀ es, reconnectAttemptsRef (step uuid sessionName h' (Opened es)) = 0)
  ∧ (∀ es es',
       let h1 := step uuid sessionName h' (Opened es) in
       let h2 := step uuid sessionName h1 (TransportError es') in
       eventSourceRef h' = Some es' → mountedRef h' = true →
       delaysSince h1 h2 = [1000%Z]).
Proof.
  intros H0 Hall h' delays.
  destruct (run_backoff actions h Hall) as (n & Hn & Hd).
  fold h' in Hn, Hd. rewrite H0 in Hn, Hd. cbn in Hn.
  assert (Hdelays : delays = reconnectDelay <$> seq 1 n).
  { unfold delays, delaysSince. rewrite Hd. by rewrite drop_app_length. }
  assert (Hlen : length delays = n).
  { rewrite Hdelays. by rewrite length_fmap, length_seq. }
  split; [|split; [|split; [|split; [|split]]]].
  - intros k Hk. rewrite Hdelays, list_lookup_fmap.
    rewrite lookup_seq_lt by lia. cbn.
    replace (S (k - 1)) with k by lia. by rewrite reconnectDelay_formula.
  - lia.
  - intros H3. rewrite Hdelays. replace n with 3 by lia. reflexivity.
  - intros es Hes Hm. unfold delaysSince. cbn [step].
    destruct (onerror_active es h' Hes Hm) as [_ ->].
    rewrite Hd, <- app_assoc, drop_app_length, Hlen, Hn, Hdelays. done.
  - intros es. reflexivity.
  - intros es es' h1 h2 Hes Hm. unfold h2, h1, delaysSince. cbn [step].
    destruct (onerror_active es' (onopen es h')) as [_ ->]; [done..|].
    rewrite drop_app_length. reflexivity.
Qed.

(** ** Tool results *)

Lemma attachResult_spec (id content : string) (m : PlatformMessage) :
  msgHasToolCall id m = true →
  ∃ tcs j tc,
    msg_toolCalls m = Some tcs ∧ tcs !! j = Some tc ∧ tc_id tc = id
    ∧ attachResult id content m
      = msg_set_toolCalls (Some (<[j := withResult content tc]> tcs)) m.
Proof.
  intros Hhas. unfold attachResult.
  destruct (msgHasToolCall_toolCalls _ _ Hhas) as [tcs Htcs]. rewrite Htcs.
  unfold msgHasToolCall in Hhas. rewrite Htcs in Hhas.
  apply hasToolCall_true in Hhas as (tc0 & Hin & Hid).
  destruct (findIndex_is_Some (λ tc, bool_decide (tc_id tc = id)) tcs tc0 Hin) as [j Hj].
  { by apply bool_decide_eq_true. }
  rewrite Hj. apply findIndex_Some in Hj as (tc & Htc & Hidtc & _).
  apply bool_decide_eq_true in Hidtc.
  exists tcs, j, tc. repeat split; try done.
  by rewrite (alter_insert _ _ _ _ Htc).
Qed.

Lemma attachResult_first (id content : string) (m : PlatformMessage) :
  msgHasToolCall id m = true →
  ∃ tcs j tc,
    msg_toolCalls m = Some tcs ∧ tcs !! j = Some tc ∧ tc_id tc = id
    ∧ (∀ j' tc', j' < j → tcs !! j' = Some tc' → tc_id tc' ≠ id)
    ∧ attachResult id content m
      = msg_set_toolCalls (Some (<[j := withResult content tc]> tcs)) m.
Proof.
  intros Hhas. unfold attachResult.
  destruct (msgHasToolCall_toolCalls _ _ Hhas) as [tcs Htcs]. rewrite Htcs.
  unfold msgHasToolCall in Hhas. rewrite Htcs in Hhas.
  apply hasToolCall_true in Hhas as (tc0 & Hin & Hid).
  destruct (findIndex_is_Some (λ tc, bool_decide (tc_id tc = id)) tcs tc0 Hin) as [j Hj].
  { by apply bool_decide_eq_true. }
  rewrite Hj. apply findIndex_Some in Hj as (tc & Htc & Hidtc & Hbefore).
  apply bool_decide_eq_true in Hidtc.
  exists tcs, j, tc. split; [done|]. split; [done|]. split; [done|]. split.
  - intros j' tc' Hlt Htc'. specialize (Hbefore j' tc' Hlt Htc').
    by apply bool_decide_eq_false in Hbefore.
  - by rewrite (alter_insert _ _ _ _ Htc).
Qed.

Lemma findBufferedToolCall_Some (id content : string)
    (entries : JSMap.t (list PlatformMessage)) parentId updated :
  findBufferedToolCall id content entries = Some (parentId, updated) →
  ∃ children j child,
    (parentId, children) ∈ entries ∧ children !! j = Some child
    ∧ msgHasToolCall id child = true
    ∧ updated = <[j := attachResult id content child]> children.
Proof.
  induction entries as [|[p children] entries IH]; cbn; [done|].
  destruct (JS.findIndex (msgHasToolCall id) children) as [j|] eqn:E.
  - intros [= <- <-]. apply findIndex_Some in E as (child & Hc & Hf & _).
    exists children, j, child. split; [apply list_elem_of_here|].
    split; [done|]. split; [done|]. by apply alter_insert.
  - intros H. destruct (IH H) as (ch & j & c & Hin & ?).
    exists ch, j, c. split; [by apply list_elem_of_further|done].
Qed.

Lemma findBufferedToolCall_None (id content : string)
    (entries : JSMap.t (list PlatformMessage)) :
  findBufferedToolCall id content entries = None →
  ∀ entry child, entry ∈ entries → child ∈ entry.2 → msgHasToolCall id child = false.
Proof.
  induction entries as [|[p children] entries IH]; cbn.
  - intros _ entry child Hin. by apply elem_of_nil in Hin.
  - destruct (JS.findIndex (msgHasToolCall id) children) as [j|] eqn:E; [done|].
    intros H entry child Hin Hch. apply elem_of_cons in Hin as [->|Hin].
    + cbn in Hch. rewrite findIndex_None in E. by apply E.
    + by eapply IH.
Qed.

(** C7.  A tool-result event whose tool call is committed on some message
    gets its content attached to that tool call, which is marked completed:
    the last message that holds a tool call with the id, and in it the
    first tool call with the id, which afterwards reads the content of the
    event as [result] and ['completed'] as [status] and is otherwise as
    before.  Otherwise, if the tool call is among the buffered children, the
    same happens there; otherwise the state is left as it was. *)
Theorem tool_result_resolution (e : PlatformEvent) (h : Hook) :
  ev_type e = EventType.TOOL_CALL_RESULT →
  let s := hk_state h in
  let s' := hk_state (processEvent uuid e h) in
  let committed :=
    ∃ tc, tc ∈ committedToolCalls s ∧ Some (tc_id tc) = eventToolCallId e in
  let buffered :=
    ∃ tc, tc ∈ bufferedToolCalls s ∧ Some (tc_id tc) = eventToolCallId e in
  let attached (tc tc' : PlatformToolCall) :=
    tc_result tc' = Some (ev_content e) ∧ tc_status tc' = Some StCompleted
    ∧ tc_id tc' = tc_id tc ∧ tc_function tc' = tc_function tc
    ∧ tc_parentToolUseId tc' = tc_parentToolUseId tc in
  (committed →
     ∃ i m tcs j tc,
       messages s !! i = Some m ∧ msg_toolCalls m = Some tcs
       ∧ tcs !! j = Some tc ∧ Some (tc_id tc) = eventToolCallId e
       ∧ (∀ i' m' tc', i < i' → messages s !! i' = Some m' → tc' ∈ toolCallsOf m' →
            Some (tc_id tc') ≠ eventToolCallId e)
       ∧ (∀ j' tc', j' < j → tcs !! j' = Some tc' →
            Some (tc_id tc') ≠ eventToolCallId e)
       ∧ s' = set_messages
                (<[i := msg_set_toolCalls
                          (Some (<[j := withResult (ev_content e) tc]> tcs)) m]>
                   (messages s)) s
       ∧ (∃ m' tcs' tc',
            messages s' !! i = Some m' ∧ msg_toolCalls m' = Some tcs'
            ∧ tcs' !! j = Some tc' ∧ attached tc tc'
            ∧ length tcs' = length tcs
            ∧ (∀ j', j' ≠ j → tcs' !! j' = tcs !! j'))
       ∧ length (messages s') = length (messages s)
       ∧ (∀ i', i' ≠ i → messages s' !! i' = messages s !! i')
       ∧ pendingChildren s' = pendingChildren s)
  ∧ (¬ committed → buffered →
     ∃ parentId children j child tcs k tc,
       (parentId, children) ∈ pendingChildren s ∧ children !! j = Some child
       ∧ msg_toolCalls child = Some tcs ∧ tcs !! k = Some tc
       ∧ Some (tc_id tc) = eventToolCallId e
       ∧ s' = set_pendingChildren
                (JSMap.set parentId
                   (<[j := msg_set_toolCalls
                             (Some (<[k := withResult (ev_content e) tc]> tcs)) child]>
                      children)
                   (pendingChildren s)) s
       ∧ (∃ children' child' tcs' tc',
            JSMap.get parentId (pendingChildren s') = Some children'
            ∧ children' !! j = Some child' ∧ msg_toolCalls child' = Some tcs'
            ∧ tcs' !! k = Some tc' ∧ attached tc tc')
       ∧ messages s' = messages s)
  ∧ (¬ committed → ¬ buffered → s' = s).
Proof.
  intros Hty s s' committed buffered attached.
  assert (Hs' : s' = hk_state (onToolCallResult e h)).
  { unfold s', processEvent, reduce. rewrite Hty. simpl.
    unfold onToolCallResult. simpl. repeat case_inner; reflexivity. }
  rewrite Hs'. clear Hs' s'.
  unfold onToolCallResult. rewrite orS_Some_empty.
  unfold committed, buffered, eventToolCallId, committedToolCalls, bufferedToolCalls.
  clear committed buffered.
  destruct (JS.truthy (ev_toolCallId e)) eqn:Htruthy.
  2:{ split; [|split]; [by intros (? & _ & ?)|by intros _ (? & _ & ?)|done]. }
  set (id := ev_toolCallId e). fold s.
  destruct (JS.findLastIndex (msgHasToolCall id) (messages s)) as [i|] eqn:Efind.
  - (* committed *)
    apply findLastIndex_Some in Efind as (m & Hm & Hhas & Hlater).
    assert (Hcommitted : ∃ tc, tc ∈ messages s ≫= toolCallsOf ∧ Some (tc_id tc) = Some id).
    { apply msgHasToolCall_true in Hhas as (tc & Htc & Hid).
      exists tc. split; [|by rewrite Hid].
      apply list_elem_of_bind. exists m. split; [done|].
      by eapply list_elem_of_lookup_2. }
    split; [|split]; [|done..].
    intros _. destruct (attachResult_first id (ev_content e) m Hhas)
      as (tcs & j & tc & Htcs & Htc & Hid & Hfirst & Hattach).
    assert (Hi : i < length (messages s)) by (by eapply lookup_lt_Some).
    assert (Hj : j < length tcs) by (by eapply lookup_lt_Some).
    exists i, m, tcs, j, tc. rewrite Hid.
    split; [done|]. split; [done|]. split; [done|]. split; [done|].
    split; [|split; [|split; [|split; [|split; [|split]]]]].
    + intros i' m' tc' Hlt Hm' Htc' [= Hid'].
      pose proof (Hlater i' m' Hlt Hm') as Hno.
      assert (msgHasToolCall id m' = true) by (apply msgHasToolCall_true; eauto).
      congruence.
    + intros j' tc' Hlt Htc' [= Hid']. by apply (Hfirst j' tc' Hlt Htc').
    + cbn. by rewrite (alter_insert _ _ _ _ Hm), Hattach.
    + exists (msg_set_toolCalls (Some (<[j := withResult (ev_content e) tc]> tcs)) m),
        (<[j := withResult (ev_content e) tc]> tcs), (withResult (ev_content e) tc).
      split.
      { cbn. rewrite (alter_insert _ _ _ _ Hm), Hattach.
        by apply list_lookup_insert_eq. }
      split; [done|]. split; [by apply list_lookup_insert_eq|].
      split; [done|]. split; [by rewrite length_insert|].
      intros j' Hne. by apply list_lookup_insert_ne.
    + cbn. by rewrite length_alter.
    + intros i' Hne. cbn. by apply list_lookup_alter_ne.
    + done.
  - (* not committed *)
    rewrite findLastIndex_None in Efind.
    assert (Hnot : ¬ ∃ tc, tc ∈ messages s ≫= toolCallsOf ∧ Some (tc_id tc) = Some id).
    { intros (tc & Htc & [= Hid]). apply list_elem_of_bind in Htc as (m & Htc & Hm).
      specialize (Efind m Hm).
      assert (msgHasToolCall id m = true) by (apply msgHasToolCall_true; eauto).
      congruence. }
    split; [done|].
    destruct (bool_decide (0 < JSMap.size (pendingChildren s))) eqn:Hsize.
    + destruct (findBufferedToolCall id (ev_content e) (pendingChildren s))
        as [[parentId updated]|] eqn:Ebuf.
      * apply findBufferedToolCall_Some in Ebuf
          as (children & j & child & Hin & Hchild & Hhas & ->).
        assert (Hbuffered : ∃ tc, tc ∈ (pendingChildren s ≫= λ entry, entry.2 ≫= toolCallsOf)
                                  ∧ Some (tc_id tc) = Some id).
        { apply msgHasToolCall_true in Hhas as (tc & Htc & Hid).
          exists tc. split; [|by rewrite Hid].
          apply list_elem_of_bind. exists (parentId, children). split; [|done].
          cbn. apply list_elem_of_bind. exists child. split; [done|].
          by eapply list_elem_of_lookup_2. }
        split; [|done].
        intros _ _. destruct (attachResult_first id (ev_content e) child Hhas)
          as (tcs & k & tc & Htcs & Htc & Hid & _ & Hattach).
        exists parentId, children, j, child, tcs, k, tc. rewrite Hid.
        split; [done|]. split; [done|]. split; [done|]. split; [done|].
        split; [done|]. split; [cbn; by rewrite Hattach|]. split; [|done].
        exists (<[j := msg_set_toolCalls
                         (Some (<[k := withResult (ev_content e) tc]> tcs)) child]> children),
          (msg_set_toolCalls (Some (<[k := withResult (ev_content e) tc]> tcs)) child),
          (<[k := withResult (ev_content e) tc]> tcs), (withResult (ev_content e) tc).
        split; [cbn; rewrite Hattach; apply JSMap_get_set_eq|].
        split; [apply list_lookup_insert_eq; by eapply lookup_lt_Some|].
        split; [done|].
        split; [apply list_lookup_insert_eq; by eapply lookup_lt_Some|done].
      * split; [|done]. intros _ (tc & Htc & [= Hid]).
        apply list_elem_of_bind in Htc as (entry & Htc & Hentry).
        apply list_elem_of_bind in Htc as (child & Htc & Hchild).
        pose proof (findBufferedToolCall_None _ _ _ Ebuf entry child Hentry Hchild) as Hf.
        assert (msgHasToolCall id child = true) by (apply msgHasToolCall_true; eauto).
        congruence.
    + split; [|done]. intros _ (tc & Htc & _).
      apply bool_decide_eq_false in Hsize. unfold JSMap.size in Hsize.
      destruct (pendingChildren s); [by apply elem_of_nil in Htc|]. cbn in Hsize. lia.
Qed.

(** ** Duplicate delivery *)

Lemma set_currentMessage_None_id (s : AGUIClientState) :
  currentMessage s = None → set_currentMessage None s = s.
Proof. destruct s; cbn. by intros ->. Qed.

Lemma onTextMessageEnd_currentMessage (e : PlatformEvent) (h : Hook) :
  currentMessage (hk_state (onTextMessageEnd uuid e h)) = None.
Proof. reflexivity. Qed.

(** X1.  A text-end event applied twice gives the state it gives when
    applied once, in every state. *)
Theorem text_end_idempotent (e : PlatformEvent) (h : Hook) :
  ev_type e = EventType.TEXT_MESSAGE_END →
  hk_state (processEvent uuid e (processEvent uuid e h))
  = hk_state (processEvent uuid e h).
Proof.
  intros Hty.
  assert (Hred : ∀ h0, processEvent uuid e h0
                       = onTextMessageEnd uuid e (emit (OnEvent (ev_type e)) h0)).
  { intros h0. unfold processEvent, reduce. rewrite Hty. reflexivity. }
  rewrite (Hred (processEvent uuid e h)).
  set (h1 := processEvent uuid e h).
  assert (Hcm : currentMessage (hk_state h1) = None).
  { unfold h1. rewrite Hred. apply onTextMessageEnd_currentMessage. }
  unfold onTextMessageEnd. cbn. rewrite Hcm. cbn.
  by apply set_currentMessage_None_id.
Qed.

Lemma JSMap_delete_delete {V} (k : string) (m : JSMap.t V) :
  JSMap.delete k (JSMap.delete k m) = JSMap.delete k m.
Proof.
  unfold JSMap.delete. induction m as [|[k' v] m IH]; cbn; [done|].
  case_bool_decide; cbn; [done|].
  rewrite bool_decide_eq_false_2 by done. cbn. by rewrite IH.
Qed.

(** What [TOOL_CALL_END] leaves behind for the id it resolves: the pending
    record is gone, and [currentToolCall] does not name the call. *)
Lemma onToolCallEnd_leaves (e : PlatformEvent) (h : Hook) :
  JS.truthy (ev_toolCallId e) = true →
  let s' := hk_state (onToolCallEnd uuid e h) in
  pendingToolCalls s'
  = JSMap.delete (ev_toolCallId e) (pendingToolCalls (hk_state h))
  ∧ clearCurrentToolCallIf (ev_toolCallId e) s' = s'.
Proof.
  intros Htruthy. unfold onToolCallEnd. rewrite Htruthy.
  destruct h as [s ? ? ? ? ? ? ? ? ? ?]. cbn [hk_state].
  unfold clearCurrentToolCallIf, randomUUID.
  repeat case_inner; cbn in *.
  all: repeat match goal with
       | H : clearCurrentToolCallIf _ _ = _ |- _ => unfold clearCurrentToolCallIf in H; cbn in H
       end.
  all: repeat case_inner; cbn in *; simplify_eq; try done; try congruence.
  all: destruct s; cbn in *; simplify_eq; try done; try congruence.
Qed.

(** X2.  A tool-end event applied twice gives the state it gives when
    applied once, provided the first application committed the tool call to
    the messages (that is, it did not buffer it behind a pending parent). *)
Theorem tool_end_idempotent_when_committed (e : PlatformEvent) (h : Hook) :
  ev_type e = EventType.TOOL_CALL_END →
  JS.truthy (ev_toolCallId e) = true →
  JS.some (msgHasToolCall (ev_toolCallId e))
    (messages (hk_state (processEvent uuid e h))) = true →
  hk_state (processEvent uuid e (processEvent uuid e h))
  = hk_state (processEvent uuid e h).
Proof.
  intros Hty Htruthy.
  assert (Hred : ∀ h0, processEvent uuid e h0
                       = onToolCallEnd uuid e (emit (OnEvent (ev_type e)) h0)).
  { intros h0. unfold processEvent, reduce. rewrite Hty. reflexivity. }
  rewrite (Hred (processEvent uuid e h)).
  set (h1 := processEvent uuid e h). intros Hcommitted.
  assert (Hleft : pendingToolCalls (hk_state h1)
                  = JSMap.delete (ev_toolCallId e) (pendingToolCalls (hk_state h))
                  ∧ clearCurrentToolCallIf (ev_toolCallId e) (hk_state h1) = hk_state h1).
  { unfold h1. rewrite Hred.
    apply (onToolCallEnd_leaves e (emit (OnEvent (ev_type e)) h) Htruthy). }
  destruct Hleft as [Hpending Hclear].
  unfold onToolCallEnd. rewrite Htruthy. cbn [hk_state emit set_effects].
  rewrite Hcommitted. cbn.
  rewrite Hpending, JSMap_delete_delete, <- Hpending.
  replace (set_pendingToolCalls (pendingToolCalls (hk_state h1)) (hk_state h1))
    with (hk_state h1) by (by destruct (hk_state h1)).
  done.
Qed.
(** ** The message a tool call is attached to *)

Lemma findLastIndex_last {A} (f : A → bool) (l : list A) (i : nat) (x : A) :
  l !! i = Some x → f x = true →
  (∀ j y, i < j → l !! j = Some y → f y = false) →
  JS.findLastIndex f l = Some i.
Proof.
  intros Hx Hfx Hlater.
  destruct (JS.findLastIndex f l) as [k|] eqn:Hfind.
  - apply findLastIndex_Some in Hfind as (y & Hy & Hfy & Hafter).
    destruct (decide (k = i)) as [->|Hne]; [done|].
    destruct (decide (k < i)) as [Hlt|Hge].
    + rewrite (Hafter i x Hlt Hx) in Hfx. done.
    + assert (Hgt : i < k) by lia. rewrite (Hlater k y Hgt Hy) in Hfy. done.
  - rewrite findLastIndex_None in Hfind.
    rewrite (Hfind x) in Hfx; [done|]. by eapply list_elem_of_lookup_2.
Qed.

(** The test [isTargetMessage] of lines 517-520. *)
Lemma isTarget_aimedAt (start : PlatformEvent) (m : PlatformMessage) :
  (if JS.truthyO (ev_parentMessageId start)
   then bool_decide (Some (msg_id m) = ev_parentMessageId start)
   else bool_decide (msg_role m = "assistant")) = true
  ↔ aimedAt start m.
Proof.
  unfold aimedAt. destruct (JS.truthyO (ev_parentMessageId start));
    apply bool_decide_eq_true.
Qed.

Lemma attachTarget_last (start : PlatformEvent) (msgs : list PlatformMessage)
    (i : nat) (m : PlatformMessage) :
  msgs !! i = Some m → aimedAt start m →
  (∀ i' m', i < i' → msgs !! i' = Some m' → ¬ aimedAt start m') →
  JS.findLastIndex
    (λ m, if JS.truthyO (ev_parentMessageId start)
          then bool_decide (Some (msg_id m) = ev_parentMessageId start)
          else bool_decide (msg_role m = "assistant")) msgs = Some i.
Proof.
  intros Hm Haim Hlast. eapply findLastIndex_last; [done| |].
  - by apply isTarget_aimedAt.
  - intros j y Hlt Hy. apply not_true_iff_false. intros Htarget.
    apply isTarget_aimedAt in Htarget. by apply (Hlast j y).
Qed.

Lemma attachTarget_none (start : PlatformEvent) (msgs : list PlatformMessage) :
  (∀ m, m ∈ msgs → ¬ aimedAt start m) →
  JS.findLastIndex
    (λ m, if JS.truthyO (ev_parentMessageId start)
          then bool_decide (Some (msg_id m) = ev_parentMessageId start)
          else bool_decide (msg_role m = "assistant")) msgs = None.
Proof.
  intros Hnone. apply findLastIndex_None. intros m Hm.
  apply not_true_iff_false. intros Htarget.
  apply isTarget_aimedAt in Htarget. by apply (Hnone m).
Qed.

(** A last message among those aimed at exists as soon as one exists. *)
Lemma aimedAt_last (start : PlatformEvent) (msgs : list PlatformMessage)
    (m0 : PlatformMessage) :
  m0 ∈ msgs → aimedAt start m0 →
  ∃ i m, msgs !! i = Some m ∧ aimedAt start m
         ∧ ∀ i' m', i < i' → msgs !! i' = Some m' → ¬ aimedAt start m'.
Proof.
  intros Hm0 Haim.
  destruct (findLastIndex_is_Some
              (λ m, if JS.truthyO (ev_parentMessageId start)
                    then bool_decide (Some (msg_id m) = ev_parentMessageId start)
                    else bool_decide (msg_role m = "assistant")) msgs m0 Hm0) as [i Hi].
  { by apply isTarget_aimedAt. }
  apply findLastIndex_Some in Hi as (m & Hm & Htarget & Hlater).
  exists i, m. split; [done|]. split; [by apply isTarget_aimedAt|].
  intros i' m' Hlt Hm' Haim'. apply isTarget_aimedAt in Haim'.
  rewrite (Hlater i' m' Hlt Hm') in Haim'. done.
Qed.

(** A start event that names no parent tool call settles on none. *)
Lemma namesNoParentTool_effective (start : PlatformEvent) (s : AGUIClientState) :
  namesNoParentTool start s → effectiveParentToolId start s = None.
Proof.
  intros [Hpt Hpm]. unfold effectiveParentToolId. rewrite Hpt. cbn [JS.truthyO negb andb].
  destruct (ev_parentMessageId start) as [pm|] eqn:Epm; cbn [JS.truthyO]; [|done].
  destruct (JS.truthy pm) eqn:Htruthy; [|done].
  apply truthy_true_inv in Htruthy.
  destruct (Hpm pm eq_refl Htruthy) as [Hpending Hcommitted].
  cbn [default from_option id]. rewrite JSMap_has_get, Hpending.
  destruct (JS.some (msgHasToolCall pm) (messages s)) eqn:Hsome; [|done].
  apply some_true in Hsome as (m & Hm & Hhas).
  apply msgHasToolCall_true in Hhas as (tc & Htc & Hid).
  destruct (Hcommitted tc); [|done]. apply list_elem_of_bind. eauto.
Qed.

(** ** Buffered children *)

(** A tool call that ends while its parent is pending is buffered. *)
Lemma onToolCallEnd_buffers (e : PlatformEvent) (h : Hook)
    (rec : PendingToolCall) (p : string) :
  JS.truthy (ev_toolCallId e) = true →
  JSMap.get (ev_toolCallId e) (pendingToolCalls (hk_state h)) = Some rec →
  pt_parentToolUseId rec = Some p →
  JS.truthy p = true →
  JSMap.has p (JSMap.delete (ev_toolCallId e) (pendingToolCalls (hk_state h))) = true →
  JS.some (msgHasToolCall (ev_toolCallId e)) (messages (hk_state h)) = false →
  hk_state (onToolCallEnd uuid e h)
  = clearCurrentToolCallIf (ev_toolCallId e)
      (set_pendingChildren
         (JSMap.set p
            (default [] (JSMap.get p (pendingChildren (hk_state h)))
             ++ [toolMessage (uuid (uuidCount h)) (ev_toolCallId e) None
                   (completedToolCall (ev_toolCallId e)
                      (JS.orS (JS.orO (Some (pt_name rec))
                                 (currentToolCall (hk_state h) ≫= ct_name))
                         "unknown_tool")
                      (JS.orS (JS.orO (Some (pt_args rec))
                                 (ct_args <$> currentToolCall (hk_state h)))
                         EmptyString)
                      (Some p))])
            (pendingChildren (hk_state h)))
         (set_pendingToolCalls
            (JSMap.delete (ev_toolCallId e) (pendingToolCalls (hk_state h)))
            (hk_state h))).
Proof.
  intros Htruthy Hget Hparent Hp Hhas Hfresh.
  unfold onToolCallEnd. rewrite Htruthy. cbv zeta beta iota.
  rewrite Hget, Hfresh. cbn [fmap option_fmap option_map mbind option_bind].
  rewrite Hparent, (orO_truthy p) by done.
  cbn [JS.truthyO default from_option id]. rewrite Hp.
  unfold randomUUID. proj_simpl. rewrite Hhas. reflexivity.
Qed.

(** A tool call without a parent tool call that ends while children are
    buffered for it, in a state with a message to attach it to: the call
    and the buffered children are appended to that message, and the buffer
    entry is removed. *)
Lemma onToolCallEnd_flushes (e : PlatformEvent) (h : Hook)
    (rec : PendingToolCall) (i : nat) (m : PlatformMessage)
    (children : list PlatformMessage) :
  JS.truthy (ev_toolCallId e) = true →
  JSMap.get (ev_toolCallId e) (pendingToolCalls (hk_state h)) = Some rec →
  pt_parentToolUseId rec = None →
  currentToolCall (hk_state h) = None →
  JS.some (msgHasToolCall (ev_toolCallId e)) (messages (hk_state h)) = false →
  JS.findLastIndex
    (λ m, if JS.truthyO (pt_parentMessageId rec)
          then bool_decide (Some (msg_id m) = pt_parentMessageId rec)
          else bool_decide (msg_role m = "assistant"))
    (messages (hk_state h)) = Some i →
  messages (hk_state h) !! i = Some m →
  JSMap.get (ev_toolCallId e) (pendingChildren (hk_state h)) = Some children →
  0 < length children →
  hk_state (onToolCallEnd uuid e h)
  = set_currentToolCall None
      (set_messages
         (<[i := msg_set_toolCalls
                   (Some (toolCallsOf m
                          ++ completedToolCall (ev_toolCallId e)
                               (JS.orS (Some (pt_name rec)) "unknown_tool")
                               (JS.orS (Some (pt_args rec)) EmptyString) None
                             :: (children ≫= toolCallsOf))) m]>
            (messages (hk_state h)))
         (set_pendingChildren
            (JSMap.delete (ev_toolCallId e) (pendingChildren (hk_state h)))
            (set_pendingToolCalls
               (JSMap.delete (ev_toolCallId e) (pendingToolCalls (hk_state h)))
               (hk_state h)))).
Proof.
  intros Htruthy Hget Hparent Hct Hfresh Hfind Hm Hchildren Hlen.
  unfold onToolCallEnd. rewrite Htruthy. cbv zeta beta iota.
  rewrite Hget, Hfresh, Hct. cbn [fmap option_fmap option_map mbind option_bind].
  rewrite Hparent. cbn [JS.orO JS.truthyO].
  rewrite Hfind, Hm. cbn [fmap option_fmap option_map default from_option id].
  rewrite (some_msgHasToolCall_false _ _ m Hfresh) by (by eapply list_elem_of_lookup_2).
  proj_simpl. rewrite Hchildren. cbn [default from_option id].
  rewrite bool_decide_eq_true_2 by done. proj_simpl.
  rewrite (alter_insert _ _ _ _ Hm), !orS_orO_None. reflexivity.
Qed.

Lemma filter_id_nil (id : string) (tcs : list PlatformToolCall) :
  (∀ tc, tc ∈ tcs → tc_id tc ≠ id) →
  List.filter (λ tc, bool_decide (tc_id tc = id)) tcs = [].
Proof.
  induction tcs as [|tc tcs IH]; intros H; cbn; [done|].
  rewrite bool_decide_eq_false_2 by (apply H, list_elem_of_here).
  apply IH. intros tc' Htc'. apply H. by apply list_elem_of_further.
Qed.

Lemma insert_take_drop {A} (l : list A) (i : nat) (x y : A) :
  l !! i = Some x → <[i := y]> l = take i l ++ y :: drop (S i) l.
Proof.
  intros Hx. apply insert_take_drop. by eapply lookup_lt_Some.
Qed.

(** C3 (amended).  Take a state in which neither [P] nor [C] is committed
    and no child with id [C] is buffered, a tool-start of [P] that names no
    parent tool call, and a message that [P] aims at (the message its
    [parentMessageId] names, or an assistant message when it names none).
    Then the events tool-start(P), tool-start(C, parent P), tool-end(C),
    tool-end(P) leave [C] nested next to [P] on such a message, exactly
    once among all committed tool calls, with [parentToolUseId] [P];
    nothing stays buffered for [P], and [C] is not buffered anywhere. *)
Theorem buffered_child_flush (h : Hook) (ts1 ts2 ts3 ts4 : option Z)
    (P C nameP nameC : string) (parentMessageIdP parentMessageIdC : option string) :
  P ≠ EmptyString → C ≠ EmptyString → P ≠ C →
  (∀ tc, tc ∈ committedToolCalls (hk_state h) → tc_id tc ≠ P ∧ tc_id tc ≠ C) →
  (∀ tc, tc ∈ bufferedToolCalls (hk_state h) → tc_id tc ≠ C) →
  let startP := toolStartEvent ts1 P nameP parentMessageIdP None in
  namesNoParentTool startP (hk_state h) →
  (∃ m, m ∈ messages (hk_state h) ∧ aimedAt startP m) →
  let s' := hk_state (processEvents uuid
    [startP;
     toolStartEvent ts2 C nameC parentMessageIdC (Some P);
     toolEndEvent ts3 C;
     toolEndEvent ts4 P] h) in
  (∃ i m tcs tcP tcC,
     messages s' !! i = Some m ∧ aimedAt startP m
     ∧ msg_toolCalls m = Some tcs
     ∧ tcP ∈ tcs ∧ tc_id tcP = P
     ∧ tcC ∈ tcs ∧ tc_id tcC = C ∧ tc_parentToolUseId tcC = Some P)
  ∧ committedCount C s' = 1
  ∧ JSMap.get P (pendingChildren s') = None
  ∧ (∀ tc, tc ∈ bufferedToolCalls s' → tc_id tc ≠ C).
Proof.
  intros HP HC HPC Hfresh Hbuf startP HnoparentP Hass s'. subst startP.
  assert (HtP : JS.truthy P = true) by (by apply truthy_true).
  assert (HtC : JS.truthy C = true) by (by apply truthy_true).
  pose proof (namesNoParentTool_effective _ _ HnoparentP) as HeffP.
  set (e1 := toolStartEvent ts1 P nameP parentMessageIdP None) in *.
  set (e2 := toolStartEvent ts2 C nameC parentMessageIdC (Some P)) in *.
  set (e3 := toolEndEvent ts3 C) in *.
  set (e4 := toolEndEvent ts4 P) in *.
  set (s := hk_state h) in *.
  set (recP := {| pt_id := P; pt_name := JS.orS (Some nameP) "unknown_tool";
                  pt_args := EmptyString; pt_parentToolUseId := None;
                  pt_parentMessageId := parentMessageIdP;
                  pt_timestamp := Some (timestampString e1) |}).
  set (recC := {| pt_id := C; pt_name := JS.orS (Some nameC) "unknown_tool";
                  pt_args := EmptyString; pt_parentToolUseId := Some P;
                  pt_parentMessageId := parentMessageIdC;
                  pt_timestamp := Some (timestampString e2) |}).
  set (h2 := processEvent uuid e2 (processEvent uuid e1 h)).
  (* the state after the two starts *)
  assert (Hs2 : hk_state h2
    = set_currentToolCall (Some {| ct_id := Some C; ct_name := Some nameC;
                                   ct_args := EmptyString;
                                   ct_parentToolUseId := Some P |})
        (set_pendingToolCalls
           (JSMap.set C recC (JSMap.set P recP (pendingToolCalls s))) s)).
  { assert (Hs1 : hk_state (processEvent uuid e1 h)
      = set_currentToolCall (Some {| ct_id := Some P; ct_name := Some nameP;
                                     ct_args := EmptyString;
                                     ct_parentToolUseId := None |})
          (set_pendingToolCalls (JSMap.set P recP (pendingToolCalls s)) s)).
    { rewrite processEvent_tool_call_start by reflexivity.
      transitivity
        (set_currentToolCall (Some (startedToolCall e1 s EmptyString))
           (set_pendingToolCalls
              (JSMap.set P (pendingRecord e1 s EmptyString) (pendingToolCalls s)) s)).
      - unfold onToolCallStart. proj_simpl. reflexivity.
      - unfold startedToolCall, pendingRecord. rewrite HeffP. reflexivity. }
    unfold h2. rewrite (processEvent_tool_call_start e2) by reflexivity.
    unfold onToolCallStart. proj_simpl. rewrite Hs1.
    cbn [ev_parent_tool_call_id ev_parentMessageId
      ev_toolCallId ev_toolCallName ev_body e2 toolStartEvent JS.truthyO negb andb].
    rewrite HtP. cbn [negb andb]. proj_simpl. subst s. by destruct (hk_state h). }
  (* tool-end(C) buffers the child *)
  set (h3 := processEvent uuid e3 h2).
  set (child := toolMessage (uuid (uuidCount h2)) C None
                  (completedToolCall C
                     (JS.orS (JS.orO (Some (pt_name recC)) (Some nameC)) "unknown_tool")
                     (JS.orS (JS.orO (Some (pt_args recC)) (Some EmptyString)) EmptyString)
                     (Some P))).
  set (oldChildren := default [] (JSMap.get P (pendingChildren s))).
  assert (Hmsgs_fresh : ∀ id, id = P ∨ id = C →
            JS.some (msgHasToolCall id) (messages s) = false).
  { intros id Hid. apply some_false. intros m Hm.
    destruct (msgHasToolCall id m) eqn:E; [|done].
    apply msgHasToolCall_true in E as (tc & Htc & Htcid).
    destruct (Hfresh tc) as [H1 H2].
    { apply list_elem_of_bind. eauto. }
    destruct Hid; congruence. }
  assert (Hs3 : hk_state h3
    = set_currentToolCall None
        (set_pendingChildren
           (JSMap.set P (oldChildren ++ [child]) (pendingChildren s))
           (set_pendingToolCalls
              (JSMap.delete C (JSMap.set C recC (JSMap.set P recP (pendingToolCalls s))))
              s))).
  { unfold h3. rewrite processEvent_tool_call_end by reflexivity.
    rewrite (onToolCallEnd_buffers e3 _ recC P); proj_simpl; rewrite ?Hs2; proj_simpl;
      cbn [ev_toolCallId e3 toolEndEvent ev_body]; try done.
    - unfold clearCurrentToolCallIf. proj_simpl.
      rewrite bool_decide_eq_true_2 by done.
      cbn [mbind option_bind fmap option_fmap option_map ct_name ct_args].
      subst s. by destruct (hk_state h).
    - apply JSMap_get_set_eq.
    - rewrite JSMap_has_get, JSMap_get_delete_ne, JSMap_get_set_ne, JSMap_get_set_eq by done.
      done.
    - by apply Hmsgs_fresh; right. }
  (* tool-end(P) attaches P and flushes the buffer *)
  destruct Hass as (ma & Hma & Haimed).
  destruct (aimedAt_last e1 (messages s) ma Hma Haimed) as (i & m & Hm & Hmaim & Hlast).
  pose proof (attachTarget_last e1 (messages s) i m Hm Hmaim Hlast) as Hi.
  change (ev_parentMessageId e1) with parentMessageIdP in Hi.
  set (tcP := completedToolCall P (JS.orS (Some (pt_name recP)) "unknown_tool")
                (JS.orS (Some (pt_args recP)) EmptyString) None).
  set (m' := msg_set_toolCalls
               (Some (toolCallsOf m ++ tcP :: ((oldChildren ++ [child]) ≫= toolCallsOf))) m).
  assert (Hs4 : s'
    = set_currentToolCall None
        (set_messages (<[i := m']> (messages s))
           (set_pendingChildren
              (JSMap.delete P (JSMap.set P (oldChildren ++ [child]) (pendingChildren s)))
              (set_pendingToolCalls
                 (JSMap.delete P
                    (JSMap.delete C (JSMap.set C recC (JSMap.set P recP (pendingToolCalls s)))))
                 s)))).
  { unfold s', processEvents. cbn [fold_left]. fold h2. fold h3.
    rewrite processEvent_tool_call_end by reflexivity.
    rewrite (onToolCallEnd_flushes e4 _ recP i m (oldChildren ++ [child]));
      proj_simpl; rewrite ?Hs3; proj_simpl;
      cbn [ev_toolCallId e4 toolEndEvent ev_body]; try done.
    - rewrite JSMap_get_delete_ne, JSMap_get_set_ne, JSMap_get_set_eq by done. done.
    - by apply Hmsgs_fresh; left.
    - apply JSMap_get_set_eq.
    - rewrite length_app. cbn. lia. }
  clearbody s'. subst s'. proj_simpl.
  assert (Hm'calls : msg_toolCalls m'
            = Some (toolCallsOf m ++ tcP :: ((oldChildren ≫= toolCallsOf)
                    ++ [completedToolCall C
                          (JS.orS (JS.orO (Some (pt_name recC)) (Some nameC)) "unknown_tool")
                          (JS.orS (JS.orO (Some (pt_args recC)) (Some EmptyString)) EmptyString)
                          (Some P)]))).
  { unfold m'. cbn [msg_toolCalls msg_set_toolCalls]. rewrite bind_app. done. }
  assert (Hold_fresh : ∀ tc, tc ∈ oldChildren ≫= toolCallsOf → tc_id tc ≠ C).
  { intros tc Htc. apply Hbuf. unfold bufferedToolCalls, oldChildren in *.
    destruct (JSMap.get P (pendingChildren s)) as [old|] eqn:Eold;
      [|by apply elem_of_nil in Htc].
    apply list_elem_of_bind. exists (P, old). split; [done|].
    by apply JSMap_get_elem_of. }
  assert (Hm_fresh : ∀ tc, tc ∈ toolCallsOf m → tc_id tc ≠ P ∧ tc_id tc ≠ C).
  { intros tc Htc. apply Hfresh. apply list_elem_of_bind. exists m.
    split; [done|]. by eapply list_elem_of_lookup_2. }
  assert (Hcommitted : ∀ id, committedCount id
      (set_currentToolCall None
        (set_messages (<[i := m']> (messages s))
           (set_pendingChildren
              (JSMap.delete P (JSMap.set P (oldChildren ++ [child]) (pendingChildren s)))
              (set_pendingToolCalls
                 (JSMap.delete P
                    (JSMap.delete C (JSMap.set C recC (JSMap.set P recP (pendingToolCalls s)))))
                 s))))
      = length (List.filter (λ tc, bool_decide (tc_id tc = id)) (take i (messages s) ≫= toolCallsOf))
        + (length (List.filter (λ tc, bool_decide (tc_id tc = id)) (toolCallsOf m'))
           + length (List.filter (λ tc, bool_decide (tc_id tc = id)) (drop (S i) (messages s) ≫= toolCallsOf)))).
  { intros id. unfold committedCount, committedToolCalls. proj_simpl.
    rewrite (insert_take_drop _ _ m m' Hm), bind_app, bind_cons.
    rewrite !List.filter_app, !length_app. done. }
  assert (Hside : ∀ id tc, id = P ∨ id = C →
            tc ∈ take i (messages s) ≫= toolCallsOf ∨ tc ∈ drop (S i) (messages s) ≫= toolCallsOf →
            tc_id tc ≠ id).
  { intros id tc Hid Htc.
    assert (Hin : tc ∈ messages s ≫= toolCallsOf).
    { destruct Htc as [Htc|Htc]; apply list_elem_of_bind in Htc as (m0 & Htc & Hm0);
        apply list_elem_of_bind; exists m0; (split; [done|]).
      - by eapply subseteq_take.
      - by eapply subseteq_drop. }
    destruct (Hfresh tc Hin). destruct Hid; congruence. }
  split; [|split; [|split]].
  - exists i, m', (toolCallsOf m ++ tcP :: ((oldChildren ≫= toolCallsOf)
        ++ [completedToolCall C
              (JS.orS (JS.orO (Some (pt_name recC)) (Some nameC)) "unknown_tool")
              (JS.orS (JS.orO (Some (pt_args recC)) (Some EmptyString)) EmptyString)
              (Some P)])), tcP,
      (completedToolCall C
              (JS.orS (JS.orO (Some (pt_name recC)) (Some nameC)) "unknown_tool")
              (JS.orS (JS.orO (Some (pt_args recC)) (Some EmptyString)) EmptyString)
              (Some P)).
    split; [|split; [|split; [|split; [|split; [|split; [|split]]]]]]; try done.
    + apply list_lookup_insert_eq. by eapply lookup_lt_Some.
    + apply elem_of_app. right. apply list_elem_of_here.
    + apply elem_of_app. right. apply list_elem_of_further.
      apply elem_of_app. right. apply list_elem_of_here.
  - rewrite Hcommitted.
    unfold toolCallsOf at 2. rewrite Hm'calls. cbn [default from_option id].
    rewrite List.filter_app. cbn [List.filter completedToolCall tc_id tcP].
    rewrite bool_decide_eq_false_2 by done.
    rewrite List.filter_app. cbn [List.filter completedToolCall tc_id].
    rewrite bool_decide_eq_true_2 by done.
    rewrite (filter_id_nil C (take i (messages s) ≫= toolCallsOf))
      by (intros tc Htc; apply Hside; auto).
    rewrite (filter_id_nil C (drop (S i) (messages s) ≫= toolCallsOf))
      by (intros tc Htc; apply Hside; auto).
    rewrite (filter_id_nil C (toolCallsOf m)) by (intros tc Htc; by apply Hm_fresh).
    rewrite (filter_id_nil C (oldChildren ≫= toolCallsOf)) by done.
    reflexivity.
  - apply JSMap_get_delete_eq.
  - unfold bufferedToolCalls. proj_simpl. intros tc Htc.
    apply list_elem_of_bind in Htc as ([k children] & Htc & Hentry).
    apply JSMap_elem_of_delete in Hentry as [Hentry Hk]. cbn in Hk.
    apply JSMap_elem_of_set in Hentry as [[= -> ->]|Hentry]; [done|].
    apply Hbuf. unfold bufferedToolCalls. apply list_elem_of_bind.
    exists (k, children). done.
Qed.

Lemma filter_id_nil_messages (id : string) (ms : list PlatformMessage) :
  id ∉ idsOf ms → List.filter (λ m, bool_decide (msg_id m = id)) ms = [].
Proof.
  induction ms as [|m ms IH]; intros H; cbn; [done|].
  rewrite bool_decide_eq_false_2.
  - apply IH. intros Hin. apply H. by apply list_elem_of_further.
  - intros Heq. apply H. rewrite <- Heq. apply list_elem_of_here.
Qed.

(** ** Snapshot normalisation *)

Lemma sameHeader_refl (m : PlatformMessage) : sameHeader m m.
Proof. exists (msg_toolCalls m). by destruct m. Qed.

Lemma sameHeader_trans (m1 m2 m3 : PlatformMessage) :
  sameHeader m1 m2 → sameHeader m2 m3 → sameHeader m1 m3.
Proof. intros [t1 ->] [t2 ->]. by exists t2. Qed.

Lemma sameHeader_set (tcs : option (list PlatformToolCall)) (m m' : PlatformMessage) :
  sameHeader m m' → sameHeader m (msg_set_toolCalls tcs m').
Proof. intros [t ->]. by exists tcs. Qed.

Lemma sameHeader_id (m m' : PlatformMessage) : sameHeader m m' → msg_id m' = msg_id m.
Proof. by intros [t ->]. Qed.

Lemma sameHeader_role (m m' : PlatformMessage) : sameHeader m m' → msg_role m' = msg_role m.
Proof. by intros [t ->]. Qed.

Lemma sameHeader_content (m m' : PlatformMessage) :
  sameHeader m m' → msg_content m' = msg_content m.
Proof. by intros [t ->]. Qed.

Lemma sameHeader_isToolResult (m m' : PlatformMessage) :
  sameHeader m m' → isToolResult m' = isToolResult m.
Proof. by intros [t ->]. Qed.

Lemma Forall2_sameHeader_refl (l : list PlatformMessage) : Forall2 sameHeader l l.
Proof. induction l; constructor; [apply sameHeader_refl|done]. Qed.

Lemma fold_left_invariant {A B} (Inv : A → Prop) (f : A → B → A) (l : list B) (a : A) :
  Inv a → (∀ a b, Inv a → Inv (f a b)) → Inv (fold_left f l a).
Proof.
  intros Ha Hf. revert a Ha. induction l as [|b l IH]; intros a Ha; cbn; [done|].
  apply IH. by apply Hf.
Qed.

Lemma sameHeader_setParentResult (id r : string) (m m' : PlatformMessage) :
  sameHeader m m' → sameHeader m (setParentResult id r m').
Proof.
  intros H. unfold setParentResult. repeat case_inner; try done.
  by apply sameHeader_set.
Qed.

Lemma sameHeader_pushChild (child : PlatformToolCall) (m m' : PlatformMessage) :
  sameHeader m m' → sameHeader m (pushChild child m').
Proof.
  intros H. unfold pushChild. case_inner; [done|]. by apply sameHeader_set.
Qed.

Lemma normalizeStep_inv (ids : gset string) (pri : JSMap.t nat)
    (l : list PlatformMessage) (acc : list PlatformMessage * gset nat) (i : nat) :
  normalizeInv l acc → normalizeInv l (normalizeStep ids pri acc i).
Proof.
  destruct acc as [msgs rm]. intros [Hhdr Hrm]. unfold normalizeStep.
  destruct (msgs !! i) as [msg|] eqn:Hmsg; [|done].
  destruct (isToolResult msg) eqn:Htool; cbn [negb]; [|done].
  assert (Hi : ∃ m, l !! i = Some m ∧ isToolResult m = true).
  { destruct (Forall2_lookup_r _ _ _ _ _ Hhdr Hmsg) as (m & Hm & Hsame).
    exists m. split; [done|]. by rewrite <- (sameHeader_isToolResult _ _ Hsame). }
  assert (Hrm' : ∀ j, j ∈ ({[i]} ∪ rm : gset nat) →
                   ∃ m, l !! j = Some m ∧ isToolResult m = true).
  { intros j Hj. apply elem_of_union in Hj as [Hj|Hj]; [|by apply Hrm].
    apply elem_of_singleton in Hj as ->. done. }
  repeat case_inner; try done; split; cbn [fst snd]; try done.
  - apply Forall2_alter_r; [done|]. intros x y _ _ Hxy.
    by apply sameHeader_setParentResult.
  - apply Forall2_alter_r; [done|]. intros x y _ _ Hxy.
    by apply sameHeader_pushChild.
Qed.

Lemma Pruned_refl (droppable : PlatformMessage → Prop) (l : list PlatformMessage) :
  Pruned droppable l l.
Proof.
  induction l as [|m l IH]; [constructor|]. apply Pruned_keep; [apply sameHeader_refl|done].
Qed.

Lemma Pruned_mono (d1 d2 : PlatformMessage → Prop) (l l' : list PlatformMessage) :
  (∀ m, d1 m → d2 m) → Pruned d1 l l' → Pruned d2 l l'.
Proof.
  intros Hd. induction 1 as [|m l l' Hm _ IH|m m' l l' Hmm _ IH].
  - constructor.
  - apply Pruned_drop; auto.
  - by apply Pruned_keep.
Qed.

Lemma Pruned_trans (droppable : PlatformMessage → Prop) (l1 l2 l3 : list PlatformMessage) :
  (∀ m m', sameHeader m m' → droppable m' → droppable m) →
  Pruned droppable l1 l2 → Pruned droppable l2 l3 → Pruned droppable l1 l3.
Proof.
  intros Hd H12. revert l3. induction H12 as [|m l l' Hm _ IH|m m' l l' Hmm _ IH]; intros l3 H23.
  - done.
  - apply Pruned_drop; [done|]. by apply IH.
  - inversion H23 as [|? ? ? Hdrop Hrest|? m3 ? l3' Hm3 Hrest]; subst.
    + apply Pruned_drop; [by eapply Hd|]. by apply IH.
    + apply Pruned_keep; [by eapply sameHeader_trans|]. by apply IH.
Qed.

Lemma Pruned_removeIndicesFrom (k : nat) (rm : gset nat)
    (l msgs : list PlatformMessage) :
  Forall2 sameHeader l msgs →
  (∀ i, k + i ∈ rm → ∃ m, l !! i = Some m ∧ isToolResult m = true) →
  Pruned (λ m, isToolResult m = true) l (removeIndicesFrom k rm msgs).
Proof.
  intros Hhdr. revert k. induction Hhdr as [|m m' l msgs Hmm _ IH]; intros k Hrm; cbn.
  - constructor.
  - assert (Hrest : ∀ i, S k + i ∈ rm → ∃ m0, l !! i = Some m0 ∧ isToolResult m0 = true).
    { intros i Hi. replace (S k + i) with (k + S i) in Hi by lia.
      destruct (Hrm (S i) Hi) as (m0 & Hm0 & ?). eauto. }
    case_bool_decide as Hk.
    + apply Pruned_drop; [|by apply IH].
      replace k with (k + 0) in Hk by lia. destruct (Hrm 0 Hk) as (m0 & [= <-] & ?). done.
    + apply Pruned_keep; [done|]. by apply IH.
Qed.

(** Normalisation only drops tool results and only changes tool calls. *)
Lemma normalize_pruned (l : list PlatformMessage) :
  Pruned (λ m, isToolResult m = true) l (normalizeSnapshotMessages l).
Proof.
  unfold normalizeSnapshotMessages. case_bool_decide; [apply Pruned_refl|].
  match goal with
  | |- context [fold_left ?f ?xs ?a] =>
      pose proof (fold_left_invariant (normalizeInv l) f xs a) as Hinv
  end.
  destruct (fold_left _ _ _) as [msgs rm].
  destruct Hinv as [Hhdr Hrm].
  - split; cbn; [apply Forall2_sameHeader_refl|set_solver].
  - intros acc i. apply normalizeStep_inv.
  - apply Pruned_removeIndicesFrom; done.
Qed.

Lemma Pruned_filter_hidden (hidden : gset string) (l : list PlatformMessage) :
  Pruned (λ m, msg_id m ∈ hidden) l
    (List.filter (λ msg, negb (bool_decide (msg_id msg ∈ hidden))) l).
Proof.
  induction l as [|m l IH]; cbn; [constructor|].
  case_bool_decide; cbn.
  - by apply Pruned_drop.
  - apply Pruned_keep; [apply sameHeader_refl|done].
Qed.

Lemma visible_normalized_pruned (hidden : gset string) (l : list PlatformMessage) :
  Pruned (droppable hidden) l
    (normalizeSnapshotMessages
       (List.filter (λ msg, negb (bool_decide (msg_id msg ∈ hidden))) l)).
Proof.
  apply (Pruned_trans _ _
           (List.filter (λ msg, negb (bool_decide (msg_id msg ∈ hidden))) l)).
  - intros m m' Hmm [Hh|Ht]; [left|right].
    + by rewrite <- (sameHeader_id _ _ Hmm).
    + by rewrite <- (sameHeader_isToolResult _ _ Hmm).
  - apply (Pruned_mono (λ m, msg_id m ∈ hidden)); [|apply Pruned_filter_hidden].
    intros m Hm. by left.
  - apply (Pruned_mono (λ m, isToolResult m = true)); [|apply normalize_pruned].
    intros m Hm. by right.
Qed.

Lemma Pruned_elem_of (d : PlatformMessage → Prop) (l l' : list PlatformMessage)
    (m' : PlatformMessage) :
  Pruned d l l' → m' ∈ l' → ∃ m, m ∈ l ∧ sameHeader m m'.
Proof.
  intros H Hm'. induction H as [|m l l' Hm _ IH|m m0 l l' Hmm _ IH].
  - by apply elem_of_nil in Hm'.
  - destruct (IH Hm') as (m1 & ? & ?). exists m1.
    split; [by apply list_elem_of_further|done].
  - apply elem_of_cons in Hm' as [->|Hm'].
    + exists m. split; [apply list_elem_of_here|done].
    + destruct (IH Hm') as (m1 & ? & ?). exists m1.
      split; [by apply list_elem_of_further|done].
Qed.

(** ** Merging the snapshot into the known messages *)

Lemma sameIdStatus_refl (tc : PlatformToolCall) : sameIdStatus tc tc.
Proof. by split. Qed.

Lemma sameIdStatus_trans (t1 t2 t3 : PlatformToolCall) :
  sameIdStatus t1 t2 → sameIdStatus t2 t3 → sameIdStatus t1 t3.
Proof. intros [? ?] [? ?]. split; congruence. Qed.

Lemma fromSources_elem (sources : list PlatformToolCall) (tc : PlatformToolCall) :
  tc ∈ sources → fromSources sources tc.
Proof. intros H. exists tc. split; [done|apply sameIdStatus_refl]. Qed.

Lemma fromSources_same (sources : list PlatformToolCall) (tc tc' : PlatformToolCall) :
  fromSources sources tc → sameIdStatus tc tc' → fromSources sources tc'.
Proof.
  intros (src & ? & ?) ?. exists src. split; [done|]. by eapply sameIdStatus_trans.
Qed.

Lemma mergeToolCall_sameIdStatus (existingTC snapshotTC : PlatformToolCall) :
  sameIdStatus snapshotTC (mergeToolCall existingTC snapshotTC).
Proof. unfold mergeToolCall. repeat case_inner; by split. Qed.

Lemma elem_of_alter {A} (f : A → A) (i : nat) (l : list A) (y : A) :
  y ∈ alter f i l → y ∈ l ∨ ∃ x, l !! i = Some x ∧ y = f x.
Proof.
  revert i. induction l as [|a l IH]; intros [|i]; cbn; try (by left).
  - intros H. apply elem_of_cons in H as [->|H]; [right; eauto|].
    left. by apply list_elem_of_further.
  - intros H. apply elem_of_cons in H as [->|H]; [left; apply list_elem_of_here|].
    destruct (IH i H) as [?|(x & ? & ?)]; [left; by apply list_elem_of_further|].
    right. eauto.
Qed.

Lemma mergeToolCallsStep_sources (sources merged : list PlatformToolCall)
    (existingTC : PlatformToolCall) :
  (∀ tc, tc ∈ merged → fromSources sources tc) →
  fromSources sources existingTC →
  ∀ tc, tc ∈ mergeToolCallsStep merged existingTC → fromSources sources tc.
Proof.
  intros Hmerged Hex tc. unfold mergeToolCallsStep.
  destruct (JS.findIndex _ merged) as [p|].
  - intros H. apply elem_of_alter in H as [H|(x & Hx & ->)]; [by apply Hmerged|].
    eapply fromSources_same; [|apply mergeToolCall_sameIdStatus].
    apply Hmerged. by eapply list_elem_of_lookup_2.
  - intros H. apply elem_of_app in H as [H|H]; [by apply Hmerged|].
    apply list_elem_of_singleton in H as ->. done.
Qed.

Lemma mergeToolCalls_sources (sources : list PlatformToolCall)
    (existingTCs merged : list PlatformToolCall) :
  (∀ tc, tc ∈ merged → fromSources sources tc) →
  (∀ tc, tc ∈ existingTCs → fromSources sources tc) →
  ∀ tc, tc ∈ fold_left mergeToolCallsStep existingTCs merged → fromSources sources tc.
Proof.
  revert merged. induction existingTCs as [|etc etcs IH]; intros merged Hm He; cbn; [done|].
  apply IH.
  - apply mergeToolCallsStep_sources; [done|]. apply He, list_elem_of_here.
  - intros tc Htc. apply He. by apply list_elem_of_further.
Qed.

Lemma snapshotIndex_Some (id : string) (store : list PlatformMessage) (k : nat) :
  snapshotIndex id store = Some k →
  ∃ sv, store !! k = Some sv ∧ msg_id sv = id.
Proof.
  intros H. apply findLastIndex_Some in H as (sv & Hsv & Hid & _).
  exists sv. split; [done|]. by apply bool_decide_eq_true in Hid.
Qed.

Lemma elem_of_bind_alter_toolCalls (f : PlatformMessage → PlatformMessage)
    (k : nat) (store : list PlatformMessage) (tc : PlatformToolCall) :
  tc ∈ alter f k store ≫= toolCallsOf →
  tc ∈ store ≫= toolCallsOf ∨ ∃ sv, store !! k = Some sv ∧ tc ∈ toolCallsOf (f sv).
Proof.
  intros H. apply list_elem_of_bind in H as (m & Htc & Hm).
  apply elem_of_alter in Hm as [Hm|(sv & Hsv & ->)].
  - left. apply list_elem_of_bind. eauto.
  - right. eauto.
Qed.

Lemma mergeExistingStep_inv (sources : list PlatformToolCall)
    (normalized done : list PlatformMessage)
    (acc : list PlatformMessage * list MergeSlot) (msg : PlatformMessage) :
  (∀ tc, tc ∈ toolCallsOf msg → fromSources sources tc) →
  mergeInv sources normalized done acc →
  mergeInv sources normalized (done ++ [msg]) (mergeExistingStep acc msg).
Proof.
  destruct acc as [store slots]. intros Hmsg (Hhdr & Hslots & Hstore & Hown).
  unfold mergeExistingStep. cbn [fst snd] in *.
  destruct (snapshotIndex (msg_id msg) store) as [k|] eqn:Ek.
  2:{ split; [done|]. split; [|split; [done|]].
      - apply Forall2_app; [done|]. by repeat constructor.
      - apply Forall_app. split; [done|]. by repeat constructor. }
  destruct (snapshotIndex_Some _ _ _ Ek) as (sv & Hsv & Hid).
  destruct (Forall2_lookup_r _ _ _ _ _ Hhdr Hsv) as (sv0 & Hsv0 & Hsame).
  assert (Hslot : ∃ sv1, normalized !! k = Some sv1 ∧ msg_id sv1 = msg_id msg).
  { exists sv0. split; [done|]. by rewrite <- (sameHeader_id _ _ Hsame). }
  rewrite Hsv. cbn [fmap option_fmap option_map default from_option id].
  case_inner; cbn [fst snd].
  - (* merge path *)
    set (merged := fold_left mergeToolCallsStep (toolCallsOf msg) (toolCallsOf sv)).
    assert (Hmerged : ∀ tc, tc ∈ merged → fromSources sources tc).
    { apply mergeToolCalls_sources; [|done]. intros tc Htc. apply Hstore.
      apply list_elem_of_bind. exists sv. split; [done|]. by eapply list_elem_of_lookup_2. }
    split; [|split; [|split]].
    + apply Forall2_alter_r; [done|]. intros x y _ _ Hxy. by apply sameHeader_set.
    + apply Forall2_app; [done|]. by repeat constructor.
    + intros tc Htc. apply elem_of_bind_alter_toolCalls in Htc as [Htc|(sv' & _ & Htc)];
        [by apply Hstore|].
      cbn in Htc. apply Hmerged. by eapply subseteq_take.
    + apply Forall_app. split; [done|]. repeat constructor.
      intros tc Htc. apply Hmerged. by eapply subseteq_drop.
  - split; [done|]. split; [|split; [done|]].
    + apply Forall2_app; [done|]. by repeat constructor.
    + apply Forall_app. split; [done|]. by repeat constructor.
Qed.

Lemma mergeExisting_fold_inv (sources : list PlatformToolCall)
    (normalized done existing : list PlatformMessage)
    (acc : list PlatformMessage * list MergeSlot) :
  (∀ m tc, m ∈ existing → tc ∈ toolCallsOf m → fromSources sources tc) →
  mergeInv sources normalized done acc →
  mergeInv sources normalized (done ++ existing) (fold_left mergeExistingStep existing acc).
Proof.
  revert done acc. induction existing as [|msg existing IH]; intros done acc Hex Hinv; cbn.
  - by rewrite app_nil_r.
  - replace (done ++ msg :: existing) with ((done ++ [msg]) ++ existing)
      by (by rewrite <- app_assoc).
    apply IH.
    + intros m tc Hm. apply Hex. by apply list_elem_of_further.
    + apply mergeExistingStep_inv; [|done]. intros tc. apply Hex, list_elem_of_here.
Qed.

Lemma readSlot_merged (normalized store : list PlatformMessage)
    (existing : list PlatformMessage) (slots : list MergeSlot) :
  Forall2 sameHeader normalized store →
  Forall2 (slotFor normalized) existing slots →
  Forall2 (mergedFrom normalized) existing (slots ≫= readSlot store).
Proof.
  intros Hhdr Hslots. induction Hslots as [|m slot existing slots Hslot _ IH]; cbn.
  - constructor.
  - destruct slot as [m0|k|k own]; cbn in Hslot |- *.
    + subst m0. constructor; [by left|done].
    + destruct Hslot as (sv & Hsv & Hid).
      destruct (Forall2_lookup_l _ _ _ _ _ Hhdr Hsv) as (sv' & Hsv' & Hsame).
      rewrite Hsv'. cbn. constructor; [|done]. right. exists sv.
      split; [by eapply list_elem_of_lookup_2|done].
    + destruct Hslot as (sv & Hsv & Hid).
      destruct (Forall2_lookup_l _ _ _ _ _ Hhdr Hsv) as (sv' & Hsv' & Hsame).
      rewrite Hsv'. cbn. constructor; [|done]. right. exists sv.
      split; [by eapply list_elem_of_lookup_2|]. split; [done|].
      by apply sameHeader_set.
Qed.

Lemma readSlot_sources (sources : list PlatformToolCall)
    (store : list PlatformMessage) (slots : list MergeSlot) :
  (∀ tc, tc ∈ store ≫= toolCallsOf → fromSources sources tc) →
  Forall (slotSources sources) slots →
  ∀ tc, tc ∈ (slots ≫= readSlot store) ≫= toolCallsOf → fromSources sources tc.
Proof.
  intros Hstore Hslots tc Htc.
  apply list_elem_of_bind in Htc as (m' & Htc & Hm').
  apply list_elem_of_bind in Hm' as (slot & Hm' & Hslot).
  rewrite Forall_forall in Hslots. specialize (Hslots slot Hslot).
  destruct slot as [m0|k|k own]; cbn in Hm', Hslots.
  - apply list_elem_of_singleton in Hm' as ->. by apply Hslots.
  - destruct (store !! k) as [sv|] eqn:Hsv; cbn in Hm'; [|by apply elem_of_nil in Hm'].
    apply list_elem_of_singleton in Hm' as ->. apply Hstore.
    apply list_elem_of_bind. exists sv. split; [done|]. by eapply list_elem_of_lookup_2.
  - destruct (store !! k) as [sv|] eqn:Hsv; cbn in Hm'; [|by apply elem_of_nil in Hm'].
    apply list_elem_of_singleton in Hm' as ->. cbn in Htc.
    apply elem_of_app in Htc as [Htc|Htc]; [|by apply Hslots].
    apply Hstore. apply list_elem_of_bind. exists sv.
    split; [done|]. by eapply list_elem_of_lookup_2.
Qed.

(** What [mergeExisting] returns: the store keeps the snapshot messages up
    to tool calls, every known message is kept or replaced by a snapshot
    message of the same id, and every tool call has the id and status of a
    tool call of the snapshot or of the known messages. *)
Lemma mergeExisting_spec (existing normalized : list PlatformMessage) :
  let sources := (normalized ≫= toolCallsOf) ++ (existing ≫= toolCallsOf) in
  let '(store, merged) := mergeExisting existing normalized in
  Forall2 sameHeader normalized store
  ∧ Forall2 (mergedFrom normalized) existing merged
  ∧ (∀ tc, tc ∈ store ≫= toolCallsOf → fromSources sources tc)
  ∧ (∀ tc, tc ∈ merged ≫= toolCallsOf → fromSources sources tc).
Proof.
  intros sources. unfold mergeExisting.
  pose proof (mergeExisting_fold_inv sources normalized [] existing (normalized, [])) as Hinv.
  destruct (fold_left mergeExistingStep existing (normalized, [])) as [store slots].
  destruct Hinv as (Hhdr & Hslots & Hstore & Hown).
  - intros m tc Hm Htc. apply fromSources_elem. apply elem_of_app. right.
    apply list_elem_of_bind. eauto.
  - split; [|split; [constructor|split; [|constructor]]]; cbn [fst snd].
    + apply Forall2_sameHeader_refl.
    + intros tc Htc. apply fromSources_elem. apply elem_of_app. by left.
  - cbn [fst snd app] in *. split; [done|]. split; [by apply readSlot_merged|].
    split; [done|]. by apply readSlot_sources.
Qed.

(** ** Inserting the messages that only the snapshot has *)

Lemma placeNew_split (b : option string) (msg : PlatformMessage)
    (merged : list PlatformMessage) :
  ∃ l1 l2, merged = l1 ++ l2 ∧ placeNew b msg merged = l1 ++ msg :: l2
           ∧ (JS.truthyO b = true → (∃ m, m ∈ merged ∧ Some (msg_id m) = b) →
              (∀ m, m ∈ l1 → Some (msg_id m) ≠ b)).
Proof.
  unfold placeNew. destruct (JS.truthyO b) eqn:Hb.
  - destruct (JS.findIndex _ merged) as [idx|] eqn:E.
    + exists (take idx merged), (drop idx merged). split; [by rewrite take_drop|].
      split; [done|]. intros _ _ m Hm. apply elem_of_take in Hm as (j & Hj & Hlt).
      apply findIndex_Some in E as (_ & _ & _ & Hbefore).
      specialize (Hbefore j m Hlt Hj). by apply bool_decide_eq_false in Hbefore.
    + exists merged, []. split; [by rewrite app_nil_r|]. split; [done|].
      intros _ (m & Hm & Hid). rewrite findIndex_None in E.
      specialize (E m Hm). apply bool_decide_eq_false in E. done.
  - exists merged, []. split; [by rewrite app_nil_r|]. split; [done|]. done.
Qed.

Lemma insertNew_elem_of (snap : list PlatformMessage) (E : gset string)
    (merged : list PlatformMessage) (m : PlatformMessage) :
  m ∈ insertNew snap E merged → m ∈ merged ∨ (m ∈ snap ∧ msg_id m ∉ E).
Proof.
  revert E merged. induction snap as [|msg rest IH]; intros E merged; cbn; [by left|].
  case_bool_decide as Hin.
  - intros H. destruct (IH _ _ H) as [?|[? ?]]; [by left|].
    right. split; [by apply list_elem_of_further|done].
  - intros H. destruct (IH _ _ H) as [Hm|[Hm Hid]].
    + destruct (placeNew_split
        (msg_id <$> JS.find (λ m0, bool_decide (msg_id m0 ∈ E)) rest) msg merged)
        as (l1 & l2 & -> & Hplace & _).
      rewrite Hplace in Hm.
      apply elem_of_app in Hm as [Hm|Hm]; [left; apply elem_of_app; by left|].
      apply elem_of_cons in Hm as [->|Hm]; [right|left; apply elem_of_app; by right].
      split; [apply list_elem_of_here|done].
    + right. split; [by apply list_elem_of_further|]. set_solver.
Qed.

Lemma insertNew_keeps (snap : list PlatformMessage) (E : gset string)
    (merged : list PlatformMessage) (m : PlatformMessage) :
  m ∈ merged → m ∈ insertNew snap E merged.
Proof.
  revert E merged. induction snap as [|msg rest IH]; intros E merged Hm; cbn; [done|].
  case_bool_decide; [by apply IH|]. apply IH.
  destruct (placeNew_split
    (msg_id <$> JS.find (λ m0, bool_decide (msg_id m0 ∈ E)) rest) msg merged)
    as (l1 & l2 & -> & Hplace & _).
  rewrite Hplace.
  apply elem_of_app in Hm as [Hm|Hm]; apply elem_of_app; [by left|].
  right. by apply list_elem_of_further.
Qed.

(** The messages with a known id are the same after the insertions, in the
    same order. *)
Lemma insertNew_known (snap : list PlatformMessage) (E E0 : gset string)
    (merged : list PlatformMessage) :
  E0 ⊆ E →
  List.filter (λ m, bool_decide (msg_id m ∈ E0)) (insertNew snap E merged)
  = List.filter (λ m, bool_decide (msg_id m ∈ E0)) merged.
Proof.
  revert E merged. induction snap as [|msg rest IH]; intros E merged Hsub; cbn; [done|].
  case_bool_decide as Hin; [by apply IH|].
  rewrite IH by set_solver.
  destruct (placeNew_split
    (msg_id <$> JS.find (λ m0, bool_decide (msg_id m0 ∈ E)) rest) msg merged)
    as (l1 & l2 & -> & Hplace & _).
  rewrite Hplace, !List.filter_app. cbn.
  rewrite bool_decide_eq_false_2 by set_solver. done.
Qed.

(** *** Order of ids *)

Lemma sublist_pair_insert (a b c : string) (l1 l2 : list string) :
  c ≠ a → c ≠ b →
  [b; a] `sublist_of` l1 ++ c :: l2 → [b; a] `sublist_of` l1 ++ l2.
Proof.
  intros Hca Hcb H. apply sublist_app_r in H as (k1 & k2 & Hk & H1 & H2).
  apply sublist_cons_r in H2 as [H2|(k2' & -> & H2)].
  - rewrite Hk. by apply sublist_app.
  - assert (Hc : c ∈ [b; a]).
    { rewrite Hk. apply elem_of_app. right. apply list_elem_of_here. }
    apply elem_of_cons in Hc as [->|Hc]; [done|].
    apply list_elem_of_singleton in Hc as ->. done.
Qed.

Lemma sublist_pair_fresh (a b : string) (l1 l2 : list string) :
  a ≠ b → b ∉ l1 → a ∉ l1 → a ∉ l2 →
  ¬ [b; a] `sublist_of` l1 ++ a :: l2.
Proof.
  intros Hab Hb Ha1 Ha2 H. apply sublist_app_r in H as (k1 & k2 & Hk & H1 & H2).
  destruct k1 as [|x k1]; cbn in Hk.
  - subst k2. apply sublist_cons_r in H2 as [H2|(k2' & [= <- <-] & H2)]; [|done].
    apply Ha2. eapply elem_of_sublist; [|done].
    apply list_elem_of_further, list_elem_of_here.
  - injection Hk as <- Hk. apply Hb. eapply elem_of_sublist; [|done].
    apply list_elem_of_here.
Qed.

Lemma find_app_first {A} (f : A → bool) (l1 l2 : list A) (x : A) :
  (∀ y, y ∈ l1 → f y = false) → f x = true →
  JS.find f (l1 ++ x :: l2) = Some x.
Proof.
  intros H1 Hx. unfold JS.find. induction l1 as [|y l1 IH]; cbn.
  - by rewrite Hx.
  - rewrite (H1 y) by apply list_elem_of_here. apply IH.
    intros z Hz. apply H1. by apply list_elem_of_further.
Qed.

(** Later insertions do not bring a known id after another known id. *)
Lemma insertNew_order_kept (snap : list PlatformMessage) (E : gset string)
    (merged : list PlatformMessage) (a b : string) :
  a ∈ E → b ∈ E →
  ¬ positionedAfter a b (idsOf merged) →
  ¬ positionedAfter a b (idsOf (insertNew snap E merged)).
Proof.
  revert E merged. induction snap as [|msg rest IH]; intros E merged Ha Hb Hnot; cbn; [done|].
  case_bool_decide as Hin; [by apply IH|].
  apply IH; [set_solver..|].
  destruct (placeNew_split
    (msg_id <$> JS.find (λ m0, bool_decide (msg_id m0 ∈ E)) rest) msg merged)
    as (l1 & l2 & -> & Hplace & _).
  rewrite Hplace. intros H. apply Hnot. unfold positionedAfter, idsOf in *.
  rewrite fmap_app in *. rewrite fmap_cons in H.
  eapply sublist_pair_insert; [| |done]; set_solver.
Qed.

(** Processing a prefix of the snapshot: its ids become known, and the
    merged list only grows by messages of the prefix. *)
Lemma insertNew_app (pre rest : list PlatformMessage) (E : gset string)
    (merged : list PlatformMessage) :
  ∃ merged',
    insertNew (pre ++ rest) E merged
    = insertNew rest (list_to_set (idsOf pre) ∪ E) merged'
    ∧ (∀ m, m ∈ merged → m ∈ merged')
    ∧ (∀ m, m ∈ merged' → m ∈ merged ∨ m ∈ pre).
Proof.
  revert E merged. induction pre as [|msg pre IH]; intros E merged; cbn.
  - exists merged. rewrite (left_id_L ∅ (∪) E). split; [done|]. split; [done|]. by left.
  - case_bool_decide as Hin.
    + destruct (IH E merged) as (merged' & Heq & Hsub & Hsup).
      exists merged'. rewrite Heq.
      replace ({[msg_id msg]} ∪ list_to_set (idsOf pre) ∪ E)
        with (list_to_set (idsOf pre) ∪ E : gset string).
      2:{ apply set_eq. intros y. rewrite !elem_of_union, elem_of_singleton.
          split; [tauto|intros [[->|?]|?]; auto]. }
      split; [done|]. split; [done|]. intros m Hm.
      destruct (Hsup m Hm); [by left|]. right. by apply list_elem_of_further.
    + set (b := msg_id <$> JS.find _ _).
      destruct (IH ({[msg_id msg]} ∪ E) (placeNew b msg merged))
        as (merged' & Heq & Hsub & Hsup).
      exists merged'. rewrite Heq.
      replace ({[msg_id msg]} ∪ list_to_set (idsOf pre) ∪ E)
        with (list_to_set (idsOf pre) ∪ ({[msg_id msg]} ∪ E) : gset string).
      2:{ apply set_eq. intros y. rewrite !elem_of_union, elem_of_singleton. tauto. }
      split; [done|].
      destruct (placeNew_split b msg merged) as (l1 & l2 & Hm12 & Hplace & _).
      rewrite Hplace in Hsub, Hsup. subst merged. split.
      * intros m Hm. apply Hsub. apply elem_of_app in Hm as [Hm|Hm]; apply elem_of_app;
          [by left|right; by apply list_elem_of_further].
      * intros m Hm. destruct (Hsup m Hm) as [Hm'|Hm']; [|right; by apply list_elem_of_further].
        apply elem_of_app in Hm' as [Hm'|Hm']; [left; apply elem_of_app; by left|].
        apply elem_of_cons in Hm' as [->|Hm']; [right; apply list_elem_of_here|].
        left. apply elem_of_app. by right.
Qed.

(** The heart of the insertion: a new message [N] whose next known message
    in the snapshot is [K] is never put after a message with the id of
    [K]. *)
Lemma insertNew_before_next_known (pre mid post : list PlatformMessage)
    (N K : PlatformMessage) (E : gset string) (merged : list PlatformMessage) :
  msg_id N ∉ E → msg_id N ∉ idsOf pre → msg_id N ∉ idsOf merged →
  msg_id K ∈ E → msg_id K ≠ EmptyString → msg_id K ∈ idsOf merged →
  (∀ m, m ∈ mid → (msg_id m ∉ E) ∧ (msg_id m ∉ idsOf pre)) →
  ¬ positionedAfter (msg_id N) (msg_id K)
      (idsOf (insertNew (pre ++ N :: mid ++ K :: post) E merged)).
Proof.
  intros HNE HNpre HNmerged HKE HKne HKmerged Hmid.
  destruct (insertNew_app pre (N :: mid ++ K :: post) E merged)
    as (merged1 & -> & Hsub & Hsup).
  set (E1 := list_to_set (idsOf pre) ∪ E : gset string).
  assert (HNE1 : msg_id N ∉ E1).
  { unfold E1. rewrite elem_of_union, elem_of_list_to_set. tauto. }
  assert (HKE1 : msg_id K ∈ E1) by (unfold E1; apply elem_of_union; by right).
  cbn [insertNew]. rewrite bool_decide_eq_false_2 by done.
  rewrite (find_app_first _ mid post K).
  2:{ intros y Hy. apply bool_decide_eq_false. unfold E1.
      rewrite elem_of_union, elem_of_list_to_set. destruct (Hmid y Hy). tauto. }
  2:{ by apply bool_decide_eq_true. }
  cbn [fmap option_fmap option_map].
  apply insertNew_order_kept;
    [apply elem_of_union; left; by apply elem_of_singleton
    |apply elem_of_union; by right|].
  destruct (placeNew_split (Some (msg_id K)) N merged1) as (l1 & l2 & Hm12 & -> & Hfirst).
  assert (HK1 : ∃ m, m ∈ merged1 ∧ Some (msg_id m) = Some (msg_id K)).
  { apply list_elem_of_fmap in HKmerged as (m & Hid & Hm). exists m.
    split; [by apply Hsub|by rewrite Hid]. }
  specialize (Hfirst (truthy_true _ HKne) HK1).
  assert (HN1 : msg_id N ∉ idsOf merged1).
  { intros H. apply list_elem_of_fmap in H as (m & Hid & Hm).
    destruct (Hsup m Hm) as [Hm'|Hm'].
    - apply HNmerged. apply list_elem_of_fmap. eauto.
    - apply HNpre. apply list_elem_of_fmap. eauto. }
  subst merged1. unfold positionedAfter, idsOf in *.
  rewrite fmap_app in *. rewrite fmap_cons.
  apply sublist_pair_fresh.
  - intros Heq. apply HNE. by rewrite Heq.
  - intros H. apply list_elem_of_fmap in H as (m & Hid & Hm).
    apply (Hfirst m Hm). by rewrite Hid.
  - intros H. apply HN1. apply elem_of_app. by left.
  - intros H. apply HN1. apply elem_of_app. by right.
Qed.
(** *** A new message and the known messages before it *)

(** Where [placeNew] cuts the list: at its end, or right before the first
    message with the id [insertBeforeId]. *)
Lemma placeNew_cut (b : option string) (msg : PlatformMessage)
    (merged : list PlatformMessage) :
  ∃ l1 l2, merged = l1 ++ l2 ∧ placeNew b msg merged = l1 ++ msg :: l2
           ∧ (l2 = [] ∨ ∃ k l2', l2 = k :: l2' ∧ Some (msg_id k) = b).
Proof.
  unfold placeNew. destruct (JS.truthyO b).
  - destruct (JS.findIndex _ merged) as [idx|] eqn:E.
    + exists (take idx merged), (drop idx merged). split; [by rewrite take_drop|].
      split; [done|]. right.
      apply findIndex_Some in E as (k & Hk & Hid & _).
      apply bool_decide_eq_true in Hid.
      exists k, (drop (S idx) merged). split; [|done].
      by apply drop_S.
    + exists merged, []. split; [by rewrite app_nil_r|]. split; [done|by left].
  - exists merged, []. split; [by rewrite app_nil_r|]. split; [done|by left].
Qed.

Lemma find_Some_elem {A} (f : A → bool) (l : list A) (x : A) :
  JS.find f l = Some x → x ∈ l ∧ f x = true.
Proof.
  unfold JS.find. intros H. apply find_some in H as [Hin Hf].
  split; [by apply list_elem_of_In|done].
Qed.

Lemma sublist_pair_after (a b : string) (l1 l2 : list string) :
  a ∉ l1 → [a; b] `sublist_of` l1 ++ a :: l2 → b ∈ a :: l2.
Proof.
  intros Ha H. apply sublist_app_r in H as (k1 & k2 & Hk & H1 & H2).
  destruct k1 as [|x k1]; cbn in Hk.
  - subst k2. eapply elem_of_sublist; [|exact H2].
    apply list_elem_of_further, list_elem_of_here.
  - injection Hk as <- Hk. destruct Ha. eapply elem_of_sublist; [|exact H1].
    apply list_elem_of_here.
Qed.

(** Processing a prefix of the snapshot keeps the order of the known
    ids. *)
Lemma insertNew_app_order (pre rest : list PlatformMessage) (E : gset string)
    (merged : list PlatformMessage) :
  ∃ merged',
    insertNew (pre ++ rest) E merged
    = insertNew rest (list_to_set (idsOf pre) ∪ E) merged'
    ∧ (∀ m, m ∈ merged → m ∈ merged')
    ∧ (∀ m, m ∈ merged' → m ∈ merged ∨ m ∈ pre)
    ∧ (∀ a b, a ∈ E → b ∈ E →
         ¬ positionedAfter a b (idsOf merged) → ¬ positionedAfter a b (idsOf merged')).
Proof.
  revert E merged. induction pre as [|msg pre IH]; intros E merged; cbn.
  - exists merged. rewrite (left_id_L ∅ (∪) E). split; [done|]. split; [done|].
    split; [by left|done].
  - case_bool_decide as Hin.
    + destruct (IH E merged) as (merged' & Heq & Hsub & Hsup & Hord).
      exists merged'. rewrite Heq.
      replace ({[msg_id msg]} ∪ list_to_set (idsOf pre) ∪ E)
        with (list_to_set (idsOf pre) ∪ E : gset string).
      2:{ apply set_eq. intros y. rewrite !elem_of_union, elem_of_singleton.
          split; [tauto|intros [[->|?]|?]; auto]. }
      split; [done|]. split; [done|]. split; [|done]. intros m Hm.
      destruct (Hsup m Hm); [by left|]. right. by apply list_elem_of_further.
    + set (b := msg_id <$> JS.find _ _).
      destruct (IH ({[msg_id msg]} ∪ E) (placeNew b msg merged))
        as (merged' & Heq & Hsub & Hsup & Hord).
      exists merged'. rewrite Heq.
      replace ({[msg_id msg]} ∪ list_to_set (idsOf pre) ∪ E)
        with (list_to_set (idsOf pre) ∪ ({[msg_id msg]} ∪ E) : gset string).
      2:{ apply set_eq. intros y. rewrite !elem_of_union, elem_of_singleton. tauto. }
      split; [done|].
      destruct (placeNew_split b msg merged) as (l1 & l2 & Hm12 & Hplace & _).
      rewrite Hplace in Hsub, Hsup, Hord. subst merged. split; [|split].
      * intros m Hm. apply Hsub. apply elem_of_app in Hm as [Hm|Hm]; apply elem_of_app;
          [by left|right; by apply list_elem_of_further].
      * intros m Hm. destruct (Hsup m Hm) as [Hm'|Hm']; [|right; by apply list_elem_of_further].
        apply elem_of_app in Hm' as [Hm'|Hm']; [left; apply elem_of_app; by left|].
        apply elem_of_cons in Hm' as [->|Hm']; [right; apply list_elem_of_here|].
        left. apply elem_of_app. by right.
      * intros x y Hx Hy Hnot. apply Hord.
        -- apply elem_of_union. by right.
        -- apply elem_of_union. by right.
        -- intros H. apply Hnot. unfold positionedAfter, idsOf in *.
           rewrite fmap_app in *. rewrite fmap_cons in H.
           eapply sublist_pair_insert; [| |exact H]; intros Heq'; apply Hin;
             by rewrite Heq'.
Qed.

(** A new message [N] of the snapshot is never put before a known id [u],
    as long as no known message that the snapshot lists after [N] stands
    before [u]. *)
Lemma insertNew_after_entry (pre post : list PlatformMessage) (N : PlatformMessage)
    (u : string) (E : gset string) (merged : list PlatformMessage) :
  msg_id N ∉ E → msg_id N ∉ idsOf pre → msg_id N ∉ idsOf merged →
  u ∈ E →
  (∀ m, m ∈ post → msg_id m ∉ idsOf pre) →
  (∀ m, m ∈ post → msg_id m ∈ E →
        msg_id m ≠ u ∧ ¬ positionedAfter u (msg_id m) (idsOf merged)) →
  ¬ positionedAfter u (msg_id N) (idsOf (insertNew (pre ++ N :: post) E merged)).
Proof.
  intros HNE HNpre HNmerged Hu Hpost Hknown.
  destruct (insertNew_app_order pre (N :: post) E merged)
    as (merged1 & -> & Hsub & Hsup & Hord).
  set (E1 := list_to_set (idsOf pre) ∪ E : gset string).
  assert (HNE1 : msg_id N ∉ E1).
  { unfold E1. rewrite elem_of_union, elem_of_list_to_set. tauto. }
  cbn [insertNew]. rewrite bool_decide_eq_false_2 by done.
  set (b := msg_id <$> JS.find (λ m, bool_decide (msg_id m ∈ E1)) post).
  apply insertNew_order_kept;
    [apply elem_of_union; right; unfold E1; apply elem_of_union; by right
    |apply elem_of_union; left; by apply elem_of_singleton|].
  assert (HN1 : msg_id N ∉ idsOf merged1).
  { intros H. apply list_elem_of_fmap in H as (m & Hid & Hm).
    destruct (Hsup m Hm) as [Hm'|Hm'].
    - apply HNmerged. apply list_elem_of_fmap. eauto.
    - apply HNpre. apply list_elem_of_fmap. eauto. }
  destruct (placeNew_cut b N merged1) as (l1 & l2 & Hm12 & -> & Hcut).
  unfold positionedAfter, idsOf. rewrite fmap_app, fmap_cons. intros Hpos.
  apply sublist_pair_after in Hpos.
  2:{ intros H. apply HN1. rewrite Hm12. unfold idsOf. rewrite fmap_app.
      apply elem_of_app. by left. }
  apply elem_of_cons in Hpos as [Heq|Hpos]; [apply HNE; by rewrite <- Heq|].
  destruct Hcut as [->|(k & l2' & -> & Hk)]; [by apply elem_of_nil in Hpos|].
  unfold b in Hk.
  destruct (JS.find (λ m, bool_decide (msg_id m ∈ E1)) post) as [K|] eqn:Hfind;
    [|done].
  injection Hk as Hk.
  apply find_Some_elem in Hfind as [HKpost HKE1].
  apply bool_decide_eq_true in HKE1.
  assert (HKE : msg_id K ∈ E).
  { unfold E1 in HKE1. apply elem_of_union in HKE1 as [HKE1|HKE1]; [|done].
    apply elem_of_list_to_set in HKE1. by destruct (Hpost K HKpost). }
  destruct (Hknown K HKpost HKE) as [HKu HKbefore].
  apply (Hord u (msg_id K) Hu HKE HKbefore).
  unfold positionedAfter, idsOf. rewrite Hm12, fmap_app, fmap_cons, Hk.
  rewrite fmap_cons, Hk in Hpos.
  apply elem_of_cons in Hpos as [Heq|Hpos]; [by destruct HKu|].
  apply sublist_inserts_l. apply sublist_skip. by apply singleton_sublist_l.
Qed.

Lemma sublist_pair_total (a b : string) (l : list string) :
  a ∈ l → b ∈ l → a ≠ b → [a; b] `sublist_of` l ∨ [b; a] `sublist_of` l.
Proof.
  intros Ha Hb Hab. induction l as [|x l IH]; [by apply elem_of_nil in Ha|].
  apply elem_of_cons in Ha as [->|Ha]; apply elem_of_cons in Hb as [->|Hb]; try done.
  - left. apply sublist_skip. by apply singleton_sublist_l.
  - right. apply sublist_skip. by apply singleton_sublist_l.
  - destruct (IH Ha Hb); [left|right]; by apply sublist_cons.
Qed.

(** ** The snapshot merge as a whole *)

Lemma Pruned_app_inv (d : PlatformMessage → Prop) (l1 l2 l' : list PlatformMessage) :
  Pruned d (l1 ++ l2) l' →
  ∃ l1' l2', l' = l1' ++ l2' ∧ Pruned d l1 l1' ∧ Pruned d l2 l2'.
Proof.
  revert l'. induction l1 as [|m l1 IH]; intros l' H; cbn in H.
  - exists [], l'. split; [done|]. split; [constructor|done].
  - inversion H as [|? ? ? Hd Hrest|? m' ? l'' Hmm Hrest]; subst.
    + destruct (IH _ Hrest) as (l1' & l2' & -> & ? & ?).
      exists l1', l2'. split; [done|]. split; [by apply Pruned_drop|done].
    + destruct (IH _ Hrest) as (l1' & l2' & -> & ? & ?).
      exists (m' :: l1'), l2'. split; [done|]. split; [by apply Pruned_keep|done].
Qed.

Lemma Pruned_cons_kept (d : PlatformMessage → Prop) (m : PlatformMessage)
    (l l' : list PlatformMessage) :
  ¬ d m → Pruned d (m :: l) l' →
  ∃ m' l'', l' = m' :: l'' ∧ sameHeader m m' ∧ Pruned d l l''.
Proof.
  intros Hd H. inversion H as [|? ? ? Hdrop Hrest|? m' ? l'' Hmm Hrest]; subst; [done|].
  eauto.
Qed.

Lemma Pruned_singleton (d : PlatformMessage → Prop) (m : PlatformMessage)
    (l' : list PlatformMessage) :
  Pruned d [m] l' → l' = [] ∨ ∃ m', l' = [m'] ∧ sameHeader m m'.
Proof.
  intros H. inversion H as [|? ? ? Hdrop Hrest|? m' ? l'' Hmm Hrest]; subst.
  - left. by inversion Hrest.
  - right. inversion Hrest; subst. eauto.
Qed.

Lemma Pruned_ids (d : PlatformMessage → Prop) (l l' : list PlatformMessage) (x : string) :
  Pruned d l l' → x ∈ idsOf l' → x ∈ idsOf l.
Proof.
  intros H Hx. apply list_elem_of_fmap in Hx as (m' & -> & Hm').
  destruct (Pruned_elem_of _ _ _ _ H Hm') as (m & Hm & Hsame).
  apply list_elem_of_fmap. exists m. split; [|done]. by apply sameHeader_id.
Qed.

Lemma Pruned_sameHeader_r (d : PlatformMessage → Prop) (l l' l'' : list PlatformMessage) :
  Pruned d l l' → Forall2 sameHeader l' l'' → Pruned d l l''.
Proof.
  intros H. revert l''. induction H as [|m l l' Hm _ IH|m m' l l' Hmm _ IH]; intros l'' Hh.
  - inversion Hh. constructor.
  - apply Pruned_drop; [done|]. by apply IH.
  - inversion Hh as [|? m'' ? l3 Hsame Hrest]; subst.
    apply Pruned_keep; [by eapply sameHeader_trans|]. by apply IH.
Qed.

Lemma sameHeader_recoverNames (tnm : gmap string string) (m : PlatformMessage) :
  sameHeader m (recoverNames tnm m).
Proof.
  unfold recoverNames. repeat case_inner; try apply sameHeader_refl.
  apply sameHeader_set, sameHeader_refl.
Qed.

Lemma filter_filter_comm {A} (f g : A → bool) (l : list A) :
  List.filter f (List.filter g l) = List.filter g (List.filter f l).
Proof.
  induction l as [|x l IH]; cbn; [done|].
  destruct (f x) eqn:Hf, (g x) eqn:Hg; cbn; rewrite ?Hf, ?Hg, ?IH; done.
Qed.

Lemma filter_fmap_comm {A B} (f : B → bool) (g : A → B) (l : list A) :
  List.filter f (g <$> l) = g <$> List.filter (λ x, f (g x)) l.
Proof.
  induction l as [|x l IH]; cbn; [done|].
  destruct (f (g x)); cbn; by rewrite IH.
Qed.

Lemma filter_ext_in {A} (f g : A → bool) (l : list A) :
  (∀ x, x ∈ l → f x = g x) → List.filter f l = List.filter g l.
Proof.
  intros H. apply List.filter_ext_in. intros x Hx. apply H. by apply list_elem_of_In.
Qed.

Lemma filter_all {A} (f : A → bool) (l : list A) :
  (∀ x, x ∈ l → f x = true) → List.filter f l = l.
Proof.
  induction l as [|x l IH]; intros H; cbn; [done|].
  rewrite (H x) by apply list_elem_of_here. f_equal. apply IH.
  intros y Hy. apply H. by apply list_elem_of_further.
Qed.

Lemma filter_sublist {A} (f : A → bool) (l : list A) :
  List.filter f l `sublist_of` l.
Proof.
  induction l as [|x l IH]; cbn; [constructor|].
  destruct (f x); by constructor.
Qed.

(** The anatomy of a snapshot merge. *)
Lemma mergeSnapshot_spec (hidden : gset string) (existing : list PlatformMessage)
    (pending : JSMap.t PendingToolCall) (snapshot : list PlatformMessage) :
  ∃ store merged tnm nested,
    mergeSnapshot hidden existing pending snapshot
    = List.filter (keepAfterNesting nested)
        (recoverNames tnm <$> insertNew store (list_to_set (idsOf existing)) merged)
    ∧ Pruned (droppable hidden) snapshot store
    ∧ (∀ m, m ∈ store → msg_id m ∉ hidden)
    ∧ Forall2 (mergedFromSnapshot hidden snapshot) existing merged.
Proof.
  unfold mergeSnapshot.
  set (visible := List.filter (λ msg, negb (bool_decide (msg_id msg ∈ hidden))) snapshot).
  set (normalized := normalizeSnapshotMessages visible).
  pose proof (mergeExisting_spec existing normalized) as Hspec.
  destruct (mergeExisting existing normalized) as [store merged].
  cbn zeta in Hspec. destruct Hspec as (Hhdr & Hmerged & _ & _).
  pose proof (visible_normalized_pruned hidden snapshot) as Hpruned.
  fold visible in Hpruned. fold normalized in Hpruned.
  assert (Hvisible : ∀ m, m ∈ normalized → m ∈ normalized ∧ (msg_id m ∉ hidden)
                       ∧ ∃ sv, sv ∈ snapshot ∧ msg_id sv = msg_id m ∧ sameHeader sv m).
  { intros m Hm. split; [done|].
    destruct (Pruned_elem_of _ _ _ _ (normalize_pruned visible) Hm) as (v & Hv & Hsame).
    unfold visible in Hv. apply list_elem_of_In, filter_In in Hv as [Hv Hvis].
    apply list_elem_of_In in Hv.
    apply negb_true_iff, bool_decide_eq_false in Hvis.
    rewrite (sameHeader_id _ _ Hsame). split; [done|]. exists v.
    done. }
  eexists store, merged, _, _. split; [reflexivity|].
  split; [by eapply Pruned_sameHeader_r|]. split.
  - intros m Hm. apply list_elem_of_lookup in Hm as (i & Hi).
    destruct (Forall2_lookup_r _ _ _ _ _ Hhdr Hi) as (n & Hn & Hsame).
    rewrite (sameHeader_id _ _ Hsame).
    apply list_elem_of_lookup_2 in Hn. by destruct (Hvisible n Hn) as (_ & ? & _).
  - eapply Forall2_impl; [done|]. intros m m' [->|(sv & Hsv & Hid & Hsame)]; [by left|].
    right. destruct (Hvisible sv Hsv) as (_ & Hnh & v & Hv & Hvid & Hvsame).
    exists v. split; [done|]. split; [by rewrite Hvid|]. split; [congruence|].
    by eapply sameHeader_trans.
Qed.

Lemma mergedFromSnapshot_id (hidden : gset string) (snapshot : list PlatformMessage)
    (m m' : PlatformMessage) :
  mergedFromSnapshot hidden snapshot m m' → msg_id m' = msg_id m.
Proof.
  intros [->|(sv & _ & _ & Hid & Hsame)]; [done|].
  by rewrite (sameHeader_id _ _ Hsame).
Qed.

Lemma mergedFromSnapshot_ids (hidden : gset string) (snapshot : list PlatformMessage)
    (existing merged : list PlatformMessage) :
  Forall2 (mergedFromSnapshot hidden snapshot) existing merged →
  idsOf merged = idsOf existing.
Proof.
  induction 1 as [|m m' l l' Hmm _ IH]; cbn; [done|].
  f_equal; [by eapply mergedFromSnapshot_id|done].
Qed.

(** *** Hidden messages *)

(** C10.  A snapshot merge takes the snapshot messages with a hidden id out
    before anything else (the merge is the merge of the visible messages),
    so a message with a hidden id is among the messages afterwards only if
    it was there before, and then it is that message up to recovered tool
    names. *)
Theorem hidden_messages_never_enter (e : PlatformEvent) (h : Hook) :
  ev_type e = EventType.MESSAGES_SNAPSHOT →
  let hidden := hiddenMessageIdsRef h in
  let h' := processEvent uuid e h in
  let visible :=
    List.filter (λ msg, negb (bool_decide (msg_id msg ∈ hidden))) (ev_messages e) in
  (∀ m, m ∈ visible → msg_id m ∉ hidden)
  ∧ messages (hk_state h')
    = mergeSnapshot hidden (messages (hk_state h)) (pendingToolCalls (hk_state h)) visible
  ∧ (∀ m, m ∈ messages (hk_state h') → msg_id m ∈ hidden →
       ∃ m0, m0 ∈ messages (hk_state h) ∧ sameHeader m0 m)
  ∧ hiddenMessageIdsRef h' = hidden.
Proof.
  intros Hty hidden h' visible.
  assert (Hh' : h' = onMessagesSnapshot e (emit (OnEvent (ev_type e)) h)).
  { unfold h'. by apply processEvent_messages_snapshot. }
  rewrite Hh'. unfold onMessagesSnapshot. proj_simpl. fold hidden.
  split; [|split; [|split; [|done]]].
  - intros m Hm. apply list_elem_of_In, filter_In in Hm as [_ Hm].
    by apply negb_true_iff, bool_decide_eq_false in Hm.
  - unfold mergeSnapshot, visible.
    rewrite (filter_all _ (List.filter _ (ev_messages e))); [done|].
    intros m Hm. by apply list_elem_of_In, filter_In in Hm as [_ Hm].
  - intros m Hm Hhidden.
    destruct (mergeSnapshot_spec hidden (messages (hk_state h))
                (pendingToolCalls (hk_state h)) (ev_messages e))
      as (store & merged & tnm & nested & Heq & _ & Hstore & Hmerged).
    rewrite Heq in Hm. apply list_elem_of_In, filter_In in Hm as [Hm _].
    apply list_elem_of_In, list_elem_of_fmap in Hm as (m1 & -> & Hm1).
    pose proof (sameHeader_recoverNames tnm m1) as Hrec.
    rewrite (sameHeader_id _ _ Hrec) in Hhidden.
    apply insertNew_elem_of in Hm1 as [Hm1|[Hm1 _]].
    + apply list_elem_of_lookup in Hm1 as (i & Hi).
      destruct (Forall2_lookup_r _ _ _ _ _ Hmerged Hi) as (m0 & Hm0 & Hfrom).
      destruct Hfrom as [->|(sv & _ & Hnh & _ & Hsame)].
      * exists m0. split; [by eapply list_elem_of_lookup_2|done].
      * rewrite (sameHeader_id _ _ Hsame) in Hhidden. done.
    + by destruct (Hstore m1 Hm1).
Qed.

(** *** Known messages across a merge *)

Lemma keepAfterNesting_not_tool (nested : gset string) (m : PlatformMessage) :
  msg_role m ≠ "tool" → keepAfterNesting nested m = true.
Proof. intros H. unfold keepAfterNesting. by rewrite bool_decide_eq_false_2. Qed.

(** The messages with a known id after a merge are the known messages,
    each kept or replaced by the snapshot's message of the same id, in the
    same order, minus the tool messages that the final cleanup removes. *)
Lemma mergeSnapshot_known (hidden : gset string) (existing : list PlatformMessage)
    (pending : JSMap.t PendingToolCall) (snapshot : list PlatformMessage) :
  ∃ merged tnm nested,
    Forall2 (mergedFromSnapshot hidden snapshot) existing merged
    ∧ List.filter (λ m, bool_decide (msg_id m ∈ idsOf existing))
        (mergeSnapshot hidden existing pending snapshot)
      = List.filter (keepAfterNesting nested) (recoverNames tnm <$> merged).
Proof.
  destruct (mergeSnapshot_spec hidden existing pending snapshot)
    as (store & merged & tnm & nested & -> & _ & _ & Hmerged).
  exists merged, tnm, nested. split; [done|].
  rewrite filter_filter_comm. f_equal.
  rewrite filter_fmap_comm. f_equal.
  rewrite (filter_ext_in _ (λ m, bool_decide (msg_id m ∈ (list_to_set (idsOf existing) : gset string)))).
  2:{ intros m _. cbn beta. rewrite (sameHeader_id _ _ (sameHeader_recoverNames tnm m)).
      apply bool_decide_ext. by rewrite elem_of_list_to_set. }
  rewrite insertNew_known by done.
  apply filter_all. intros m Hm. apply bool_decide_eq_true.
  rewrite elem_of_list_to_set, <- (mergedFromSnapshot_ids _ _ _ _ Hmerged).
  apply list_elem_of_fmap. eauto.
Qed.

Lemma Forall2_filter_id (R : PlatformMessage → PlatformMessage → Prop)
    (id : string) (l l' : list PlatformMessage) :
  (∀ m m', R m m' → msg_id m' = msg_id m) →
  Forall2 R l l' →
  Forall2 R (List.filter (λ m, bool_decide (msg_id m = id)) l)
            (List.filter (λ m, bool_decide (msg_id m = id)) l').
Proof.
  intros Hid. induction 1 as [|m m' l l' Hmm _ IH]; cbn; [constructor|].
  rewrite (Hid _ _ Hmm). case_bool_decide; [by constructor|done].
Qed.

(** *** New messages listed after a known one *)

(** A message that is new in the snapshot and listed after the known id
    [u] is never put before [u], as long as no known message that the
    snapshot lists after the new one stands before [u] in the state. *)
Lemma mergeSnapshot_reply_after (hidden : gset string) (existing : list PlatformMessage)
    (pending : JSMap.t PendingToolCall) (pre post : list PlatformMessage)
    (reply : PlatformMessage) (u : string) :
  NoDup (idsOf (pre ++ reply :: post)) →
  u ∈ idsOf existing → u ∈ idsOf pre →
  msg_id reply ∉ idsOf existing →
  (∀ m, m ∈ post → msg_id m ∈ idsOf existing →
        ¬ positionedAfter u (msg_id m) (idsOf existing)) →
  ¬ positionedAfter u (msg_id reply)
      (idsOf (mergeSnapshot hidden existing pending (pre ++ reply :: post))).
Proof.
  intros Hnodup Hu Hupre Hnew Hpost.
  destruct (mergeSnapshot_spec hidden existing pending (pre ++ reply :: post))
    as (store & merged & tnm & nested & Heq & Hpruned & _ & Hmerged).
  pose proof (mergedFromSnapshot_ids _ _ _ _ Hmerged) as Hids.
  set (known := idsOf existing) in *.
  assert (Hsub : idsOf (mergeSnapshot hidden existing pending (pre ++ reply :: post))
            `sublist_of` idsOf (insertNew store (list_to_set known) merged)).
  { rewrite Heq. etrans; [apply fmap_sublist, filter_sublist|].
    unfold idsOf. rewrite <- list_fmap_compose.
    apply reflexive_eq. apply list_fmap_ext. intros i m _. cbn.
    apply (sameHeader_id _ _ (sameHeader_recoverNames tnm m)). }
  intros Hpos.
  assert (Hpos' : positionedAfter u (msg_id reply)
                    (idsOf (insertNew store (list_to_set known) merged)))
    by (unfold positionedAfter in *; by etrans).
  clear Hpos Hsub Heq. revert Hpos'.
  apply Pruned_app_inv in Hpruned as (pre' & rest1 & -> & Hpre & Hrest1).
  change (reply :: post) with ([reply] ++ post) in Hrest1.
  apply Pruned_app_inv in Hrest1 as (nN & post' & -> & HnN & Hpost').
  unfold idsOf in Hnodup. rewrite fmap_app, fmap_cons in Hnodup.
  apply NoDup_app in Hnodup as (_ & Hpre_rest & Hnodup).
  apply NoDup_cons in Hnodup as (HN_rest & _).
  assert (HNpre : msg_id reply ∉ idsOf pre').
  { intros H. apply (Pruned_ids _ _ _ _ Hpre) in H.
    apply (Hpre_rest _ H). apply list_elem_of_here. }
  assert (HNpost : msg_id reply ∉ idsOf post').
  { intros H. apply (Pruned_ids _ _ _ _ Hpost') in H. by apply HN_rest. }
  assert (Hupost : ∀ m, m ∈ post' → msg_id m ≠ u ∧ msg_id m ∉ idsOf pre').
  { intros m Hm.
    destruct (Pruned_elem_of _ _ _ _ Hpost' Hm) as (m0 & Hm0 & Hsame).
    rewrite (sameHeader_id _ _ Hsame).
    assert (Hin0 : msg_id m0 ∈ msg_id <$> post) by (apply list_elem_of_fmap; eauto).
    split.
    - intros Heq. apply (Hpre_rest _ Hupre). rewrite <- Heq.
      by apply list_elem_of_further.
    - intros H. apply (Pruned_ids _ _ _ _ Hpre) in H.
      apply (Hpre_rest _ H). by apply list_elem_of_further. }
  apply Pruned_singleton in HnN as [->|(N' & -> & HNN')].
  - (* the new message was dropped: its id does not occur afterwards *)
    intros Hpos. unfold positionedAfter in Hpos.
    assert (Hin : msg_id reply ∈ idsOf (insertNew (pre' ++ [] ++ post')
                                         (list_to_set known) merged)).
    { eapply elem_of_sublist; [|done]. apply list_elem_of_here. }
    apply list_elem_of_fmap in Hin as (m & Hmid0 & Hm).
    apply insertNew_elem_of in Hm as [Hm|[Hm _]].
    + apply Hnew. rewrite <- Hids, Hmid0. apply list_elem_of_fmap. eauto.
    + cbn [app] in Hm. apply elem_of_app in Hm as [Hm|Hm];
        [apply HNpre; rewrite Hmid0; apply list_elem_of_fmap; eauto|].
      apply HNpost. rewrite Hmid0. apply list_elem_of_fmap. eauto.
  - rewrite <- (sameHeader_id _ _ HNN') in *. cbn [app].
    apply insertNew_after_entry.
    + by rewrite elem_of_list_to_set.
    + done.
    + by rewrite Hids.
    + by rewrite elem_of_list_to_set.
    + intros m Hm. by destruct (Hupost m Hm).
    + intros m Hm HmE. rewrite elem_of_list_to_set in HmE.
      split; [by destruct (Hupost m Hm)|]. rewrite Hids.
      destruct (Pruned_elem_of _ _ _ _ Hpost' Hm) as (m0 & Hm0 & Hsame).
      rewrite (sameHeader_id _ _ Hsame) in *. by apply Hpost.
Qed.

(** *** The optimistic user message *)

(** C6 (amended).  [sendMessage] appends one user message with a generated
    id to the messages, and only then issues the request.  When the
    generated id is new, that message is the only one with its id; and in
    every later state where that is so, a snapshot whose messages with that
    id are user messages leaves exactly one message with that id, a user
    message; it has the content that was sent when the snapshot holds the
    message with that content.
    Nothing is reordered around it that the snapshot does not itself list
    the other way round: the messages known before the merge keep their
    relative order, and a reply that is new in the snapshot and listed
    after the message is never put before it, as long as no known message
    that the snapshot lists after the reply stands before the message in
    the state. *)
Theorem optimistic_message_survives_snapshot (content now : string) (h : Hook) :
  let id := uuid (uuidCount h) in
  let sent := msg_set_timestamp (Some now) (mkMessage id "user" (Some content)) in
  let inserted := (optimisticInsert uuid content now h).2 in
  let isId (m : PlatformMessage) := bool_decide (msg_id m = id) in
  (optimisticInsert uuid content now h).1 = id
  ∧ messages (hk_state inserted) = messages (hk_state h) ++ [sent]
  ∧ effects inserted = effects h
  ∧ sendMessage uuid sessionName content now h
    = emit (FetchRun (JS.orS (threadId (hk_state h)) sessionName)
              (runId (hk_state h)) id content) inserted
  ∧ (id ∉ idsOf (messages (hk_state h)) →
     List.filter isId (messages (hk_state inserted)) = [sent])
  ∧ ∀ (later : Hook) (e : PlatformEvent) (m0 : PlatformMessage),
      List.filter isId (messages (hk_state later)) = [m0] →
      msg_role m0 = "user" → msg_content m0 = Some content →
      ev_type e = EventType.MESSAGES_SNAPSHOT →
      (∀ m, m ∈ ev_messages e → msg_id m = id → msg_role m = "user") →
      let after := messages (hk_state (processEvent uuid e later)) in
      (∃ m, List.filter isId after = [m] ∧ msg_role m = "user"
            ∧ ((∀ sv, sv ∈ ev_messages e → msg_id sv = id →
                      msg_content sv = Some content) →
               msg_content m = Some content))
      ∧ idsOf (List.filter
                 (λ m, bool_decide (msg_id m ∈ idsOf (messages (hk_state later)))) after)
        `sublist_of` idsOf (messages (hk_state later))
      ∧ ∀ (pre post : list PlatformMessage) (reply : PlatformMessage),
          ev_messages e = pre ++ reply :: post →
          NoDup (idsOf (ev_messages e)) →
          id ∈ idsOf pre →
          msg_id reply ∉ idsOf (messages (hk_state later)) →
          (∀ m, m ∈ post → msg_id m ∈ idsOf (messages (hk_state later)) →
                ¬ positionedAfter id (msg_id m) (idsOf (messages (hk_state later)))) →
          ¬ positionedAfter id (msg_id reply) (idsOf after)
          ∧ (msg_id reply ∈ idsOf after →
             positionedAfter (msg_id reply) id (idsOf after)).
Proof.
  intros id sent inserted isId. subst isId. cbn beta.
  split; [done|]. split; [done|]. split; [done|]. split; [done|]. split.
  - intros Hfresh. unfold inserted, optimisticInsert, randomUUID. cbn [snd].
    proj_simpl. rewrite List.filter_app.
    rewrite (filter_id_nil_messages id (messages (hk_state h)) Hfresh).
    cbn. unfold sent. cbn. by rewrite bool_decide_eq_true_2.
  - intros later e m0 Hone Hrole Hcontent Hty Hsnap after.
    assert (Hafter : after = mergeSnapshot (hiddenMessageIdsRef later)
              (messages (hk_state later)) (pendingToolCalls (hk_state later)) (ev_messages e)).
    { unfold after. by rewrite processEvent_messages_snapshot. }
    destruct (mergeSnapshot_known (hiddenMessageIdsRef later) (messages (hk_state later))
                (pendingToolCalls (hk_state later)) (ev_messages e))
      as (merged & tnm & nested & Hmerged & Hknown).
    rewrite <- Hafter in Hknown.
    assert (Hin : id ∈ idsOf (messages (hk_state later))).
    { assert (Hm0 : m0 ∈ List.filter (λ m, bool_decide (msg_id m = id)) (messages (hk_state later)))
        by (rewrite Hone; apply list_elem_of_here).
      apply list_elem_of_In, filter_In in Hm0 as [Hm0 Hid].
      apply bool_decide_eq_true in Hid. apply list_elem_of_fmap.
      exists m0. split; [done|by apply list_elem_of_In]. }
    assert (Hexact : ∃ m, List.filter (λ m, bool_decide (msg_id m = id)) after = [m]
                          ∧ msg_role m = "user"
                          ∧ ((∀ sv, sv ∈ ev_messages e → msg_id sv = id →
                                    msg_content sv = Some content) →
                             msg_content m = Some content)).
    { (* exactly one message with the id *)
      assert (Heq : List.filter (λ m, bool_decide (msg_id m = id)) after
                    = List.filter (λ m, bool_decide (msg_id m = id)) (List.filter
                        (λ m, bool_decide (msg_id m ∈ idsOf (messages (hk_state later)))) after)).
      { rewrite filter_filter_comm. symmetry. apply filter_all.
        intros m Hm. apply list_elem_of_In, filter_In in Hm as [_ Hm].
        apply bool_decide_eq_true in Hm. apply bool_decide_eq_true. by rewrite Hm. }
      rewrite Heq, Hknown, filter_filter_comm, filter_fmap_comm.
      rewrite (filter_ext_in (λ x, bool_decide (msg_id (recoverNames tnm x) = id))
                 (λ m, bool_decide (msg_id m = id)) merged)
        by (intros m _; cbn beta;
            by rewrite (sameHeader_id _ _ (sameHeader_recoverNames tnm m))).
      pose proof (Forall2_filter_id _ id _ _
        (mergedFromSnapshot_id _ _) Hmerged) as Hone'.
      rewrite Hone in Hone'.
      inversion Hone' as [|? m1 ? rest Hfrom Hrest Heq1 Heq2]; subst.
      inversion Hrest; subst. cbn [fmap list_fmap].
      assert (Hm1 : msg_role m1 = "user"
                    ∧ ((∀ sv, sv ∈ ev_messages e → msg_id sv = id →
                              msg_content sv = Some content) →
                       msg_content m1 = Some content)).
      { destruct Hfrom as [->|(sv & Hsv & _ & Hsvid & Hsame)]; [done|].
        assert (Hsvid' : msg_id sv = id).
        { rewrite Hsvid.
          assert (Hm0 : m0 ∈ List.filter (λ m, bool_decide (msg_id m = id))
                          (messages (hk_state later)))
            by (rewrite Hone; apply list_elem_of_here).
          apply list_elem_of_In, filter_In in Hm0 as [_ Hid].
          by apply bool_decide_eq_true in Hid. }
        rewrite (sameHeader_role _ _ Hsame), (sameHeader_content _ _ Hsame).
        split; [by apply Hsnap|]. intros Hsent. by apply Hsent. }
      pose proof (sameHeader_recoverNames tnm m1) as Hrec.
      exists (recoverNames tnm m1). cbn [List.filter].
      rewrite keepAfterNesting_not_tool
        by (rewrite (sameHeader_role _ _ Hrec); by destruct Hm1 as [-> _]).
      split; [done|].
      rewrite (sameHeader_role _ _ Hrec), (sameHeader_content _ _ Hrec). exact Hm1. }
    split; [exact Hexact|]. split.
    + rewrite Hknown.
      rewrite <- (mergedFromSnapshot_ids _ _ _ _ Hmerged).
      etrans; [apply fmap_sublist, filter_sublist|].
      unfold idsOf. rewrite <- list_fmap_compose.
      apply reflexive_eq. apply list_fmap_ext. intros i m _. cbn.
      apply (sameHeader_id _ _ (sameHeader_recoverNames tnm m)).
    + intros pre post reply Hsplit Hnodup Hlisted Hnew Hconsistent.
      assert (Hnot : ¬ positionedAfter id (msg_id reply) (idsOf after)).
      { rewrite Hafter, Hsplit. apply mergeSnapshot_reply_after; try done.
        by rewrite <- Hsplit. }
      split; [exact Hnot|]. intros Hreply.
      destruct Hexact as (m & Hm & _).
      assert (Hentry : id ∈ idsOf after).
      { assert (Hm' : m ∈ List.filter (λ m, bool_decide (msg_id m = id)) after)
          by (rewrite Hm; apply list_elem_of_here).
        apply list_elem_of_In, filter_In in Hm' as [Hm' Hmid].
        apply bool_decide_eq_true in Hmid. apply list_elem_of_fmap.
        exists m. split; [done|by apply list_elem_of_In]. }
      destruct (sublist_pair_total id (msg_id reply) (idsOf after) Hentry Hreply)
        as [Hok|Hbad]; [|done|done].
      intros Heq. apply Hnew. by rewrite <- Heq.
Qed.

(** *** Where a new snapshot message lands *)

(** C4 (amended).  In a merge of a snapshot without duplicate ids, a
    message [N] that was not known before and the first known message [K]
    that follows it in the snapshot (visible, not a tool result, with a
    non-empty id): [N] is never put after a message with the id of [K]; when
    both are among the messages afterwards, [K] comes after [N]. *)
Theorem snapshot_new_message_before_next_known (e : PlatformEvent) (h : Hook)
    (pre mid post : list PlatformMessage) (N K : PlatformMessage) :
  ev_type e = EventType.MESSAGES_SNAPSHOT →
  ev_messages e = pre ++ N :: mid ++ K :: post →
  NoDup (idsOf (ev_messages e)) →
  let known := idsOf (messages (hk_state h)) in
  msg_id N ∉ known →
  msg_id K ∈ known →
  (∀ m, m ∈ mid → msg_id m ∉ known) →
  msg_id K ≠ EmptyString →
  msg_id K ∉ hiddenMessageIdsRef h →
  isToolResult K = false →
  let after := idsOf (messages (hk_state (processEvent uuid e h))) in
  ¬ positionedAfter (msg_id N) (msg_id K) after
  ∧ (msg_id N ∈ after → msg_id K ∈ after →
     positionedAfter (msg_id K) (msg_id N) after).
Proof.
  intros Hty Hsnap Hnodup known HN HK Hmid HKne HKvis HKtool after.
  assert (Hmain : ¬ positionedAfter (msg_id N) (msg_id K) after).
  2:{ split; [done|]. intros HNa HKa.
      destruct (sublist_pair_total (msg_id N) (msg_id K) after HNa HKa) as [?|?]; try done.
      intros Heq. apply HN. by rewrite Heq. }
  assert (Hafter : messages (hk_state (processEvent uuid e h))
            = mergeSnapshot (hiddenMessageIdsRef h)
                (messages (hk_state h)) (pendingToolCalls (hk_state h)) (ev_messages e)).
  { by rewrite processEvent_messages_snapshot. }
  destruct (mergeSnapshot_spec (hiddenMessageIdsRef h) (messages (hk_state h))
              (pendingToolCalls (hk_state h)) (ev_messages e))
    as (store & merged & tnm & nested & Heq & Hpruned & _ & Hmerged).
  pose proof (mergedFromSnapshot_ids _ _ _ _ Hmerged) as Hids. fold known in Hids.
  (* the ids afterwards are a sublist of the ids after the insertions *)
  assert (Hsub : after `sublist_of`
            idsOf (insertNew store (list_to_set known) merged)).
  { unfold after. rewrite Hafter, Heq.
    etrans; [apply fmap_sublist, filter_sublist|].
    unfold idsOf. rewrite <- list_fmap_compose.
    apply reflexive_eq. apply list_fmap_ext. intros i m _. cbn.
    apply (sameHeader_id _ _ (sameHeader_recoverNames tnm m)). }
  intros Hpos. unfold positionedAfter in Hpos.
  assert (Hpos' : positionedAfter (msg_id N) (msg_id K)
                    (idsOf (insertNew store (list_to_set known) merged)))
    by (unfold positionedAfter; by etrans).
  clear Hpos Hsub Hafter Heq. revert Hpos'.
  (* the shape of the store *)
  rewrite Hsnap in Hpruned, Hnodup.
  apply Pruned_app_inv in Hpruned as (pre' & rest1 & -> & Hpre & Hrest1).
  change (N :: mid ++ K :: post) with ([N] ++ mid ++ K :: post) in Hrest1.
  apply Pruned_app_inv in Hrest1 as (nN & rest2 & -> & HnN & Hrest2).
  apply Pruned_app_inv in Hrest2 as (mid' & rest3 & -> & Hmid' & Hrest3).
  apply Pruned_cons_kept in Hrest3 as (K' & post' & -> & HKK' & Hpost).
  2:{ intros [?|?]; [done|congruence]. }
  (* what the absence of duplicates gives *)
  unfold idsOf in Hnodup. rewrite fmap_app, fmap_cons, fmap_app, fmap_cons in Hnodup.
  apply NoDup_app in Hnodup as (_ & Hpre_rest & Hnodup).
  apply NoDup_cons in Hnodup as (HN_rest & _).
  assert (HNpre : msg_id N ∉ idsOf pre').
  { intros H. apply (Pruned_ids _ _ _ _ Hpre) in H.
    apply (Hpre_rest _ H). apply list_elem_of_here. }
  assert (HNmid : msg_id N ∉ idsOf mid').
  { intros H. apply (Pruned_ids _ _ _ _ Hmid') in H.
    apply HN_rest. apply elem_of_app. by left. }
  assert (HNpost : msg_id N ∉ idsOf post').
  { intros H. apply (Pruned_ids _ _ _ _ Hpost) in H.
    apply HN_rest. apply elem_of_app. right. by apply list_elem_of_further. }
  assert (HNK : msg_id N ≠ msg_id K).
  { intros Heq. apply HN. by rewrite Heq. }
  assert (Hmidfresh : ∀ m, m ∈ mid' →
            (msg_id m ∉ (list_to_set known : gset string)) ∧ (msg_id m ∉ idsOf pre')).
  { intros m Hm.
    destruct (Pruned_elem_of _ _ _ _ Hmid' Hm) as (m0 & Hm0 & Hsame).
    rewrite (sameHeader_id _ _ Hsame). split.
    - rewrite elem_of_list_to_set. by apply Hmid.
    - intros H. apply (Pruned_ids _ _ _ _ Hpre) in H.
      apply (Hpre_rest _ H). apply list_elem_of_further, elem_of_app. left.
      apply list_elem_of_fmap. eauto. }
  rewrite <- (sameHeader_id _ _ HKK') in *.
  apply Pruned_singleton in HnN as [->|(N' & -> & HNN')].
  - (* N itself was dropped: its id does not occur afterwards *)
    intros Hpos. unfold positionedAfter in Hpos.
    assert (Hin : msg_id N ∈ idsOf (insertNew (pre' ++ [] ++ mid' ++ K' :: post')
                                     (list_to_set known) merged)).
    { eapply elem_of_sublist; [|done]. apply list_elem_of_further, list_elem_of_here. }
    apply list_elem_of_fmap in Hin as (m & Hmid0 & Hm).
    apply insertNew_elem_of in Hm as [Hm|[Hm _]].
    + apply HN. rewrite <- Hids, Hmid0. apply list_elem_of_fmap. eauto.
    + cbn [app] in Hm. apply elem_of_app in Hm as [Hm|Hm];
        [apply HNpre; rewrite Hmid0; apply list_elem_of_fmap; eauto|].
      apply elem_of_app in Hm as [Hm|Hm];
        [apply HNmid; rewrite Hmid0; apply list_elem_of_fmap; eauto|].
      apply elem_of_cons in Hm as [->|Hm]; [done|].
      apply HNpost. rewrite Hmid0. apply list_elem_of_fmap. eauto.
  - rewrite <- (sameHeader_id _ _ HNN') in *. cbn [app].
    apply insertNew_before_next_known; try done.
    + by rewrite elem_of_list_to_set.
    + by rewrite Hids.
    + by rewrite elem_of_list_to_set.
    + by rewrite Hids.
Qed.

(** ** Tool call status *)

Lemma derivedFrom_same (sources : list PlatformToolCall) (tc tc' : PlatformToolCall) :
  derivedFrom sources tc →
  tc_id tc' = tc_id tc →
  tc_status tc' = tc_status tc ∨ tc_status tc' = Some StCompleted →
  derivedFrom sources tc'.
Proof.
  intros [Hc|(src & Hsrc & Hid & Hst)] Hid' [Hst'|Hst']; try (by left).
  - left. congruence.
  - right. exists src. split; [done|]. split; congruence.
Qed.

Lemma derivedFrom_elem (sources : list PlatformToolCall) (tc : PlatformToolCall) :
  tc ∈ sources → derivedFrom sources tc.
Proof. intros H. right. exists tc. split; [done|apply sameIdStatus_refl]. Qed.

Lemma derivedFrom_mono (s1 s2 : list PlatformToolCall) (tc : PlatformToolCall) :
  (∀ x, x ∈ s1 → derivedFrom s2 x) → derivedFrom s1 tc → derivedFrom s2 tc.
Proof.
  intros Hsub [Hc|(src & Hsrc & Hid & Hst)]; [by left|].
  eapply derivedFrom_same; [by apply Hsub| |]; [done|by left].
Qed.

Lemma derivedFrom_settled (sources : list PlatformToolCall) (id : string)
    (tc : PlatformToolCall) :
  settledIn id sources → derivedFrom sources tc → tc_id tc = id → settled tc.
Proof.
  intros Hs [Hc|(src & Hsrc & Hid & Hst)] Htc; [by left|].
  destruct (Hs src Hsrc) as [H|H]; [congruence|left|right]; congruence.
Qed.

Lemma toolCallsOf_set (tcs : list PlatformToolCall) (m : PlatformMessage) :
  toolCallsOf (msg_set_toolCalls (Some tcs) m) = tcs.
Proof. reflexivity. Qed.

Lemma setParentResult_toolCalls (pid r : string) (m : PlatformMessage)
    (tc : PlatformToolCall) :
  tc ∈ toolCallsOf (setParentResult pid r m) →
  ∃ tc0, tc0 ∈ toolCallsOf m ∧ tc_id tc = tc_id tc0
         ∧ (tc_status tc = tc_status tc0 ∨ tc_status tc = Some StCompleted).
Proof.
  unfold setParentResult, toolCallsOf at 2.
  destruct (msg_toolCalls m) as [tcs|] eqn:Htcs; cbn [default from_option id].
  2:{ unfold toolCallsOf. rewrite Htcs. intros H. by apply elem_of_nil in H. }
  destruct (JS.findIndex _ tcs) as [p|].
  2:{ unfold toolCallsOf. rewrite Htcs. intros H. exists tc. split; [done|]. by split; [|left]. }
  rewrite toolCallsOf_set. intros H.
  apply elem_of_alter in H as [H|(tc0 & Htc0 & ->)].
  - exists tc. split; [done|]. by split; [|left].
  - exists tc0. split; [by eapply list_elem_of_lookup_2|].
    cbn. destruct (tc_status tc0) eqn:Hst; cbn; rewrite ?Hst; split; auto.
Qed.

Lemma pushChild_toolCalls (child : PlatformToolCall) (m : PlatformMessage)
    (tc : PlatformToolCall) :
  tc ∈ toolCallsOf (pushChild child m) → tc ∈ toolCallsOf m ∨ tc = child.
Proof.
  unfold pushChild. case_inner; [by left|]. rewrite toolCallsOf_set.
  intros H. apply elem_of_app in H as [H|H]; [by left|].
  apply list_elem_of_singleton in H. by right.
Qed.

Lemma normalizeStep_derived (sources : list PlatformToolCall) (ids : gset string)
    (pri : JSMap.t nat) (acc : list PlatformMessage * gset nat) (i : nat) :
  (∀ tc, tc ∈ acc.1 ≫= toolCallsOf → derivedFrom sources tc) →
  ∀ tc, tc ∈ (normalizeStep ids pri acc i).1 ≫= toolCallsOf → derivedFrom sources tc.
Proof.
  destruct acc as [msgs rm]. cbn [fst]. intros Hacc tc. unfold normalizeStep.
  repeat case_inner; cbn [fst]; try apply Hacc.
  - intros H. apply elem_of_bind_alter_toolCalls in H as [H|(m & Hm & H)]; [by apply Hacc|].
    apply setParentResult_toolCalls in H as (tc0 & Htc0 & Hid & Hst).
    eapply derivedFrom_same; [|done..]. apply Hacc.
    apply list_elem_of_bind. exists m. split; [done|]. by eapply list_elem_of_lookup_2.
  - intros H. apply elem_of_bind_alter_toolCalls in H as [H|(m & Hm & H)]; [by apply Hacc|].
    apply pushChild_toolCalls in H as [H| ->]; [|by left].
    apply Hacc. apply list_elem_of_bind. exists m.
    split; [done|]. by eapply list_elem_of_lookup_2.
Qed.

Lemma elem_of_removeIndicesFrom {A} (k : nat) (rm : gset nat) (l : list A) (x : A) :
  x ∈ removeIndicesFrom k rm l → x ∈ l.
Proof.
  revert k. induction l as [|y l IH]; intros k; cbn; [done|].
  case_bool_decide.
  - intros Hx. apply list_elem_of_further. by eapply IH.
  - intros Hx. apply elem_of_cons in Hx as [->|Hx]; [apply list_elem_of_here|].
    apply list_elem_of_further. by eapply IH.
Qed.

(** Normalisation keeps the status of a tool call, or marks it completed. *)
Lemma normalize_derived (l : list PlatformMessage) (tc : PlatformToolCall) :
  tc ∈ normalizeSnapshotMessages l ≫= toolCallsOf →
  derivedFrom (l ≫= toolCallsOf) tc.
Proof.
  unfold normalizeSnapshotMessages. case_bool_decide; [apply derivedFrom_elem|].
  match goal with
  | |- context [fold_left ?f ?xs ?a] =>
      pose proof (fold_left_invariant
        (λ acc, ∀ tc, tc ∈ acc.1 ≫= toolCallsOf → derivedFrom (l ≫= toolCallsOf) tc)
        f xs a) as Hinv
  end.
  destruct (fold_left _ _ _) as [msgs rm]. cbn [fst] in Hinv.
  intros Hin. apply Hinv.
  - intros tc0. apply derivedFrom_elem.
  - intros acc i Hacc. by apply normalizeStep_derived.
  - apply list_elem_of_bind in Hin as (m & Htc & Hm). apply list_elem_of_bind.
    exists m. split; [done|]. by eapply elem_of_removeIndicesFrom.
Qed.

Lemma recoverNames_toolCalls (tnm : gmap string string) (m : PlatformMessage)
    (tc : PlatformToolCall) :
  tc ∈ toolCallsOf (recoverNames tnm m) →
  ∃ tc0, tc0 ∈ toolCallsOf m ∧ sameIdStatus tc0 tc.
Proof.
  unfold recoverNames.
  destruct (bool_decide (msg_role m = "assistant"));
    [|intros H; exists tc; split; [done|apply sameIdStatus_refl]].
  unfold toolCallsOf at 2.
  destruct (msg_toolCalls m) as [tcs|] eqn:Htcs; cbn [default from_option id].
  2:{ unfold toolCallsOf. rewrite Htcs. intros H. by apply elem_of_nil in H. }
  rewrite toolCallsOf_set. intros H. apply list_elem_of_fmap in H as (tc0 & -> & Htc0).
  exists tc0. split; [done|]. unfold recoverName. repeat case_inner; by split.
Qed.
(** *** Tool calls that a merge keeps *)

Lemma mergeToolCallsStep_ids (l : list PlatformToolCall) (x : PlatformToolCall) :
  ∃ ext, tc_id <$> mergeToolCallsStep l x = (tc_id <$> l) ++ ext
         ∧ tc_id x ∈ (tc_id <$> l) ++ ext.
Proof.
  unfold mergeToolCallsStep.
  destruct (JS.findIndex _ l) as [p|] eqn:Hfind.
  - exists []. rewrite app_nil_r.
    apply findIndex_Some in Hfind as (y & Hy & Hid & _).
    apply bool_decide_eq_true in Hid. split.
    + rewrite (alter_insert _ _ _ _ Hy), list_fmap_insert.
      destruct (mergeToolCall_sameIdStatus x y) as [-> _].
      apply list_insert_id. by rewrite list_lookup_fmap, Hy.
    + rewrite <- Hid. apply list_elem_of_fmap. exists y. split; [done|].
      by eapply list_elem_of_lookup_2.
  - exists [tc_id x]. split; [by rewrite fmap_app|].
    apply elem_of_app. right. apply list_elem_of_here.
Qed.

Lemma mergeToolCalls_ids (existingTCs init : list PlatformToolCall) :
  ∃ ext, tc_id <$> fold_left mergeToolCallsStep existingTCs init = (tc_id <$> init) ++ ext
         ∧ ∀ tc, tc ∈ existingTCs → tc_id tc ∈ (tc_id <$> init) ++ ext.
Proof.
  revert init. induction existingTCs as [|x xs IH]; intros init; cbn.
  - exists []. rewrite app_nil_r. split; [done|]. intros tc Htc. by apply elem_of_nil in Htc.
  - destruct (mergeToolCallsStep_ids init x) as (e1 & Hstep & Hx).
    destruct (IH (mergeToolCallsStep init x)) as (e2 & Hfold & Hxs).
    exists (e1 ++ e2). rewrite Hfold, Hstep, <- app_assoc. split; [done|].
    intros tc Htc. apply elem_of_cons in Htc as [->|Htc].
    + rewrite app_assoc. apply elem_of_app. by left.
    + specialize (Hxs tc Htc). by rewrite Hstep, <- app_assoc in Hxs.
Qed.

Lemma toolCallsOf_nonempty_ids (m m' : PlatformMessage) :
  toolIdsOf m' = toolIdsOf m → toolCallsOf m ≠ [] → toolCallsOf m' ≠ [].
Proof.
  unfold toolIdsOf. intros Hids Hne Hnil. rewrite Hnil in Hids.
  destruct (toolCallsOf m); [done|discriminate].
Qed.

Lemma coverStep (normalized done : list PlatformMessage)
    (acc : list PlatformMessage * list MergeSlot) (msg : PlatformMessage) :
  coverInv normalized done acc →
  coverInv normalized (done ++ [msg]) (mergeExistingStep acc msg).
Proof.
  destruct acc as [store slots]. intros (Hhdr & Hslots).
  unfold mergeExistingStep. cbn [fst snd] in *.
  destruct (snapshotIndex (msg_id msg) store) as [k|] eqn:Ek.
  2:{ split; [done|]. apply Forall2_app; [done|]. by repeat constructor. }
  destruct (snapshotIndex_Some _ _ _ Ek) as (sv & Hsv & Hid).
  destruct (Forall2_lookup_r _ _ _ _ _ Hhdr Hsv) as (sv0 & Hsv0 & Hsame & Hids).
  assert (Hid0 : msg_id sv0 = msg_id msg) by (by rewrite <- (sameHeader_id _ _ Hsame)).
  rewrite Hsv. cbn [fmap option_fmap option_map default from_option id].
  destruct (bool_decide (msg_role msg = "assistant")
            && bool_decide (0 < length (toolCallsOf msg))
            && bool_decide (0 < length (toolCallsOf sv))) eqn:Hcond; cbn [fst snd].
  - (* merge path *)
    destruct (mergeToolCalls_ids (toolCallsOf msg) (toolCallsOf sv)) as (ext & Hmerged & Hcover).
    set (merged := fold_left mergeToolCallsStep (toolCallsOf msg) (toolCallsOf sv)) in *.
    assert (Htake : tc_id <$> take (length (toolCallsOf sv)) merged = tc_id <$> toolCallsOf sv).
    { rewrite fmap_take, Hmerged.
      rewrite <- (length_fmap tc_id (toolCallsOf sv)). by rewrite take_app_length. }
    assert (Hdrop : tc_id <$> drop (length (toolCallsOf sv)) merged = ext).
    { rewrite fmap_drop, Hmerged.
      rewrite <- (length_fmap tc_id (toolCallsOf sv)). by rewrite drop_app_length. }
    split.
    + apply Forall2_alter_r; [done|]. intros x y Hx Hy [Hxy Hxyids].
      rewrite Hsv0 in Hx. rewrite Hsv in Hy. injection Hx as <-. injection Hy as <-.
      split; [by apply sameHeader_set|].
      unfold toolIdsOf at 1. rewrite toolCallsOf_set, Htake. exact Hids.
    + apply Forall2_app; [done|]. repeat constructor.
      exists sv0. split; [done|]. split; [done|].
      intros tc Htc. specialize (Hcover tc Htc).
      apply elem_of_app in Hcover as [Hin|Hin].
      * left. unfold toolIdsOf in *. by rewrite <- Hids.
      * right. by rewrite Hdrop.
  - split; [done|]. apply Forall2_app; [done|]. repeat constructor.
    exists sv0. split; [done|]. split; [done|].
    intros (Hrole & Hown & Hsnap).
    assert (Hsvne : toolCallsOf sv ≠ []) by (by eapply toolCallsOf_nonempty_ids).
    rewrite !andb_false_iff in Hcond. destruct Hcond as [[Hc|Hc]|Hc];
      apply bool_decide_eq_false in Hc.
    + done.
    + destruct (toolCallsOf msg); [done|]. cbn in Hc. lia.
    + destruct (toolCallsOf sv); [done|]. cbn in Hc. lia.
Qed.

Lemma coverFold (normalized done existing : list PlatformMessage)
    (acc : list PlatformMessage * list MergeSlot) :
  coverInv normalized done acc →
  coverInv normalized (done ++ existing) (fold_left mergeExistingStep existing acc).
Proof.
  revert done acc. induction existing as [|msg existing IH]; intros done acc Hinv; cbn.
  - by rewrite app_nil_r.
  - replace (done ++ msg :: existing) with ((done ++ [msg]) ++ existing)
      by (by rewrite <- app_assoc).
    apply IH. by apply coverStep.
Qed.

(** A tool call of a known assistant message keeps a tool call with its id
    on the merged message, as long as every snapshot version of the message
    has tool calls and is no tool message. *)
Lemma mergeExisting_covers (existing normalized : list PlatformMessage)
    (m : PlatformMessage) (tc : PlatformToolCall) :
  m ∈ existing → msg_role m = "assistant" → tc ∈ toolCallsOf m →
  (∀ sv, sv ∈ normalized → msg_id sv = msg_id m →
         msg_role sv ≠ "tool" ∧ toolCallsOf sv ≠ []) →
  ∃ m1 tc1, m1 ∈ (mergeExisting existing normalized).2
            ∧ msg_id m1 = msg_id m ∧ msg_role m1 ≠ "tool"
            ∧ tc1 ∈ toolCallsOf m1 ∧ tc_id tc1 = tc_id tc.
Proof.
  intros Hm Hrole Htc Hversions. unfold mergeExisting.
  pose proof (coverFold normalized [] existing (normalized, [])) as Hinv.
  destruct (fold_left mergeExistingStep existing (normalized, [])) as [store slots].
  destruct Hinv as (Hhdr & Hslots).
  { split; cbn [fst snd]; [|constructor].
    apply Forall_Forall2_diag, Forall_forall. intros x _.
    split; [apply sameHeader_refl|done]. }
  cbn [fst snd app] in *.
  apply list_elem_of_lookup in Hm as (p & Hp).
  destruct (Forall2_lookup_l _ _ _ _ _ Hslots Hp) as (slot & Hslot & Hcov).
  assert (Hread : ∀ m1, m1 ∈ readSlot store slot → m1 ∈ slots ≫= readSlot store).
  { intros m1 Hm1. apply list_elem_of_bind. exists slot. split; [done|].
    by eapply list_elem_of_lookup_2. }
  destruct slot as [m0|k|k own]; cbn in Hcov.
  - subst m0. exists m, tc. split; [apply Hread; cbn; apply list_elem_of_here|].
    split; [done|]. split; [by rewrite Hrole|done].
  - destruct Hcov as (sv & Hsv & Hid & Hnot). destruct Hnot.
    split; [done|]. split.
    + intros Hnil. rewrite Hnil in Htc. by apply elem_of_nil in Htc.
    + apply (Hversions sv); [by eapply list_elem_of_lookup_2|done].
  - destruct Hcov as (sv & Hsv & Hid & Hcover).
    destruct (Forall2_lookup_l _ _ _ _ _ Hhdr Hsv) as (sk & Hsk & Hsame & Hids).
    destruct (Hversions sv) as [Hsvrole _]; [by eapply list_elem_of_lookup_2|done|].
    assert (Hm1 : msg_set_toolCalls (Some (toolCallsOf sk ++ own)) sk
                  ∈ slots ≫= readSlot store).
    { apply Hread. cbn. rewrite Hsk. cbn. apply list_elem_of_here. }
    destruct (Hcover tc Htc) as [Hin|Hin].
    + unfold toolIdsOf in Hin, Hids. rewrite <- Hids in Hin.
      apply list_elem_of_fmap in Hin as (tc1 & Hid1 & Htc1).
      eexists _, tc1. split; [exact Hm1|].
      split; [cbn; by rewrite (sameHeader_id _ _ Hsame)|].
      split; [cbn; by rewrite (sameHeader_role _ _ Hsame)|].
      split; [|congruence]. rewrite toolCallsOf_set. apply elem_of_app. by left.
    + apply list_elem_of_fmap in Hin as (tc1 & Hid1 & Htc1).
      eexists _, tc1. split; [exact Hm1|].
      split; [cbn; by rewrite (sameHeader_id _ _ Hsame)|].
      split; [cbn; by rewrite (sameHeader_role _ _ Hsame)|].
      split; [|congruence]. rewrite toolCallsOf_set. apply elem_of_app. by right.
Qed.

Lemma recoverNames_keeps (tnm : gmap string string) (m : PlatformMessage)
    (tc : PlatformToolCall) :
  tc ∈ toolCallsOf m →
  ∃ tc', tc' ∈ toolCallsOf (recoverNames tnm m) ∧ tc_id tc' = tc_id tc.
Proof.
  intros Htc. unfold recoverNames.
  destruct (bool_decide (msg_role m = "assistant")); [|by exists tc].
  unfold toolCallsOf in Htc.
  destruct (msg_toolCalls m) as [tcs|] eqn:Htcs; cbn [default from_option id] in Htc;
    [|by apply elem_of_nil in Htc].
  exists (recoverName tnm tc). split.
  - rewrite toolCallsOf_set. apply list_elem_of_fmap. by exists tc.
  - unfold recoverName. repeat case_inner; done.
Qed.

(** The tool call stays on its message through the whole merge. *)
Lemma mergeSnapshot_keeps_toolCall (hidden : gset string)
    (existing : list PlatformMessage) (pending : JSMap.t PendingToolCall)
    (snapshot : list PlatformMessage) (m : PlatformMessage) (tc : PlatformToolCall) :
  m ∈ existing → msg_role m = "assistant" → tc ∈ toolCallsOf m →
  (∀ sv, sv ∈ normalizeSnapshotMessages
                (List.filter (λ msg, negb (bool_decide (msg_id msg ∈ hidden))) snapshot) →
         msg_id sv = msg_id m → msg_role sv ≠ "tool" ∧ toolCallsOf sv ≠ []) →
  ∃ m' tc', m' ∈ mergeSnapshot hidden existing pending snapshot
            ∧ msg_id m' = msg_id m ∧ tc' ∈ toolCallsOf m' ∧ tc_id tc' = tc_id tc.
Proof.
  intros Hm Hrole Htc Hversions. unfold mergeSnapshot.
  set (visible := List.filter (λ msg, negb (bool_decide (msg_id msg ∈ hidden))) snapshot) in *.
  set (normalized := normalizeSnapshotMessages visible) in *.
  destruct (mergeExisting_covers existing normalized m tc Hm Hrole Htc Hversions)
    as (m1 & tc1 & Hm1 & Hid1 & Hrole1 & Htc1 & Htcid1).
  destruct (mergeExisting existing normalized) as [store merged]. cbn [snd] in Hm1.
  set (inserted := insertNew store _ merged).
  set (tnm := toolNameMapOf inserted pending).
  destruct (recoverNames_keeps tnm m1 tc1 Htc1) as (tc2 & Htc2 & Htcid2).
  pose proof (sameHeader_recoverNames tnm m1) as Hrec.
  exists (recoverNames tnm m1), tc2.
  split; [|split; [by rewrite (sameHeader_id _ _ Hrec)|split; [done|congruence]]].
  apply list_elem_of_In, filter_In. split.
  - apply list_elem_of_In, list_elem_of_fmap. exists m1. split; [done|].
    by apply insertNew_keeps.
  - apply keepAfterNesting_not_tool. by rewrite (sameHeader_role _ _ Hrec).
Qed.

(** After a snapshot merge, every tool call has the id and status of a
    tool call of the snapshot as the merge reads it, or of the known
    messages. *)
Lemma mergeSnapshot_fromSources (hidden : gset string) (existing : list PlatformMessage)
    (pending : JSMap.t PendingToolCall) (snapshot : list PlatformMessage)
    (tc : PlatformToolCall) :
  tc ∈ mergeSnapshot hidden existing pending snapshot ≫= toolCallsOf →
  fromSources
    ((normalizeSnapshotMessages
        (List.filter (λ msg, negb (bool_decide (msg_id msg ∈ hidden))) snapshot)
      ≫= toolCallsOf) ++ (existing ≫= toolCallsOf)) tc.
Proof.
  unfold mergeSnapshot.
  set (visible := List.filter (λ msg, negb (bool_decide (msg_id msg ∈ hidden))) snapshot).
  set (normalized := normalizeSnapshotMessages visible).
  pose proof (mergeExisting_spec existing normalized) as Hspec.
  destruct (mergeExisting existing normalized) as [store merged].
  cbn zeta in Hspec. destruct Hspec as (_ & _ & Hstore & Hmerged).
  intros H. apply list_elem_of_bind in H as (m & Htc & Hm).
  apply list_elem_of_In, filter_In in Hm as [Hm _].
  apply list_elem_of_In, list_elem_of_fmap in Hm as (m1 & -> & Hm1).
  apply recoverNames_toolCalls in Htc as (tc0 & Htc0 & Hsame).
  eapply fromSources_same; [|exact Hsame].
  apply insertNew_elem_of in Hm1 as [Hm1|[Hm1 _]]; [apply Hmerged|apply Hstore];
    apply list_elem_of_bind; eauto.
Qed.

Lemma fromSources_settled (sources : list PlatformToolCall) (id : string)
    (tc : PlatformToolCall) :
  settledIn id sources → fromSources sources tc → tc_id tc = id → settled tc.
Proof.
  intros Hs (src & Hsrc & Hid & Hst) Htc.
  destruct (Hs src Hsrc) as [H|H]; [congruence|left|right]; congruence.
Qed.

(** A snapshot whose own tool calls with the id are settled is settled as
    the merge reads it: hiding removes tool calls, and normalisation keeps
    the status of a tool call or marks it completed. *)
Lemma settled_as_read (hidden : gset string) (id : string) (e : PlatformEvent) :
  settledIn id (ev_messages e ≫= toolCallsOf) →
  settledIn id (snapshotAsRead hidden e ≫= toolCallsOf).
Proof.
  intros Hraw tc Htc Hid. unfold snapshotAsRead in Htc.
  apply normalize_derived in Htc.
  eapply derivedFrom_settled; [|exact Htc|exact Hid].
  intros src Hsrc. apply Hraw.
  apply list_elem_of_bind in Hsrc as (v & Hsrc & Hv). apply list_elem_of_bind.
  exists v. split; [done|].
  apply list_elem_of_In, filter_In in Hv as [Hv _]. by apply list_elem_of_In.
Qed.

(** *** Events other than snapshots *)

Lemma statusKept_frame (s s' : AGUIClientState) :
  messages s' = messages s → pendingChildren s' = pendingChildren s →
  statusKept s s'.
Proof.
  intros Hm Hp tc Htc. apply derivedFrom_elem.
  unfold allToolCalls, committedToolCalls, bufferedToolCalls in *. by rewrite <- Hm, <- Hp.
Qed.

Lemma statusKept_messages (s s' : AGUIClientState) :
  pendingChildren s' = pendingChildren s →
  (∀ tc, tc ∈ messages s' ≫= toolCallsOf →
         tc ∈ messages s ≫= toolCallsOf ∨ tc_status tc = Some StCompleted) →
  statusKept s s'.
Proof.
  intros Hp Hm tc Htc. unfold allToolCalls, committedToolCalls, bufferedToolCalls in *.
  rewrite Hp in Htc. apply elem_of_app in Htc as [Htc|Htc].
  - destruct (Hm tc Htc) as [?|?]; [|by left].
    apply derivedFrom_elem, elem_of_app. by left.
  - apply derivedFrom_elem, elem_of_app. by right.
Qed.

Lemma bind_toolCalls_snoc (msgs : list PlatformMessage) (m : PlatformMessage)
    (tc : PlatformToolCall) :
  tc ∈ (msgs ++ [m]) ≫= toolCallsOf →
  tc ∈ msgs ≫= toolCallsOf ∨ tc ∈ toolCallsOf m.
Proof.
  rewrite bind_app. intros H. apply elem_of_app in H as [H|H]; [by left|].
  right. cbn in H. by rewrite app_nil_r in H.
Qed.

Lemma bind_toolCalls_filter (f : PlatformMessage → bool) (msgs : list PlatformMessage)
    (tc : PlatformToolCall) :
  tc ∈ List.filter f msgs ≫= toolCallsOf → tc ∈ msgs ≫= toolCallsOf.
Proof.
  intros H. apply list_elem_of_bind in H as (m & Htc & Hm).
  apply list_elem_of_In, filter_In in Hm as [Hm _]. apply list_elem_of_bind.
  exists m. split; [done|]. by apply list_elem_of_In.
Qed.

Lemma bind_toolCalls_insert (msgs : list PlatformMessage) (i : nat)
    (m m' : PlatformMessage) (tc : PlatformToolCall) :
  msgs !! i = Some m → toolCallsOf m' = toolCallsOf m →
  tc ∈ <[i := m']> msgs ≫= toolCallsOf → tc ∈ msgs ≫= toolCallsOf.
Proof.
  intros Hm Hsame H. apply list_elem_of_bind in H as (m1 & Htc & Hm1).
  apply list_elem_of_lookup in Hm1 as (j & Hj).
  destruct (decide (i = j)) as [<-|Hne].
  - rewrite list_lookup_insert_eq in Hj by (by eapply lookup_lt_Some).
    injection Hj as <-. rewrite Hsame in Htc. apply list_elem_of_bind.
    exists m. split; [done|]. by eapply list_elem_of_lookup_2.
  - rewrite list_lookup_insert_ne in Hj by done. apply list_elem_of_bind.
    exists m1. split; [done|]. by eapply list_elem_of_lookup_2.
Qed.

Lemma onRunFinished_statusKept (e : PlatformEvent) (h : Hook) :
  statusKept (hk_state h) (hk_state (onRunFinished uuid e h)).
Proof.
  unfold onRunFinished, randomUUID. repeat case_inner; proj_simpl;
    try (by apply statusKept_frame).
  all: apply statusKept_messages; [done|]; proj_simpl; intros tc Htc;
    apply bind_toolCalls_snoc in Htc as [Htc|Htc]; [by left|by apply elem_of_nil in Htc].
Qed.

Lemma onTextMessageEnd_statusKept (e : PlatformEvent) (h : Hook) :
  statusKept (hk_state h) (hk_state (onTextMessageEnd uuid e h)).
Proof.
  unfold onTextMessageEnd, randomUUID. repeat case_inner; proj_simpl;
    try (by apply statusKept_frame).
  all: apply statusKept_messages; [done|]; proj_simpl; intros tc Htc; left.
  all: first
    [ match goal with
      | Hl : _ !! _ = Some _ |- _ =>
          by apply (bind_toolCalls_insert _ _ _ (msg_set_content _ _) _ Hl eq_refl Htc)
      end
    | apply bind_toolCalls_snoc in Htc as [Htc|Htc]; [done|by apply elem_of_nil in Htc] ].
Qed.

Lemma onRaw_statusKept (e : PlatformEvent) (h : Hook) :
  statusKept (hk_state h) (hk_state (onRaw uuid e h)).
Proof.
  unfold onRaw, randomUUID. repeat case_inner; proj_simpl;
    try (by apply statusKept_frame).
  all: apply statusKept_messages; [done|]; proj_simpl; intros tc Htc; left.
  all: first
    [ by eapply bind_toolCalls_filter
    | apply bind_toolCalls_snoc in Htc as [Htc|Htc]; [done|by apply elem_of_nil in Htc] ].
Qed.

Lemma attachResult_toolCalls (tcId content : string) (m : PlatformMessage)
    (tc : PlatformToolCall) :
  tc ∈ toolCallsOf (attachResult tcId content m) →
  tc ∈ toolCallsOf m ∨ tc_status tc = Some StCompleted.
Proof.
  unfold attachResult.
  destruct (msg_toolCalls m) as [tcs|] eqn:Htcs; [|by left].
  destruct (JS.findIndex _ tcs) as [p|]; [|by left].
  rewrite toolCallsOf_set. intros H. cbn [default from_option id] in H.
  apply elem_of_alter in H as [H|(tc0 & _ & ->)]; [left|by right].
  unfold toolCallsOf. by rewrite Htcs.
Qed.

Lemma buffered_elem_of (pc : JSMap.t (list PlatformMessage)) (k : string)
    (children : list PlatformMessage) (child : PlatformMessage) (tc : PlatformToolCall) :
  (k, children) ∈ pc → child ∈ children → tc ∈ toolCallsOf child →
  tc ∈ pc ≫= λ entry, entry.2 ≫= toolCallsOf.
Proof.
  intros Hk Hc Htc. apply list_elem_of_bind. exists (k, children). split; [|done].
  cbn. apply list_elem_of_bind. eauto.
Qed.

Lemma onToolCallResult_statusKept (e : PlatformEvent) (h : Hook) :
  statusKept (hk_state h) (hk_state (onToolCallResult e h)).
Proof.
  unfold onToolCallResult. rewrite orS_Some_empty.
  destruct (JS.truthy (ev_toolCallId e)); [|by apply statusKept_frame].
  destruct (JS.findLastIndex _ _) as [i|] eqn:Efind.
  - proj_simpl. apply statusKept_messages; [done|]. proj_simpl. intros tc Htc.
    apply elem_of_bind_alter_toolCalls in Htc as [Htc|(m & Hm & Htc)]; [by left|].
    apply attachResult_toolCalls in Htc as [Htc|Htc]; [left|by right].
    apply list_elem_of_bind. exists m. split; [done|]. by eapply list_elem_of_lookup_2.
  - case_inner; [|by apply statusKept_frame].
    destruct (findBufferedToolCall _ _ _) as [[parentId updated]|] eqn:Ebuf;
      [|by apply statusKept_frame].
    apply findBufferedToolCall_Some in Ebuf
      as (children & j & child & Hin & Hchild & Hhas & ->).
    proj_simpl. intros tc Htc.
    unfold allToolCalls, committedToolCalls, bufferedToolCalls in *. proj_simpl in Htc.
    apply elem_of_app in Htc as [Htc|Htc];
      [apply derivedFrom_elem, elem_of_app; by left|].
    apply list_elem_of_bind in Htc as ([k ch] & Htc & Hentry). cbn in Htc.
    apply JSMap_elem_of_set in Hentry as [[= -> ->]|Hentry].
    + apply list_elem_of_bind in Htc as (c & Htc & Hc).
      apply list_elem_of_lookup in Hc as (j' & Hj').
      destruct (decide (j = j')) as [<-|Hne].
      * rewrite list_lookup_insert_eq in Hj' by (by eapply lookup_lt_Some).
        injection Hj' as <-.
        apply attachResult_toolCalls in Htc as [Htc|Htc]; [|by left].
        apply derivedFrom_elem, elem_of_app. right.
        eapply buffered_elem_of; [done| |done]. by eapply list_elem_of_lookup_2.
      * rewrite list_lookup_insert_ne in Hj' by done.
        apply derivedFrom_elem, elem_of_app. right.
        eapply buffered_elem_of; [done| |done]. by eapply list_elem_of_lookup_2.
    + apply derivedFrom_elem, elem_of_app. right.
      apply list_elem_of_bind. exists (k, ch). done.
Qed.

Lemma statusKept_intro (s s' : AGUIClientState) :
  (∀ tc, tc ∈ messages s' ≫= toolCallsOf →
         tc ∈ allToolCalls s ∨ tc_status tc = Some StCompleted) →
  (∀ tc, tc ∈ (pendingChildren s' ≫= λ entry, entry.2 ≫= toolCallsOf) →
         tc ∈ allToolCalls s ∨ tc_status tc = Some StCompleted) →
  statusKept s s'.
Proof.
  intros Hm Hp tc Htc. apply elem_of_app in Htc as [Htc|Htc].
  - destruct (Hm tc Htc); [by apply derivedFrom_elem|by left].
  - destruct (Hp tc Htc); [by apply derivedFrom_elem|by left].
Qed.

Lemma clearCurrentToolCallIf_messages (tcId : string) (s : AGUIClientState) :
  messages (clearCurrentToolCallIf tcId s) = messages s.
Proof. unfold clearCurrentToolCallIf. by repeat case_inner. Qed.

Lemma clearCurrentToolCallIf_pendingChildren (tcId : string) (s : AGUIClientState) :
  pendingChildren (clearCurrentToolCallIf tcId s) = pendingChildren s.
Proof. unfold clearCurrentToolCallIf. by repeat case_inner. Qed.

Lemma buffered_delete (k : string) (pc : JSMap.t (list PlatformMessage))
    (tc : PlatformToolCall) :
  tc ∈ (JSMap.delete k pc ≫= λ entry, entry.2 ≫= toolCallsOf) →
  tc ∈ (pc ≫= λ entry, entry.2 ≫= toolCallsOf).
Proof.
  intros H. apply list_elem_of_bind in H as (entry & Htc & Hentry).
  apply JSMap_elem_of_delete in Hentry as [Hentry _].
  apply list_elem_of_bind. eauto.
Qed.

Lemma buffered_get (k : string) (pc : JSMap.t (list PlatformMessage))
    (tc : PlatformToolCall) :
  tc ∈ default [] (JSMap.get k pc) ≫= toolCallsOf →
  tc ∈ (pc ≫= λ entry, entry.2 ≫= toolCallsOf).
Proof.
  destruct (JSMap.get k pc) as [children|] eqn:Hget; cbn [default from_option];
    [|by intros ?%elem_of_nil].
  intros H. apply list_elem_of_bind. exists (k, children). split; [done|].
  by apply JSMap_get_elem_of.
Qed.

Lemma buffered_set_snoc (k : string) (pc : JSMap.t (list PlatformMessage))
    (child : PlatformMessage) (tc : PlatformToolCall) :
  tc ∈ (JSMap.set k (default [] (JSMap.get k pc) ++ [child]) pc
          ≫= λ entry, entry.2 ≫= toolCallsOf) →
  tc ∈ (pc ≫= λ entry, entry.2 ≫= toolCallsOf) ∨ tc ∈ toolCallsOf child.
Proof.
  intros H. apply list_elem_of_bind in H as (entry & Htc & Hentry).
  apply JSMap_elem_of_set in Hentry as [->|Hentry].
  - cbn [snd] in Htc. apply bind_toolCalls_snoc in Htc as [Htc|Htc]; [left|by right].
    by eapply buffered_get.
  - left. apply list_elem_of_bind. eauto.
Qed.

Lemma committed_alter_append (msgs : list PlatformMessage) (n : nat)
    (extra : list PlatformToolCall) (tc : PlatformToolCall) :
  tc ∈ alter (msg_set_toolCalls
               (Some (default [] (toolCallsOf <$> msgs !! n) ++ extra))) n msgs
       ≫= toolCallsOf →
  tc ∈ msgs ≫= toolCallsOf ∨ tc ∈ extra.
Proof.
  intros H. apply elem_of_bind_alter_toolCalls in H as [H|(sv & Hsv & H)]; [by left|].
  rewrite toolCallsOf_set, Hsv in H. cbn [fmap option_fmap option_map default from_option] in H.
  apply elem_of_app in H as [H|H]; [left|by right].
  apply list_elem_of_bind. exists sv. split; [done|]. by eapply list_elem_of_lookup_2.
Qed.

Lemma allToolCalls_committed (s : AGUIClientState) (tc : PlatformToolCall) :
  tc ∈ messages s ≫= toolCallsOf → tc ∈ allToolCalls s.
Proof. intros H. apply elem_of_app. by left. Qed.

Lemma allToolCalls_buffered (s : AGUIClientState) (tc : PlatformToolCall) :
  tc ∈ (pendingChildren s ≫= λ entry, entry.2 ≫= toolCallsOf) → tc ∈ allToolCalls s.
Proof. intros H. apply elem_of_app. by right. Qed.

Lemma onToolCallEnd_statusKept (e : PlatformEvent) (h : Hook) :
  statusKept (hk_state h) (hk_state (onToolCallEnd uuid e h)).
Proof.
  unfold onToolCallEnd, randomUUID.
  repeat case_inner; proj_simpl.
  all: apply statusKept_intro;
    rewrite ?clearCurrentToolCallIf_messages, ?clearCurrentToolCallIf_pendingChildren;
    proj_simpl; intros tc Htc.
  all: first
    [ left; by apply allToolCalls_committed
    | left; by apply allToolCalls_buffered
    | apply buffered_delete in Htc; left; by apply allToolCalls_buffered
    | apply buffered_set_snoc in Htc as [Htc|Htc];
        [left; by apply allToolCalls_buffered|];
        apply list_elem_of_singleton in Htc as ->; by right
    | apply bind_toolCalls_snoc in Htc as [Htc|Htc];
        [left; by apply allToolCalls_committed|];
        apply list_elem_of_singleton in Htc as ->; by right
    | apply committed_alter_append in Htc as [Htc|Htc];
        [left; by apply allToolCalls_committed|];
        apply elem_of_cons in Htc as [->|Htc]; [by right|];
        first [ by apply elem_of_nil in Htc
              | left; apply allToolCalls_buffered; by eapply buffered_get ] ].
Qed.

(** *** Every event *)

Lemma statusKept_settled (id : string) (s s' : AGUIClientState) :
  statusKept s s' → settledState id s → settledState id s'.
Proof.
  intros Hkept [Hc Hb].
  assert (Hall : settledIn id (allToolCalls s)).
  { intros tc Htc. apply elem_of_app in Htc as [Htc|Htc]; [by apply Hc|by apply Hb]. }
  split; intros tc Htc Hid; (eapply derivedFrom_settled; [exact Hall| |exact Hid]);
    apply Hkept, elem_of_app; [by left|by right].
Qed.

Lemma onMessagesSnapshot_settled (id : string) (e : PlatformEvent) (h : Hook) :
  settledState id (hk_state h) →
  settledIn id (snapshotAsRead (hiddenMessageIdsRef h) e ≫= toolCallsOf) →
  settledState id (hk_state (onMessagesSnapshot e h)).
Proof.
  intros [Hc _] Hsnap. unfold onMessagesSnapshot. proj_simpl. split.
  - intros tc Htc Hid. unfold committedToolCalls in Htc. proj_simpl in Htc.
    apply mergeSnapshot_fromSources in Htc.
    eapply fromSources_settled; [|exact Htc|exact Hid].
    intros src Hsrc. apply elem_of_app in Hsrc as [Hsrc|Hsrc]; [by apply Hsnap|by apply Hc].
  - intros tc Htc. unfold bufferedToolCalls in Htc. proj_simpl in Htc.
    by apply elem_of_nil in Htc.
Qed.

Lemma reduce_statusKept (e : PlatformEvent) (h : Hook) :
  ev_type e ≠ EventType.MESSAGES_SNAPSHOT →
  statusKept (hk_state h) (hk_state (reduce uuid e h)).
Proof.
  intros Hsnap. unfold reduce.
  repeat case_inner;
    try match goal with
        | H : bool_decide (ev_type e = EventType.MESSAGES_SNAPSHOT) = true |- _ =>
            by apply bool_decide_eq_true in H
        end;
    auto using onRunFinished_statusKept, onTextMessageEnd_statusKept,
      onToolCallEnd_statusKept, onToolCallResult_statusKept, onRaw_statusKept.
  all: try (by apply statusKept_frame).
  all: unfold_handlers; repeat case_inner; proj_simpl; by apply statusKept_frame.
Qed.

Lemma processEvent_settled (id : string) (e : PlatformEvent) (h : Hook) :
  settledState id (hk_state h) →
  (ev_type e = EventType.MESSAGES_SNAPSHOT →
   settledIn id (snapshotAsRead (hiddenMessageIdsRef h) e ≫= toolCallsOf)) →
  settledState id (hk_state (processEvent uuid e h)).
Proof.
  intros Hs Hsnap.
  destruct (decide (ev_type e = EventType.MESSAGES_SNAPSHOT)) as [Heq|Hne].
  - rewrite processEvent_messages_snapshot by done.
    apply onMessagesSnapshot_settled; [done|by apply Hsnap].
  - unfold processEvent.
    eapply statusKept_settled; [by apply reduce_statusKept|done].
Qed.

Lemma processEvents_settled (id : string) (es : list PlatformEvent) (h : Hook) :
  settledState id (hk_state h) → snapshotsSettled uuid id es h →
  settledState id (hk_state (processEvents uuid es h)).
Proof.
  revert h. induction es as [|e es IH]; intros h Hs Hsnap; [done|].
  destruct Hsnap as [He Hes]. cbn [processEvents fold_left]. apply IH; [|done].
  by apply processEvent_settled.
Qed.

Lemma snapshotsSettled_raw (id : string) (es : list PlatformEvent) (h : Hook) :
  (∀ e, e ∈ es → ev_type e = EventType.MESSAGES_SNAPSHOT →
        settledIn id (ev_messages e ≫= toolCallsOf)) →
  snapshotsSettled uuid id es h.
Proof.
  revert h. induction es as [|e es IH]; intros h Hraw; [done|]. split.
  - intros Hty. apply settled_as_read. apply Hraw; [apply list_elem_of_here|done].
  - apply IH. intros e' He'. apply Hraw. by apply list_elem_of_further.
Qed.

(** C2 (amended).  A tool call id whose committed and buffered tool calls
    all carry a final status ('completed' or 'error') keeps that property
    through every sequence of events, provided that each messages snapshot
    of the sequence, as the merge reads it (the messages with a hidden id
    left out, the tool-result messages folded into their tool calls, which
    marks a status-less tool call with a result completed), carries a final
    status on its tool calls with that id.  A snapshot whose own tool calls
    with that id all carry a final status meets the proviso.  Under the
    proviso a snapshot merge leaves a tool call of an assistant message on
    the message with the same id, with a final status, when every version
    of the message in the snapshot as read has tool calls and is no tool
    message. *)
Theorem tool_status_settled_is_kept (es : list PlatformEvent) (h : Hook) (id : string) :
  settledState id (hk_state h) →
  (snapshotsSettled uuid id es h →
   settledState id (hk_state (processEvents uuid es h)))
  ∧ ((∀ e, e ∈ es → ev_type e = EventType.MESSAGES_SNAPSHOT →
           settledIn id (ev_messages e ≫= toolCallsOf)) →
     snapshotsSettled uuid id es h)
  ∧ (∀ e m tc,
       ev_type e = EventType.MESSAGES_SNAPSHOT →
       settledIn id (snapshotAsRead (hiddenMessageIdsRef h) e ≫= toolCallsOf) →
       m ∈ messages (hk_state h) → msg_role m = "assistant" →
       tc ∈ toolCallsOf m → tc_id tc = id →
       (∀ sv, sv ∈ snapshotAsRead (hiddenMessageIdsRef h) e → msg_id sv = msg_id m →
              msg_role sv ≠ "tool" ∧ toolCallsOf sv ≠ []) →
       ∃ m' tc', m' ∈ messages (hk_state (processEvent uuid e h))
                 ∧ msg_id m' = msg_id m
                 ∧ tc' ∈ toolCallsOf m' ∧ tc_id tc' = id
                 ∧ (tc_status tc' = Some StCompleted ∨ tc_status tc' = Some StError)).
Proof.
  intros Hs. split; [by apply processEvents_settled|].
  split; [by apply snapshotsSettled_raw|].
  intros e m tc Hty Hsnap Hm Hrole Htc Hid Hversions.
  pose proof (processEvent_settled id e h Hs (λ _, Hsnap)) as [Hafter _].
  rewrite processEvent_messages_snapshot in * by done.
  destruct (mergeSnapshot_keeps_toolCall (hiddenMessageIdsRef h) (messages (hk_state h))
              (pendingToolCalls (hk_state h)) (ev_messages e) m tc Hm Hrole Htc Hversions)
    as (m' & tc' & Hm' & Hid' & Htc' & Htcid').
  exists m', tc'. unfold onMessagesSnapshot in *. proj_simpl. proj_simpl in Hafter.
  split; [done|]. split; [done|]. split; [done|]. split; [congruence|].
  apply Hafter; [|congruence].
  unfold committedToolCalls. proj_simpl. apply list_elem_of_bind. by exists m'.
Qed.

(** ** Properties of the remaining code *)

(** *** What events never do *)

Lemma requests_app (l1 l2 : list Effect) :
  requests (l1 ++ l2) = requests l1 ++ requests l2.
Proof. apply List.filter_app. Qed.

(** The channel of a hook: its connection, its timer, their counters. *)
Lemma reduce_channel (e : PlatformEvent) (h : Hook) :
  let h' := reduce uuid e h in
  eventSourceRef h' = eventSourceRef h
  ∧ reconnectTimeoutRef h' = reconnectTimeoutRef h
  ∧ reconnectAttemptsRef h' = reconnectAttemptsRef h
  ∧ mountedRef h' = mountedRef h
  ∧ handleCount h' = handleCount h
  ∧ requests (effects h') = requests (effects h).
Proof.
  cbv zeta. unfold reduce.
  repeat case_inner; try done.
  all: unfold_handlers.
  all: cbn [hk_state setState set_hk_state].
  all: repeat case_inner.
  all: cbn; rewrite ?requests_app; cbn; rewrite ?app_nil_r; done.
Qed.

(** X3.  Processing events performs no I/O and leaves the channel alone:
    whatever the events, the connection, the reconnect timer, the attempt
    counter and the mounted flag are the same afterwards, and the log holds
    no new connection, timer or request. *)
Theorem events_leave_the_channel_alone (es : list PlatformEvent) (h : Hook) :
  let h' := processEvents uuid es h in
  eventSourceRef h' = eventSourceRef h
  ∧ reconnectTimeoutRef h' = reconnectTimeoutRef h
  ∧ reconnectAttemptsRef h' = reconnectAttemptsRef h
  ∧ mountedRef h' = mountedRef h
  ∧ handleCount h' = handleCount h
  ∧ requests (effects h') = requests (effects h).
Proof.
  cbv zeta. revert h. induction es as [|e es IH]; intros h; [done|].
  cbn [processEvents fold_left]. fold (processEvents uuid es (processEvent uuid e h)).
  destruct (IH (processEvent uuid e h)) as (-> & -> & -> & -> & -> & ->).
  unfold processEvent.
  destruct (reduce_channel e (emit (OnEvent (ev_type e)) h)) as (-> & -> & -> & -> & -> & ->).
  cbn. rewrite requests_app. cbn. by rewrite app_nil_r.
Qed.

Lemma processEvent_raw (e : PlatformEvent) (h : Hook) :
  ev_type e = EventType.RAW →
  processEvent uuid e h = onRaw uuid e (emit (OnEvent (ev_type e)) h).
Proof. intros Hty. unfold processEvent, reduce. rewrite Hty. reflexivity. Qed.

Lemma processEvent_hidden (e : PlatformEvent) (h : Hook) :
  hiddenMessageIdsRef (processEvent uuid e h)
  = match hiddenBy e with
    | Some id => {[id]} ∪ hiddenMessageIdsRef h
    | None => hiddenMessageIdsRef h
    end.
Proof.
  unfold hiddenBy. case_bool_decide as Hty.
  - rewrite processEvent_raw by done. unfold onRaw, randomUUID.
    destruct (ev_rawData e) as [rawData|]; [|done].
    destruct (bool_decide (rd_type rawData = Some "message_metadata") && rd_hidden rawData);
      cbn [andb].
    + destruct (rd_messageId rawData) as [id|]; cbn; [|done].
      by destruct (JS.truthy id).
    + repeat case_inner; done.
  - unfold processEvent, reduce.
    repeat case_inner; try done;
      try match goal with
          | H : bool_decide (ev_type e = EventType.RAW) = true |- _ =>
              by apply bool_decide_eq_true in H
          end.
    all: unfold_handlers.
    all: cbn [hk_state setState set_hk_state].
    all: repeat case_inner; done.
Qed.

(** X4.  The set of hidden message ids only grows, and exactly by the ids
    that [RAW] message-metadata events hide: after any events it is the set
    from before together with those ids. *)
Theorem hidden_ids_only_grow (es : list PlatformEvent) (h : Hook) :
  hiddenMessageIdsRef (processEvents uuid es h)
  = list_to_set (omap hiddenBy es) ∪ hiddenMessageIdsRef h.
Proof.
  revert h. induction es as [|e es IH]; intros h.
  - cbn. by rewrite (left_id_L ∅ (∪)).
  - cbn [processEvents fold_left]. fold (processEvents uuid es (processEvent uuid e h)).
    rewrite IH, processEvent_hidden. cbn [omap list_omap].
    destruct (hiddenBy e) as [id|]; [|done].
    cbn [list_to_set]. apply set_eq. intros x.
    rewrite !elem_of_union. tauto.
Qed.

(** *** Messages are only appended or updated in place *)

Lemma idsOf_app (l1 l2 : list PlatformMessage) : idsOf (l1 ++ l2) = idsOf l1 ++ idsOf l2.
Proof. apply fmap_app. Qed.

Lemma idsOf_alter (f : PlatformMessage → PlatformMessage) (i : nat)
    (l : list PlatformMessage) :
  (∀ m, msg_id (f m) = msg_id m) → idsOf (alter f i l) = idsOf l.
Proof.
  intros Hf. revert i. induction l as [|m l IH]; intros [|i]; cbn; [done..| |].
  - by rewrite Hf.
  - f_equal. apply IH.
Qed.

Lemma idsOf_insert (i : nat) (m m' : PlatformMessage) (l : list PlatformMessage) :
  l !! i = Some m → msg_id m' = msg_id m → idsOf (<[i := m']> l) = idsOf l.
Proof.
  revert i. induction l as [|m0 l IH]; intros [|i]; cbn; [done..| |].
  - intros [= ->] ->. done.
  - intros Hl Hid. f_equal. by apply IH.
Qed.

Lemma attachResult_id (tcId content : string) (m : PlatformMessage) :
  msg_id (attachResult tcId content m) = msg_id m.
Proof. unfold attachResult. by repeat case_inner. Qed.

Lemma prefix_snoc {A} (l : list A) (x : A) : l `prefix_of` l ++ [x].
Proof. by exists [x]. Qed.

Lemma onToolCallEnd_ids (e : PlatformEvent) (h : Hook) :
  idsOf (messages (hk_state h))
  `prefix_of` idsOf (messages (hk_state (onToolCallEnd uuid e h))).
Proof.
  unfold onToolCallEnd, randomUUID.
  repeat case_inner; proj_simpl.
  all: rewrite ?clearCurrentToolCallIf_messages; proj_simpl.
  all: rewrite ?idsOf_app, ?idsOf_alter by done.
  all: first [done | apply prefix_snoc].
Qed.

Lemma reduce_ids (e : PlatformEvent) (h : Hook) :
  ¬ rewritesMessages e →
  idsOf (messages (hk_state h)) `prefix_of` idsOf (messages (hk_state (reduce uuid e h))).
Proof.
  intros Hkind. unfold reduce. unfold rewritesMessages in Hkind.
  repeat case_inner; try done;
    try match goal with
        | H : bool_decide (ev_type e = _) = true |- _ =>
            apply bool_decide_eq_true in H; tauto
        end.
  all: try apply onToolCallEnd_ids.
  all: unfold_handlers.
  all: cbn [hk_state setState set_hk_state].
  all: repeat case_inner; proj_simpl.
  all: rewrite ?idsOf_app; try done; try apply prefix_snoc.
  all: try (erewrite idsOf_insert by (done || reflexivity); done).
  all: rewrite idsOf_alter by apply attachResult_id; done.
Qed.

(** X5.  Apart from messages snapshots and [RAW] events, events never take
    a message out of the list and never reorder it: the ids of the messages
    before are a prefix of the ids afterwards (messages are updated in
    place or appended). *)
Theorem messages_are_append_only (es : list PlatformEvent) (h : Hook) :
  Forall (λ e, ¬ rewritesMessages e) es →
  idsOf (messages (hk_state h))
  `prefix_of` idsOf (messages (hk_state (processEvents uuid es h))).
Proof.
  revert h. induction es as [|e es IH]; intros h Hes; [done|].
  apply Forall_cons in Hes as [He Hes].
  cbn [processEvents fold_left]. fold (processEvents uuid es (processEvent uuid e h)).
  etrans; [|by apply IH]. unfold processEvent.
  by apply (reduce_ids e (emit (OnEvent (ev_type e)) h)).
Qed.

(** *** Streaming text *)

Lemma string_app_assoc (a b c : string) : (a +:+ b) +:+ c = a +:+ (b +:+ c).
Proof.
  induction a as [|x a IH]; [done|].
  change (String x ((a +:+ b) +:+ c) = String x (a +:+ (b +:+ c))). by rewrite IH.
Qed.

Lemma string_app_nil_r (a : string) : a +:+ EmptyString = a.
Proof.
  induction a as [|x a IH]; [done|].
  change (String x (a +:+ EmptyString) = String x a). by rewrite IH.
Qed.

Lemma set_currentMessage_twice (a b : option CurrentMessage) (s : AGUIClientState) :
  set_currentMessage a (set_currentMessage b s) = set_currentMessage a s.
Proof. by destruct s. Qed.

Lemma processEvent_text_start (e : PlatformEvent) (h : Hook) :
  ev_type e = EventType.TEXT_MESSAGE_START →
  processEvent uuid e h = onTextMessageStart e (emit (OnEvent (ev_type e)) h).
Proof. intros Hty. unfold processEvent, reduce. rewrite Hty. reflexivity. Qed.

Lemma processEvent_text_content (e : PlatformEvent) (h : Hook) :
  ev_type e = EventType.TEXT_MESSAGE_CONTENT →
  processEvent uuid e h = onTextMessageContent e (emit (OnEvent (ev_type e)) h).
Proof. intros Hty. unfold processEvent, reduce. rewrite Hty. reflexivity. Qed.

Lemma processEvent_text_end (e : PlatformEvent) (h : Hook) :
  ev_type e = EventType.TEXT_MESSAGE_END →
  processEvent uuid e h = onTextMessageEnd uuid e (emit (OnEvent (ev_type e)) h).
Proof. intros Hty. unfold processEvent, reduce. rewrite Hty. reflexivity. Qed.

(** Content events append to the message under construction, whatever
    message id they carry. *)
Lemma chunks_state (chunks : list PlatformEvent) (h : Hook) (cm : CurrentMessage) :
  Forall (λ c, ev_type c = EventType.TEXT_MESSAGE_CONTENT) chunks →
  currentMessage (hk_state h) = Some cm →
  let h' := processEvents uuid chunks h in
  hk_state h'
  = set_currentMessage (Some {|
      cm_id := cm_id cm; cm_role := cm_role cm;
      cm_content := cm_content cm +:+ joinDeltas (ev_textDelta <$> chunks);
      cm_timestamp := cm_timestamp cm |}) (hk_state h)
  ∧ hiddenMessageIdsRef h' = hiddenMessageIdsRef h
  ∧ uuidCount h' = uuidCount h.
Proof.
  cbv zeta. revert h cm. induction chunks as [|c chunks IH]; intros h cm Hty Hcm.
  - cbn. rewrite string_app_nil_r. split; [|done].
    destruct h as [s ? ? ? ? ? ? ? ? ? ?]; cbn in *. destruct s; cbn in *.
    subst. by destruct cm.
  - apply Forall_cons in Hty as [Hc Hty].
    cbn [processEvents fold_left]. fold (processEvents uuid chunks (processEvent uuid c h)).
    rewrite processEvent_text_content by done.
    unfold onTextMessageContent. proj_simpl. rewrite Hcm.
    edestruct (IH (setState (set_currentMessage (Some
                  {| cm_id := cm_id cm; cm_role := cm_role cm;
                     cm_content := cm_content cm +:+ ev_textDelta c;
                     cm_timestamp := cm_timestamp cm |}))
                 (emit (OnEvent (ev_type c)) h))) as (-> & -> & ->); [done|reflexivity|].
    proj_simpl. rewrite set_currentMessage_twice.
    cbn [fmap list_fmap joinDeltas foldr cm_id cm_role cm_content cm_timestamp].
    by rewrite string_app_assoc.
Qed.

Lemma streaming_state (start : PlatformEvent) (chunks : list PlatformEvent) (h : Hook) :
  ev_type start = EventType.TEXT_MESSAGE_START →
  Forall (λ c, ev_type c = EventType.TEXT_MESSAGE_CONTENT) chunks →
  let h' := processEvents uuid (start :: chunks) h in
  hk_state h'
  = set_currentMessage
      (Some (streamingMessage start (joinDeltas (ev_textDelta <$> chunks)))) (hk_state h)
  ∧ hiddenMessageIdsRef h' = hiddenMessageIdsRef h
  ∧ uuidCount h' = uuidCount h.
Proof.
  cbv zeta. intros Hstart Hchunks.
  cbn [processEvents fold_left]. fold (processEvents uuid chunks (processEvent uuid start h)).
  rewrite processEvent_text_start by done.
  edestruct (chunks_state chunks (onTextMessageStart start (emit (OnEvent (ev_type start)) h)))
    as (-> & -> & ->); [done|reflexivity|].
  unfold onTextMessageStart. proj_simpl. by rewrite set_currentMessage_twice.
Qed.

Lemma text_end_step (stop : PlatformEvent) (h : Hook) (cm : CurrentMessage) (mid : string) :
  ev_type stop = EventType.TEXT_MESSAGE_END →
  currentMessage (hk_state h) = Some cm →
  cm_id cm = Some mid → mid ≠ EmptyString → cm_content cm ≠ EmptyString →
  let h' := processEvent uuid stop h in
  let msgs := messages (hk_state h) in
  let msg := msg_set_timestamp (Some (timestampString stop))
               (mkMessage mid (JS.orS (cm_role cm) "assistant") (Some (cm_content cm))) in
  currentMessage (hk_state h') = None
  ∧ uuidCount h' = uuidCount h
  ∧ (mid ∈ hiddenMessageIdsRef h →
     messages (hk_state h') = msgs ∧ effects h' = effects h ++ [OnEvent (ev_type stop)])
  ∧ (mid ∉ hiddenMessageIdsRef h → mid ∉ idsOf msgs →
     messages (hk_state h') = msgs ++ [msg]
     ∧ effects h' = effects h ++ [OnEvent (ev_type stop); OnMessage msg])
  ∧ (mid ∉ hiddenMessageIdsRef h → mid ∈ idsOf msgs →
     ∃ i m, JS.findIndex (λ m, bool_decide (msg_id m = mid)) msgs = Some i
            ∧ msgs !! i = Some m
            ∧ messages (hk_state h') = <[i := msg_set_content (Some (cm_content cm)) m]> msgs
            ∧ effects h' = effects h ++ [OnEvent (ev_type stop)]).
Proof.
  cbv zeta. intros Hty Hcm Hid Hne Htext.
  rewrite processEvent_text_end by done.
  unfold onTextMessageEnd, randomUUID. proj_simpl. rewrite Hcm, Hid.
  rewrite (truthy_true _ Htext). cbn [JS.truthyO default from_option id].
  rewrite (truthy_true _ Hne). proj_simpl. cbn [default from_option].
  case_bool_decide as Hhidden.
  - proj_simpl. split; [done|]. split; [done|]. split; [done|]. split; intros Hn; done.
  - destruct (JS.findIndex _ _) as [i|] eqn:Hfind.
    + apply findIndex_Some in Hfind as Hi. destruct Hi as (m & Hm & Hmid & _).
      rewrite Hm.
      assert (Hupd : messages (hk_state
                (if bool_decide (msg_content m ≠ Some (cm_content cm))
                 then setState (set_messages
                        (<[i:=msg_set_content (Some (cm_content cm)) m]>
                           (messages (hk_state h))))
                        (emit (OnEvent (ev_type stop)) h)
                 else emit (OnEvent (ev_type stop)) h))
              = <[i:=msg_set_content (Some (cm_content cm)) m]> (messages (hk_state h))).
      { destruct (bool_decide (msg_content m ≠ _)) eqn:Hsame; proj_simpl; [done|].
        apply bool_decide_eq_false, dec_stable in Hsame. symmetry. apply list_insert_id.
        rewrite Hm. f_equal. destruct m; cbn in *. by subst. }
      split; [by destruct (bool_decide (msg_content m ≠ _))|].
      split; [by destruct (bool_decide (msg_content m ≠ _))|].
      split; [done|]. split.
      * intros _ Hnot. exfalso. apply Hnot. apply list_elem_of_fmap. exists m.
        apply bool_decide_eq_true in Hmid. split; [done|]. by eapply list_elem_of_lookup_2.
      * intros _ _. exists i, m. split; [done|]. split; [done|].
        proj_simpl. split; [exact Hupd|]. by destruct (bool_decide (msg_content m ≠ _)).
    + proj_simpl. split; [done|]. split; [done|]. split; [done|]. split.
      * intros _ _. split; [done|]. by rewrite <- app_assoc.
      * intros _ Hin. exfalso. apply list_elem_of_fmap in Hin as (m & -> & Hm).
        rewrite findIndex_None in Hfind. specialize (Hfind m Hm).
        by apply bool_decide_eq_false in Hfind.
Qed.

Lemma processEvents_app (es1 es2 : list PlatformEvent) (h : Hook) :
  processEvents uuid (es1 ++ es2) h = processEvents uuid es2 (processEvents uuid es1 h).
Proof. apply fold_left_app. Qed.

Lemma processEvents_cons (e : PlatformEvent) (es : list PlatformEvent) (h : Hook) :
  processEvents uuid (e :: es) h = processEvents uuid es (processEvent uuid e h).
Proof. reflexivity. Qed.

Lemma processEvents_snoc (e : PlatformEvent) (es : list PlatformEvent) (h : Hook) :
  processEvents uuid (es ++ [e]) h = processEvent uuid e (processEvents uuid es h).
Proof. by rewrite processEvents_app. Qed.

Lemma streamed_then_end (start stop : PlatformEvent) (chunks : list PlatformEvent) (h : Hook) :
  ev_type start = EventType.TEXT_MESSAGE_START →
  Forall (λ c, ev_type c = EventType.TEXT_MESSAGE_CONTENT) chunks →
  ∃ h1,
    processEvents uuid (start :: chunks ++ [stop]) h = processEvent uuid stop h1
    ∧ hk_state h1
      = set_currentMessage
          (Some (streamingMessage start (joinDeltas (ev_textDelta <$> chunks)))) (hk_state h)
    ∧ hiddenMessageIdsRef h1 = hiddenMessageIdsRef h
    ∧ uuidCount h1 = uuidCount h.
Proof.
  intros Hstart Hchunks. exists (processEvents uuid (start :: chunks) h).
  split; [by rewrite app_comm_cons, processEvents_app|].
  by apply streaming_state.
Qed.

(** X6.  A message streamed as text-start, content deltas and text-end is
    committed as one message: when its id is not empty, not hidden and not
    the id of a known message, and the deltas together are not empty, the
    message list grows at its end by one message with that id, the role of
    the start event (['assistant'] when it names none) and the deltas joined
    in order; nothing stays under construction and [onMessage] is called
    with that message, whose timestamp is that of the end event.  The
    message ids that the content and end events carry play no part. *)
Theorem streamed_text_is_committed (start stop : PlatformEvent)
    (chunks : list PlatformEvent) (h : Hook) :
  ev_type start = EventType.TEXT_MESSAGE_START →
  Forall (λ c, ev_type c = EventType.TEXT_MESSAGE_CONTENT) chunks →
  ev_type stop = EventType.TEXT_MESSAGE_END →
  let mid := ev_messageId start in
  let text := joinDeltas (ev_textDelta <$> chunks) in
  mid ≠ EmptyString → text ≠ EmptyString →
  mid ∉ hiddenMessageIdsRef h → mid ∉ idsOf (messages (hk_state h)) →
  let h' := processEvents uuid (start :: chunks ++ [stop]) h in
  let msg := msg_set_timestamp (Some (timestampString stop))
               (mkMessage mid (JS.orS (ev_role start) "assistant") (Some text)) in
  messages (hk_state h') = messages (hk_state h) ++ [msg]
  ∧ currentMessage (hk_state h') = None
  ∧ last (effects h') = Some (OnMessage msg)
  ∧ uuidCount h' = uuidCount h
  ∧ msg_timestamp msg = Some (timestampString stop).
Proof.
  cbv zeta. intros Hstart Hchunks Hstop Hmid Htext Hhidden Hnew.
  destruct (streamed_then_end start stop chunks h Hstart Hchunks)
    as (h1 & -> & Hs1 & Hh1 & Hu1).
  pose proof (text_end_step stop h1
                (streamingMessage start (joinDeltas (ev_textDelta <$> chunks)))
                (ev_messageId start) Hstop) as Hend.
  cbv zeta in Hend. rewrite Hs1, Hh1, Hu1 in Hend. proj_simpl in Hend.
  destruct Hend as (Hcm & Hu & _ & Hfresh & _); try done.
  { unfold streamingMessage. cbn. by rewrite (truthy_true _ Hmid). }
  destruct (Hfresh Hhidden Hnew) as [Hmsgs Heff].
  split; [exact Hmsgs|]. split; [done|]. split; [|done].
  rewrite Heff. by rewrite last_app.
Qed.

(** X7.  When the id of the streamed message is the id of a known message
    (and not hidden), text-end writes the streamed text into the first
    message with that id instead of adding a message: the list keeps its
    length and its ids. *)
Theorem streamed_text_updates_known_message (start stop : PlatformEvent)
    (chunks : list PlatformEvent) (h : Hook) :
  ev_type start = EventType.TEXT_MESSAGE_START →
  Forall (λ c, ev_type c = EventType.TEXT_MESSAGE_CONTENT) chunks →
  ev_type stop = EventType.TEXT_MESSAGE_END →
  let mid := ev_messageId start in
  let text := joinDeltas (ev_textDelta <$> chunks) in
  let msgs := messages (hk_state h) in
  mid ≠ EmptyString → text ≠ EmptyString →
  mid ∉ hiddenMessageIdsRef h → mid ∈ idsOf msgs →
  let h' := processEvents uuid (start :: chunks ++ [stop]) h in
  (∃ i m, JS.findIndex (λ m, bool_decide (msg_id m = mid)) msgs = Some i
          ∧ msgs !! i = Some m
          ∧ messages (hk_state h') = <[i := msg_set_content (Some text) m]> msgs)
  ∧ idsOf (messages (hk_state h')) = idsOf msgs
  ∧ currentMessage (hk_state h') = None.
Proof.
  cbv zeta. intros Hstart Hchunks Hstop Hmid Htext Hhidden Hknown.
  destruct (streamed_then_end start stop chunks h Hstart Hchunks)
    as (h1 & -> & Hs1 & Hh1 & Hu1).
  pose proof (text_end_step stop h1
                (streamingMessage start (joinDeltas (ev_textDelta <$> chunks)))
                (ev_messageId start) Hstop) as Hend.
  cbv zeta in Hend. rewrite Hs1, Hh1 in Hend. proj_simpl in Hend.
  destruct Hend as (Hcm & _ & _ & _ & Hupd); try done.
  { unfold streamingMessage. cbn. by rewrite (truthy_true _ Hmid). }
  destruct (Hupd Hhidden Hknown) as (i & m & Hfind & Hm & Hmsgs & _).
  split; [by exists i, m|]. split; [|done].
  rewrite Hmsgs. by apply (idsOf_insert i m).
Qed.

(** *** Hidden messages *)

Lemma hide_step (hide : PlatformEvent) (h : Hook) (mid : string) :
  hiddenBy hide = Some mid →
  let h' := processEvent uuid hide h in
  mid ≠ EmptyString
  ∧ hk_state h'
    = set_messages
        (List.filter (λ m, negb (bool_decide (msg_id m = mid))) (messages (hk_state h)))
        (hk_state h)
  ∧ hiddenMessageIdsRef h' = {[mid]} ∪ hiddenMessageIdsRef h
  ∧ uuidCount h' = uuidCount h.
Proof.
  cbv zeta. unfold hiddenBy. case_bool_decide as Hty; [|done].
  destruct (ev_rawData hide) as [rawData|] eqn:Hraw; [|done].
  destruct (bool_decide (rd_type rawData = Some "message_metadata") && rd_hidden rawData)
    eqn:Hmeta; cbn [andb]; [|done].
  destruct (JS.truthyO (rd_messageId rawData)) eqn:Htruthy; [|done].
  intros Hmid. rewrite processEvent_raw by done. unfold onRaw.
  rewrite Hraw, Hmeta, Htruthy, Hmid. proj_simpl. cbn [default from_option].
  rewrite Hmid in Htruthy. cbn in Htruthy. apply truthy_true_inv in Htruthy. done.
Qed.

Lemma filter_insert_hidden (k : string) (i : nat) (m m' : PlatformMessage)
    (l : list PlatformMessage) :
  l !! i = Some m → msg_id m = k → msg_id m' = k →
  List.filter (λ x, negb (bool_decide (msg_id x = k))) (<[i := m']> l)
  = List.filter (λ x, negb (bool_decide (msg_id x = k))) l.
Proof.
  revert i. induction l as [|x l IH]; intros [|i]; simpl; [done..| |].
  - intros [= ->] Hm Hm'. by rewrite !bool_decide_eq_true_2.
  - intros Hl Hm Hm'. by rewrite (IH i Hl Hm Hm').
Qed.

Lemma text_end_messages_hidden (start stop : PlatformEvent) (chunks : list PlatformEvent)
    (h : Hook) :
  ev_type start = EventType.TEXT_MESSAGE_START →
  Forall (λ c, ev_type c = EventType.TEXT_MESSAGE_CONTENT) chunks →
  ev_type stop = EventType.TEXT_MESSAGE_END →
  ev_messageId start ≠ EmptyString →
  let h' := processEvents uuid (start :: chunks ++ [stop]) h in
  let others l :=
    List.filter (λ m, negb (bool_decide (msg_id m = ev_messageId start))) l in
  others (messages (hk_state h')) = others (messages (hk_state h))
  ∧ (ev_messageId start ∈ hiddenMessageIdsRef h →
     messages (hk_state h') = messages (hk_state h))
  ∧ hiddenMessageIdsRef h' = hiddenMessageIdsRef h.
Proof.
  cbv zeta. intros Hstart Hchunks Hstop Hmid.
  destruct (streamed_then_end start stop chunks h Hstart Hchunks)
    as (h1 & -> & Hs1 & Hh1 & Hu1).
  set (text := joinDeltas (ev_textDelta <$> chunks)) in *.
  assert (Hhidden : hiddenMessageIdsRef (processEvent uuid stop h1) = hiddenMessageIdsRef h).
  { rewrite processEvent_hidden, <- Hh1. unfold hiddenBy.
    rewrite Hstop. by rewrite bool_decide_eq_false_2. }
  destruct (decide (text = EmptyString)) as [Hempty|Htext].
  - rewrite processEvent_text_end by done. unfold onTextMessageEnd. proj_simpl.
    rewrite Hs1. proj_simpl. unfold streamingMessage. cbn [cm_content]. rewrite Hempty.
    change (JS.truthy EmptyString) with false. proj_simpl. rewrite Hs1. done.
  - pose proof (text_end_step stop h1 (streamingMessage start text)
                  (ev_messageId start) Hstop) as Hend.
    cbv zeta in Hend. rewrite Hs1, Hh1 in Hend. proj_simpl in Hend.
    destruct Hend as (_ & _ & Hhid & Hfresh & Hupd); try done.
    { unfold streamingMessage. cbn. by rewrite (truthy_true _ Hmid). }
    split; [|split; [|done]].
    + destruct (decide (ev_messageId start ∈ hiddenMessageIdsRef h)) as [Hin|Hnin].
      { destruct (Hhid Hin) as [-> _]. done. }
      destruct (decide (ev_messageId start ∈ idsOf (messages (hk_state h)))) as [Hk|Hk].
      * destruct (Hupd Hnin Hk) as (i & m & Hfind & Hm & -> & _).
        apply findIndex_Some in Hfind as (m0 & Hm0 & Heq & _).
        rewrite Hm in Hm0. injection Hm0 as <-. apply bool_decide_eq_true in Heq.
        by apply (filter_insert_hidden _ i m).
      * destruct (Hfresh Hnin Hk) as [-> _]. rewrite List.filter_app. cbn.
        rewrite bool_decide_eq_true_2 by done. cbn. by rewrite app_nil_r.
    + intros Hin. by destruct (Hhid Hin) as [-> _].
Qed.

(** *** The end of a run *)

Lemma processEvent_run_finished (e : PlatformEvent) (h : Hook) :
  ev_type e = EventType.RUN_FINISHED →
  processEvent uuid e h = onRunFinished uuid e (emit (OnEvent (ev_type e)) h).
Proof. intros Hty. unfold processEvent, reduce. rewrite Hty. reflexivity. Qed.

(** X9.  Text that is still streaming when the run finishes is not lost:
    RUN_FINISHED commits the message under construction (when its text is
    not empty) at the end of the list, under its id, always with the role
    ['assistant'] and the timestamp of RUN_FINISHED, and without consulting
    the hidden ids or the known ids; the status becomes ['completed'] and
    nothing stays under construction. *)
Theorem run_finished_flushes_streamed_text (start finish : PlatformEvent)
    (chunks : list PlatformEvent) (h : Hook) :
  ev_type start = EventType.TEXT_MESSAGE_START →
  Forall (λ c, ev_type c = EventType.TEXT_MESSAGE_CONTENT) chunks →
  ev_type finish = EventType.RUN_FINISHED →
  let mid := ev_messageId start in
  let text := joinDeltas (ev_textDelta <$> chunks) in
  mid ≠ EmptyString → text ≠ EmptyString →
  let h' := processEvents uuid (start :: chunks ++ [finish]) h in
  let msg := msg_set_timestamp (Some (timestampString finish))
               (mkMessage mid "assistant" (Some text)) in
  messages (hk_state h') = messages (hk_state h) ++ [msg]
  ∧ currentMessage (hk_state h') = None
  ∧ status (hk_state h') = completed
  ∧ last (effects h') = Some (OnMessage msg)
  ∧ uuidCount h' = uuidCount h
  ∧ msg_timestamp msg = Some (timestampString finish).
Proof.
  cbv zeta. intros Hstart Hchunks Hfinish Hmid Htext.
  destruct (streamed_then_end start finish chunks h Hstart Hchunks)
    as (h1 & -> & Hs1 & Hh1 & Hu1).
  rewrite processEvent_run_finished by done.
  unfold onRunFinished, randomUUID. proj_simpl.
  case_bool_decide; proj_simpl; rewrite Hs1; proj_simpl.
  all: unfold streamingMessage; cbn [cm_content cm_id];
    rewrite (truthy_true _ Htext), (truthy_true _ Hmid);
    cbn [JS.truthyO default from_option]; rewrite (truthy_true _ Hmid); proj_simpl.
  all: rewrite last_app; cbn; rewrite Hs1, Hu1; done.
Qed.

Lemma run_finished_messages (start finish : PlatformEvent)
    (chunks : list PlatformEvent) (h : Hook) :
  ev_type start = EventType.TEXT_MESSAGE_START →
  Forall (λ c, ev_type c = EventType.TEXT_MESSAGE_CONTENT) chunks →
  ev_type finish = EventType.RUN_FINISHED →
  ev_messageId start ≠ EmptyString →
  joinDeltas (ev_textDelta <$> chunks) ≠ EmptyString →
  messages (hk_state (processEvents uuid (start :: chunks ++ [finish]) h))
  = messages (hk_state h)
    ++ [msg_set_timestamp (Some (timestampString finish))
          (mkMessage (ev_messageId start) "assistant"
             (Some (joinDeltas (ev_textDelta <$> chunks))))].
Proof.
  intros Hstart Hchunks Hfinish Hmid Htext.
  destruct (streamed_then_end start finish chunks h Hstart Hchunks)
    as (h1 & -> & Hs1 & Hh1 & Hu1).
  rewrite processEvent_run_finished by done.
  unfold onRunFinished, randomUUID. proj_simpl.
  case_bool_decide; proj_simpl; rewrite Hs1; proj_simpl.
  all: unfold streamingMessage; cbn [cm_content cm_id];
    rewrite (truthy_true _ Htext), (truthy_true _ Hmid);
    cbn [JS.truthyO default from_option]; rewrite (truthy_true _ Hmid); proj_simpl.
  all: by rewrite Hs1.
Qed.

(** X8.  The hidden-id check of TEXT_MESSAGE_END works in both orders.  A
    message that streams to its text-end under an id that a [RAW]
    message-metadata event hides does not stay in the list: when the hide
    event comes first, the stream changes no message; when the message is
    streamed first, the hide event takes it out again.  Either way the list
    ends up as the messages from before without those of that id, and the
    id is in the hidden set.  The flush of RUN_FINISHED makes no such
    check: when the run finishes in place of the text-end, it appends the
    streamed text under the hidden id all the same. *)
Theorem hidden_stream_is_dropped_at_text_end (hide start stop : PlatformEvent)
    (chunks : list PlatformEvent) (h : Hook) :
  ev_type start = EventType.TEXT_MESSAGE_START →
  Forall (λ c, ev_type c = EventType.TEXT_MESSAGE_CONTENT) chunks →
  ev_type stop = EventType.TEXT_MESSAGE_END →
  hiddenBy hide = Some (ev_messageId start) →
  let mid := ev_messageId start in
  let text := joinDeltas (ev_textDelta <$> chunks) in
  let others :=
    List.filter (λ m, negb (bool_decide (msg_id m = mid))) (messages (hk_state h)) in
  let hiddenFirst := processEvents uuid (hide :: start :: chunks ++ [stop]) h in
  let streamedFirst := processEvents uuid (start :: chunks ++ [stop; hide]) h in
  messages (hk_state hiddenFirst) = others
  ∧ messages (hk_state streamedFirst) = others
  ∧ mid ∈ hiddenMessageIdsRef hiddenFirst
  ∧ mid ∈ hiddenMessageIdsRef streamedFirst
  ∧ ∀ finish,
      ev_type finish = EventType.RUN_FINISHED → text ≠ EmptyString →
      let flushed := processEvents uuid (hide :: start :: chunks ++ [finish]) h in
      mid ∈ hiddenMessageIdsRef (processEvent uuid hide h)
      ∧ messages (hk_state flushed)
        = others ++ [msg_set_timestamp (Some (timestampString finish))
                       (mkMessage mid "assistant" (Some text))]
      ∧ mid ∈ idsOf (messages (hk_state flushed)).
Proof.
  cbv zeta. intros Hstart Hchunks Hstop Hhide.
  split; [|split; [|split; [|split]]].
  - rewrite processEvents_cons.
    destruct (hide_step hide h _ Hhide) as (Hne & Hs & Hh & _).
    destruct (text_end_messages_hidden start stop chunks (processEvent uuid hide h)
                Hstart Hchunks Hstop Hne) as (_ & Hsame & _).
    rewrite Hsame; [by rewrite Hs|]. rewrite Hh. apply elem_of_union. left.
    by apply elem_of_singleton.
  - replace (start :: chunks ++ [stop; hide])
      with ((start :: chunks ++ [stop]) ++ [hide])
      by (by rewrite <- app_comm_cons, <- app_assoc).
    rewrite processEvents_snoc.
    destruct (hide_step hide (processEvents uuid (start :: chunks ++ [stop]) h) _ Hhide)
      as (Hne & -> & _). proj_simpl.
    by destruct (text_end_messages_hidden start stop chunks h Hstart Hchunks Hstop Hne)
      as (-> & _).
  - rewrite processEvents_cons.
    destruct (hide_step hide h _ Hhide) as (Hne & _ & Hh & _).
    destruct (text_end_messages_hidden start stop chunks (processEvent uuid hide h)
                Hstart Hchunks Hstop Hne) as (_ & _ & ->).
    rewrite Hh. apply elem_of_union. left. by apply elem_of_singleton.
  - replace (start :: chunks ++ [stop; hide])
      with ((start :: chunks ++ [stop]) ++ [hide])
      by (by rewrite <- app_comm_cons, <- app_assoc).
    rewrite processEvents_snoc.
    destruct (hide_step hide (processEvents uuid (start :: chunks ++ [stop]) h) _ Hhide)
      as (_ & _ & -> & _). apply elem_of_union. left. by apply elem_of_singleton.
  - intros finish Hfinish Htext.
    destruct (hide_step hide h _ Hhide) as (Hne & Hs & Hh & _).
    assert (Hflushed : messages (hk_state
              (processEvents uuid (hide :: start :: chunks ++ [finish]) h))
            = List.filter (λ m, negb (bool_decide (msg_id m = ev_messageId start)))
                (messages (hk_state h))
              ++ [msg_set_timestamp (Some (timestampString finish))
                    (mkMessage (ev_messageId start) "assistant"
                       (Some (joinDeltas (ev_textDelta <$> chunks))))]).
    { rewrite processEvents_cons.
      rewrite (run_finished_messages start finish chunks (processEvent uuid hide h))
        by done.
      by rewrite Hs. }
    split; [|split; [exact Hflushed|]].
    + rewrite Hh. apply elem_of_union. left. by apply elem_of_singleton.
    + rewrite Hflushed, idsOf_app. apply elem_of_app. right. apply list_elem_of_here.
Qed.

(** *** Tool calls *)

Lemma JSMap_set_set {V} (k : string) (v1 v2 : V) (m : JSMap.t V) :
  JSMap.set k v2 (JSMap.set k v1 m) = JSMap.set k v2 m.
Proof.
  induction m as [|[k0 v0] m IH]; cbn.
  - by rewrite bool_decide_eq_true_2.
  - case_bool_decide as Hk; cbn.
    + by rewrite bool_decide_eq_true_2.
    + rewrite bool_decide_eq_false_2 by done. by rewrite IH.
Qed.

Lemma JSMap_set_get {V} (k : string) (v : V) (m : JSMap.t V) :
  JSMap.get k m = Some v → JSMap.set k v m = m.
Proof.
  unfold JSMap.get. induction m as [|[k0 v0] m IH]; cbn; [done|].
  case_bool_decide as Hk; cbn.
  - intros [= ->]. by subst.
  - intros Hget. by rewrite IH.
Qed.

Lemma JSMap_delete_set {V} (k : string) (v : V) (m : JSMap.t V) :
  JSMap.delete k (JSMap.set k v m) = JSMap.delete k m.
Proof.
  unfold JSMap.delete. induction m as [|[k0 v0] m IH]; cbn.
  - by rewrite bool_decide_eq_true_2.
  - case_bool_decide as Hk; cbn.
    + by rewrite !bool_decide_eq_true_2.
    + rewrite !bool_decide_eq_false_2 by done. cbn. by rewrite IH.
Qed.

Lemma JSMap_delete_absent {V} (k : string) (m : JSMap.t V) :
  JSMap.get k m = None → JSMap.delete k m = m.
Proof.
  unfold JSMap.get, JSMap.delete. induction m as [|[k0 v0] m IH]; cbn; [done|].
  case_bool_decide as Hk; cbn; [done|]. intros Hget. by rewrite IH.
Qed.

Lemma processEvent_tool_call_args (e : PlatformEvent) (h : Hook) :
  ev_type e = EventType.TOOL_CALL_ARGS →
  processEvent uuid e h = onToolCallArgs e (emit (OnEvent (ev_type e)) h).
Proof. intros Hty. unfold processEvent, reduce. rewrite Hty. reflexivity. Qed.

Lemma set_tool_twice (p1 p2 : JSMap.t PendingToolCall) (c1 c2 : option CurrentToolCall)
    (s : AGUIClientState) :
  set_currentToolCall c2 (set_pendingToolCalls p2
    (set_currentToolCall c1 (set_pendingToolCalls p1 s)))
  = set_currentToolCall c2 (set_pendingToolCalls p2 s).
Proof. by destruct s. Qed.

(** Arguments events of a tool call that is pending and current append to
    both of its records. *)
Lemma args_state (tid : string) (deltas : list PlatformEvent) (h : Hook)
    (rec : PendingToolCall) (ct : CurrentToolCall) :
  Forall (argsEventOf tid) deltas →
  JSMap.get tid (pendingToolCalls (hk_state h)) = Some rec →
  currentToolCall (hk_state h) = Some ct → ct_id ct = Some tid →
  let args := joinDeltas (ev_argsDelta <$> deltas) in
  let h' := processEvents uuid deltas h in
  hk_state h'
  = set_currentToolCall (Some {|
        ct_id := ct_id ct; ct_name := ct_name ct;
        ct_args := ct_args ct +:+ args;
        ct_parentToolUseId := ct_parentToolUseId ct |})
      (set_pendingToolCalls
         (JSMap.set tid {|
            pt_id := pt_id rec; pt_name := pt_name rec;
            pt_args := pt_args rec +:+ args;
            pt_parentToolUseId := pt_parentToolUseId rec;
            pt_parentMessageId := pt_parentMessageId rec;
            pt_timestamp := pt_timestamp rec |} (pendingToolCalls (hk_state h)))
         (hk_state h))
  ∧ hiddenMessageIdsRef h' = hiddenMessageIdsRef h
  ∧ uuidCount h' = uuidCount h.
Proof.
  cbv zeta. revert h rec ct. induction deltas as [|d deltas IH]; intros h rec ct Hds Hrec Hct Hid.
  - cbn. rewrite !string_app_nil_r. split; [|done].
    replace {| pt_id := pt_id rec; pt_name := pt_name rec; pt_args := pt_args rec;
               pt_parentToolUseId := pt_parentToolUseId rec;
               pt_parentMessageId := pt_parentMessageId rec;
               pt_timestamp := pt_timestamp rec |} with rec by (by destruct rec).
    rewrite (JSMap_set_get _ _ _ Hrec).
    destruct h as [s ? ? ? ? ? ? ? ? ? ?]; cbn in *. destruct s; cbn in *.
    subst. by destruct ct.
  - apply Forall_cons in Hds as [[Hty Htid] Hds].
    rewrite processEvents_cons, processEvent_tool_call_args by done.
    unfold onToolCallArgs. proj_simpl. rewrite Htid, Hrec. proj_simpl. rewrite Hct.
    rewrite bool_decide_eq_true_2 by done.
    match goal with
    | |- context [processEvents uuid deltas ?hx] =>
        edestruct (IH hx) as (-> & -> & ->); [done| | | |]
    end.
    + proj_simpl. apply JSMap_get_set_eq.
    + proj_simpl. reflexivity.
    + done.
    + proj_simpl. rewrite set_tool_twice, JSMap_set_set.
      cbn [fmap list_fmap joinDeltas foldr ct_id ct_name ct_args ct_parentToolUseId
           pt_id pt_name pt_args pt_parentToolUseId pt_parentMessageId pt_timestamp].
      by rewrite !string_app_assoc.
Qed.

Lemma tool_streaming_state (start : PlatformEvent) (deltas : list PlatformEvent) (h : Hook) :
  ev_type start = EventType.TOOL_CALL_START →
  Forall (argsEventOf (ev_toolCallId start)) deltas →
  let s := hk_state h in
  let args := joinDeltas (ev_argsDelta <$> deltas) in
  let h' := processEvents uuid (start :: deltas) h in
  hk_state h'
  = set_currentToolCall (Some (startedToolCall start s args))
      (set_pendingToolCalls
         (JSMap.set (ev_toolCallId start) (pendingRecord start s args) (pendingToolCalls s)) s)
  ∧ hiddenMessageIdsRef h' = hiddenMessageIdsRef h
  ∧ uuidCount h' = uuidCount h.
Proof.
  cbv zeta. intros Hstart Hdeltas.
  rewrite processEvents_cons, processEvent_tool_call_start by done.
  edestruct (args_state (ev_toolCallId start) deltas
               (onToolCallStart start (emit (OnEvent (ev_type start)) h)))
    as (-> & -> & ->); [done| | | |].
  - unfold onToolCallStart. proj_simpl. apply JSMap_get_set_eq.
  - unfold onToolCallStart. proj_simpl. reflexivity.
  - reflexivity.
  - unfold onToolCallStart. proj_simpl. rewrite set_tool_twice, JSMap_set_set. done.
Qed.

Lemma orO_same (x : option string) : JS.orO x x = x.
Proof. unfold JS.orO. by destruct (JS.truthyO x). Qed.

Lemma orS_name (n : string) :
  JS.orS (JS.orO (Some (JS.orS (Some n) "unknown_tool")) (Some n)) "unknown_tool"
  = JS.orS (Some n) "unknown_tool".
Proof. unfold JS.orO, JS.orS, JS.truthyO. destruct (JS.truthy n) eqn:Hn; cbn; by rewrite ?Hn. Qed.

Lemma orS_args (a : string) : JS.orS (JS.orO (Some a) (Some a)) EmptyString = a.
Proof. by rewrite orO_same, orS_Some_empty. Qed.

Lemma not_committed_some (tid : string) (s : AGUIClientState) :
  (∀ tc, tc ∈ committedToolCalls s → tc_id tc ≠ tid) →
  JS.some (msgHasToolCall tid) (messages s) = false.
Proof.
  intros Hnot. apply some_false. intros m Hm.
  destruct (msgHasToolCall tid m) eqn:Hhas; [|done].
  apply msgHasToolCall_true in Hhas as (tc & Htc & Hid).
  destruct (Hnot tc); [|done]. apply list_elem_of_bind. eauto.
Qed.

(** The state in which a tool-end event finds a tool call that has started
    and received its arguments. *)
Lemma tool_end_after_start (start stop : PlatformEvent) (deltas : list PlatformEvent)
    (h : Hook) :
  ev_type start = EventType.TOOL_CALL_START →
  Forall (argsEventOf (ev_toolCallId start)) deltas →
  ev_type stop = EventType.TOOL_CALL_END →
  let s := hk_state h in
  let args := joinDeltas (ev_argsDelta <$> deltas) in
  ∃ h1,
    processEvents uuid (start :: deltas ++ [stop]) h
    = onToolCallEnd uuid stop h1
    ∧ hk_state h1
      = set_currentToolCall (Some (startedToolCall start s args))
          (set_pendingToolCalls
             (JSMap.set (ev_toolCallId start) (pendingRecord start s args)
                (pendingToolCalls s)) s)
    ∧ uuidCount h1 = uuidCount h.
Proof.
  cbv zeta. intros Hstart Hdeltas Hstop.
  exists (emit (OnEvent (ev_type stop)) (processEvents uuid (start :: deltas) h)).
  split.
  - by rewrite app_comm_cons, processEvents_snoc, processEvent_tool_call_end.
  - destruct (tool_streaming_state start deltas h Hstart Hdeltas) as (Hs & _ & Hu).
    proj_simpl. done.
Qed.

(** X10.  A tool call that names no parent tool call (no
    [parent_tool_call_id], and a [parentMessageId] that is not the id of a
    pending or committed tool call) and whose id is not committed yet
    starts, receives its arguments and ends.  Its pending record is gone
    and no tool call is current afterwards, and it is committed on the last
    message it aims at: the last message with the id [parentMessageId] when
    the start event names one, the last assistant message when it names
    none.  That message gains one completed tool call with the id and name
    of the start event and the argument deltas joined in order, followed by
    the tool calls of the children that were buffered for it, which leave
    the buffer.  When there is no message to aim at, the tool call becomes
    a ['tool'] message of its own at the end of the list, under a fresh id,
    and the children stay in the buffer. *)
Theorem top_level_tool_call_is_committed (start stop : PlatformEvent)
    (deltas : list PlatformEvent) (h : Hook) :
  ev_type start = EventType.TOOL_CALL_START →
  Forall (argsEventOf (ev_toolCallId start)) deltas →
  ev_type stop = EventType.TOOL_CALL_END →
  ev_toolCallId stop = ev_toolCallId start →
  let s := hk_state h in
  let tid := ev_toolCallId start in
  let args := joinDeltas (ev_argsDelta <$> deltas) in
  let children := default [] (JSMap.get tid (pendingChildren s)) in
  tid ≠ EmptyString →
  namesNoParentTool start s →
  (∀ tc, tc ∈ committedToolCalls s → tc_id tc ≠ tid) →
  let h' := processEvents uuid (start :: deltas ++ [stop]) h in
  let s' := hk_state h' in
  let committed :=
    completedToolCall tid (JS.orS (Some (ev_toolCallName start)) "unknown_tool") args None in
  pendingToolCalls s' = JSMap.delete tid (pendingToolCalls s)
  ∧ currentToolCall s' = None
  ∧ (∀ i m,
       messages s !! i = Some m → aimedAt start m →
       (∀ i' m', i < i' → messages s !! i' = Some m' → ¬ aimedAt start m') →
       messages s'
       = <[i := msg_set_toolCalls
                  (Some (toolCallsOf m ++ committed :: (children ≫= toolCallsOf))) m]>
           (messages s)
       ∧ (toolCallsOf <$> messages s' !! i)
         = Some (toolCallsOf m ++ committed :: (children ≫= toolCallsOf))
       ∧ pendingChildren s'
         = (if bool_decide (0 < length children)
            then JSMap.delete tid (pendingChildren s) else pendingChildren s)
       ∧ uuidCount h' = uuidCount h)
  ∧ ((∀ m, m ∈ messages s → ¬ aimedAt start m) →
     messages s'
     = messages s
       ++ [toolMessage (uuid (uuidCount h)) tid (Some (timestampString stop)) committed]
     ∧ pendingChildren s' = pendingChildren s
     ∧ uuidCount h' = S (uuidCount h)).
Proof.
  cbv zeta. intros Hstart Hdeltas Hstop Hsame Htid Hnoparent Hfresh.
  destruct (tool_end_after_start start stop deltas h Hstart Hdeltas Hstop)
    as (h1 & -> & Hs1 & Hu1).
  pose proof (not_committed_some _ _ Hfresh) as Hsome.
  pose proof (namesNoParentTool_effective _ _ Hnoparent) as Heff.
  assert (Hend : ∀ target,
    JS.findLastIndex
      (λ m, if JS.truthyO (ev_parentMessageId start)
            then bool_decide (Some (msg_id m) = ev_parentMessageId start)
            else bool_decide (msg_role m = "assistant")) (messages (hk_state h)) = target →
    onToolCallEnd uuid stop h1
    = match target with
      | Some i =>
          let existingToolCalls :=
            default [] (toolCallsOf <$> messages (hk_state h) !! i) in
          let pendingForThisTool :=
            default [] (JSMap.get (ev_toolCallId start) (pendingChildren (hk_state h))) in
          let msgs' :=
            alter (msg_set_toolCalls
              (Some (existingToolCalls
                     ++ completedToolCall (ev_toolCallId start)
                          (JS.orS (Some (ev_toolCallName start)) "unknown_tool")
                          (joinDeltas (ev_argsDelta <$> deltas)) None
                        :: (pendingForThisTool ≫= toolCallsOf)))) i
              (messages (hk_state h)) in
          if hasToolCall (ev_toolCallId start) existingToolCalls then
            setState (λ s, set_currentToolCall None (set_messages (messages (hk_state h)) s))
              (setState (set_pendingToolCalls
                 (JSMap.delete (ev_toolCallId start) (pendingToolCalls (hk_state h)))) h1)
          else
            setState (λ s, set_currentToolCall None (set_messages msgs' s))
              (if bool_decide (0 < length pendingForThisTool) then
                 setState (λ s, set_pendingChildren
                   (JSMap.delete (ev_toolCallId start) (pendingChildren s)) s)
                   (setState (set_pendingToolCalls
                      (JSMap.delete (ev_toolCallId start) (pendingToolCalls (hk_state h)))) h1)
               else
                 setState (set_pendingToolCalls
                   (JSMap.delete (ev_toolCallId start) (pendingToolCalls (hk_state h)))) h1)
      | None =>
          setState (λ s, set_currentToolCall None
            (set_messages
               (messages (hk_state h)
                ++ [toolMessage (uuid (uuidCount h1)) (ev_toolCallId start)
                      (Some (timestampString stop))
                      (completedToolCall (ev_toolCallId start)
                         (JS.orS (Some (ev_toolCallName start)) "unknown_tool")
                         (joinDeltas (ev_argsDelta <$> deltas)) None)]) s))
            (set_uuidCount (S (uuidCount h1))
               (setState (set_pendingToolCalls
                  (JSMap.delete (ev_toolCallId start) (pendingToolCalls (hk_state h)))) h1))
      end).
  { intros target Htarget.
    unfold onToolCallEnd. rewrite Hsame, (truthy_true _ Htid). cbv zeta beta iota.
    rewrite Hs1. proj_simpl. rewrite JSMap_get_set_eq, Hsome.
    cbn [fmap option_fmap option_map mbind option_bind
         startedToolCall pendingRecord ct_id ct_name ct_args ct_parentToolUseId
         pt_name pt_args pt_parentToolUseId pt_parentMessageId].
    rewrite Heff. cbn [JS.orO JS.truthyO]. rewrite Htarget.
    rewrite orS_name, orS_args, JSMap_delete_set.
    destruct target as [i|]; [|unfold randomUUID; proj_simpl; by rewrite ?Hs1].
    proj_simpl. rewrite ?Hs1. proj_simpl. reflexivity. }
  split; [|split; [|split]].
  - rewrite (Hend _ eq_refl). clear Hend.
    destruct (JS.findLastIndex _ (messages (hk_state h))) as [i|]; cbv zeta.
    + repeat case_inner; proj_simpl; rewrite ?Hs1; proj_simpl; done.
    + proj_simpl. rewrite ?Hs1. proj_simpl. done.
  - rewrite (Hend _ eq_refl). clear Hend.
    destruct (JS.findLastIndex _ (messages (hk_state h))) as [i|]; cbv zeta.
    + repeat case_inner; proj_simpl; rewrite ?Hs1; proj_simpl; done.
    + proj_simpl. rewrite ?Hs1. proj_simpl. done.
  - intros i m Hm Haim Hlast.
    rewrite (Hend _ (attachTarget_last start _ i m Hm Haim Hlast)). cbv zeta.
    rewrite Hm. cbn [fmap option_fmap option_map default from_option id].
    rewrite (some_msgHasToolCall_false _ _ m Hsome) by (by eapply list_elem_of_lookup_2).
    rewrite (alter_insert _ _ _ _ Hm).
    assert (Hi : i < length (messages (hk_state h))) by (by eapply lookup_lt_Some).
    case_bool_decide; proj_simpl; rewrite ?Hs1; proj_simpl;
      rewrite (list_lookup_insert_eq _ _ _ Hi); done.
  - intros Hnone.
    rewrite (Hend _ (attachTarget_none start _ Hnone)). proj_simpl.
    rewrite ?Hs1, ?Hu1. proj_simpl. done.
Qed.

Lemma JSMap_has_delete_absent {V} (k k' : string) (m : JSMap.t V) :
  JSMap.get k m = None → JSMap.has k (JSMap.delete k' m) = false.
Proof.
  intros Hget. rewrite JSMap_has_get.
  destruct (decide (k = k')) as [->|Hne].
  - by rewrite JSMap_get_delete_eq.
  - by rewrite JSMap_get_delete_ne, Hget.
Qed.

(** X11.  A tool call whose start event names a parent tool call that is
    already committed (and no longer pending) is nested directly: at its
    end it is appended to the tool calls of the last message that carries
    the parent, with [parentToolUseId] set to the parent; nothing is
    buffered. *)
Theorem child_of_committed_parent_is_nested (start stop : PlatformEvent)
    (deltas : list PlatformEvent) (h : Hook) (parent : string)
    (j : nat) (m : PlatformMessage) :
  ev_type start = EventType.TOOL_CALL_START →
  Forall (argsEventOf (ev_toolCallId start)) deltas →
  ev_type stop = EventType.TOOL_CALL_END →
  ev_toolCallId stop = ev_toolCallId start →
  let s := hk_state h in
  let tid := ev_toolCallId start in
  let args := joinDeltas (ev_argsDelta <$> deltas) in
  tid ≠ EmptyString →
  ev_parent_tool_call_id start = Some parent → parent ≠ EmptyString →
  JSMap.get parent (pendingToolCalls s) = None →
  (∀ tc, tc ∈ committedToolCalls s → tc_id tc ≠ tid) →
  JS.findLastIndex (msgHasToolCall parent) (messages s) = Some j →
  messages s !! j = Some m →
  let s' := hk_state (processEvents uuid (start :: deltas ++ [stop]) h) in
  let committed :=
    completedToolCall tid (JS.orS (Some (ev_toolCallName start)) "unknown_tool") args
      (Some parent) in
  messages s' = <[j := msg_set_toolCalls (Some (toolCallsOf m ++ [committed])) m]> (messages s)
  ∧ pendingToolCalls s' = JSMap.delete tid (pendingToolCalls s)
  ∧ pendingChildren s' = pendingChildren s
  ∧ currentToolCall s' = None.
Proof.
  cbv zeta. intros Hstart Hdeltas Hstop Hsame Htid Hpt Hparent Hnotpending Hfresh Hfind Hm.
  destruct (tool_end_after_start start stop deltas h Hstart Hdeltas Hstop)
    as (h1 & -> & Hs1 & _).
  pose proof (not_committed_some _ _ Hfresh) as Hsome.
  unfold onToolCallEnd. rewrite Hsame, (truthy_true _ Htid). cbv zeta beta iota.
  rewrite Hs1. proj_simpl. rewrite JSMap_get_set_eq, Hsome.
  cbn [fmap option_fmap option_map mbind option_bind
       startedToolCall pendingRecord ct_id ct_name ct_args ct_parentToolUseId
       pt_name pt_args pt_parentToolUseId pt_parentMessageId].
  unfold effectiveParentToolId. rewrite Hpt. cbn [JS.truthyO].
  rewrite (truthy_true _ Hparent). cbn [negb andb].
  rewrite orO_same. cbn [JS.truthyO default from_option id].
  rewrite (truthy_true _ Hparent). proj_simpl.
  rewrite JSMap_delete_set, (JSMap_has_delete_absent _ _ _ Hnotpending).
  rewrite Hfind, Hm. cbn [fmap option_fmap option_map default from_option id].
  rewrite (some_msgHasToolCall_false _ _ m Hsome) by (by eapply list_elem_of_lookup_2).
  rewrite orS_name, orS_args, (alter_insert _ _ _ _ Hm).
  proj_simpl. unfold clearCurrentToolCallIf. proj_simpl. rewrite !Hs1. proj_simpl.
  cbn [startedToolCall ct_id]. rewrite bool_decide_eq_true_2 by done. proj_simpl.
  rewrite ?Hs1. done.
Qed.

Lemma onToolCallEnd_current (e : PlatformEvent) (h : Hook) :
  let s' := hk_state (onToolCallEnd uuid e h) in
  (currentToolCall s' = None ∨ currentToolCall s' = currentToolCall (hk_state h))
  ∧ currentMessage s' = currentMessage (hk_state h).
Proof.
  cbv zeta. unfold onToolCallEnd, randomUUID, clearCurrentToolCallIf.
  repeat (case_inner; proj_simpl); proj_simpl; auto.
Qed.

(** X12.  Streaming ends with the tool call: in a hook that is not streaming,
    a tool call that starts, receives arguments and ends makes [isStreaming]
    true while it runs and false again at its end, wherever the call ends
    up (committed, nested or dropped as a duplicate). *)
Theorem tool_call_lifecycle_ends_streaming (start stop : PlatformEvent)
    (deltas : list PlatformEvent) (h : Hook) :
  ev_type start = EventType.TOOL_CALL_START →
  Forall (argsEventOf (ev_toolCallId start)) deltas →
  ev_type stop = EventType.TOOL_CALL_END →
  ev_toolCallId stop = ev_toolCallId start →
  ev_toolCallId start ≠ EmptyString →
  isStreaming h = false →
  isStreaming (processEvents uuid (start :: deltas) h) = true
  ∧ isStreaming (processEvents uuid (start :: deltas ++ [stop]) h) = false.
Proof.
  intros Hstart Hdeltas Hstop Hsame Htid Hidle.
  unfold isStreaming in Hidle. apply orb_false_iff in Hidle as [Hidle Hpending].
  apply orb_false_iff in Hidle as [Hcm Hct].
  destruct (currentMessage (hk_state h)) eqn:Ecm; [done|].
  destruct (pendingToolCalls (hk_state h)) as [|p ps] eqn:Epending;
    [|apply bool_decide_eq_false in Hpending; cbn in Hpending; lia].
  split.
  - destruct (tool_streaming_state start deltas h Hstart Hdeltas) as (Hs & _).
    unfold isStreaming. rewrite Hs. proj_simpl. by rewrite orb_true_r.
  - destruct (tool_end_after_start start stop deltas h Hstart Hdeltas Hstop)
      as (h1 & -> & Hs1 & _).
    destruct (onToolCallEnd_current stop h1) as [Hcur Hmsg].
    destruct (onToolCallEnd_leaves stop h1) as [Hleft Hclear];
      [by rewrite Hsame; apply truthy_true|].
    unfold isStreaming. rewrite Hmsg, Hleft, Hs1. proj_simpl.
    rewrite Ecm, Epending, Hsame. rewrite JSMap_delete_set. cbn.
    destruct Hcur as [->|Hcur]; [done|].
    rewrite Hs1 in Hcur. proj_simpl in Hcur.
    unfold clearCurrentToolCallIf in Hclear. rewrite Hcur, Hsame in Hclear.
    cbn [startedToolCall ct_id] in Hclear.
    rewrite bool_decide_eq_true_2 in Hclear by done.
    apply (f_equal currentToolCall) in Hclear. proj_simpl in Hclear.
    rewrite Hcur in Hclear. done.
Qed.

(** *** Shared state, steps and activities *)





Lemma processEvent_step_started (e : PlatformEvent) (h : Hook) :
  ev_type e = EventType.STEP_STARTED →
  processEvent uuid e h = onStepStarted e (emit (OnEvent (ev_type e)) h).
Proof. intros Hty. unfold processEvent, reduce. rewrite Hty. reflexivity. Qed.

Lemma processEvent_step_finished (e : PlatformEvent) (h : Hook) :
  ev_type e = EventType.STEP_FINISHED →
  processEvent uuid e h = onStepFinished e (emit (OnEvent (ev_type e)) h).
Proof. intros Hty. unfold processEvent, reduce. rewrite Hty. reflexivity. Qed.

(** X14.  A step that starts and finishes leaves no trace in the shared
    state: while it runs, the key [currentStep] holds the step (its name as
    id and name, status ['running']); once it has finished the key is gone
    and every other key is as before, so that a state without [currentStep]
    is restored exactly. *)
Theorem step_round_trip (started finished : PlatformEvent) (h : Hook) :
  ev_type started = EventType.STEP_STARTED →
  ev_type finished = EventType.STEP_FINISHED →
  let st := state (hk_state h) in
  let running := state (hk_state (processEvent uuid started h)) in
  let after := state (hk_state (processEvents uuid [started; finished] h)) in
  JSMap.get "currentStep" running
  = Some (JStep (ev_stepName started) (ev_stepName started) "running")
  ∧ (∀ k, k ≠ "currentStep" → JSMap.get k running = JSMap.get k st)
  ∧ after = JSMap.delete "currentStep" st
  ∧ (JSMap.get "currentStep" st = None → after = st).
Proof.
  cbv zeta. intros Hstarted Hfinished.
  rewrite !processEvents_cons. cbn [processEvents fold_left].
  rewrite (processEvent_step_finished finished) by done.
  rewrite processEvent_step_started by done.
  unfold onStepFinished, onStepStarted. proj_simpl.
  split; [apply JSMap_get_set_eq|]. split; [intros k Hk; by apply JSMap_get_set_ne|].
  rewrite JSMap_delete_set. split; [done|]. apply JSMap_delete_absent.
Qed.

Lemma filter_insert_out {A} (f : A → bool) (i : nat) (x y : A) (l : list A) :
  l !! i = Some x → f x = false → f y = false →
  List.filter f (<[i := y]> l) = List.filter f l.
Proof.
  revert i. induction l as [|a l IH]; intros [|i]; simpl; [done..| |].
  - intros [= ->] -> ->. done.
  - intros Hl Hx Hy. by rewrite (IH i Hl Hx Hy).
Qed.

Lemma filter_delete_out {A} (f : A → bool) (i : nat) (x : A) (l : list A) :
  l !! i = Some x → f x = false → List.filter f (delete i l) = List.filter f l.
Proof.
  revert i. induction l as [|a l IH]; intros [|i]; simpl; [done..| |].
  - intros [= ->] ->. done.
  - intros Hl Hx. by rewrite (IH i Hl Hx).
Qed.

Lemma applyActivityPatch_filter (f : PlatformActivity → bool)
    (acts : list PlatformActivity) (patch : PlatformActivityPatch) :
  (∀ a, act_id a = act_id (ap_activity patch) → f a = false) →
  List.filter f (applyActivityPatch acts patch) = List.filter f acts.
Proof.
  intros Hf. unfold applyActivityPatch. destruct (ap_op patch).
  - rewrite List.filter_app. cbn. rewrite (Hf (ap_activity patch)) by done.
    by rewrite app_nil_r.
  - destruct (JS.findIndex _ acts) as [idx|] eqn:Hfind; [|done].
    apply findIndex_Some in Hfind as (a & Ha & Hid & _).
    apply bool_decide_eq_true in Hid.
    apply (filter_insert_out f idx a); [done|by apply Hf|by apply Hf].
  - destruct (JS.findIndex _ acts) as [idx|] eqn:Hfind; [|done].
    apply findIndex_Some in Hfind as (a & Ha & Hid & _).
    apply bool_decide_eq_true in Hid.
    apply (filter_delete_out f idx a); [done|by apply Hf].
Qed.

Lemma applyActivityPatch_unknown (acts : list PlatformActivity)
    (patch : PlatformActivityPatch) :
  ap_op patch ≠ OpAdd → act_id (ap_activity patch) ∉ (act_id <$> acts) →
  applyActivityPatch acts patch = acts.
Proof.
  intros Hop Hnot. unfold applyActivityPatch.
  assert (Hfind : JS.findIndex
            (λ a, bool_decide (act_id a = act_id (ap_activity patch))) acts = None).
  { apply findIndex_None. intros a Ha. apply bool_decide_eq_false. intros Hid.
    apply Hnot. apply list_elem_of_fmap. eauto. }
  destruct (ap_op patch); [done|by rewrite Hfind..].
Qed.

Lemma fold_applyActivityPatch_filter (ids : list string)
    (patches : list PlatformActivityPatch) (acts : list PlatformActivity) :
  (∀ p, p ∈ patches → act_id (ap_activity p) ∈ ids) →
  List.filter (λ a, negb (bool_decide (act_id a ∈ ids)))
    (fold_left applyActivityPatch patches acts)
  = List.filter (λ a, negb (bool_decide (act_id a ∈ ids))) acts.
Proof.
  revert acts. induction patches as [|p patches IH]; intros acts Hnamed; [done|].
  cbn [fold_left]. rewrite IH.
  - apply applyActivityPatch_filter. intros a Ha. cbn beta. rewrite Ha.
    rewrite bool_decide_eq_true_2; [done|]. apply Hnamed, list_elem_of_here.
  - intros p' Hp'. by apply Hnamed, list_elem_of_further.
Qed.

Lemma processEvent_activity_delta (e : PlatformEvent) (h : Hook) :
  ev_type e = EventType.ACTIVITY_DELTA →
  processEvent uuid e h = onActivityDelta e (emit (OnEvent (ev_type e)) h).
Proof. intros Hty. unfold processEvent, reduce. rewrite Hty. reflexivity. Qed.

(** X15.  An activity delta touches only the activities its patches name:
    the activities with any other id are the same afterwards, in the same
    order.  When every patch is an [update] or a [remove] of an id that no
    activity has, the delta changes nothing. *)
Theorem activity_delta_touches_only_named (e : PlatformEvent) (h : Hook)
    (patches : list PlatformActivityPatch) :
  ev_type e = EventType.ACTIVITY_DELTA →
  ev_activityDelta e = Some patches →
  let acts := activities (hk_state h) in
  let acts' := activities (hk_state (processEvent uuid e h)) in
  untouchedBy patches acts' = untouchedBy patches acts
  ∧ (Forall (λ p, ap_op p ≠ OpAdd ∧ act_id (ap_activity p) ∉ (act_id <$> acts)) patches →
     acts' = acts).
Proof.
  cbv zeta. intros Hty Hpatches. rewrite processEvent_activity_delta by done.
  unfold onActivityDelta. rewrite Hpatches. proj_simpl.
  generalize (activities (hk_state h)) as acts. intros acts. split.
  - unfold untouchedBy. apply fold_applyActivityPatch_filter.
    intros p Hp. apply list_elem_of_fmap. eauto.
  - clear Hpatches. revert acts.
    induction patches as [|p patches IH]; intros acts Hall; [done|].
    apply Forall_cons in Hall as [[Hop Hnot] Hall].
    change (fold_left applyActivityPatch patches (applyActivityPatch acts p) = acts).
    rewrite applyActivityPatch_unknown by done. by apply IH.
Qed.

(** *** Snapshots *)

Lemma Pruned_sublist_ids (d : PlatformMessage → Prop) (l l' : list PlatformMessage) :
  Pruned d l l' → idsOf l' `sublist_of` idsOf l.
Proof.
  induction 1 as [|m l l' Hm _ IH|m m' l l' Hmm _ IH]; cbn.
  - constructor.
  - by apply sublist_cons.
  - rewrite (sameHeader_id _ _ Hmm). by apply sublist_skip.
Qed.

Lemma Pruned_kept (d : PlatformMessage → Prop) (l l' : list PlatformMessage)
    (m : PlatformMessage) :
  Pruned d l l' → m ∈ l → ¬ d m → ∃ m', m' ∈ l' ∧ sameHeader m m'.
Proof.
  intros H Hm Hnot. induction H as [|m0 l l' Hm0 _ IH|m0 m' l l' Hmm _ IH].
  - by apply elem_of_nil in Hm.
  - apply elem_of_cons in Hm as [->|Hm]; [done|]. by apply IH.
  - apply elem_of_cons in Hm as [->|Hm].
    + exists m'. split; [apply list_elem_of_here|done].
    + destruct (IH Hm) as (m1 & ? & ?). exists m1.
      split; [by apply list_elem_of_further|done].
Qed.

Lemma parentToolCallIdsOf_empty (l : list PlatformMessage) :
  (∀ m, m ∈ l → msg_role m = "assistant" → toolCallsOf m = []) →
  parentToolCallIdsOf l = ∅.
Proof.
  intros Hnone. unfold parentToolCallIdsOf.
  match goal with |- list_to_set ?ids = _ => assert (Hids : ids = []) end.
  { induction l as [|m l IH]; [done|].
    rewrite bind_cons, IH by (intros m' Hm'; by apply Hnone, list_elem_of_further).
    rewrite app_nil_r. case_bool_decide as Hrole; [|done].
    by rewrite (Hnone m (list_elem_of_here _ _) Hrole). }
  by rewrite Hids.
Qed.

(** X16.  Normalising a snapshot only takes tool-result messages out of the
    list (those it nests under an assistant message) and only changes tool
    calls: the ids that remain are in the order of the snapshot, every
    message that is not a tool result remains, every remaining message is a
    snapshot message up to its tool calls, and a snapshot in which no
    assistant message has tool calls is returned as it is. *)
Theorem normalization_only_drops_tool_results (l : list PlatformMessage) :
  idsOf (normalizeSnapshotMessages l) `sublist_of` idsOf l
  ∧ (∀ m, m ∈ l → isToolResult m = false →
       ∃ m', m' ∈ normalizeSnapshotMessages l ∧ sameHeader m m')
  ∧ (∀ m', m' ∈ normalizeSnapshotMessages l → ∃ m, m ∈ l ∧ sameHeader m m')
  ∧ ((∀ m, m ∈ l → msg_role m = "assistant" → toolCallsOf m = []) →
     normalizeSnapshotMessages l = l).
Proof.
  pose proof (normalize_pruned l) as Hpruned.
  split; [by eapply Pruned_sublist_ids|]. split; [|split].
  - intros m Hm Hnot. eapply Pruned_kept; [done..|]. cbn beta. by rewrite Hnot.
  - intros m' Hm'. by eapply Pruned_elem_of.
  - intros Hnone. unfold normalizeSnapshotMessages.
    by rewrite (parentToolCallIdsOf_empty l Hnone), bool_decide_eq_true_2.
Qed.

Lemma find_none_fresh (E : gset string) (l : list PlatformMessage) :
  (∀ x, x ∈ idsOf l → x ∉ E) →
  JS.find (λ m, bool_decide (msg_id m ∈ E)) l = None.
Proof.
  unfold JS.find. induction l as [|m l IH]; intros Hfresh; cbn; [done|].
  rewrite bool_decide_eq_false_2 by (apply Hfresh, list_elem_of_here).
  apply IH. intros x Hx. by apply Hfresh, list_elem_of_further.
Qed.

(** Messages with new, distinct ids are appended in their order. *)
Lemma insertNew_fresh (l : list PlatformMessage) (E : gset string)
    (merged : list PlatformMessage) :
  NoDup (idsOf l) → (∀ x, x ∈ idsOf l → x ∉ E) →
  insertNew l E merged = merged ++ l.
Proof.
  revert E merged. induction l as [|msg rest IH]; intros E merged Hnodup Hfresh; cbn.
  - by rewrite app_nil_r.
  - cbn in Hnodup. apply NoDup_cons in Hnodup as [Hhead Hnodup].
    rewrite bool_decide_eq_false_2 by (apply Hfresh, list_elem_of_here).
    rewrite find_none_fresh
      by (intros x Hx; by apply Hfresh, list_elem_of_further).
    cbn [fmap option_fmap option_map]. unfold placeNew. cbn [JS.truthyO].
    rewrite IH; [by rewrite <- app_assoc|done|].
    intros x Hx. rewrite elem_of_union, elem_of_singleton. intros [->|Hin]; [done|].
    apply (Hfresh x); [|done]. by apply list_elem_of_further.
Qed.

(** X17.  The first snapshot of a conversation (no message is known yet),
    when its ids are distinct, is shown in its own order: the ids after the
    merge are ids of the snapshot in snapshot order, every message is a
    snapshot message that is not hidden, up to its tool calls, and every
    snapshot message that is neither hidden nor a tool message is shown. *)
Theorem first_snapshot_keeps_snapshot_order (e : PlatformEvent) (h : Hook) :
  ev_type e = EventType.MESSAGES_SNAPSHOT →
  messages (hk_state h) = [] →
  NoDup (idsOf (ev_messages e)) →
  let after := messages (hk_state (processEvent uuid e h)) in
  idsOf after `sublist_of` idsOf (ev_messages e)
  ∧ (∀ m', m' ∈ after →
       ∃ m, m ∈ ev_messages e ∧ sameHeader m m' ∧ msg_id m ∉ hiddenMessageIdsRef h)
  ∧ (∀ m, m ∈ ev_messages e → msg_id m ∉ hiddenMessageIdsRef h → msg_role m ≠ "tool" →
       ∃ m', m' ∈ after ∧ sameHeader m m').
Proof.
  cbv zeta. intros Hty Hempty Hnodup.
  rewrite processEvent_messages_snapshot by done.
  unfold onMessagesSnapshot. proj_simpl. rewrite Hempty.
  destruct (mergeSnapshot_spec (hiddenMessageIdsRef h) [] (pendingToolCalls (hk_state h))
              (ev_messages e)) as (store & merged & tnm & nested & -> & Hpruned & Hvis & Hm).
  apply Forall2_nil_inv_l in Hm as ->.
  pose proof (Pruned_sublist_ids _ _ _ Hpruned) as Hsub.
  rewrite insertNew_fresh;
    [|by eapply sublist_NoDup|intros x _; cbn; apply not_elem_of_empty].
  cbn [app]. split; [|split].
  - etrans; [|exact Hsub]. etrans; [apply fmap_sublist, filter_sublist|].
    unfold idsOf. rewrite <- list_fmap_compose.
    erewrite list_fmap_ext; [reflexivity|]. intros i m _. cbn.
    apply (sameHeader_id _ _ (sameHeader_recoverNames tnm m)).
  - intros m' Hm'. apply list_elem_of_In, filter_In in Hm' as [Hm' _].
    apply list_elem_of_In, list_elem_of_fmap in Hm' as (m1 & -> & Hm1).
    destruct (Pruned_elem_of _ _ _ _ Hpruned Hm1) as (m & Hm & Hsame).
    exists m. split; [done|]. split.
    + eapply sameHeader_trans; [done|apply sameHeader_recoverNames].
    + rewrite <- (sameHeader_id _ _ Hsame). by apply Hvis.
  - intros m Hm Hhid Hrole.
    destruct (Pruned_kept _ _ _ m Hpruned Hm) as (m1 & Hm1 & Hsame).
    { intros [Hin|Htool]; [done|]. unfold isToolResult in Htool.
      apply andb_true_iff in Htool as [Htool _]. by apply bool_decide_eq_true in Htool. }
    exists (recoverNames tnm m1). split.
    + apply list_elem_of_In, filter_In. split.
      * apply list_elem_of_In, list_elem_of_fmap. eauto.
      * apply keepAfterNesting_not_tool.
        rewrite (sameHeader_role _ _ (sameHeader_recoverNames tnm m1)).
        by rewrite (sameHeader_role _ _ Hsame).
    + eapply sameHeader_trans; [done|apply sameHeader_recoverNames].
Qed.

(** X18.  A snapshot merge loses no known message and keeps the known
    messages in their order.  A known message that is not a tool message
    (and whose snapshot versions are not tool messages either) is still in
    the list afterwards, under its id: as it was, or as the snapshot's
    visible message with that id, in both cases up to its tool calls.  The
    ids known before appear afterwards in the order they had. *)
Theorem snapshot_never_drops_known_messages (e : PlatformEvent) (h : Hook) :
  ev_type e = EventType.MESSAGES_SNAPSHOT →
  let before := messages (hk_state h) in
  let after := messages (hk_state (processEvent uuid e h)) in
  (∀ m, m ∈ before → msg_role m ≠ "tool" →
     (∀ sv, sv ∈ ev_messages e → msg_id sv = msg_id m → msg_role sv ≠ "tool") →
     ∃ m', m' ∈ after ∧ msg_id m' = msg_id m
           ∧ (sameHeader m m'
              ∨ ∃ sv, sv ∈ ev_messages e ∧ msg_id sv = msg_id m
                      ∧ (msg_id sv ∉ hiddenMessageIdsRef h) ∧ sameHeader sv m'))
  ∧ idsOf (List.filter (λ m, bool_decide (msg_id m ∈ idsOf before)) after)
    `sublist_of` idsOf before.
Proof.
  cbv zeta. intros Hty. rewrite processEvent_messages_snapshot by done.
  unfold onMessagesSnapshot. proj_simpl.
  destruct (mergeSnapshot_known (hiddenMessageIdsRef h) (messages (hk_state h))
              (pendingToolCalls (hk_state h)) (ev_messages e))
    as (merged & tnm & nested & Hmerged & Hknown).
  split.
  - intros m Hm Hrole Hsnap.
    apply list_elem_of_lookup in Hm as (i & Hi).
    destruct (Forall2_lookup_l _ _ _ _ _ Hmerged Hi) as (m1 & Hm1 & Hfrom).
    pose proof (sameHeader_recoverNames tnm m1) as Hrec.
    assert (Hrole1 : msg_role m1 ≠ "tool").
    { destruct Hfrom as [->|(sv & Hsv & _ & Hid & Hsame)]; [done|].
      rewrite (sameHeader_role _ _ Hsame). by apply Hsnap. }
    assert (Hin : recoverNames tnm m1
              ∈ List.filter (keepAfterNesting nested) (recoverNames tnm <$> merged)).
    { apply list_elem_of_In, filter_In. split.
      - apply list_elem_of_In, list_elem_of_fmap. exists m1. split; [done|].
        by eapply list_elem_of_lookup_2.
      - apply keepAfterNesting_not_tool. by rewrite (sameHeader_role _ _ Hrec). }
    rewrite <- Hknown in Hin. apply list_elem_of_In, filter_In in Hin as [Hin _].
    exists (recoverNames tnm m1). split; [by apply list_elem_of_In|].
    rewrite (sameHeader_id _ _ Hrec). split; [by eapply mergedFromSnapshot_id|].
    destruct Hfrom as [->|(sv & Hsv & Hhid & Hid & Hsame)]; [by left|].
    right. exists sv. split; [done|]. split; [done|]. split; [done|].
    by eapply sameHeader_trans.
  - rewrite Hknown. rewrite <- (mergedFromSnapshot_ids _ _ _ _ Hmerged).
    etrans; [apply fmap_sublist, filter_sublist|].
    unfold idsOf. rewrite <- list_fmap_compose.
    apply reflexive_eq. apply list_fmap_ext. intros i m _. cbn.
    apply (sameHeader_id _ _ (sameHeader_recoverNames tnm m)).
Qed.

(** *** The channel manager *)

Lemma step_unmounted (h : Hook) (a : Action) :
  mountedRef h = false → notMount a →
  let h' := step uuid sessionName h a in
  mountedRef h' = false ∧ scheduledDelays (effects h') = scheduledDelays (effects h).
Proof.
  cbv zeta. intros Hm Ha. destruct a; try done; cbn [step].
  - split; [|apply connect_sameChannel].
    unfold connect. by destruct (eventSourceRef h).
  - unfold disconnect. repeat case_inner; cbn;
      rewrite ?scheduledDelays_app; cbn; rewrite ?app_nil_r; by split.
  - unfold onopen. cbn. rewrite ?scheduledDelays_app; cbn; rewrite ?app_nil_r; by split.
  - destruct data as [e|]; cbn; [|done].
    split; [|apply processEvent_sameChannel].
    destruct (reduce_channel e (emit (OnEvent (ev_type e)) h)) as (_ & _ & _ & Hmounted & _).
    unfold processEvent. by rewrite Hmounted.
  - unfold onerror. cbn. rewrite Hm.
    repeat case_inner; cbn; rewrite ?scheduledDelays_app; cbn; rewrite ?app_nil_r; by split.
  - unfold onTimeout. by rewrite Hm.
  - unfold sendMessage, optimisticInsert, randomUUID. cbn.
    rewrite ?scheduledDelays_app; cbn; rewrite ?app_nil_r; by split.
  - unfold sendMessageSettled, connect.
    repeat case_inner; cbn; rewrite ?scheduledDelays_app; cbn; rewrite ?app_nil_r; by split.
  - unfold interrupt. repeat case_inner; cbn;
      rewrite ?scheduledDelays_app; cbn; rewrite ?app_nil_r; by split.
  - unfold interruptSettled. destruct ok; by split.
Qed.

Lemma fold_trackSource_requests (log : list Effect) (open : list nat) :
  fold_left trackSource log open = fold_left trackSource (requests log) open.
Proof.
  revert open. induction log as [|eff log IH]; intros open; [done|].
  unfold requests in *. destruct eff; cbn; apply IH.
Qed.

Lemma openSources_requests (log : list Effect) :
  openSources log = openSources (requests log).
Proof. apply fold_trackSource_requests. Qed.

Lemma openSources_snoc (log : list Effect) (eff : Effect) :
  openSources (log ++ [eff]) = trackSource (openSources log) eff.
Proof. unfold openSources. by rewrite fold_left_app. Qed.

Lemma processEvent_requests (e : PlatformEvent) (h : Hook) :
  requests (effects (processEvent uuid e h)) = requests (effects h).
Proof.
  unfold processEvent.
  destruct (reduce_channel e (emit (OnEvent (ev_type e)) h)) as (_ & _ & _ & _ & _ & ->).
  cbn. rewrite requests_app. cbn. by rewrite app_nil_r.
Qed.

Lemma connect_tracked (r : option string) (h : Hook) :
  connectionsTracked h → connectionsTracked (connect r h).
Proof.
  unfold connectionsTracked, connect. intros Hopen.
  destruct (eventSourceRef h) as [es|]; cbn -[openSources]; rewrite !openSources_snoc, Hopen; cbn;
    [|done].
  by rewrite bool_decide_eq_true_2.
Qed.

Lemma step_tracked (h : Hook) (a : Action) :
  connectionsTracked h → connectionsTracked (step uuid sessionName h a).
Proof.
  intros Hopen. destruct a; cbn [step]; try done.
  - by apply connect_tracked.
  - revert Hopen. unfold connectionsTracked, disconnect.
    destruct (reconnectTimeoutRef h); cbn -[openSources];
      destruct (eventSourceRef h) eqn:Hes; cbn -[openSources]; intros Hopen;
      rewrite ?Hes, ?openSources_snoc, ?Hopen; cbn; rewrite ?bool_decide_eq_true_2; done.
  - revert Hopen. unfold connectionsTracked, onopen. cbn -[openSources].
    rewrite !openSources_snoc. done.
  - destruct data as [e|]; cbn; [|done].
    revert Hopen. unfold connectionsTracked.
    destruct (reduce_channel e (emit (OnEvent (ev_type e)) h)) as (Hes & _).
    unfold processEvent at 2. rewrite Hes. cbn.
    rewrite (openSources_requests (effects (processEvent uuid e h))).
    rewrite processEvent_requests, <- openSources_requests. done.
  - revert Hopen. unfold connectionsTracked, onerror. cbn -[openSources].
    destruct (eventSourceRef h) as [es|] eqn:Hes; cbn -[openSources]; intros Hopen.
    + case_bool_decide as Hk; cbn -[openSources].
      * injection Hk as Hk.
        destruct (mountedRef h), (reconnectTimeoutRef h); cbn -[openSources];
          rewrite ?openSources_snoc, ?Hopen; cbn; rewrite Hk, ?bool_decide_eq_true_2; done.
      * rewrite ?Hes, openSources_snoc, Hopen. cbn.
        rewrite bool_decide_eq_false_2; [done|]. congruence.
    + rewrite bool_decide_eq_false_2 by done. cbn -[openSources].
      rewrite ?Hes, openSources_snoc, Hopen. done.
  - unfold onTimeout. destruct (mountedRef h); [by apply connect_tracked|done].
  - revert Hopen. unfold connectionsTracked, sendMessage, optimisticInsert, randomUUID.
    cbn -[openSources]. rewrite openSources_snoc. done.
  - destruct r; cbn; try done.
    destruct (JS.truthyO runId0); cbn.
    + destruct (eventSourceRef h) eqn:Hes; [done|]. apply connect_tracked.
      revert Hopen. unfold connectionsTracked. cbn. by rewrite Hes.
    + destruct (eventSourceRef h) eqn:Hes; [done|]. by apply connect_tracked.
  - revert Hopen. unfold connectionsTracked, interrupt.
    destruct (JS.truthyO _); cbn -[openSources]; rewrite openSources_snoc; done.
  - destruct ok; done.
Qed.

Lemma run_cons (a : Action) (actions : list Action) (h : Hook) :
  run uuid sessionName (a :: actions) h
  = run uuid sessionName actions (step uuid sessionName h a).
Proof. reflexivity. Qed.

(** X20.  The hook never holds two connections: at every point of every
    run from the initial hook, the event sources opened and not closed so
    far are exactly the one in [eventSourceRef], or none when the ref is
    empty. *)
Theorem one_connection_at_a_time (actions : list Action) :
  let h := run uuid sessionName actions initialHook in
  openSources (effects h)
  = match eventSourceRef h with
    | Some es => [es_handle es]
    | None => []
    end.
Proof.
  cbv zeta. change (connectionsTracked (run uuid sessionName actions initialHook)).
  assert (H0 : connectionsTracked initialHook) by done.
  revert H0. generalize initialHook.
  induction actions as [|a actions IH]; intros h Hh; [done|].
  rewrite run_cons. apply IH. by apply step_tracked.
Qed.

Lemma elem_of_requests (eff : Effect) (log : list Effect) :
  isRequest eff = true → eff ∈ log ↔ eff ∈ requests log.
Proof.
  intros Hreq. unfold requests. rewrite !list_elem_of_In, filter_In. tauto.
Qed.

Lemma connect_numbered (r : option string) (h : Hook) :
  sourcesNumbered h → sourcesNumbered (connect r h).
Proof.
  unfold sourcesNumbered, connect. intros Hnum es.
  destruct (eventSourceRef h); cbn.
  all: numbered Hnum.
Qed.

Lemma step_numbered (h : Hook) (a : Action) :
  sourcesNumbered h → sourcesNumbered (step uuid sessionName h a).
Proof.
  intros Hnum. destruct a; cbn [step]; try done.
  - by apply connect_numbered.
  - revert Hnum. unfold sourcesNumbered, disconnect.
    destruct (reconnectTimeoutRef h); cbn; destruct (eventSourceRef h); cbn; intros Hnum es.
    all: numbered Hnum.
  - revert Hnum. unfold sourcesNumbered, onopen. cbn. intros Hnum es.
    numbered Hnum.
  - destruct data as [e|]; cbn; [|done].
    intros es. rewrite (elem_of_requests (NewEventSource es) _ eq_refl),
      processEvent_requests, <- (elem_of_requests (NewEventSource es) _ eq_refl).
    destruct (reduce_channel e (emit (OnEvent (ev_type e)) h)) as (_ & _ & _ & _ & Hcount & _).
    unfold processEvent. rewrite Hcount. apply Hnum.
  - revert Hnum. unfold sourcesNumbered, onerror. cbn.
    repeat case_inner; cbn; intros Hnum es.
    all: numbered Hnum.
  - unfold onTimeout. destruct (mountedRef h); [by apply connect_numbered|done].
  - revert Hnum. unfold sourcesNumbered, sendMessage, optimisticInsert, randomUUID.
    cbn. intros Hnum es.
    numbered Hnum.
  - destruct r; cbn; try done.
    destruct (JS.truthyO runId0); cbn.
    + destruct (eventSourceRef h) eqn:Hes; [done|]. by apply connect_numbered.
    + destruct (eventSourceRef h) eqn:Hes; [done|]. by apply connect_numbered.
  - revert Hnum. unfold sourcesNumbered, interrupt.
    destruct (JS.truthyO _); cbn; intros Hnum es.
    all: numbered Hnum.
  - destruct ok; done.
Qed.

Lemma run_numbered (actions : list Action) (h : Hook) :
  sourcesNumbered h → sourcesNumbered (run uuid sessionName actions h).
Proof.
  revert h. induction actions as [|a actions IH]; intros h Hh; [done|].
  rewrite run_cons. apply IH. by apply step_numbered.
Qed.

Lemma onerror_other (es : EventSource) (h : Hook) :
  es_handle <$> eventSourceRef h ≠ Some (es_handle es) →
  onerror es h = emit (CloseEventSource (es_handle es)) h.
Proof.
  intros Hother. unfold onerror. cbn. by rewrite bool_decide_eq_false_2.
Qed.

(** X21.  An error of a superseded event source is ignored.  Take any event
    source the hook has created in a run from the initial hook.  Once the
    hook has reconnected, or has disconnected, an error of that source only
    closes the source again: the state, the refs and the reconnect counter
    stay as they are and no reconnect is scheduled. *)
Theorem stale_error_is_ignored (actions : list Action) (old : EventSource)
    (r : option string) :
  let h := run uuid sessionName actions initialHook in
  NewEventSource old ∈ effects h →
  onerror old (connect r h) = emit (CloseEventSource (es_handle old)) (connect r h)
  ∧ onerror old (disconnect h) = emit (CloseEventSource (es_handle old)) (disconnect h).
Proof.
  cbv zeta. intros Hold.
  assert (Hnum : sourcesNumbered (run uuid sessionName actions initialHook)).
  { apply run_numbered. intros es Hes. cbn in Hes. by apply elem_of_nil in Hes. }
  specialize (Hnum old Hold). set (h := run uuid sessionName actions initialHook) in *.
  split; apply onerror_other.
  - unfold connect. destruct (eventSourceRef h); cbn; intros [=]; lia.
  - unfold disconnect. destruct (reconnectTimeoutRef h); cbn;
      destruct (eventSourceRef h) eqn:Hes; cbn; rewrite ?Hes; done.
Qed.

(** X22.  The reconnect delay of every attempt lies between one second and
    thirty seconds, never shrinks from one attempt to the next, and is
    thirty seconds from the sixth attempt on. *)
Theorem reconnect_delay_bounds (n : nat) :
  (1 ≤ n)%nat →
  (1000 ≤ reconnectDelay n ≤ 30000)%Z
  ∧ (reconnectDelay n ≤ reconnectDelay (S n))%Z
  ∧ ((6 ≤ n)%nat → reconnectDelay n = 30000%Z).
Proof.
  intros Hn. unfold reconnectDelay, BASE_RECONNECT_DELAY, MAX_RECONNECT_DELAY.
  assert (Hpow : (1 ≤ 2 ^ (Z.of_nat n - 1))%Z).
  { change 1%Z with (2 ^ 0)%Z at 1. apply Z.pow_le_mono_r; lia. }
  assert (Hmono : (2 ^ (Z.of_nat n - 1) ≤ 2 ^ (Z.of_nat (S n) - 1))%Z).
  { apply Z.pow_le_mono_r; lia. }
  split; [lia|]. split; [lia|].
  intros H6.
  assert (Hbig : (2 ^ 5 ≤ 2 ^ (Z.of_nat n - 1))%Z).
  { apply Z.pow_le_mono_r; lia. }
  change (2 ^ 5)%Z with 32%Z in Hbig. lia.
Qed.

(** *** After unmount *)

Lemma openedSources_app (l1 l2 : list Effect) :
  openedSources (l1 ++ l2) = openedSources l1 ++ openedSources l2.
Proof. apply omap_app. Qed.

Lemma openedSources_requests (log : list Effect) :
  openedSources log = openedSources (requests log).
Proof.
  unfold requests, openedSources. induction log as [|eff log IH]; [done|].
  destruct eff; cbn; rewrite <- ?IH; done.
Qed.

Lemma step_unmounted_sources (h : Hook) (a : Action) :
  mountedRef h = false → ¬ asksToConnect a →
  openedSources (effects (step uuid sessionName h a)) = openedSources (effects h).
Proof.
  intros Hm Ha. destruct a; cbn [step]; try done.
  - unfold disconnect. repeat case_inner; cbn;
      rewrite ?openedSources_app; cbn; rewrite ?app_nil_r; done.
  - unfold onopen. cbn. rewrite ?openedSources_app; cbn; rewrite ?app_nil_r; done.
  - destruct data as [e|]; cbn; [|done].
    rewrite (openedSources_requests (effects (processEvent uuid e h))).
    by rewrite processEvent_requests, <- openedSources_requests.
  - unfold onerror. cbn. rewrite Hm.
    repeat case_inner; cbn; rewrite ?openedSources_app; cbn; rewrite ?app_nil_r; done.
  - unfold onTimeout. by rewrite Hm.
  - unfold sendMessage, optimisticInsert, randomUUID. cbn.
    rewrite ?openedSources_app; cbn; rewrite ?app_nil_r; done.
  - destruct r; cbn; done.
  - unfold interrupt. repeat case_inner; cbn;
      rewrite ?openedSources_app; cbn; rewrite ?app_nil_r; done.
  - unfold interruptSettled. by destruct ok.
Qed.

(** X19.  After the component is unmounted the hook schedules no reconnect.
    Whatever happens next short of a new mount (late transport errors,
    timers that fire, events, calls of the hook's functions), the mounted
    flag stays off, no timer is set, and a reconnect timer that fires does
    nothing at all; and unless the caller asks for a connection (a call of
    [connect], or a [sendMessage] whose request succeeds) no event source is
    opened.  The caller still can: [sendMessage] does not look at the
    mounted flag, so a send that settles successfully while no event source
    is held opens one, unmounted or not. *)
Theorem no_reconnect_timer_after_unmount (actions : list Action) (h : Hook) :
  mountedRef h = false →
  Forall notMount actions →
  let h' := run uuid sessionName actions h in
  mountedRef h' = false
  ∧ delaysSince h h' = []
  ∧ (∀ tm, step uuid sessionName h' (TimerFired tm) = h')
  ∧ (Forall (λ a, ¬ asksToConnect a) actions →
     openedSources (effects h') = openedSources (effects h))
  ∧ (∀ r, eventSourceRef h' = None →
       let settled := step uuid sessionName h' (SendMessageSettled (RunOk r)) in
       mountedRef settled = false
       ∧ openedSources (effects settled)
         = openedSources (effects h')
           ++ [{| es_handle := handleCount h'; es_runId := None |}]).
Proof.
  cbv zeta. intros Hm Hall.
  assert (Hrun : mountedRef (run uuid sessionName actions h) = false
                 ∧ scheduledDelays (effects (run uuid sessionName actions h))
                   = scheduledDelays (effects h)
                 ∧ (Forall (λ a, ¬ asksToConnect a) actions →
                    openedSources (effects (run uuid sessionName actions h))
                    = openedSources (effects h))).
  { revert h Hm. induction Hall as [|a actions Ha _ IH]; intros h Hm; [done|].
    destruct (step_unmounted h a Hm Ha) as [Hm' Hd'].
    destruct (IH _ Hm') as (IHm & IHd & IHs).
    rewrite run_cons.
    split; [done|]. split; [by rewrite IHd|].
    intros Hquiet. apply Forall_cons in Hquiet as [Hqa Hquiet].
    rewrite (IHs Hquiet). by apply step_unmounted_sources. }
  destruct Hrun as (Hm' & Hd & Hs). split; [done|]. split; [|split; [|split]].
  - unfold delaysSince. rewrite Hd. apply drop_all.
  - intros tm. cbn [step]. unfold onTimeout. by rewrite Hm'.
  - exact Hs.
  - intros r Hnone. cbn [step]. unfold sendMessageSettled, connect.
    destruct (JS.truthyO r); cbn; rewrite Hnone; cbn; rewrite Hm';
      rewrite ?openedSources_app; cbn; rewrite ?app_nil_r; done.
Qed.

(** *** The run controller *)

(** Only the events of the run lifecycle touch the active run. *)
Lemma reduce_run_frame (e : PlatformEvent) (h : Hook) :
  ¬ runLifecycle e →
  isRunActive (reduce uuid e h) = isRunActive h
  ∧ currentRunIdRef (reduce uuid e h) = currentRunIdRef h.
Proof.
  intros Hnot. unfold reduce.
  case_bool_decide as H1; [destruct Hnot; by left|].
  case_bool_decide as H2; [destruct Hnot; right; by left|].
  case_bool_decide as H3; [destruct Hnot; right; by right|].
  clear Hnot H1 H2 H3.
  repeat case_inner; try done.
  all: unfold_handlers.
  all: cbn [hk_state setState set_hk_state].
  all: repeat case_inner.
  all: done.
Qed.

Lemma processEvents_run_frame (es : list PlatformEvent) (h : Hook) :
  Forall (λ e, ¬ runLifecycle e) es →
  isRunActive (processEvents uuid es h) = isRunActive h
  ∧ currentRunIdRef (processEvents uuid es h) = currentRunIdRef h.
Proof.
  intros Hall. revert h. induction Hall as [|e es He _ IH]; intros h; [done|].
  rewrite processEvents_cons. destruct (IH (processEvent uuid e h)) as [-> ->].
  unfold processEvent.
  by destruct (reduce_run_frame e (emit (OnEvent (ev_type e)) h) He) as [-> ->].
Qed.

Lemma processEvent_run_started (e : PlatformEvent) (h : Hook) :
  ev_type e = EventType.RUN_STARTED →
  processEvent uuid e h = onRunStarted e (emit (OnEvent (ev_type e)) h).
Proof. intros Hty. unfold processEvent, reduce. rewrite Hty. reflexivity. Qed.

Lemma processEvent_run_error (e : PlatformEvent) (h : Hook) :
  ev_type e = EventType.RUN_ERROR →
  processEvent uuid e h = onRunError e (emit (OnEvent (ev_type e)) h).
Proof. intros Hty. unfold processEvent, reduce. rewrite Hty. reflexivity. Qed.

Lemma onRunFinished_run (e : PlatformEvent) (h : Hook) :
  let h' := onRunFinished uuid e h in
  if bool_decide (currentRunIdRef h = Some (ev_runId e))
  then isRunActive h' = false ∧ currentRunIdRef h' = None
  else isRunActive h' = isRunActive h ∧ currentRunIdRef h' = currentRunIdRef h.
Proof.
  cbv zeta. unfold onRunFinished, randomUUID. proj_simpl.
  case_bool_decide; proj_simpl; repeat (case_inner; proj_simpl); done.
Qed.

Lemma interrupt_active (r : string) (h : Hook) :
  currentRunIdRef h = Some r → r ≠ EmptyString →
  interrupt h = emit (FetchInterrupt r) h.
Proof.
  intros Hr Hne. unfold interrupt. rewrite Hr. cbn [JS.truthyO default from_option id].
  by rewrite (truthy_true _ Hne).
Qed.

Lemma interrupt_idle (h : Hook) :
  currentRunIdRef h = None →
  requests (effects (interrupt h)) = requests (effects h).
Proof.
  intros Hr. unfold interrupt. rewrite Hr. cbn. rewrite requests_app. cbn.
  by rewrite app_nil_r.
Qed.

(** X23.  [interrupt] targets the run that the last RUN_STARTED announced.
    After RUN_STARTED with a non-empty run id, and any events outside the
    run lifecycle, the run is active and [interrupt] requests the interrupt
    of that run.  RUN_FINISHED of that run, RUN_ERROR of any run, or an
    interrupt that the server accepted end it: the run is inactive and
    [interrupt] sends no request.  RUN_FINISHED of another run changes
    nothing: the run stays active and [interrupt] still targets it. *)
Theorem interrupt_targets_the_active_run (started : PlatformEvent)
    (es : list PlatformEvent) (h : Hook) :
  ev_type started = EventType.RUN_STARTED →
  ev_runId started ≠ EmptyString →
  Forall (λ e, ¬ runLifecycle e) es →
  let h1 := processEvents uuid (started :: es) h in
  let idle h2 :=
    isRunActive h2 = false
    ∧ requests (effects (interrupt h2)) = requests (effects h2) in
  let active h2 :=
    isRunActive h2 = true
    ∧ interrupt h2 = emit (FetchInterrupt (ev_runId started)) h2 in
  active h1
  ∧ (∀ e, ev_type e = EventType.RUN_FINISHED →
       if bool_decide (ev_runId e = ev_runId started)
       then idle (processEvent uuid e h1)
       else active (processEvent uuid e h1))
  ∧ (∀ e, ev_type e = EventType.RUN_ERROR → idle (processEvent uuid e h1))
  ∧ idle (interruptSettled true h1)
  ∧ active (interruptSettled false h1).
Proof.
  cbv zeta. intros Hty Hne Hall.
  rewrite processEvents_cons.
  destruct (processEvents_run_frame es (processEvent uuid started h) Hall) as [Hact Hrun].
  rewrite (processEvent_run_started started h Hty) in Hact at 2.
  rewrite (processEvent_run_started started h Hty) in Hrun at 2.
  cbn in Hact, Hrun.
  set (h1 := processEvents uuid es (processEvent uuid started h)) in *.
  split; [|split; [|split; [|split]]].
  - split; [done|]. by apply interrupt_active.
  - intros e He. rewrite processEvent_run_finished by done.
    pose proof (onRunFinished_run e (emit (OnEvent (ev_type e)) h1)) as Hfin.
    cbv zeta in Hfin. proj_simpl in Hfin. rewrite Hrun, Hact in Hfin.
    destruct (decide (ev_runId e = ev_runId started)) as [Hsame|Hsame].
    + rewrite (bool_decide_eq_true_2 _ Hsame).
      rewrite bool_decide_eq_true_2 in Hfin by congruence.
      destruct Hfin as [Hf1 Hf2]. split; [done|]. by apply interrupt_idle.
    + rewrite (bool_decide_eq_false_2 _ Hsame).
      rewrite bool_decide_eq_false_2 in Hfin by congruence.
      destruct Hfin as [Hf1 Hf2]. split; [done|]. apply interrupt_active; [|done].
      by rewrite Hf2.
  - intros e He. rewrite processEvent_run_error by done.
    split; [done|]. by apply interrupt_idle.
  - split; [done|]. by apply interrupt_idle.
  - split; [done|]. by apply interrupt_active.
Qed.

(** X24.  What a send leaves behind.  The message is shown at once, at the
    end of the list, and it stays there whatever the server answers, also
    when the request fails.  When the request succeeds, the hook opens a
    connection exactly when it holds none; when it fails, the hook opens
    none, reports the error in the state and touches no connection. *)
Theorem send_keeps_the_message_and_connects_once (content now : string)
    (r : RunResponse) (h : Hook) :
  let h1 := sendMessage uuid sessionName content now h in
  let h2 := sendMessageSettled r h1 in
  let sent := msg_set_timestamp (Some now)
                (mkMessage (uuid (uuidCount h)) "user" (Some content)) in
  messages (hk_state h2) = messages (hk_state h) ++ [sent]
  ∧ match r with
    | RunOk result =>
        match eventSourceRef h with
        | Some es =>
            eventSourceRef h2 = Some es
            ∧ requests (effects h2) = requests (effects h1)
        | None =>
            let es := {| es_handle := handleCount h; es_runId := None |} in
            eventSourceRef h2 = Some es
            ∧ requests (effects h2) = requests (effects h1) ++ [NewEventSource es]
        end
    | RunNotOk errorText =>
        eventSourceRef h2 = eventSourceRef h
        ∧ requests (effects h2) = requests (effects h1)
        ∧ status (hk_state h2) = error_status
        ∧ error (hk_state h2) = Some ("Failed to send message: " +:+ errorText)
        ∧ isRunActive h2 = false
    | RunFailed message =>
        eventSourceRef h2 = eventSourceRef h
        ∧ requests (effects h2) = requests (effects h1)
        ∧ status (hk_state h2) = error_status
        ∧ error (hk_state h2) = Some message
    end.
Proof.
  cbv zeta. unfold sendMessage, optimisticInsert, randomUUID. proj_simpl.
  destruct r as [result| |]; cbn [sendMessageSettled].
  - destruct (JS.truthyO result); proj_simpl.
    all: destruct (eventSourceRef h) as [es|] eqn:Hes; proj_simpl.
    all: unfold connect; proj_simpl; rewrite ?Hes; proj_simpl.
    all: rewrite ?requests_app; cbn; rewrite ?app_nil_r; done.
  - proj_simpl. done.
  - proj_simpl. done.
Qed.

(** *** Echoes of user messages *)

Lemma some_id_true (mid : string) (l : list PlatformMessage) :
  mid ∈ idsOf l → JS.some (λ m, bool_decide (msg_id m = mid)) l = true.
Proof.
  intros Hin. apply list_elem_of_fmap in Hin as (m & -> & Hm).
  apply some_true. exists m. split; [done|]. by apply bool_decide_eq_true_2.
Qed.

Lemma some_id_false (mid : string) (l : list PlatformMessage) :
  mid ∉ idsOf l → JS.some (λ m, bool_decide (msg_id m = mid)) l = false.
Proof.
  intros Hnot. apply some_false. intros m Hm. apply bool_decide_eq_false_2.
  intros Hid. apply Hnot. apply list_elem_of_fmap. by exists m.
Qed.

Lemma echo_step (mid content : string) (e : PlatformEvent) (h : Hook) :
  userEcho mid content e → mid ≠ EmptyString → content ≠ EmptyString →
  let h1 := processEvent uuid e h in
  let msg := msg_set_timestamp (Some (timestampString e))
               (mkMessage mid "user" (Some content)) in
  hiddenMessageIdsRef h1 = hiddenMessageIdsRef h
  ∧ (mid ∈ idsOf (messages (hk_state h)) ∨ mid ∈ hiddenMessageIdsRef h →
     hk_state h1 = hk_state h)
  ∧ ((mid ∉ idsOf (messages (hk_state h))) ∧ (mid ∉ hiddenMessageIdsRef h) →
     hk_state h1 = set_messages (messages (hk_state h) ++ [msg]) (hk_state h)
     ∧ last (effects h1) = Some (OnMessage msg)).
Proof.
  cbv zeta. intros (Hty & rawData & Hraw & Htype & Hrole & Hcontent & Hid) Hmid Htext.
  rewrite processEvent_raw by done. unfold onRaw. rewrite Hraw, Htype, Hrole, Hcontent, Hid.
  rewrite !(bool_decide_eq_false_2 (None = Some _)) by done.
  rewrite bool_decide_eq_true_2 by done.
  cbn [andb JS.truthyO default from_option id].
  rewrite (truthy_true _ Htext), (truthy_true _ Hmid). proj_simpl.
  destruct (decide (mid ∈ idsOf (messages (hk_state h)))) as [Hknown|Hnew].
  - rewrite (some_id_true _ _ Hknown). cbn [negb andb]. proj_simpl.
    split; [done|]. split; [done|]. by intros [? _].
  - rewrite (some_id_false _ _ Hnew). cbn [negb andb].
    destruct (decide (mid ∈ hiddenMessageIdsRef h)) as [Hhid|Hvis].
    + rewrite (bool_decide_eq_true_2 _ Hhid). cbn [negb]. proj_simpl.
      split; [done|]. split; [done|]. by intros [_ ?].
    + rewrite (bool_decide_eq_false_2 _ Hvis). cbn [negb]. proj_simpl.
      split; [done|]. split; [by intros [?|?]|]. intros _.
      split; [done|]. by rewrite last_snoc.
Qed.

(** X25.  A user message that the backend echoes is shown once.  An echo
    under an id that is unknown and not hidden appends the message at the
    end and reports it; an echo under a known or hidden id changes nothing
    in the state.  So a second delivery of the same echo changes nothing,
    and neither does the echo of a message that [sendMessage] has just
    shown under the id it generated. *)
Theorem user_echo_is_added_once (mid content : string) (e : PlatformEvent) (h : Hook) :
  userEcho mid content e → mid ≠ EmptyString → content ≠ EmptyString →
  let h1 := processEvent uuid e h in
  let msg := msg_set_timestamp (Some (timestampString e))
               (mkMessage mid "user" (Some content)) in
  (mid ∈ idsOf (messages (hk_state h)) ∨ mid ∈ hiddenMessageIdsRef h →
   hk_state h1 = hk_state h)
  ∧ ((mid ∉ idsOf (messages (hk_state h))) ∧ (mid ∉ hiddenMessageIdsRef h) →
     messages (hk_state h1) = messages (hk_state h) ++ [msg]
     ∧ last (effects h1) = Some (OnMessage msg))
  ∧ hk_state (processEvent uuid e h1) = hk_state h1
  ∧ (∀ text now,
       mid = uuid (uuidCount h) →
       let sent := sendMessage uuid sessionName text now h in
       hk_state (processEvent uuid e sent) = hk_state sent).
Proof.
  cbv zeta. intros Hecho Hmid Htext.
  destruct (echo_step mid content e h Hecho Hmid Htext) as (Hhid & Hsame & Hnew).
  cbv zeta in Hhid, Hsame, Hnew.
  split; [done|]. split; [|split].
  - intros Hfresh. destruct (Hnew Hfresh) as [-> ->]. done.
  - destruct (echo_step mid content e (processEvent uuid e h) Hecho Hmid Htext)
      as (_ & Hsame1 & _).
    cbv zeta in Hsame1. apply Hsame1.
    destruct (decide (mid ∈ idsOf (messages (hk_state h)))) as [Hknown|Hunknown].
    { left. rewrite Hsame; [done|by left]. }
    destruct (decide (mid ∈ hiddenMessageIdsRef h)) as [Hhidden|Hvisible].
    { right. by rewrite Hhid. }
    left. destruct (Hnew (conj Hunknown Hvisible)) as [-> _]. proj_simpl.
    rewrite idsOf_app. apply elem_of_app. right. cbn. apply list_elem_of_here.
  - intros text now ->.
    destruct (echo_step (uuid (uuidCount h)) content e
                (sendMessage uuid sessionName text now h) Hecho Hmid Htext)
      as (_ & Hsame1 & _).
    cbv zeta in Hsame1. apply Hsame1. left.
    unfold sendMessage, optimisticInsert, randomUUID. proj_simpl.
    rewrite idsOf_app. apply elem_of_app. right. cbn. apply list_elem_of_here.
Qed.
End Properties.

(** * Worked examples

    The theorems above at concrete inputs, and the inputs at which the
    specification and the hook part ways.  Every state below is reached
    from [initialHook] by events. *)

(** ** Duplicate tool-end events *)

(** C1.  A tool-end event delivered twice while its parent tool call is
    still pending: the first delivery buffers the child under the parent and
    commits nothing; the second finds the child neither among the pending
    tool calls nor on a committed message (the existence check does not look
    at the buffered children) and commits a second, nameless copy of it as a
    message of its own.  The state after two deliveries is not the state
    after one. *)
Theorem duplicate_tool_end_while_buffered :
  let once := processEvent Sample.uuid (Sample.toolEnd "C") Sample.parentAndChildStarted in
  let twice := processEvent Sample.uuid (Sample.toolEnd "C") once in
  messages (hk_state Sample.parentAndChildStarted) = []
  ∧ messages (hk_state once) = []
  ∧ pendingChildren (hk_state once)
    = [("P", [toolMessage "uuid-0" "C" None
                (completedToolCall "C" "Read" EmptyString (Some "P"))])]
  ∧ messages (hk_state twice)
    = [toolMessage "uuid-1" "C" (Some EmptyString)
         (completedToolCall "C" "unknown_tool" EmptyString None)]
  ∧ pendingChildren (hk_state twice) = pendingChildren (hk_state once)
  ∧ hk_state twice ≠ hk_state once.
Proof.
  cbv zeta. do 5 (split; [vm_compute; reflexivity|]).
  intros Heq. apply (f_equal (λ s, length (messages s))) in Heq.
  vm_compute in Heq. discriminate.
Qed.

(** X1 and X2 at concrete inputs: a streamed message that ends twice, and a
    tool call that ends twice after it was committed on message [m1]. *)
Lemma text_end_idempotent_witness :
  let e := Sample.textEnd "m2" in
  let h := processEvents Sample.uuid
    [Sample.textStart "m2"; Sample.textContent "m2" "hi there"] Sample.withAssistant in
  idsOf (messages (hk_state (processEvent Sample.uuid e h))) = ["m1"; "m2"]
  ∧ hk_state (processEvent Sample.uuid e (processEvent Sample.uuid e h))
    = hk_state (processEvent Sample.uuid e h).
Proof.
  cbv zeta. split; [vm_compute; reflexivity|].
  apply (text_end_idempotent Sample.uuid). reflexivity.
Defined.

Lemma tool_end_idempotent_when_committed_witness :
  let e := Sample.toolEnd "t1" in
  let h := processEvent Sample.uuid (Sample.toolStart "t1" "Read" None) Sample.withAssistant in
  (tc_id <$> committedToolCalls (hk_state (processEvent Sample.uuid e h))) = ["t1"]
  ∧ hk_state (processEvent Sample.uuid e (processEvent Sample.uuid e h))
    = hk_state (processEvent Sample.uuid e h).
Proof.
  cbv zeta. split; [vm_compute; reflexivity|].
  apply (tool_end_idempotent_when_committed Sample.uuid);
    [reflexivity|reflexivity|vm_compute; reflexivity].
Defined.

(** ** Tool status across snapshots *)

(** C2 as the specification states it does not hold: tool call [t1] is
    committed as completed, and a snapshot that lists it as pending, or
    lists it without a status, takes the completed status away. *)
Lemma snapshot_regresses_completed_status :
  let idAndStatus (tc : PlatformToolCall) := (tc_id tc, tc_status tc) in
  let after (status : option ToolStatus) :=
    processEvent Sample.uuid (Sample.snapshotWithStatus status) Sample.toolCompleted in
  idAndStatus <$> committedToolCalls (hk_state Sample.toolCompleted)
  = [("t1", Some StCompleted)]
  ∧ idAndStatus <$> committedToolCalls (hk_state (after (Some StPending)))
    = [("t1", Some StPending)]
  ∧ idAndStatus <$> committedToolCalls (hk_state (after None)) = [("t1", None)].
Proof. cbv zeta. do 2 (split; [vm_compute; reflexivity|]). vm_compute. reflexivity. Qed.

(** Where the persistence part of C2 (amended) stops: a snapshot whose
    version of [m1] has no tool calls replaces the message, and the tool
    call [t1] is gone with its status. *)
Example snapshot_without_tool_calls_drops_them :
  let after :=
    processEvent Sample.uuid
      (Sample.messagesSnapshot [Sample.assistantMessage "m1" "hi"]) Sample.toolCompleted in
  tc_id <$> committedToolCalls (hk_state Sample.toolCompleted) = ["t1"]
  ∧ idsOf (messages (hk_state after)) = ["m1"]
  ∧ committedToolCalls (hk_state after) = []
  ∧ settledState "t1" (hk_state after).
Proof.
  cbv zeta. do 3 (split; [vm_compute; reflexivity|]).
  split; intros tc Htc _; vm_compute in Htc; list_cases Htc.
Qed.

(** C2 (amended) at a concrete run: [t1] is completed, then gets its
    result, text streams, a snapshot lists [t1] without a status next to
    its tool-result message, and another tool call starts.  The snapshot's
    own tool call has no final status, the snapshot as the merge reads it
    has: [t1] ends completed, with the result of the snapshot. *)
Lemma tool_status_settled_is_kept_witness :
  let events :=
    [Sample.toolResult "t1" "done"; Sample.textStart "m2";
     Sample.snapshotWithResult; Sample.toolStart "t2" "Grep" None] in
  let summary (tc : PlatformToolCall) := (tc_id tc, tc_result tc, tc_status tc) in
  let merged := processEvent Sample.uuid Sample.snapshotWithResult Sample.toolCompleted in
  settledState "t1" (hk_state Sample.toolCompleted)
  ∧ snapshotsSettled Sample.uuid "t1" events Sample.toolCompleted
  ∧ ¬ settledIn "t1" (ev_messages Sample.snapshotWithResult ≫= toolCallsOf)
  ∧ settledState "t1" (hk_state (processEvents Sample.uuid events Sample.toolCompleted))
  ∧ summary <$> committedToolCalls
                  (hk_state (processEvents Sample.uuid events Sample.toolCompleted))
    = [("t1", Some "42 lines", Some StCompleted)]
  ∧ ∃ m' tc', m' ∈ messages (hk_state merged) ∧ msg_id m' = "m1"
              ∧ tc' ∈ toolCallsOf m' ∧ tc_id tc' = "t1"
              ∧ (tc_status tc' = Some StCompleted ∨ tc_status tc' = Some StError).
Proof.
  cbv zeta.
  assert (Hsettled : settledState "t1" (hk_state Sample.toolCompleted)).
  { split; intros tc Htc _; vm_compute in Htc; list_cases Htc. by left. }
  assert (Hread : settledIn "t1"
            (snapshotAsRead (hiddenMessageIdsRef Sample.toolCompleted)
               Sample.snapshotWithResult ≫= toolCallsOf)).
  { intros tc Htc _. vm_compute in Htc. list_cases Htc. by left. }
  assert (Hsnaps : snapshotsSettled Sample.uuid "t1"
            [Sample.toolResult "t1" "done"; Sample.textStart "m2";
             Sample.snapshotWithResult; Sample.toolStart "t2" "Grep" None]
            Sample.toolCompleted).
  { cbn [snapshotsSettled].
    split; [intros Hty; vm_compute in Hty; discriminate|].
    split; [intros Hty; vm_compute in Hty; discriminate|].
    split; [intros _ tc Htc _; vm_compute in Htc; list_cases Htc; by left|].
    split; [intros Hty; vm_compute in Hty; discriminate|done]. }
  destruct (tool_status_settled_is_kept Sample.uuid
              [Sample.toolResult "t1" "done"; Sample.textStart "m2";
               Sample.snapshotWithResult; Sample.toolStart "t2" "Grep" None]
              Sample.toolCompleted "t1" Hsettled) as (Hkept & _ & Hstays).
  split; [exact Hsettled|]. split; [exact Hsnaps|].
  split.
  { intros Hraw. destruct (Hraw (Sample.toolCall "t1" "Read" None)) as [H|H];
      [vm_compute; apply list_elem_of_here|reflexivity|discriminate H|discriminate H]. }
  split; [exact (Hkept Hsnaps)|].
  split; [vm_compute; reflexivity|].
  refine (Hstays Sample.snapshotWithResult
            (msg_set_toolCalls
               (Some [completedToolCall "t1" "Read" EmptyString None])
               (Sample.assistantMessage "m1" "hi"))
            (completedToolCall "t1" "Read" EmptyString None)
            eq_refl Hread _ eq_refl _ eq_refl _).
  - vm_compute. apply list_elem_of_here.
  - vm_compute. apply list_elem_of_here.
  - intros sv Hsv Hid. vm_compute in Hsv. list_cases Hsv. split; discriminate.
Defined.

(** ** The flush of buffered children *)

(** C3 as the specification states it does not hold in every state, nor
    for every tool-start of [P].  In the initial state there is no
    assistant message: the parent is committed as a message of its own and
    the child stays buffered.  The same happens in a state with an
    assistant message when the tool-start of [P] names a message that does
    not exist.  When [P] is itself the child of a committed tool call, it is
    nested under that one and its own child stays buffered.  In a state
    where [C] is already committed (here without a parent), its tool-end
    event is dropped and [C] is never nested under [P].  In a state where
    [P] is already committed, the tool-end event of [P] is dropped and [C]
    stays buffered.  In a state where [C] is already buffered under [P], it
    is buffered a second time and the flush nests it twice. *)
Lemma buffered_child_not_flushed :
  let events :=
    [Sample.toolStart "P" "Task" None; Sample.toolStart "C" "Read" (Some "P");
     Sample.toolEnd "C"; Sample.toolEnd "P"] in
  let eventsFrom (startP : PlatformEvent) :=
    [startP; Sample.toolStart "C" "Read" (Some "P");
     Sample.toolEnd "C"; Sample.toolEnd "P"] in
  let fresh := hk_state (processEvents Sample.uuid events initialHook) in
  let unknownMessage :=
    hk_state (processEvents Sample.uuid
      (eventsFrom (toolStartEvent None "P" "Task" (Some "a9") None)) Sample.withAssistant) in
  let grandchild :=
    hk_state (processEvents Sample.uuid
      (eventsFrom (Sample.toolStart "P" "Task" (Some "t1"))) Sample.toolCompleted) in
  let again :=
    hk_state (processEvents Sample.uuid events
      (processEvents Sample.uuid [Sample.toolStart "C" "Read" None; Sample.toolEnd "C"]
         Sample.withAssistant)) in
  let parentCommitted :=
    hk_state (processEvents Sample.uuid events
      (processEvents Sample.uuid [Sample.toolStart "P" "Task" None; Sample.toolEnd "P"]
         Sample.withAssistant)) in
  let childBuffered :=
    hk_state (processEvents Sample.uuid events
      (processEvents Sample.uuid
         [Sample.toolStart "P" "Task" None; Sample.toolStart "C" "Read" (Some "P");
          Sample.toolEnd "C"] Sample.withAssistant)) in
  let idAndParent (tc : PlatformToolCall) := (tc_id tc, tc_parentToolUseId tc) in
  idAndParent <$> committedToolCalls fresh = [("P", None)]
  ∧ idAndParent <$> bufferedToolCalls fresh = [("C", Some "P")]
  ∧ committedCount "C" fresh = 0
  ∧ idAndParent <$> committedToolCalls unknownMessage = [("P", None)]
  ∧ idAndParent <$> bufferedToolCalls unknownMessage = [("C", Some "P")]
  ∧ idAndParent <$> committedToolCalls grandchild = [("t1", None); ("P", Some "t1")]
  ∧ idAndParent <$> bufferedToolCalls grandchild = [("C", Some "P")]
  ∧ idAndParent <$> committedToolCalls again = [("C", None); ("P", None)]
  ∧ idAndParent <$> committedToolCalls parentCommitted = [("P", None)]
  ∧ idAndParent <$> bufferedToolCalls parentCommitted = [("C", Some "P")]
  ∧ idAndParent <$> committedToolCalls childBuffered
    = [("P", None); ("C", Some "P"); ("C", Some "P")]
  ∧ committedCount "C" childBuffered = 2.
Proof. cbv zeta. do 11 (split; [vm_compute; reflexivity|]). vm_compute. reflexivity. Qed.

(** C3 (amended) at a concrete state with the assistant messages [a1] and
    [a2], for a tool-start of [P] that names [a1]. *)
Lemma buffered_child_flush_witness :
  let s' := hk_state (processEvents Sample.uuid
    [toolStartEvent None "P" "Task" (Some "a1") None;
     toolStartEvent None "C" "Read" None (Some "P");
     toolEndEvent None "C";
     toolEndEvent None "P"] Sample.twoAssistants) in
  (λ m, (msg_id m, (λ tc, (tc_id tc, tc_parentToolUseId tc)) <$> toolCallsOf m))
    <$> messages s'
  = [("a1", [("P", None); ("C", Some "P")]); ("a2", [])]
  ∧ (∃ i m tcs tcP tcC,
       messages s' !! i = Some m ∧ msg_id m = "a1"
       ∧ msg_toolCalls m = Some tcs
       ∧ tcP ∈ tcs ∧ tc_id tcP = "P"
       ∧ tcC ∈ tcs ∧ tc_id tcC = "C" ∧ tc_parentToolUseId tcC = Some "P")
  ∧ committedCount "C" s' = 1
  ∧ JSMap.get "P" (pendingChildren s') = None
  ∧ (∀ tc, tc ∈ bufferedToolCalls s' → tc_id tc ≠ "C").
Proof.
  cbv zeta. split; [vm_compute; reflexivity|].
  pose proof (buffered_child_flush Sample.uuid Sample.twoAssistants None None None None
                "P" "C" "Task" "Read" (Some "a1") None) as Hflush.
  cbv zeta in Hflush.
  destruct Hflush as (Hnested & Hcount & Hgone & Hnone); try discriminate.
  - intros tc Htc. vm_compute in Htc. list_cases Htc.
  - intros tc Htc. vm_compute in Htc. list_cases Htc.
  - split; [reflexivity|]. intros pm [= <-] _. split; [reflexivity|].
    intros tc Htc. vm_compute in Htc. list_cases Htc.
  - exists (Sample.assistantMessage "a1" "one"). split; [|reflexivity].
    vm_compute. apply list_elem_of_here.
  - split; [|split; [exact Hcount|split; [exact Hgone|exact Hnone]]].
    destruct Hnested as (i & m & tcs & tcP & tcC & Hm & Haim & Hrest).
    exists i, m, tcs, tcP, tcC. split; [exact Hm|]. split; [|exact Hrest].
    vm_compute in Haim. by injection Haim.
Defined.

(** ** The place of new snapshot messages *)

(** C4 as the specification states it does not hold: the snapshot lists the
    new message [N] before the known messages [J] and [K]; the merge puts
    [N] right before [J], the next known message of the snapshot, so the
    known [J] ends up after the new [N] that precedes it in the snapshot. *)
Lemma known_message_after_new_message :
  let before := idsOf (messages (hk_state Sample.twoKnown)) in
  let after :=
    idsOf (messages (hk_state (processEvent Sample.uuid Sample.newBeforeKnown Sample.twoKnown))) in
  before = ["K"; "J"]
  ∧ idsOf (ev_messages Sample.newBeforeKnown) = ["N"; "J"; "K"]
  ∧ after = ["K"; "N"; "J"]
  ∧ positionedAfter "J" "N" after.
Proof.
  cbv zeta. do 3 (split; [vm_compute; reflexivity|]).
  unfold positionedAfter. vm_compute.
  apply sublist_cons, sublist_skip, sublist_skip, sublist_nil.
Qed.

(** C4 (amended) at the same input: [N] is new, [J] is the next known
    message of the snapshot. *)
Lemma snapshot_new_message_before_next_known_witness :
  let after :=
    idsOf (messages (hk_state (processEvent Sample.uuid Sample.newBeforeKnown Sample.twoKnown))) in
  ¬ positionedAfter "N" "J" after
  ∧ ("N" ∈ after → "J" ∈ after → positionedAfter "J" "N" after).
Proof.
  apply (snapshot_new_message_before_next_known Sample.uuid
           Sample.newBeforeKnown Sample.twoKnown
           [] [] [Sample.userMessage "K" "first"]
           (Sample.userMessage "N" "new") (Sample.assistantMessage "J" "second")).
  - reflexivity.
  - reflexivity.
  - vm_compute. repeat (constructor; [intros Hin; list_cases Hin; discriminate|]).
    constructor.
  - vm_compute. intros Hin. list_cases Hin; discriminate.
  - vm_compute. apply list_elem_of_further, list_elem_of_here.
  - intros m Hm. list_cases Hm.
  - discriminate.
  - vm_compute. discriminate.
  - reflexivity.
Defined.

(** ** Reconnects *)

(** C5 at a concrete run: three transport errors in a row on an open
    channel, then a successful open. *)
Lemma reconnect_backoff_sequence_witness :
  let h := Sample.channelOpen in
  let h' := run Sample.uuid Sample.sessionName Sample.threeErrors h in
  reconnectAttemptsRef h = 0
  ∧ Forall notOpened Sample.threeErrors
  ∧ delaysSince h h' = [1000; 2000; 4000]%Z
  ∧ reconnectAttemptsRef h' = 3
  ∧ reconnectAttemptsRef (step Sample.uuid Sample.sessionName h' (Opened (Sample.eventSource 6))) = 0.
Proof.
  cbv zeta.
  assert (Hzero : reconnectAttemptsRef Sample.channelOpen = 0) by reflexivity.
  assert (Herrors : Forall notOpened Sample.threeErrors)
    by (repeat (constructor; [exact I|]); constructor).
  pose proof (reconnect_backoff_sequence Sample.uuid Sample.sessionName
                Sample.channelOpen Sample.threeErrors Hzero Herrors) as Hseq.
  cbv zeta in Hseq. destruct Hseq as (_ & Hlen & Hthree & _ & Hreset & _).
  split; [exact Hzero|]. split; [exact Herrors|].
  split; [apply Hthree; vm_compute; reflexivity|].
  split; [rewrite <- Hlen; vm_compute; reflexivity|apply Hreset].
Defined.

(** ** The optimistic user message *)

(** C6 as the specification states it does not hold: the entry can be
    reordered relative to a reply that arrives later.  The message is sent
    after [m1]; the snapshot holds it with the content sent, lists the new
    assistant reply [a2] after it and the known [m1] last.  The merge puts
    a new message right before the next known message of the snapshot, here
    [m1], which stands before the entry: the reply that the snapshot lists
    after the entry ends up before it.  The entry itself is still there
    once, with the content sent. *)
Lemma snapshot_puts_reply_before_optimistic_message :
  let sent := sendMessage Sample.uuid Sample.sessionName "hello" "now" Sample.withAssistant in
  let snapshot := Sample.messagesSnapshot
    [Sample.userMessage "uuid-0" "hello"; Sample.assistantMessage "a2" "reply";
     Sample.assistantMessage "m1" "hi"] in
  let after := messages (hk_state (processEvent Sample.uuid snapshot sent)) in
  let idRoleContent (m : PlatformMessage) := (msg_id m, msg_role m, msg_content m) in
  idsOf (messages (hk_state sent)) = ["m1"; "uuid-0"]
  ∧ idsOf (ev_messages snapshot) = ["uuid-0"; "a2"; "m1"]
  ∧ idRoleContent <$> after
    = [("a2", "assistant", Some "reply"); ("m1", "assistant", Some "hi");
       ("uuid-0", "user", Some "hello")]
  ∧ positionedAfter "uuid-0" "a2" (idsOf after).
Proof.
  cbv zeta. do 3 (split; [vm_compute; reflexivity|]).
  unfold positionedAfter. vm_compute.
  apply sublist_skip, sublist_cons, sublist_skip, sublist_nil.
Qed.

(** C6 (amended) at a concrete run: the message is sent, an assistant
    reply streams in, and a snapshot lists all three messages and, between
    the message and the reply, the new reply [a3]. *)
Lemma optimistic_message_survives_snapshot_witness :
  let sent := sendMessage Sample.uuid Sample.sessionName "hello" "now" Sample.withAssistant in
  let later := processEvents Sample.uuid
    [Sample.textStart "m2"; Sample.textContent "m2" "hi there"; Sample.textEnd "m2"] sent in
  let snapshot := Sample.messagesSnapshot
    [Sample.assistantMessage "m1" "hi"; Sample.userMessage "uuid-0" "hello";
     Sample.assistantMessage "a3" "first"; Sample.assistantMessage "m2" "hi there"] in
  let after := messages (hk_state (processEvent Sample.uuid snapshot later)) in
  let isId (m : PlatformMessage) := bool_decide (msg_id m = "uuid-0") in
  idsOf (messages (hk_state sent)) = ["m1"; "uuid-0"]
  ∧ idsOf (messages (hk_state later)) = ["m1"; "uuid-0"; "m2"]
  ∧ idsOf after = ["m1"; "uuid-0"; "a3"; "m2"]
  ∧ (∃ m, List.filter isId after = [m]
          ∧ msg_role m = "user" ∧ msg_content m = Some "hello")
  ∧ idsOf (List.filter
             (λ m, bool_decide (msg_id m ∈ idsOf (messages (hk_state later)))) after)
    `sublist_of` idsOf (messages (hk_state later))
  ∧ positionedAfter "a3" "uuid-0" (idsOf after).
Proof.
  cbv zeta. do 3 (split; [vm_compute; reflexivity|]).
  pose proof (optimistic_message_survives_snapshot Sample.uuid Sample.sessionName
                "hello" "now" Sample.withAssistant) as Hsend.
  cbv zeta in Hsend. destruct Hsend as (_ & _ & _ & _ & _ & Hmerge).
  edestruct (Hmerge
    (processEvents Sample.uuid
       [Sample.textStart "m2"; Sample.textContent "m2" "hi there"; Sample.textEnd "m2"]
       (sendMessage Sample.uuid Sample.sessionName "hello" "now" Sample.withAssistant))
    (Sample.messagesSnapshot
       [Sample.assistantMessage "m1" "hi"; Sample.userMessage "uuid-0" "hello";
        Sample.assistantMessage "a3" "first"; Sample.assistantMessage "m2" "hi there"])
    (msg_set_timestamp (Some "now") (Sample.userMessage "uuid-0" "hello")))
    as (Hone & Hknown & Hreply).
  - vm_compute. reflexivity.
  - reflexivity.
  - reflexivity.
  - reflexivity.
  - intros m Hm Hid. vm_compute in Hm. list_cases Hm; try discriminate Hid. reflexivity.
  - split.
    { destruct Hone as (m & Hm & Hrole & Hcontent).
      exists m. split; [exact Hm|]. split; [exact Hrole|].
      apply Hcontent. intros sv Hsv Hid. vm_compute in Hsv.
      list_cases Hsv; try discriminate Hid. reflexivity. }
    split; [exact Hknown|].
    destruct (Hreply
      [Sample.assistantMessage "m1" "hi"; Sample.userMessage "uuid-0" "hello"]
      [Sample.assistantMessage "m2" "hi there"]
      (Sample.assistantMessage "a3" "first")) as [_ Hafter].
    + reflexivity.
    + vm_compute. repeat (constructor; [intros Hin; list_cases Hin; discriminate|]).
      constructor.
    + vm_compute. apply list_elem_of_further, list_elem_of_here.
    + vm_compute. intros Hin. list_cases Hin; discriminate.
    + intros m Hm _. list_cases Hm. unfold positionedAfter. vm_compute.
      apply (sublist_pair_fresh "uuid-0" "m2" ["m1"] ["m2"]).
      * discriminate.
      * intros Hin. list_cases Hin; discriminate.
      * intros Hin. list_cases Hin; discriminate.
      * intros Hin. list_cases Hin; discriminate.
    + apply Hafter. vm_compute.
      apply list_elem_of_further, list_elem_of_further, list_elem_of_here.
Defined.

(** ** Tool results, unknown events, empty text, hidden messages *)

(** C7 at a concrete input: the result of the committed tool call [t1],
    read back from the state. *)
Lemma tool_result_resolution_witness :
  let e := Sample.toolResult "t1" "42 lines" in
  let s := hk_state Sample.toolCompleted in
  let s' := hk_state (processEvent Sample.uuid e Sample.toolCompleted) in
  let idResultStatus (tc : PlatformToolCall) := (tc_id tc, tc_result tc, tc_status tc) in
  ev_type e = EventType.TOOL_CALL_RESULT
  ∧ idResultStatus <$> committedToolCalls s = [("t1", None, Some StCompleted)]
  ∧ idResultStatus <$> committedToolCalls s' = [("t1", Some "42 lines", Some StCompleted)]
  ∧ ∃ i m' tcs' j tc',
      messages s' !! i = Some m' ∧ msg_toolCalls m' = Some tcs'
      ∧ tcs' !! j = Some tc'
      ∧ tc_id tc' = "t1" ∧ tc_result tc' = Some "42 lines"
      ∧ tc_status tc' = Some StCompleted.
Proof.
  cbv zeta. split; [reflexivity|].
  split; [vm_compute; reflexivity|]. split; [vm_compute; reflexivity|].
  pose proof (tool_result_resolution Sample.uuid (Sample.toolResult "t1" "42 lines")
                Sample.toolCompleted eq_refl) as Hresult.
  cbv zeta in Hresult. destruct Hresult as (Hcommitted & _).
  destruct Hcommitted
    as (i & m & tcs & j & tc & _ & _ & _ & Hid & _ & _ & _ & Hread & _).
  { exists (completedToolCall "t1" "Read" EmptyString None). split; [|reflexivity].
    vm_compute. apply list_elem_of_here. }
  destruct Hread as (m' & tcs' & tc' & Hm' & Htcs' & Htc' & Hattached & _).
  destruct Hattached as (Hres & Hst & Hsame & _).
  exists i, m', tcs', j, tc'.
  split; [exact Hm'|]. split; [exact Htcs'|]. split; [exact Htc'|].
  split; [|split; [exact Hres|exact Hst]].
  rewrite Hsame. by injection Hid.
Defined.

(** C8 at a concrete input: an event type no branch handles. *)
Lemma unknown_event_is_noop_witness :
  let e := Sample.event "FUTURE_EVENT" BNone in
  let h' := processEvent Sample.uuid e Sample.toolCompleted in
  (ev_type e ∉ handledTypes)
  ∧ hk_state h' = hk_state Sample.toolCompleted
  ∧ h' = emit (OnEvent "FUTURE_EVENT") Sample.toolCompleted.
Proof.
  cbv zeta.
  assert (Hunknown : ev_type (Sample.event "FUTURE_EVENT" BNone) ∉ handledTypes).
  { intros Hin. unfold handledTypes in Hin. list_cases Hin; discriminate. }
  split; [exact Hunknown|].
  pose proof (unknown_event_is_noop Sample.uuid _ Sample.toolCompleted Hunknown) as Hnoop.
  cbv zeta in Hnoop. split; [apply Hnoop|].
  apply Hnoop.
Defined.

(** C9 at a concrete input: a message that started and streamed no text. *)
Lemma text_end_without_content_witness :
  let streaming := processEvent Sample.uuid (Sample.textStart "m2") Sample.withAssistant in
  let h' := processEvent Sample.uuid (Sample.textEnd "m2") streaming in
  (cm_content <$> currentMessage (hk_state streaming)) = Some EmptyString
  ∧ messages (hk_state h') = messages (hk_state streaming)
  ∧ currentMessage (hk_state h') = None.
Proof.
  cbv zeta. split; [vm_compute; reflexivity|].
  pose proof (text_end_without_content Sample.uuid (Sample.textEnd "m2")
                (processEvent Sample.uuid (Sample.textStart "m2") Sample.withAssistant)
                eq_refl) as Hend.
  cbv zeta in Hend. split; apply Hend; vm_compute; reflexivity.
Defined.

(** C10 at a concrete input: the snapshot lists a hidden message and a
    visible one. *)
Lemma hidden_messages_never_enter_witness :
  let e := Sample.messagesSnapshot
    [Sample.userMessage "secret" "system prompt"; Sample.userMessage "u1" "hello"] in
  let h' := processEvent Sample.uuid e Sample.withHidden in
  "secret" ∈ hiddenMessageIdsRef Sample.withHidden
  ∧ messages (hk_state h')
    = mergeSnapshot (hiddenMessageIdsRef Sample.withHidden)
        (messages (hk_state Sample.withHidden))
        (pendingToolCalls (hk_state Sample.withHidden))
        [Sample.userMessage "u1" "hello"]
  ∧ idsOf (messages (hk_state h')) = ["m1"; "u1"].
Proof.
  cbv zeta. split; [apply (bool_decide_unpack _); vm_compute; exact I|].
  pose proof (hidden_messages_never_enter Sample.uuid
                (Sample.messagesSnapshot
                   [Sample.userMessage "secret" "system prompt";
                    Sample.userMessage "u1" "hello"])
                Sample.withHidden eq_refl) as Hhidden.
  cbv zeta in Hhidden. destruct Hhidden as (_ & Hmerge & _).
  split; [|vm_compute; reflexivity].
  rewrite Hmerge. f_equal.
Defined.

(** ** The remaining branches at concrete inputs *)

(** X5 at a concrete run: a message streams in and a tool call runs after
    the snapshot that brought [m1]. *)
Lemma messages_are_append_only_witness :
  let es := Sample.textStart "m2" :: Sample.twoChunks "m2"
            ++ [Sample.textEnd "m2"; Sample.toolStart "t1" "Read" None; Sample.toolEnd "t1"] in
  let h' := processEvents Sample.uuid es Sample.withAssistant in
  idsOf (messages (hk_state h')) = ["m1"; "m2"]
  ∧ idsOf (messages (hk_state Sample.withAssistant)) `prefix_of` idsOf (messages (hk_state h')).
Proof.
  cbv zeta. split; [vm_compute; reflexivity|].
  apply (messages_are_append_only Sample.uuid).
  repeat (constructor; [intros [H|H]; discriminate H|]). constructor.
Defined.

(** X6 at a concrete run: the message [m2] streams in two chunks. *)
Lemma streamed_text_is_committed_witness :
  let h' := processEvents Sample.uuid
    (Sample.textStart "m2" :: Sample.twoChunks "m2" ++ [Sample.textEnd "m2"])
    Sample.withAssistant in
  let msg := msg_set_timestamp (Some EmptyString)
               (mkMessage "m2" "assistant" (Some "hi there")) in
  messages (hk_state h') = messages (hk_state Sample.withAssistant) ++ [msg]
  ∧ currentMessage (hk_state h') = None
  ∧ last (effects h') = Some (OnMessage msg)
  ∧ uuidCount h' = uuidCount Sample.withAssistant
  ∧ msg_timestamp msg = Some EmptyString.
Proof.
  apply (streamed_text_is_committed Sample.uuid
           (Sample.textStart "m2") (Sample.textEnd "m2") (Sample.twoChunks "m2")
           Sample.withAssistant).
  - reflexivity.
  - repeat (constructor; [reflexivity|]). constructor.
  - reflexivity.
  - discriminate.
  - vm_compute. discriminate.
  - vm_compute. discriminate.
  - vm_compute. intros Hin. list_cases Hin; discriminate.
Defined.

(** X7 at a concrete run: text streams under the id of the known message
    [m1]. *)
Lemma streamed_text_updates_known_message_witness :
  let h' := processEvents Sample.uuid
    (Sample.textStart "m1" :: Sample.twoChunks "m1" ++ [Sample.textEnd "m1"])
    Sample.withAssistant in
  (msg_content <$> messages (hk_state h')) = [Some "hi there"]
  ∧ idsOf (messages (hk_state h')) = idsOf (messages (hk_state Sample.withAssistant))
  ∧ currentMessage (hk_state h') = None.
Proof.
  cbv zeta. split; [vm_compute; reflexivity|].
  apply (streamed_text_updates_known_message Sample.uuid
           (Sample.textStart "m1") (Sample.textEnd "m1") (Sample.twoChunks "m1")
           Sample.withAssistant).
  - reflexivity.
  - repeat (constructor; [reflexivity|]). constructor.
  - reflexivity.
  - discriminate.
  - vm_compute. discriminate.
  - vm_compute. discriminate.
  - vm_compute. apply list_elem_of_here.
Defined.

(** X8 at a concrete run: the message [m2] is hidden before, or after, it
    streams to its text-end; and the same hidden stream cut short by
    RUN_FINISHED. *)
Lemma hidden_stream_is_dropped_at_text_end_witness :
  let hide := Sample.hideMessage "m2" in
  let start := Sample.textStart "m2" in
  let stop := Sample.textEnd "m2" in
  let finish := Sample.runFinished "thread-1" "run-1" in
  let chunks := Sample.twoChunks "m2" in
  let hiddenFirst :=
    processEvents Sample.uuid (hide :: start :: chunks ++ [stop]) Sample.withAssistant in
  let streamedFirst :=
    processEvents Sample.uuid (start :: chunks ++ [stop; hide]) Sample.withAssistant in
  let flushed :=
    processEvents Sample.uuid (hide :: start :: chunks ++ [finish]) Sample.withAssistant in
  idsOf (messages (hk_state Sample.withAssistant)) = ["m1"]
  ∧ idsOf (messages (hk_state hiddenFirst)) = ["m1"]
  ∧ idsOf (messages (hk_state streamedFirst)) = ["m1"]
  ∧ idsOf (messages (hk_state flushed)) = ["m1"; "m2"]
  ∧ "m2" ∈ hiddenMessageIdsRef hiddenFirst
  ∧ "m2" ∈ hiddenMessageIdsRef streamedFirst
  ∧ "m2" ∈ idsOf (messages (hk_state flushed)).
Proof.
  cbv zeta. do 4 (split; [vm_compute; reflexivity|]).
  pose proof (hidden_stream_is_dropped_at_text_end Sample.uuid
                (Sample.hideMessage "m2") (Sample.textStart "m2") (Sample.textEnd "m2")
                (Sample.twoChunks "m2") Sample.withAssistant) as Hhidden.
  cbv zeta in Hhidden.
  destruct Hhidden as (_ & _ & Hfirst & Hlast & Hflush).
  - reflexivity.
  - repeat (constructor; [reflexivity|]). constructor.
  - reflexivity.
  - reflexivity.
  - split; [exact Hfirst|]. split; [exact Hlast|].
    destruct (Hflush (Sample.runFinished "thread-1" "run-1")) as (_ & _ & Hshown).
    + reflexivity.
    + vm_compute. discriminate.
    + exact Hshown.
Defined.

(** X9 at a concrete run: the run finishes while [m2] is still
    streaming. *)
Lemma run_finished_flushes_streamed_text_witness :
  let h' := processEvents Sample.uuid
    (Sample.textStart "m2" :: Sample.twoChunks "m2"
     ++ [Sample.runFinished "thread-1" "run-1"])
    Sample.withAssistant in
  let msg := msg_set_timestamp (Some EmptyString)
               (mkMessage "m2" "assistant" (Some "hi there")) in
  messages (hk_state h') = messages (hk_state Sample.withAssistant) ++ [msg]
  ∧ currentMessage (hk_state h') = None
  ∧ status (hk_state h') = completed
  ∧ last (effects h') = Some (OnMessage msg)
  ∧ uuidCount h' = uuidCount Sample.withAssistant
  ∧ msg_timestamp msg = Some EmptyString.
Proof.
  apply (run_finished_flushes_streamed_text Sample.uuid
           (Sample.textStart "m2") (Sample.runFinished "thread-1" "run-1")
           (Sample.twoChunks "m2") Sample.withAssistant).
  - reflexivity.
  - repeat (constructor; [reflexivity|]). constructor.
  - reflexivity.
  - discriminate.
  - vm_compute. discriminate.
Defined.

(** X10 at concrete runs in a state with the assistant messages [a1] and
    [a2]: the tool call [t1] names no message and lands on [a2]; it names
    [a1] and lands on [a1]; it names the unknown [a9] and becomes a message
    of its own. *)
Lemma top_level_tool_call_is_committed_witness :
  let events pm :=
    toolStartEvent None "t1" "Read" pm None :: Sample.twoDeltas "t1"
    ++ [Sample.toolEnd "t1"] in
  let after pm := hk_state (processEvents Sample.uuid (events pm) Sample.twoAssistants) in
  let committed := completedToolCall "t1" "Read" "{path: 1}" None in
  idsOf (messages (hk_state Sample.twoAssistants)) = ["a1"; "a2"]
  ∧ toolCallsOf <$> messages (after None) = [[]; [committed]]
  ∧ toolCallsOf <$> messages (after (Some "a1")) = [[committed]; []]
  ∧ (λ m, (msg_id m, msg_role m, toolCallsOf m)) <$> messages (after (Some "a9"))
    = [("a1", "assistant", []); ("a2", "assistant", []); ("uuid-0", "tool", [committed])]
  ∧ (toolCallsOf <$> messages (after (Some "a1")) !! 0) = Some [committed]
  ∧ pendingToolCalls (after (Some "a1")) = []
  ∧ currentToolCall (after (Some "a1")) = None.
Proof.
  cbv zeta. do 4 (split; [vm_compute; reflexivity|]).
  pose proof (top_level_tool_call_is_committed Sample.uuid
                (toolStartEvent None "t1" "Read" (Some "a1") None) (Sample.toolEnd "t1")
                (Sample.twoDeltas "t1") Sample.twoAssistants) as Hcommit.
  cbv zeta in Hcommit.
  destruct Hcommit as (Hpending & Hcurrent & Htarget & _).
  - reflexivity.
  - repeat (constructor; [split; reflexivity|]). constructor.
  - reflexivity.
  - reflexivity.
  - discriminate.
  - split; [reflexivity|]. intros pm [= <-] _. split; [reflexivity|].
    intros tc Htc. vm_compute in Htc. list_cases Htc.
  - intros tc Htc. vm_compute in Htc. list_cases Htc.
  - destruct (Htarget 0 (Sample.assistantMessage "a1" "one")) as (_ & Hread & _).
    + reflexivity.
    + reflexivity.
    + intros i' m' Hlt Hm' Haim. vm_compute in Haim.
      destruct i' as [|[|i']]; [lia| |]; vm_compute in Hm'; [|discriminate Hm'].
      injection Hm' as <-. discriminate Haim.
    + split; [exact Hread|]. split; [exact Hpending|exact Hcurrent].
Defined.

(** X11 at a concrete run: the child [c1] of the committed tool call [t1]
    runs to its end. *)
Lemma child_of_committed_parent_is_nested_witness :
  let s := hk_state Sample.toolCompleted in
  let s' := hk_state (processEvents Sample.uuid
    (Sample.toolStart "c1" "Grep" (Some "t1") :: Sample.twoDeltas "c1"
     ++ [Sample.toolEnd "c1"])
    Sample.toolCompleted) in
  messages s'
  = [msg_set_toolCalls
       (Some [completedToolCall "t1" "Read" EmptyString None;
              completedToolCall "c1" "Grep" "{path: 1}" (Some "t1")])
       (Sample.assistantMessage "m1" "hi")]
  ∧ pendingToolCalls s' = JSMap.delete "c1" (pendingToolCalls s)
  ∧ pendingChildren s' = pendingChildren s
  ∧ currentToolCall s' = None.
Proof.
  apply (child_of_committed_parent_is_nested Sample.uuid
           (Sample.toolStart "c1" "Grep" (Some "t1")) (Sample.toolEnd "c1")
           (Sample.twoDeltas "c1") Sample.toolCompleted "t1" 0
           (msg_set_toolCalls (Some [completedToolCall "t1" "Read" EmptyString None])
              (Sample.assistantMessage "m1" "hi"))).
  - reflexivity.
  - repeat (constructor; [split; reflexivity|]). constructor.
  - reflexivity.
  - reflexivity.
  - discriminate.
  - reflexivity.
  - discriminate.
  - reflexivity.
  - intros tc Hin. vm_compute in Hin. list_cases Hin. discriminate.
  - reflexivity.
  - reflexivity.
Defined.

(** X12 at a concrete run: [isStreaming] while the tool call [t1] runs and
    after it ends. *)
Lemma tool_call_lifecycle_ends_streaming_witness :
  let start := Sample.toolStart "t1" "Read" None in
  let deltas := Sample.twoDeltas "t1" in
  isStreaming Sample.withAssistant = false
  ∧ isStreaming (processEvents Sample.uuid (start :: deltas) Sample.withAssistant) = true
  ∧ isStreaming (processEvents Sample.uuid (start :: deltas ++ [Sample.toolEnd "t1"])
                   Sample.withAssistant) = false.
Proof.
  cbv zeta. split; [reflexivity|].
  apply (tool_call_lifecycle_ends_streaming Sample.uuid).
  - reflexivity.
  - repeat (constructor; [split; reflexivity|]). constructor.
  - reflexivity.
  - reflexivity.
  - discriminate.
  - reflexivity.
Defined.


(** X14 at a concrete input: the step [plan] starts and finishes. *)
Lemma step_round_trip_witness :
  let started := Sample.stepStarted "plan" in
  let finished := Sample.stepFinished "plan" in
  let st := state (hk_state Sample.withAssistant) in
  let running := state (hk_state (processEvent Sample.uuid started Sample.withAssistant)) in
  let after :=
    state (hk_state (processEvents Sample.uuid [started; finished] Sample.withAssistant)) in
  JSMap.get "currentStep" running = Some (JStep "plan" "plan" "running")
  ∧ (∀ k, k ≠ "currentStep" → JSMap.get k running = JSMap.get k st)
  ∧ after = JSMap.delete "currentStep" st
  ∧ (JSMap.get "currentStep" st = None → after = st).
Proof.
  apply (step_round_trip Sample.uuid (Sample.stepStarted "plan") (Sample.stepFinished "plan")
           Sample.withAssistant); reflexivity.
Defined.

(** X15 at a concrete input: a delta that updates [a1] and removes the
    unknown [a3]; [a2] is not named. *)
Lemma activity_delta_touches_only_named_witness :
  let patches :=
    [{| ap_op := OpUpdate; ap_activity := Sample.activity "a1" "build (done)" |};
     {| ap_op := OpRemove; ap_activity := Sample.activity "a3" "deploy" |}] in
  let acts := activities (hk_state Sample.withActivities) in
  let acts' := activities
    (hk_state (processEvent Sample.uuid (Sample.activityDelta patches) Sample.withActivities)) in
  untouchedBy patches acts = [Sample.activity "a2" "test"]
  ∧ untouchedBy patches acts' = untouchedBy patches acts
  ∧ (Forall (λ p, ap_op p ≠ OpAdd ∧ act_id (ap_activity p) ∉ (act_id <$> acts)) patches →
     acts' = acts).
Proof.
  cbv zeta. split; [vm_compute; reflexivity|].
  apply (activity_delta_touches_only_named Sample.uuid); reflexivity.
Defined.

(** X17 at a concrete input: the first snapshot of a conversation. *)
Lemma first_snapshot_keeps_snapshot_order_witness :
  let e := Sample.messagesSnapshot
    [Sample.userMessage "u1" "hello"; Sample.assistantMessage "m1" "hi"] in
  let after := messages (hk_state (processEvent Sample.uuid e initialHook)) in
  idsOf after = ["u1"; "m1"]
  ∧ idsOf after `sublist_of` idsOf (ev_messages e)
  ∧ (∀ m', m' ∈ after →
       ∃ m, m ∈ ev_messages e ∧ sameHeader m m'
            ∧ msg_id m ∉ hiddenMessageIdsRef initialHook)
  ∧ (∀ m, m ∈ ev_messages e → msg_id m ∉ hiddenMessageIdsRef initialHook →
       msg_role m ≠ "tool" → ∃ m', m' ∈ after ∧ sameHeader m m').
Proof.
  cbv zeta. split; [vm_compute; reflexivity|].
  apply (first_snapshot_keeps_snapshot_order Sample.uuid).
  - reflexivity.
  - reflexivity.
  - vm_compute. repeat (constructor; [intros Hin; list_cases Hin; discriminate|]).
    constructor.
Defined.

(** X18 at a concrete input: a snapshot that lists a new message before
    the two known ones. *)
Lemma snapshot_never_drops_known_messages_witness :
  let e := Sample.newBeforeKnown in
  let before := messages (hk_state Sample.twoKnown) in
  let after := messages (hk_state (processEvent Sample.uuid e Sample.twoKnown)) in
  idsOf before = ["K"; "J"]
  ∧ (∀ m, m ∈ before → msg_role m ≠ "tool" →
       (∀ sv, sv ∈ ev_messages e → msg_id sv = msg_id m → msg_role sv ≠ "tool") →
       ∃ m', m' ∈ after ∧ msg_id m' = msg_id m
             ∧ (sameHeader m m'
                ∨ ∃ sv, sv ∈ ev_messages e ∧ msg_id sv = msg_id m
                        ∧ (msg_id sv ∉ hiddenMessageIdsRef Sample.twoKnown)
                        ∧ sameHeader sv m'))
  ∧ idsOf (List.filter (λ m, bool_decide (msg_id m ∈ idsOf before)) after)
    `sublist_of` idsOf before.
Proof.
  cbv zeta. split; [vm_compute; reflexivity|].
  apply (snapshot_never_drops_known_messages Sample.uuid). reflexivity.
Defined.

(** X19 at a concrete run: the channel fails after the component is
    unmounted, and the timer of an earlier attempt fires; then a send
    settles. *)
Lemma no_reconnect_timer_after_unmount_witness :
  let actions :=
    [TransportError (Sample.eventSource 0); TimerFired (Sample.timer 1 1000);
     Message (Sample.eventSource 0) (Some (Sample.textStart "m2"))] in
  let h' := run Sample.uuid Sample.sessionName actions Sample.unmounted in
  let settled :=
    step Sample.uuid Sample.sessionName h' (SendMessageSettled (RunOk (Some "run-1"))) in
  mountedRef h' = false
  ∧ delaysSince Sample.unmounted h' = []
  ∧ openedSources (effects Sample.unmounted) = [Sample.eventSource 0]
  ∧ openedSources (effects h') = openedSources (effects Sample.unmounted)
  ∧ openedSources (effects settled) = [Sample.eventSource 0; Sample.eventSource 1].
Proof.
  cbv zeta.
  pose proof (no_reconnect_timer_after_unmount Sample.uuid Sample.sessionName
    [TransportError (Sample.eventSource 0); TimerFired (Sample.timer 1 1000);
     Message (Sample.eventSource 0) (Some (Sample.textStart "m2"))]
    Sample.unmounted) as Hquiet.
  cbv zeta in Hquiet.
  destruct Hquiet as (Hflag & Hdelays & _ & Hsources & Hsend).
  - reflexivity.
  - repeat (constructor; [exact I|]). constructor.
  - split; [exact Hflag|]. split; [exact Hdelays|].
    split; [vm_compute; reflexivity|]. split.
    + apply Hsources. repeat (constructor; [intros []|]). constructor.
    + destruct (Hsend (Some "run-1")) as [_ Hopened]; [vm_compute; reflexivity|].
      rewrite Hopened. vm_compute. reflexivity.
Defined.

(** X21 at a concrete run: the first event source fails after the hook has
    reconnected, or disconnected. *)
Lemma stale_error_is_ignored_witness :
  let h := run Sample.uuid Sample.sessionName [Mount; Connect None] initialHook in
  let old := Sample.eventSource 0 in
  eventSourceRef h = Some old
  ∧ onerror old (connect None h) = emit (CloseEventSource 0) (connect None h)
  ∧ onerror old (disconnect h) = emit (CloseEventSource 0) (disconnect h).
Proof.
  cbv zeta. split; [reflexivity|].
  apply (stale_error_is_ignored Sample.uuid Sample.sessionName [Mount; Connect None]
           (Sample.eventSource 0) None).
  vm_compute. repeat first [apply list_elem_of_here | apply list_elem_of_further].
Defined.

(** X22 at the seventh attempt. *)
Lemma reconnect_delay_bounds_witness :
  (1000 ≤ reconnectDelay 7 ≤ 30000)%Z
  ∧ (reconnectDelay 7 ≤ reconnectDelay 8)%Z
  ∧ reconnectDelay 7 = 30000%Z.
Proof.
  destruct (reconnect_delay_bounds 7 ltac:(lia)) as (Hrange & Hnext & Hmax).
  split; [exact Hrange|]. split; [exact Hnext|]. apply Hmax. lia.
Defined.

(** X23 at a concrete run: the run [run-1] starts and a message begins to
    stream. *)
Lemma interrupt_targets_the_active_run_witness :
  let started := Sample.runStarted "thread-1" "run-1" in
  let h1 := processEvents Sample.uuid
    (started :: Sample.textStart "m2" :: Sample.twoChunks "m2") Sample.withAssistant in
  let idle h2 :=
    isRunActive h2 = false
    ∧ requests (effects (interrupt h2)) = requests (effects h2) in
  let active h2 :=
    isRunActive h2 = true
    ∧ interrupt h2 = emit (FetchInterrupt "run-1") h2 in
  active h1
  ∧ (∀ e, ev_type e = EventType.RUN_FINISHED →
       if bool_decide (ev_runId e = "run-1")
       then idle (processEvent Sample.uuid e h1)
       else active (processEvent Sample.uuid e h1))
  ∧ (∀ e, ev_type e = EventType.RUN_ERROR → idle (processEvent Sample.uuid e h1))
  ∧ idle (interruptSettled true h1)
  ∧ active (interruptSettled false h1).
Proof.
  apply (interrupt_targets_the_active_run Sample.uuid
           (Sample.runStarted "thread-1" "run-1")
           (Sample.textStart "m2" :: Sample.twoChunks "m2") Sample.withAssistant).
  - reflexivity.
  - discriminate.
  - repeat (constructor; [intros [H|[H|H]]; discriminate H|]). constructor.
Defined.

(** X25 at a concrete input: the backend echoes the user message [u7],
    twice. *)
Lemma user_echo_is_added_once_witness :
  let e := Sample.echo "u7" "hello" in
  let h1 := processEvent Sample.uuid e Sample.withAssistant in
  idsOf (messages (hk_state h1)) = ["m1"; "u7"]
  ∧ hk_state (processEvent Sample.uuid e h1) = hk_state h1.
Proof.
  cbv zeta. split; [vm_compute; reflexivity|].
  assert (Hecho : userEcho "u7" "hello" (Sample.echo "u7" "hello")).
  { split; [reflexivity|]. eexists. do 4 (split; [reflexivity|]). reflexivity. }
  assert (Hid : "u7" ≠ EmptyString) by discriminate.
  assert (Htext : "hello" ≠ EmptyString) by discriminate.
  pose proof (user_echo_is_added_once Sample.uuid Sample.sessionName "u7" "hello"
                (Sample.echo "u7" "hello") Sample.withAssistant Hecho Hid Htext) as Honce.
  cbv zeta in Honce. destruct Honce as (_ & _ & Hidem & _). exact Hidem.
Defined.
